(** * Attendance-sheet ingestion and reconciliation: a shallow embedding

    This development embeds the ingestion path of [routes/attendance.js]
    (the division-sheet upload, its batch-info parser, the defaulter
    classifier) and the periodic allocation sync of
    [workers/allocationSyncWorker.js], and states the properties of the
    specification over that embedding.

    Conventions of the embedding:
    - a JavaScript string is a [string] read as a sequence of 8-bit code
      units (the Latin-1 range);
    - a JavaScript number is a [num]: [NaN], the two infinities, or a finite
      value held as an exact rational.  Arithmetic on finite values is exact:
      the rounding of IEEE doubles, overflow to infinity and the sign of zero
      are not modelled;
    - case mapping ([toUpperCase], [toLowerCase]) acts on the ASCII letters;
    - MongoDB collections are lists of documents in insertion order;
    - JavaScript objects used as maps with integer-like keys ([subjectMap])
      are association lists in ascending key order, those with other string
      keys are association lists in insertion order, which is the order
      [Object.entries] walks them in. *)

From Stdlib Require Import QArith Qround Qabs Lqa.
From stdpp Require Import base option list strings gmap.
From Stdlib Require Import Ascii String.

#[local] Open Scope string_scope.
#[local] Open Scope list_scope.

(** ** JavaScript numbers *)

Module JS.
#[local] Open Scope Q_scope.

Inductive num : Type :=
  | NaN
  | Fin (q : Q)
  | PInf
  | NInf.

Definition ofZ (z : Z) : num := Fin (inject_Z z).
Definition ofN (n : N) : num := ofZ (Z.of_N n).

Definition isNaN (x : num) : bool :=
  match x with NaN => true | _ => false end.

Definition Qltb (a b : Q) : bool :=
  match Qcompare a b with Lt => true | _ => false end.

(** [a < b]; every comparison with [NaN] is false. *)
Definition ltb (a b : num) : bool :=
  match a, b with
  | NaN, _ | _, NaN => false
  | Fin x, Fin y => Qltb x y
  | NInf, Fin _ | NInf, PInf | Fin _, PInf => true
  | _, _ => false
  end.

(** [a <= b]. *)
Definition leb (a b : num) : bool :=
  match a, b with
  | NaN, _ | _, NaN => false
  | Fin x, Fin y => Qle_bool x y
  | NInf, _ | _, PInf => true
  | _, _ => false
  end.

Definition gtb (a b : num) : bool := ltb b a.
Definition geb (a b : num) : bool := leb b a.

(** [a === b] on numbers. *)
Definition eqb (a b : num) : bool :=
  match a, b with
  | Fin x, Fin y => Qeq_bool x y
  | PInf, PInf | NInf, NInf => true
  | _, _ => false
  end.

(** Truthiness of a number: everything but [0] and [NaN]. *)
Definition truthy (x : num) : bool :=
  match x with
  | NaN => false
  | Fin q => negb (Qeq_bool q 0)
  | _ => true
  end.

(** [x || d] on numbers. *)
Definition or_else (x d : num) : num := if truthy x then x else d.

Definition add (a b : num) : num :=
  match a, b with
  | NaN, _ | _, NaN => NaN
  | Fin x, Fin y => Fin (Qred (x + y))
  | PInf, NInf | NInf, PInf => NaN
  | PInf, _ | _, PInf => PInf
  | NInf, _ | _, NInf => NInf
  end.

(** The sign of a value that is not [NaN]; zero counts as positive. *)
Definition nonneg (x : num) : bool :=
  match x with
  | Fin q => Qle_bool 0 q
  | PInf => true
  | _ => false
  end.

Definition signed_inf (positive : bool) : num :=
  if positive then PInf else NInf.

Definition is_zero (x : num) : bool :=
  match x with Fin q => Qeq_bool q 0 | _ => false end.

Definition is_inf (x : num) : bool :=
  match x with PInf | NInf => true | _ => false end.

Definition mul (a b : num) : num :=
  match a, b with
  | NaN, _ | _, NaN => NaN
  | Fin x, Fin y => Fin (Qred (x * y))
  | _, _ =>
      if is_zero a || is_zero b then NaN
      else signed_inf (Bool.eqb (nonneg a) (nonneg b))
  end.

Definition div (a b : num) : num :=
  match a, b with
  | NaN, _ | _, NaN => NaN
  | Fin x, Fin y =>
      if Qeq_bool y 0
      then (if Qeq_bool x 0 then NaN else signed_inf (Qle_bool 0 x))
      else Fin (Qred (x / y))
  | Fin _, _ => Fin 0
  | _, Fin _ => signed_inf (Bool.eqb (nonneg a) (nonneg b))
  | _, _ => NaN
  end.

(** [Math.round]: the nearest integer, ties towards plus infinity. *)
Definition round (x : num) : num :=
  match x with
  | Fin q => ofZ (Qfloor (q + (1 # 2)))
  | _ => x
  end.

(** [Math.ceil]. *)
Definition ceil (x : num) : num :=
  match x with
  | Fin q => ofZ (Qceiling q)
  | _ => x
  end.

(** [Math.max] of two numbers. *)
Definition max (a b : num) : num :=
  match a, b with
  | NaN, _ | _, NaN => NaN
  | _, _ => if leb a b then b else a
  end.

(** [parseFloat(x.toFixed(2))] on the values the reports print: two
    decimals, ties away from zero. *)
Definition toFixed2 (x : num) : num :=
  match x with
  | Fin q =>
      let scaled := Qabs q * 100 + (1 # 2) in
      let n := Qfloor scaled in
      Fin (Qred ((if Qle_bool 0 q then inject_Z n else - inject_Z n) / 100))
  | _ => x
  end.

(** Values that [Math.round] leaves alone. *)
Definition integral (x : num) : Prop :=
  match x with
  | Fin q => exists z : Z, q = inject_Z z
  | _ => True
  end.

End JS.

(** ** JavaScript strings *)

Module Str.

Definition chars (s : string) : list ascii := list_ascii_of_string s.
Definition ofChars (l : list ascii) : string := string_of_list_ascii l.

Definition code (c : ascii) : nat := nat_of_ascii c.

Definition between (lo hi n : nat) : bool := Nat.leb lo n && Nat.leb n hi.

(** The class [\s] (and the characters [trim] strips) below code 256. *)
Definition is_space (c : ascii) : bool :=
  let n := code c in
  between 9 13 n || Nat.eqb n 32 || Nat.eqb n 160.

(** The class [\d]. *)
Definition is_digit (c : ascii) : bool :=
  let n := code c in between 48 57 n.

Definition digit_val (c : ascii) : N := N.of_nat (code c - 48).

Definition upper (c : ascii) : ascii :=
  let n := code c in
  if between 97 122 n then ascii_of_nat (n - 32) else c.

Definition lower (c : ascii) : ascii :=
  let n := code c in
  if between 65 90 n then ascii_of_nat (n + 32) else c.

Definition toUpperCase (s : string) : string := ofChars (map upper (chars s)).
Definition toLowerCase (s : string) : string := ofChars (map lower (chars s)).

(** Length of the longest prefix whose characters satisfy [p]. *)
Fixpoint run (p : ascii -> bool) (s : list ascii) : nat :=
  match s with
  | c :: r => if p c then S (run p r) else 0
  | [] => 0
  end.

Definition trimStart (s : list ascii) : list ascii := drop (run is_space s) s.
Definition trimEnd (s : list ascii) : list ascii := rev (trimStart (rev s)).
Definition trimChars (s : list ascii) : list ascii := trimEnd (trimStart s).
Definition trim (s : string) : string := ofChars (trimChars (chars s)).

(** Decimal value of a run of digits. *)
Definition digits_val (ds : list ascii) : N :=
  fold_left (fun acc c => (acc * 10 + digit_val c)%N) ds 0%N.

Fixpoint starts_with (p s : list ascii) : bool :=
  match p, s with
  | [], _ => true
  | a :: p', b :: s' => if Ascii.eqb a b then starts_with p' s' else false
  | _ :: _, [] => false
  end.

Fixpoint includes_chars (p s : list ascii) : bool :=
  starts_with p s ||
  match s with
  | _ :: r => includes_chars p r
  | [] => false
  end.

(** [s.includes(p)]. *)
Definition includes (s p : string) : bool :=
  includes_chars (chars p) (chars s).

Definition is_empty (s : string) : bool :=
  match s with EmptyString => true | _ => false end.

End Str.

(** ** [parseFloat] *)

Module ParseFloat.
Import Str.
#[local] Open Scope Q_scope.

Definition sign_of (s : list ascii) : bool * list ascii :=
  match s with
  | "+"%char :: r => (false, r)
  | "-"%char :: r => (true, r)
  | _ => (false, s)
  end.

(** An exponent part [e[+-]ddd] at the head of [s], when there is one. *)
Definition exponent (s : list ascii) : Z :=
  match s with
  | c :: r =>
      if Ascii.eqb c "e" || Ascii.eqb c "E" then
        let '(neg, r') := sign_of r in
        let ds := take (run is_digit r') r' in
        match ds with
        | [] => 0%Z
        | _ => let e := Z.of_N (digits_val ds) in if neg then (- e)%Z else e
        end
      else 0%Z
  | [] => 0%Z
  end.

Definition pow10 (e : Z) : Q :=
  match e with
  | Z0 => 1
  | Zpos p => inject_Z (10 ^ Zpos p)
  | Zneg p => 1 / inject_Z (10 ^ Zpos p)
  end.

(** [parseFloat(s)]: leading white space is skipped and the longest prefix
    that is a decimal literal is read; [NaN] when there is none. *)
Definition parseFloat (s : string) : JS.num :=
  let '(neg, body) := sign_of (trimStart (chars s)) in
  if starts_with (chars "Infinity") body then JS.signed_inf (negb neg)
  else
    let ints := take (run is_digit body) body in
    let r1 := drop (run is_digit body) body in
    let '(fracs, r2) :=
      match r1 with
      | "."%char :: t => (take (run is_digit t) t, drop (run is_digit t) t)
      | _ => ([], r1)
      end in
    match ints, fracs with
    | [], [] => JS.NaN
    | _, _ =>
        let mant :=
          inject_Z (Z.of_N (digits_val ints)) +
          inject_Z (Z.of_N (digits_val fracs)) / pow10 (Z.of_nat (List.length fracs)) in
        let v := Qred (mant * pow10 (exponent r2)) in
        JS.Fin (if neg then Qred (- v) else v)
    end.

End ParseFloat.

(** ** The batch-info parser: [parseBatchInfo] *)

Module BatchInfo.
Import Str.

(** [.replace(/\s+/g, ' ')]: each maximal run of white space becomes one
    space.  [in_run] says that the previous character was white space. *)
Fixpoint collapse_ws (in_run : bool) (s : list ascii) : list ascii :=
  match s with
  | [] => []
  | c :: r =>
      if is_space c
      then (if in_run then collapse_ws true r else " "%char :: collapse_ws true r)
      else c :: collapse_ws false r
  end.

(** Length of a match of [/\s*,\s*/] at the head of [s]. *)
Definition comma_match (s : list ascii) : option nat :=
  let n := run is_space s in
  match drop n s with
  | ","%char :: t => Some (n + 1 + run is_space t)
  | _ => None
  end.

(** [.replace(/\s*,\s*/g, ' ')].  [skip] counts the characters of the
    current match that are still to be consumed. *)
Fixpoint replace_commas (skip : nat) (s : list ascii) : list ascii :=
  match s with
  | [] => []
  | c :: r =>
      match skip with
      | S k => replace_commas k r
      | O =>
          match comma_match s with
          | Some len => " "%char :: replace_commas (len - 1) r
          | None => c :: replace_commas 0 r
          end
      end
  end.

Definition normalize (text : string) : list ascii :=
  trimChars (replace_commas 0 (collapse_ws false (chars text))).

(** The class [[A-D]] under the [i] flag. *)
Definition is_batch_letter (c : ascii) : bool :=
  let n := code (upper c) in between 65 68 n.

Definition is_sep (c : ascii) : bool :=
  Ascii.eqb c "=" || Ascii.eqb c ":".

(** A match of [/([A-D])\s*[=:]\s*(\d+)/i] at the head of [s]: the letter,
    the digits and the length of the match. *)
Definition batch_match (s : list ascii) : option (ascii * list ascii * nat) :=
  match s with
  | c :: r =>
      if is_batch_letter c then
        let n1 := run is_space r in
        match drop n1 r with
        | sep :: r2 =>
            if is_sep sep then
              let n2 := run is_space r2 in
              let ds := take (run is_digit (drop n2 r2)) (drop n2 r2) in
              match ds with
              | [] => None
              | _ => Some (c, ds, 1 + n1 + 1 + n2 + List.length ds)
              end
            else None
        | [] => None
        end
      else None
  | [] => None
  end.

(** The [while ((match = batchPattern.exec(normalized)) !== null)] loop:
    the pattern is tried at each position from [lastIndex] on, and a match
    moves [lastIndex] behind itself. *)
Fixpoint exec_loop (skip : nat) (s : list ascii) (batchInfo : gmap string N)
  : gmap string N :=
  match s with
  | [] => batchInfo
  | c :: r =>
      match skip with
      | S k => exec_loop k r batchInfo
      | O =>
          match batch_match s with
          | Some (l, ds, len) =>
              let batch := ofChars [upper l] in
              let value := digits_val ds in
              exec_loop (len - 1) r (<[batch := value]> batchInfo)
          | None => exec_loop 0 r batchInfo
          end
      end
  end.

Definition parseBatchInfo (text : string) : gmap string N :=
  if is_empty text then ∅
  else exec_loop 0 (normalize text) ∅.

(** What it means for a text to hold the pattern "letter A-D, optional
    white space, [=] or [:], optional white space, digits" somewhere. *)
Definition pattern_at (s : list ascii) : Prop :=
  ∃ c ws1 sep ws2 ds rest,
    s = c :: ws1 ++ sep :: ws2 ++ ds ++ rest ∧
    is_batch_letter c = true ∧
    forallb is_space ws1 = true ∧
    is_sep sep = true ∧
    forallb is_space ws2 = true ∧
    ds ≠ [] ∧ forallb is_digit ds = true.

Definition contains_pattern (s : list ascii) : Prop :=
  ∃ pre suf, s = pre ++ suf ∧ pattern_at suf.

(** The suffixes of a text, the places where an occurrence can start. *)
Fixpoint suffixes (s : list ascii) : list (list ascii) :=
  s :: match s with
       | [] => []
       | _ :: r => suffixes r
       end.

End BatchInfo.

(** ** The stored entities *)

Module Db.

Definition ObjectId := nat.

Inductive Kind : Type := Theory | Practical.

Definition kind_eqb (a b : Kind) : bool :=
  match a, b with
  | Theory, Theory | Practical, Practical => true
  | _, _ => false
  end.

(** A field of a document that may be missing, [null] or a string. *)
Inductive Field : Type :=
  | Absent
  | Null
  | Val (s : string).

Definition opt_field (o : option string) : Field :=
  match o with Some s => Val s | None => Null end.

Definition opt_string_eqb (a b : option string) : bool :=
  match a, b with
  | Some x, Some y => String.eqb x y
  | None, None => true
  | _, _ => false
  end.

(** The [Attendance] model: one summary per student, subject and kind. *)
Record Attendance : Type := {
  att_id : ObjectId;
  att_studentId : ObjectId;
  att_subjectId : ObjectId;
  att_type : Kind;
  totalConducted : JS.num;
  totalAttended : JS.num;
  percentage : JS.num;
  period : Field;
  att_division : option string;
  att_batch : option string;
  recordedBy : ObjectId;
  updatedAt : nat
}.

(** Modelled from the spec: the [Student] schema, whose file is not among
    the sources; the fields are those the routes read and write (the spec
    identifies a student row by its UID and groups students by division
    and batch). *)
Record Student : Type := {
  stu_id : ObjectId;
  studentId : string;
  stu_name : string;
  stu_email : string;
  stu_division : option string;
  stu_batch : option string;
  departmentId : option ObjectId;
  semesterId : option ObjectId;
  attedanceRecord : list ObjectId
}.

(** Modelled from the spec: the [Subject] schema, whose file is not among
    the sources: the spec's canonical subject, with id, name and code. *)
Record Subject : Type := {
  sub_id : ObjectId;
  sub_name : string;
  sub_code : string
}.

(** Modelled from the spec: the [Allocation] schema, whose file is not
    among the sources: subject, kind, division, batch, planned and
    conducted totals and the set of students, and the teacher the routes
    select allocations by. *)
Record Allocation : Type := {
  alloc_id : ObjectId;
  alloc_subjectId : ObjectId;
  alloc_teacherId : ObjectId;
  alloc_type : Kind;
  alloc_division : option string;
  alloc_batch : option string;
  totalPlanned : N;
  alloc_totalConducted : N;
  alloc_students : list ObjectId
}.

(** The database together with the two sources of fresh values the upload
    draws on: new object ids and the clock behind [new Date()]. *)
Record World : Type := {
  attendances : list Attendance;
  students : list Student;
  subjects : list Subject;
  allocations : list Allocation;
  nextId : ObjectId;
  clock : nat
}.

(** [array.find(p)] *)
Fixpoint find_first {A : Type} (p : A -> bool) (l : list A) : option A :=
  match l with
  | [] => None
  | x :: r => if p x then Some x else find_first p r
  end.

(** Update of the first document a query matches, as [findOneAndUpdate] and
    [updateOne] do; [None] when no document matches. *)
Fixpoint update_first {A : Type} (p : A -> bool) (f : A -> A) (l : list A)
  : option (list A) :=
  match l with
  | [] => None
  | x :: r =>
      if p x then Some (f x :: r)
      else match update_first p f r with
           | Some r' => Some (x :: r')
           | None => None
           end
  end.

(** [$addToSet] of one value. *)
Definition addToSet (x : ObjectId) (l : list ObjectId) : list ObjectId :=
  if existsb (Nat.eqb x) l then l else l ++ [x].

(** [$addToSet] with [$each]. *)
Definition addEachToSet (xs l : list ObjectId) : list ObjectId :=
  fold_left (fun acc x => addToSet x acc) xs l.

End Db.

(** ** The division-sheet upload: [processDivisionSheet] *)

Module Upload.
Import Db.

(** A subject column found by the layout inference. *)
Record SheetSubject : Type := {
  name : string;
  type : Kind;
  sheetTotal : option N;
  sheetBatchInfo : option (gmap string N);
  attendedCol : nat;
  percentageCol : option nat
}.

(** A value of [subjectMap]. *)
Record SubjectInfo : Type := {
  subjectId : ObjectId;
  subjectName : string;
  si_type : Kind;
  totalLectures : option N;
  batchInfo : option (gmap string N)
}.

(** What [Student.find({ division }).select('_id studentId name batch division')]
    returns for one student. *)
Record StudentView : Type := {
  sv_id : ObjectId;
  sv_studentId : string;
  sv_name : string;
  sv_batch : option string;
  sv_division : option string
}.

Definition view (s : Student) : StudentView :=
  {| sv_id := stu_id s; sv_studentId := studentId s; sv_name := stu_name s;
     sv_batch := stu_batch s; sv_division := stu_division s |}.

Definition studentsOfDivision (division : string) (w : World) : list StudentView :=
  map view (filter (fun s => opt_string_eqb (stu_division s) (Some division) = true)
                   (students w)).

(** *** The subject resolver *)

Definition resolve (allDbSubjects : list Subject) (sheetSubject : SheetSubject)
  : option Subject :=
  let nm := Str.toUpperCase (name sheetSubject) in
  match find_first (fun s => String.eqb (Str.toUpperCase (sub_code s)) nm)
                   allDbSubjects with
  | Some s => Some s
  | None =>
      match find_first (fun s => Str.includes (Str.toUpperCase (sub_name s)) nm
                                 || Str.includes nm (Str.toUpperCase (sub_name s)))
                       allDbSubjects with
      | Some s => Some s
      | None =>
          find_first (fun s => Str.includes (Str.toUpperCase (sub_code s)) nm
                               || Str.includes nm (Str.toUpperCase (sub_code s)))
                     allDbSubjects
      end
  end.

(** [subjectMap[col] = info]: the keys are column numbers, so the object
    keeps them in ascending order and an existing key keeps its place. *)
Fixpoint setCol (col : nat) (info : SubjectInfo) (m : list (nat * SubjectInfo))
  : list (nat * SubjectInfo) :=
  match m with
  | [] => [(col, info)]
  | (c, i) :: r =>
      if Nat.eqb col c then (col, info) :: r
      else if Nat.ltb col c then (col, info) :: (c, i) :: r
      else (c, i) :: setCol col info r
  end.

(** The loop over the sheet's subjects: the map of matched columns and the
    list of unmatched subjects. *)
Fixpoint mapSubjects (allDbSubjects : list Subject) (sheet : list SheetSubject)
    (subjectMap : list (nat * SubjectInfo)) (unmatched : list SheetSubject)
  : list (nat * SubjectInfo) * list SheetSubject :=
  match sheet with
  | [] => (subjectMap, unmatched)
  | sheetSubject :: rest =>
      match resolve allDbSubjects sheetSubject with
      | None => mapSubjects allDbSubjects rest subjectMap (unmatched ++ [sheetSubject])
      | Some dbSubject =>
          let info :=
            {| subjectId := sub_id dbSubject;
               subjectName := sub_name dbSubject;
               si_type := type sheetSubject;
               totalLectures := sheetTotal sheetSubject;
               batchInfo := sheetBatchInfo sheetSubject |} in
          mapSubjects allDbSubjects rest
            (setCol (attendedCol sheetSubject) info subjectMap) unmatched
      end
  end.

(** *** The summary written for one cell *)

(** [parseFloat(row[col] || 0)]: a missing or empty cell reads as [0]. *)
Definition cellNumber (row : list string) (col : nat) : JS.num :=
  match row !! col with
  | Some s => if Str.is_empty s then JS.Fin 0 else ParseFloat.parseFloat s
  | None => JS.Fin 0
  end.

(** [batchInfo && batchInfo[batch]] when it is truthy.  A student without a
    batch indexes the object with a key it never holds. *)
Definition batchTotal (bi : option (gmap string N)) (batch : option string)
  : option N :=
  match bi, batch with
  | Some m, Some b =>
      match m !! b with
      | Some n => if N.eqb n 0 then None else Some n
      | None => None
      end
  | _, _ => None
  end.

(** [let totalClasses = subjectInfo.totalLectures; if (!totalClasses ||
    totalClasses === 0) { ... }]: the sheet's total, or the total derived
    from the percentage cell or from the attended value alone. *)
Definition derivedTotal (lectures : option N) (attendedValue percentageValue : JS.num)
  : JS.num :=
  let derived :=
    if JS.gtb percentageValue (JS.Fin 0)
    then JS.round (JS.mul (JS.div attendedValue percentageValue) (JS.Fin 100))
    else JS.round attendedValue in
  match lectures with
  | Some n => if N.eqb n 0 then derived else JS.ofN n
  | None => derived
  end.

(** The total after [if (!totalClasses || totalClasses < attendedValue)],
    lines 1072-1075. *)
Definition totalClassesOf (lectures : option N) (attendedValue percentageValue : JS.num)
  : JS.num :=
  let totalClasses := derivedTotal lectures attendedValue percentageValue in
  if negb (JS.truthy totalClasses) || JS.ltb totalClasses attendedValue
  then JS.max (JS.round attendedValue) (JS.ceil (JS.mul attendedValue (JS.Fin (12 # 10))))
  else totalClasses.

Definition finalPercentageOf (totalClasses attendedValue percentageValue : JS.num)
  : JS.num :=
  let calculatedPercentage :=
    if JS.gtb totalClasses (JS.Fin 0)
    then JS.mul (JS.div attendedValue totalClasses) (JS.Fin 100)
    else JS.Fin 0 in
  if JS.gtb percentageValue (JS.Fin 0) then percentageValue else calculatedPercentage.

(** The [$set] document of the upsert. *)
Record SummarySet : Type := {
  set_totalConducted : JS.num;
  set_totalAttended : JS.num;
  set_percentage : JS.num;
  set_period : option string;
  set_division : string;
  set_batch : option string;
  set_recordedBy : ObjectId;
  set_updatedAt : nat
}.

(** The query of the upsert: student, subject, kind and period. *)
Record SummaryQuery : Type := {
  q_studentId : ObjectId;
  q_subjectId : ObjectId;
  q_type : Kind;
  q_period : option string
}.

(** [{ period: p }], or [{ $or: [{ period: null }, { period: { $exists: false } }] }]
    when the sheet has no period. *)
Definition periodMatches (p : option string) (f : Field) : bool :=
  match p with
  | Some s => match f with Val s' => String.eqb s s' | _ => false end
  | None =>
      (match f with Null | Absent => true | Val _ => false end)
      || (match f with Absent => true | _ => false end)
  end.

Definition matches (q : SummaryQuery) (r : Attendance) : bool :=
  Nat.eqb (att_studentId r) (q_studentId q)
  && Nat.eqb (att_subjectId r) (q_subjectId q)
  && kind_eqb (att_type r) (q_type q)
  && periodMatches (q_period q) (period r).

Definition applySet (u : SummarySet) (r : Attendance) : Attendance :=
  {| att_id := att_id r;
     att_studentId := att_studentId r;
     att_subjectId := att_subjectId r;
     att_type := att_type r;
     totalConducted := set_totalConducted u;
     totalAttended := set_totalAttended u;
     percentage := set_percentage u;
     period := opt_field (set_period u);
     att_division := Some (set_division u);
     att_batch := set_batch u;
     recordedBy := set_recordedBy u;
     updatedAt := set_updatedAt u |}.

(** The document an upsert inserts: the equality fields of the query and
    the [$set] fields. *)
Definition inserted (id : ObjectId) (q : SummaryQuery) (u : SummarySet) : Attendance :=
  {| att_id := id;
     att_studentId := q_studentId q;
     att_subjectId := q_subjectId q;
     att_type := q_type q;
     totalConducted := set_totalConducted u;
     totalAttended := set_totalAttended u;
     percentage := set_percentage u;
     period := opt_field (set_period u);
     att_division := Some (set_division u);
     att_batch := set_batch u;
     recordedBy := set_recordedBy u;
     updatedAt := set_updatedAt u |}.

(** [Attendance.findOneAndUpdate(query, { $set }, { upsert: true, new: true })]:
    the new collection, the id of the returned document and the next free id. *)
Definition findOneAndUpsert (q : SummaryQuery) (u : SummarySet)
    (coll : list Attendance) (fresh : ObjectId)
  : list Attendance * ObjectId * ObjectId :=
  match find_first (matches q) coll, update_first (matches q) (applySet u) coll with
  | Some r, Some coll' => (coll', att_id r, fresh)
  | _, _ => (coll ++ [inserted fresh q u], fresh, S fresh)
  end.

(** [Student.findByIdAndUpdate(id, { $addToSet: { attedanceRecord: rec } })] *)
Definition linkRecord (id rec : ObjectId) (coll : list Student) : list Student :=
  match update_first (fun s => Nat.eqb (stu_id s) id)
          (fun s => {| stu_id := stu_id s; studentId := studentId s;
                       stu_name := stu_name s; stu_email := stu_email s;
                       stu_division := stu_division s; stu_batch := stu_batch s;
                       departmentId := departmentId s; semesterId := semesterId s;
                       attedanceRecord := addToSet rec (attedanceRecord s) |})
          coll with
  | Some coll' => coll'
  | None => coll
  end.

(** *** The period of the sheet *)

(** The pieces the two period patterns are made of: [n] characters of a
    class, a literal character (letters match in either case), and [\s+]. *)
Inductive Atom : Type :=
  | Class (p : ascii -> bool) (n : nat)
  | Lit (c : ascii)
  | Spaces.

Definition is_letter (c : ascii) : bool :=
  Str.between 65 90 (Str.code (Str.upper c)).

(** The text a sequence of atoms matches at the head of [s].  No atom can
    give back characters to the next one: white space is always followed
    by a letter. *)
Fixpoint matchAtoms (atoms : list Atom) (s : list ascii) : option (list ascii) :=
  match atoms with
  | [] => Some []
  | Class p n :: rest =>
      if Nat.leb n (Str.run p (take n s)) then
        match matchAtoms rest (drop n s) with
        | Some m => Some (take n s ++ m)
        | None => None
        end
      else None
  | Lit c :: rest =>
      match s with
      | a :: r =>
          if Ascii.eqb (Str.upper a) (Str.upper c) then
            match matchAtoms rest r with
            | Some m => Some (a :: m)
            | None => None
            end
          else None
      | [] => None
      end
  | Spaces :: rest =>
      let n := Str.run Str.is_space s in
      match n with
      | O => None
      | _ =>
          match matchAtoms rest (drop n s) with
          | Some m => Some (take n s ++ m)
          | None => None
          end
      end
  end.

(** [text.match(pattern)]: the leftmost match. *)
Fixpoint searchAtoms (atoms : list Atom) (s : list ascii) : option (list ascii) :=
  match matchAtoms atoms s with
  | Some m => Some m
  | None =>
      match s with
      | _ :: r => searchAtoms atoms r
      | [] => None
      end
  end.

(** [/([A-Za-z]{3}-\d{2}\s+to\s+[A-Za-z]{3}-\d{2})/i] *)
Definition monthRange : list Atom :=
  [Class is_letter 3; Lit "-"; Class Str.is_digit 2; Spaces; Lit "t"; Lit "o"; Spaces;
   Class is_letter 3; Lit "-"; Class Str.is_digit 2].

(** [/(\d{4}-\d{2}\s+to\s+\d{4}-\d{2})/i] *)
Definition yearMonthRange : list Atom :=
  [Class Str.is_digit 4; Lit "-"; Class Str.is_digit 2; Spaces; Lit "t"; Lit "o"; Spaces;
   Class Str.is_digit 4; Lit "-"; Class Str.is_digit 2].

(** [row.join(' ')] *)
Fixpoint joinCells (row : list string) : list ascii :=
  match row with
  | [] => []
  | [c] => Str.chars c
  | c :: rest => Str.chars c ++ " "%char :: joinCells rest
  end.

(** The period of lines 1081-1090: read from the first row of the sheet,
    [null] when neither pattern occurs in it. *)
Definition periodOf (sheetData : list (list string)) : option string :=
  match sheetData with
  | [] => None
  | first :: _ =>
      let periodRow := joinCells first in
      match searchAtoms monthRange periodRow with
      | Some m => Some (Str.ofChars m)
      | None =>
          match searchAtoms yearMonthRange periodRow with
          | Some m => Some (Str.ofChars m)
          | None => None
          end
      end
  end.

(** *** The accumulation maps of the allocation reconciler *)

(** The key [`${subjectId}_${type}_${division}_${batchKey}`].  The first
    three parts hold no underscore, so the string determines the four
    parts and the key is kept as a tuple. *)
Definition AllocKey : Type := ObjectId * Kind * string * string.

Definition key_eqb (a b : AllocKey) : bool :=
  let '(s1, k1, d1, b1) := a in
  let '(s2, k2, d2, b2) := b in
  Nat.eqb s1 s2 && kind_eqb k1 k2 && String.eqb d1 d2 && String.eqb b1 b2.

Record AllocUpdate : Type := {
  au_subjectId : ObjectId;
  au_type : Kind;
  au_division : string;
  au_batch : option string;
  au_totalPlanned : N;
  au_totalConducted : N
}.

Record AllocStudents : Type := {
  as_subjectId : ObjectId;
  as_type : Kind;
  as_division : string;
  as_batch : option string;
  as_students : list ObjectId
}.

(** [obj[key] = obj[key] ? upd(obj[key]) : ins], keeping insertion order. *)
Fixpoint setKey {V : Type} (k : AllocKey) (ins : V) (upd : V -> V)
    (m : list (AllocKey * V)) : list (AllocKey * V) :=
  match m with
  | [] => [(k, ins)]
  | (k', v) :: r =>
      if key_eqb k k' then (k', upd v) :: r else (k', v) :: setKey k ins upd r
  end.

Fixpoint getKey {V : Type} (k : AllocKey) (m : list (AllocKey * V)) : option V :=
  match m with
  | [] => None
  | (k', v) :: r => if key_eqb k k' then Some v else getKey k r
  end.

(** *** The loop over rows and subject columns *)

Record RowError : Type := {
  err_row : nat;
  err_studentId : string
}.

Record Ctx : Type := {
  division : string;
  teacherId : ObjectId;
  uidCol : nat;
  sheetPeriod : option string;
  divisionStudents : list StudentView
}.

(** The variables the loop updates, the database among them. *)
Record Loop : Type := {
  world : World;
  allocationUpdates : list (AllocKey * AllocUpdate);
  allocationStudents : list (AllocKey * AllocStudents);
  recordsCreated : nat;
  errors : list RowError;
  studentsFound : nat;
  studentsNotFound : nat
}.

(** The [$set] document and the query for one cell, lines 1062-1127. *)
Definition summaryFor (ctx : Ctx) (student : StudentView) (info : SubjectInfo)
    (attendedValue percentageValue : JS.num) (now : nat) : SummaryQuery * SummarySet :=
  let totalClasses := totalClassesOf (totalLectures info) attendedValue percentageValue in
  let finalPercentage := finalPercentageOf totalClasses attendedValue percentageValue in
  ({| q_studentId := sv_id student;
      q_subjectId := subjectId info;
      q_type := si_type info;
      q_period := sheetPeriod ctx |},
   {| set_totalConducted := JS.round totalClasses;
      set_totalAttended := JS.round attendedValue;
      set_percentage := finalPercentage;
      set_period := sheetPeriod ctx;
      set_division := division ctx;
      set_batch := match si_type info with
                   | Practical => sv_batch student
                   | Theory => None
                   end;
      set_recordedBy := teacherId ctx;
      set_updatedAt := now |}).

(** The object of the loop variable [subjectInfo] after lines 1040-1044: a
    Practical column takes the total of the student's batch, and keeps it. *)
Definition withBatchTotal (student : StudentView) (info : SubjectInfo) : SubjectInfo :=
  match si_type info with
  | Practical =>
      match batchTotal (batchInfo info) (sv_batch student) with
      | Some n =>
          {| subjectId := subjectId info; subjectName := subjectName info;
             si_type := si_type info; totalLectures := Some n;
             batchInfo := batchInfo info |}
      | None => info
      end
  | Theory => info
  end.

(** [totalFromSheetHeader], lines 1158-1165. *)
Definition totalFromSheetHeader (student : StudentView) (info : SubjectInfo)
  : option N :=
  match (match si_type info with
         | Practical => batchTotal (batchInfo info) (sv_batch student)
         | Theory => None
         end) with
  | Some n => Some n
  | None =>
      match totalLectures info with
      | Some n => if N.ltb 0 n then Some n else None
      | None => None
      end
  end.

Definition batchKeyOf (student : StudentView) (info : SubjectInfo) : string :=
  match si_type info with
  | Practical => match sv_batch student with Some b => b | None => "" end
  | Theory => ""
  end.

Definition allocBatch (info : SubjectInfo) (batchKey : string) : option string :=
  match si_type info with
  | Practical => Some batchKey
  | Theory => None
  end.

Definition trackTotal (ctx : Ctx) (info : SubjectInfo) (batchKey : string) (total : N)
    (m : list (AllocKey * AllocUpdate)) : list (AllocKey * AllocUpdate) :=
  setKey (subjectId info, si_type info, division ctx, batchKey)
    {| au_subjectId := subjectId info; au_type := si_type info;
       au_division := division ctx; au_batch := allocBatch info batchKey;
       au_totalPlanned := total; au_totalConducted := total |}
    (fun u => {| au_subjectId := au_subjectId u; au_type := au_type u;
                 au_division := au_division u; au_batch := au_batch u;
                 au_totalPlanned := total; au_totalConducted := total |})
    m.

Definition trackStudent (ctx : Ctx) (info : SubjectInfo) (batchKey : string)
    (student : ObjectId) (m : list (AllocKey * AllocStudents))
  : list (AllocKey * AllocStudents) :=
  setKey (subjectId info, si_type info, division ctx, batchKey)
    {| as_subjectId := subjectId info; as_type := si_type info;
       as_division := division ctx; as_batch := allocBatch info batchKey;
       as_students := [student] |}
    (fun a => {| as_subjectId := as_subjectId a; as_type := as_type a;
                 as_division := as_division a; as_batch := as_batch a;
                 as_students := addToSet student (as_students a) |})
    m.

(** Is the pair skipped?  [if (isNaN(attendedValue) || attendedValue < 0) continue;] *)
Definition skipped (attendedValue : JS.num) : bool :=
  JS.isNaN attendedValue || JS.ltb attendedValue (JS.Fin 0).

(** *** What an attended cell holds

    The spec's words for the cells of a sheet, defined on the text of the
    cell alone: white space, digits, a numeral, and the three kinds of cell
    the skip rule speaks of. *)








(** The body of [for (const [colIndex, subjectInfo] of Object.entries(subjectMap))]
    for one column.  The object [subjectInfo] is shared by all rows, so its
    new state is returned with the loop variables. *)
Definition processCell (ctx : Ctx) (student : StudentView) (row : list string)
    (col : nat) (info : SubjectInfo) (st : Loop) : SubjectInfo * Loop :=
  let attendedValue := cellNumber row col in
  let percentageValue := cellNumber row (col + 1) in
  if skipped attendedValue then (info, st)
  else
    let info' := withBatchTotal student info in
    let w := world st in
    let '(query, update) :=
      summaryFor ctx student info' attendedValue percentageValue (clock w) in
    let '(coll, recordId, fresh) :=
      findOneAndUpsert query update (attendances w) (nextId w) in
    let w' :=
      {| attendances := coll;
         students := linkRecord (sv_id student) recordId (students w);
         subjects := subjects w;
         allocations := allocations w;
         nextId := fresh;
         clock := S (clock w) |} in
    let batchKey := batchKeyOf student info' in
    (info',
     {| world := w';
        allocationUpdates :=
          match totalFromSheetHeader student info' with
          | Some total => trackTotal ctx info' batchKey total (allocationUpdates st)
          | None => allocationUpdates st
          end;
        allocationStudents :=
          trackStudent ctx info' batchKey (sv_id student) (allocationStudents st);
        recordsCreated := S (recordsCreated st);
        errors := errors st;
        studentsFound := studentsFound st;
        studentsNotFound := studentsNotFound st |}).

Fixpoint processSubjects (ctx : Ctx) (student : StudentView) (row : list string)
    (entries : list (nat * SubjectInfo)) (st : Loop)
  : list (nat * SubjectInfo) * Loop :=
  match entries with
  | [] => ([], st)
  | (col, info) :: rest =>
      let '(info', st') := processCell ctx student row col info st in
      let '(rest', st'') := processSubjects ctx student row rest st' in
      ((col, info') :: rest', st'')
  end.

(** [String(row[uidCol] || '').trim()] *)
Definition uidOf (ctx : Ctx) (row : list string) : string :=
  Str.trim (match row !! uidCol ctx with Some s => s | None => "" end).

(** The body of the loop over rows, for the row at [rowIndex]. *)
Definition processRow (ctx : Ctx) (rowIndex : nat) (row : list string)
    (subjectMap : list (nat * SubjectInfo)) (st : Loop)
  : list (nat * SubjectInfo) * Loop :=
  match row with
  | [] => (subjectMap, st)
  | _ =>
      let uid := uidOf ctx row in
      if Str.is_empty uid then (subjectMap, st)
      else
        match find_first (fun s => String.eqb (sv_studentId s) uid)
                         (divisionStudents ctx) with
        | None =>
            (subjectMap,
             {| world := world st;
                allocationUpdates := allocationUpdates st;
                allocationStudents := allocationStudents st;
                recordsCreated := recordsCreated st;
                errors := errors st ++ [{| err_row := rowIndex + 1; err_studentId := uid |}];
                studentsFound := studentsFound st;
                studentsNotFound := S (studentsNotFound st) |})
        | Some student =>
            processSubjects ctx student row subjectMap
              {| world := world st;
                 allocationUpdates := allocationUpdates st;
                 allocationStudents := allocationStudents st;
                 recordsCreated := recordsCreated st;
                 errors := errors st;
                 studentsFound := S (studentsFound st);
                 studentsNotFound := studentsNotFound st |}
        end
  end.

Fixpoint processRows (ctx : Ctx) (rowIndex : nat) (rows : list (list string))
    (subjectMap : list (nat * SubjectInfo)) (st : Loop)
  : list (nat * SubjectInfo) * Loop :=
  match rows with
  | [] => (subjectMap, st)
  | row :: rest =>
      let '(subjectMap', st') := processRow ctx rowIndex row subjectMap st in
      processRows ctx (S rowIndex) rest subjectMap' st'
  end.

(** *** Reconciling the allocations *)

(** The allocation query: subject, kind, division, and the batch for a
    Practical entry whose batch is not empty. *)
Definition allocMatches (sid : ObjectId) (k : Kind) (div : string)
    (batch : option string) (a : Allocation) : bool :=
  Nat.eqb (alloc_subjectId a) sid
  && kind_eqb (alloc_type a) k
  && opt_string_eqb (alloc_division a) (Some div)
  && match k, batch with
     | Practical, Some b =>
         if Str.is_empty b then true else opt_string_eqb (alloc_batch a) (Some b)
     | _, _ => true
     end.

Definition setTotals (planned conducted : N) (a : Allocation) : Allocation :=
  {| alloc_id := alloc_id a; alloc_subjectId := alloc_subjectId a;
     alloc_teacherId := alloc_teacherId a; alloc_type := alloc_type a;
     alloc_division := alloc_division a; alloc_batch := alloc_batch a;
     totalPlanned := planned; alloc_totalConducted := conducted;
     alloc_students := alloc_students a |}.

Definition addStudents (ids : list ObjectId) (a : Allocation) : Allocation :=
  {| alloc_id := alloc_id a; alloc_subjectId := alloc_subjectId a;
     alloc_teacherId := alloc_teacherId a; alloc_type := alloc_type a;
     alloc_division := alloc_division a; alloc_batch := alloc_batch a;
     totalPlanned := totalPlanned a; alloc_totalConducted := alloc_totalConducted a;
     alloc_students := addEachToSet ids (alloc_students a) |}.

(** The loop over [Object.entries(allocationUpdates)]: the allocations and
    the number of entries that found theirs. *)
Fixpoint updateTotals (updates : list (AllocKey * AllocUpdate))
    (allocs : list Allocation) (allocationsUpdated : nat) : list Allocation * nat :=
  match updates with
  | [] => (allocs, allocationsUpdated)
  | (_, u) :: rest =>
      match update_first
              (allocMatches (au_subjectId u) (au_type u) (au_division u) (au_batch u))
              (setTotals (au_totalPlanned u) (au_totalConducted u)) allocs with
      | Some allocs' => updateTotals rest allocs' (S allocationsUpdated)
      | None => updateTotals rest allocs allocationsUpdated
      end
  end.

(** The loop over [Object.keys(allocationStudents)]. *)
Fixpoint updateMembers (members : list (AllocKey * AllocStudents))
    (allocs : list Allocation) : list Allocation :=
  match members with
  | [] => allocs
  | (_, m) :: rest =>
      match update_first
              (allocMatches (as_subjectId m) (as_type m) (as_division m) (as_batch m))
              (addStudents (as_students m)) allocs with
      | Some allocs' => updateMembers rest allocs'
      | None => updateMembers rest allocs
      end
  end.

End Upload.

(** ** The keys of the summaries an upload writes *)

Module Keys.
Import Db Upload.

(** A summary's slot: student, subject, kind and period, where a missing
    period and a [null] period are the same slot. *)
Definition RowKey : Type := ObjectId * ObjectId * Kind * option string.

Definition periodKey (f : Field) : option string :=
  match f with
  | Val s => Some s
  | Null | Absent => None
  end.

Definition rowKey (r : Attendance) : RowKey :=
  (att_studentId r, att_subjectId r, att_type r, periodKey (period r)).

Definition queryKey (q : SummaryQuery) : RowKey :=
  (q_studentId q, q_subjectId q, q_type q, q_period q).

(** What makes a stored row the row it is: its id and its slot. *)
Definition identity (r : Attendance) : ObjectId * RowKey := (att_id r, rowKey r).

(** The part of [subjectMap] that no row changes. *)
Definition statics (m : list (nat * SubjectInfo)) : list (nat * ObjectId * Kind) :=
  map (fun e => (fst e, subjectId (snd e), si_type (snd e))) m.

(** The slots the cells of one row are written to. *)
Fixpoint cellKeys (ctx : Ctx) (student : StudentView) (row : list string)
    (cols : list (nat * ObjectId * Kind)) : list RowKey :=
  match cols with
  | [] => []
  | (col, sid, k) :: rest =>
      (if skipped (cellNumber row col) then []
       else [(sv_id student, sid, k, sheetPeriod ctx)])
      ++ cellKeys ctx student row rest
  end.

Definition rowKeys (ctx : Ctx) (row : list string)
    (cols : list (nat * ObjectId * Kind)) : list RowKey :=
  match row with
  | [] => []
  | _ =>
      if Str.is_empty (uidOf ctx row) then []
      else
        match find_first (fun s => String.eqb (sv_studentId s) (uidOf ctx row))
                         (divisionStudents ctx) with
        | Some student => cellKeys ctx student row cols
        | None => []
        end
  end.

Fixpoint rowsKeys (ctx : Ctx) (rows : list (list string))
    (cols : list (nat * ObjectId * Kind)) : list RowKey :=
  match rows with
  | [] => []
  | row :: rest => rowKeys ctx row cols ++ rowsKeys ctx rest cols
  end.

Definition rows_of (st : Loop) : list Attendance := attendances (world st).

(** What one run of a loop does to the stored rows, given the slots [ks]
    it writes to: no slot is lost, the slots written to are there
    afterwards, and if they were all there before, the rows are the same
    rows as before. *)
Definition writes (ks : list RowKey) (before after : list Attendance) : Prop :=
  map rowKey before ⊆ map rowKey after
  /\ ks ⊆ map rowKey after
  /\ (ks ⊆ map rowKey before -> map identity after = map identity before).

(** Two databases an upload cannot tell apart when it resolves subjects
    and looks up the students of a division. *)
Definition stable (w w' : World) : Prop :=
  subjects w' = subjects w
  /\ forall d : string, studentsOfDivision d w' = studentsOfDivision d w.

End Keys.

(** ** Results of code that may throw *)

Module Outcome.

Inductive Completion (A : Type) : Type :=
  | Return (a : A)
  | Throw (e : string).
Arguments Return {A} a.
Arguments Throw {A} e.

Definition bind {A B : Type} (c : Completion A) (k : A -> Completion B)
  : Completion B :=
  match c with
  | Return a => k a
  | Throw e => Throw e
  end.

(** [try { c } catch (error) { return h }] *)
Definition catch {A : Type} (c : Completion A) (h : A) : Completion A :=
  match c with
  | Return a => Return a
  | Throw _ => Return h
  end.

Fixpoint forEachM {A S : Type} (f : A -> S -> Completion S) (l : list A) (s : S)
  : Completion S :=
  match l with
  | [] => Return s
  | x :: r => bind (f x s) (forEachM f r)
  end.

End Outcome.

(** ** The upload handler and the uploaded file *)

Module Handler.
Import Db Upload Outcome.

(** The outcome of the header search and column classification (lines
    577-912 of [processDivisionSheet]), which is taken as given here: one of
    its three rejections, or the header row, the UID column and the subject
    columns found. *)
Inductive Layout : Type :=
  | HeaderNotFound
  | MissingColumns
  | NoSubjectsDetected
  | Parsed (headerRowIndex uidColumn : nat) (sheetSubjects : list SheetSubject).

(** What reading the uploaded file yields: the grid and its layout. *)
Record Sheet : Type := {
  sheetData : list (list string);
  layout : Layout
}.

Inductive Body : Type :=
  | Failure (message : string)
  | Success (recordsCreated subjectsProcessed studentsFound studentsNotFound
             totalStudentsInSheet allocationsUpdated : nat)
            (errors : list RowError) (errorCount : nat).

Record Response : Type := {
  status : nat;
  body : Body
}.

(** The server's state: the database and the files on disk. *)
Record Server : Type := {
  db : World;
  files : gset string
}.

(** [fs.unlinkSync(path)]: throws when there is no such file. *)
Definition unlinkSync (path : string) (sv : Server) : Completion Server :=
  if decide (path ∈ files sv)
  then Return {| db := db sv; files := files sv ∖ {[ path ]} |}
  else Throw "ENOENT".

(** [try { fs.unlinkSync(path); } catch (_) {}] *)
Definition tryUnlink (path : string) (sv : Server) : Server :=
  match unlinkSync path sv with
  | Return sv' => sv'
  | Throw _ => sv
  end.

(** A step of [processDivisionSheet]: the new server state and either the
    response sent or the error thrown. *)
Definition Step : Type := Server * Completion Response.

(** [fs.unlinkSync(filePath); return res.status(400).json({ ... })] inside
    the [try] of [processDivisionSheet], whose [catch] unlinks once more,
    ignoring a failure, and throws the error on. *)
Definition reject (filePath message : string) (sv : Server) : Step :=
  match unlinkSync filePath sv with
  | Return sv' => (sv', Return {| status := 400; body := Failure message |})
  | Throw e => (tryUnlink filePath sv, Throw e)
  end.

Definition startLoop (w : World) : Loop :=
  {| world := w; allocationUpdates := []; allocationStudents := [];
     recordsCreated := 0; errors := []; studentsFound := 0; studentsNotFound := 0 |}.

(** The database after the rows are processed and the allocations
    reconciled, and the body of the success response. *)
Definition ingest (sheet : Sheet) (headerRowIndex uidColumn : nat)
    (subjectMap : list (nat * SubjectInfo)) (division : string)
    (teacherId : ObjectId) (w : World) : World * Body :=
  let ctx :=
    {| Upload.division := division; Upload.teacherId := teacherId;
       uidCol := uidColumn; sheetPeriod := periodOf (sheetData sheet);
       divisionStudents := studentsOfDivision division w |} in
  let '(_, st) :=
    processRows ctx (S headerRowIndex) (drop (S headerRowIndex) (sheetData sheet))
      subjectMap (startLoop w) in
  let '(allocs, allocationsUpdated) :=
    updateTotals (allocationUpdates st) (allocations (world st)) 0 in
  let allocs' := updateMembers (allocationStudents st) allocs in
  ({| attendances := attendances (world st);
      students := students (world st);
      subjects := subjects (world st);
      allocations := allocs';
      nextId := nextId (world st);
      clock := clock (world st) |},
   Success (recordsCreated st) (List.length subjectMap)
     (studentsFound st) (studentsNotFound st)
     (studentsFound st + studentsNotFound st) allocationsUpdated
     (take 10 (errors st)) (List.length (errors st))).

Definition is_nil {A : Type} (l : list A) : bool :=
  match l with [] => true | _ => false end.

(** [processDivisionSheet(sheetData, division, teacherId, req, res, filePath)].
    [dbDown] says that the first query, [Subject.find()], rejects. *)
Definition processDivisionSheet (sheet : Sheet) (division : string)
    (teacherId : ObjectId) (filePath : string) (dbDown : bool) (sv : Server) : Step :=
  match layout sheet with
  | HeaderNotFound => reject filePath "Could not find header row in sheet" sv
  | MissingColumns =>
      reject filePath "Could not find required columns (Roll, UID, Name)" sv
  | NoSubjectsDetected =>
      reject filePath "Could not identify any subjects in the sheet" sv
  | Parsed headerRowIndex uidColumn sheetSubjects =>
      if dbDown then (tryUnlink filePath sv, Throw "database unavailable")
      else
        let '(subjectMap, unmatchedSubjects) :=
          mapSubjects (subjects (db sv)) sheetSubjects [] [] in
        if negb (is_nil unmatchedSubjects) && is_nil subjectMap
        then reject filePath "No matching subjects found" sv
        else if is_nil (studentsOfDivision division (db sv))
        then reject filePath "No students found in database for division" sv
        else if is_nil subjectMap
        then reject filePath "No matching subjects found in database" sv
        else
          let '(w', success) :=
            ingest sheet headerRowIndex uidColumn subjectMap division teacherId (db sv) in
          let sv' := {| db := w'; files := files sv |} in
          match unlinkSync filePath sv' with
          | Return sv'' => (sv'', Return {| status := 200; body := success |})
          | Throw e => (tryUnlink filePath sv', Throw e)
          end
  end.

(** The database [processDivisionSheet] leaves behind, which does not
    depend on the files on disk. *)
Definition databaseAfter (sheet : Sheet) (division : string) (teacherId : ObjectId)
    (dbDown : bool) (w : World) : World :=
  match layout sheet with
  | Parsed headerRowIndex uidColumn sheetSubjects =>
      if dbDown then w
      else
        let '(subjectMap, unmatchedSubjects) :=
          mapSubjects (subjects w) sheetSubjects [] [] in
        if negb (is_nil unmatchedSubjects) && is_nil subjectMap then w
        else if is_nil (studentsOfDivision division w) then w
        else if is_nil subjectMap then w
        else fst (ingest sheet headerRowIndex uidColumn subjectMap division teacherId w)
  | _ => w
  end.

Record File : Type := {
  path : string;
  originalname : string
}.

(** The request as the handler sees it once the upload middleware has
    stored the file, with what the reads it triggers will yield. *)
Record Request : Type := {
  req_division : option string;
  req_file : option File;
  userId : ObjectId;
  content : Sheet;
  readFails : bool;
  databaseDown : bool
}.

(** [name.split('.').pop()] *)
Fixpoint lastSegment (acc : list ascii) (s : list ascii) : list ascii :=
  match s with
  | [] => acc
  | c :: r => if Ascii.eqb c "." then lastSegment [] r else lastSegment (acc ++ [c]) r
  end.

Definition extensionOf (originalname : string) : string :=
  Str.toLowerCase (Str.ofChars (lastSegment [] (Str.chars originalname))).

Definition validDivision (division : option string) : bool :=
  match division with
  | None => false
  | Some d =>
      negb (Str.is_empty d)
      && existsb (String.eqb (Str.toUpperCase d)) ["A"; "B"; "C"; "D"]
  end.

(** The [catch] of the handler: unlink the file when the request has one,
    ignoring a failure, and answer 500. *)
Definition serverError (req : Request) (sv : Server) : Server * Response :=
  (match req_file req with
   | Some f => if Str.is_empty (path f) then sv else tryUnlink (path f) sv
   | None => sv
   end,
   {| status := 500; body := Failure "Server error" |}).

(** [router.post('/upload-division-sheet', ...)] *)
Definition uploadDivisionSheet (req : Request) (sv : Server) : Server * Response :=
  if negb (validDivision (req_division req))
  then (sv, {| status := 400;
               body := Failure "Division is required and must be A, B, C, or D" |})
  else
    match req_file req with
    | None => (sv, {| status := 400; body := Failure "No file uploaded" |})
    | Some f =>
        let division :=
          Str.toUpperCase (match req_division req with Some d => d | None => "" end) in
        let ext := extensionOf (originalname f) in
        if existsb (String.eqb ext) ["xlsx"; "xls"; "csv"] then
          if readFails req then serverError req sv
          else
            match processDivisionSheet (content req) division (userId req) (path f)
                    (databaseDown req) sv with
            | (sv', Return r) => (sv', r)
            | (sv', Throw _) => serverError req sv'
            end
        else
          match unlinkSync (path f) sv with
          | Return sv' =>
              (sv', {| status := 400; body := Failure "Unsupported file format" |})
          | Throw _ => serverError req sv
          end
    end.

End Handler.

(** ** The defaulter classifier *)

Module Defaulters.
Import Db Outcome.

(** The reads of the routes, each of which may reject.  An attendance
    record comes with its [subjectId] populated, or [None] when the subject
    is gone. *)
Record Backend : Type := {
  findStudents : Completion (list Student);
  findAttendance : ObjectId -> option (list ObjectId)
                   -> Completion (list (Attendance * option Subject));
  findAllocations : ObjectId -> Completion (list Allocation)
}.

Definition populate (w : World) (r : Attendance) : Attendance * option Subject :=
  (r, find_first (fun s => Nat.eqb (sub_id s) (att_subjectId r)) (subjects w)).

(** [{ studentId }], with [subjectId: { $in: ids }] when [ids] is given. *)
Definition attendanceOf (w : World) (student : ObjectId) (ids : option (list ObjectId))
  : list (Attendance * option Subject) :=
  map (populate w)
    (filter (fun r => (Nat.eqb (att_studentId r) student
                       && match ids with
                          | Some l => existsb (Nat.eqb (att_subjectId r)) l
                          | None => true
                          end) = true)
            (attendances w)).

(** The reads of a database that answers. *)
Definition healthy (w : World) : Backend :=
  {| findStudents := Return (students w);
     findAttendance := fun student ids => Return (attendanceOf w student ids);
     findAllocations := fun teacher =>
       Return (filter (fun a => Nat.eqb (alloc_teacherId a) teacher = true)
                      (allocations w)) |}.

(** [allocatedSubjectIds && allocatedSubjectIds.length > 0 ? { $in: ... } : nothing] *)
Definition restriction (allocatedSubjectIds : option (list ObjectId))
  : option (list ObjectId) :=
  match allocatedSubjectIds with
  | Some (x :: l) => Some (x :: l)
  | _ => None
  end.

(** *** [checkDefaulters] *)

Record SubjectStats : Type := {
  subject : Subject;
  total : JS.num;
  present : JS.num;
  stat_percentage : JS.num
}.

Record Defaulter : Type := {
  def_id : ObjectId;
  def_name : string;
  def_studentId : string;
  def_email : string;
  defaulterSubjects : list SubjectStats
}.

(** [subjectStats[id]] created when missing, then updated. *)
Fixpoint accumulate (sub : Subject) (conducted attended pct : JS.num)
    (stats : list (ObjectId * SubjectStats)) : list (ObjectId * SubjectStats) :=
  let upd (s : SubjectStats) :=
    {| subject := subject s;
       total := JS.add (total s) (JS.or_else conducted (JS.Fin 0));
       present := JS.add (present s) (JS.or_else attended (JS.Fin 0));
       stat_percentage := if JS.gtb pct (JS.Fin 0) then pct else stat_percentage s |} in
  match stats with
  | [] =>
      [(sub_id sub,
        upd {| subject := sub; total := JS.Fin 0; present := JS.Fin 0;
               stat_percentage := JS.Fin 0 |})]
  | (id, s) :: r =>
      if Nat.eqb id (sub_id sub) then (id, upd s) :: r
      else (id, s) :: accumulate sub conducted attended pct r
  end.

(** The callback of [attendance.forEach]. *)
Definition addRecord (allocatedSubjectIds : option (list ObjectId))
    (stats : list (ObjectId * SubjectStats)) (rec : Attendance * option Subject)
  : list (ObjectId * SubjectStats) :=
  match snd rec with
  | None => stats
  | Some sub =>
      let listed :=
        match allocatedSubjectIds with
        | Some ids => existsb (Nat.eqb (sub_id sub)) ids
        | None => true
        end in
      if listed
      then accumulate sub (totalConducted (fst rec)) (totalAttended (fst rec))
             (percentage (fst rec)) stats
      else stats
  end.

(** The percentage a subject is judged by. *)
Definition judged (s : SubjectStats) : JS.num :=
  if JS.eqb (stat_percentage s) (JS.Fin 0) && JS.gtb (total s) (JS.Fin 0)
  then JS.mul (JS.div (present s) (total s)) (JS.Fin 100)
  else stat_percentage s.

Definition defaulterSubjectsOf (threshold : JS.num)
    (stats : list (ObjectId * SubjectStats)) : list SubjectStats :=
  map (fun s => {| subject := subject s; total := total s; present := present s;
                   stat_percentage := judged s |})
      (filter (fun s => JS.ltb (judged s) threshold = true) (map snd stats)).

(** The body of the loop over students. *)
Definition checkStudent (b : Backend) (threshold : JS.num)
    (allocatedSubjectIds : option (list ObjectId)) (student : Student)
    (defaulters : list Defaulter) : Completion (list Defaulter) :=
  bind (findAttendance b (stu_id student) (restriction allocatedSubjectIds))
    (fun attendance =>
       match attendance with
       | [] => Return defaulters
       | _ =>
           let stats := fold_left (addRecord allocatedSubjectIds) attendance [] in
           match defaulterSubjectsOf threshold stats with
           | [] => Return defaulters
           | subs =>
               Return (defaulters ++
                       [{| def_id := stu_id student; def_name := stu_name student;
                           def_studentId := studentId student;
                           def_email := stu_email student;
                           defaulterSubjects := subs |}])
           end
       end).

(** The [try] block of [checkDefaulters]. *)
Definition checkDefaultersBody (b : Backend) (threshold : JS.num)
    (allocatedSubjectIds : option (list ObjectId)) : Completion (list Defaulter) :=
  bind (findStudents b)
    (fun students => forEachM (checkStudent b threshold allocatedSubjectIds) students []).

(** [checkDefaulters(threshold, allocatedSubjectIds = null)] *)
Definition checkDefaulters (b : Backend) (threshold : JS.num)
    (allocatedSubjectIds : option (list ObjectId)) : Completion (list Defaulter) :=
  catch (checkDefaultersBody b threshold allocatedSubjectIds) [].

Inductive Reply (A : Type) : Type :=
  | Json (a : A)
  | ServerError.
Arguments Json {A} a.
Arguments ServerError {A}.

(** [router.get('/defaulters', ...)]; [thresholdParam] is
    [parseInt(req.query.threshold)]. *)
Definition getDefaulters (b : Backend) (thresholdParam : JS.num)
    (isTeacher : bool) (userId : ObjectId) : Reply (list Defaulter) :=
  let threshold := JS.or_else thresholdParam (JS.Fin 75) in
  let answer :=
    if isTeacher then
      bind (findAllocations b userId)
        (fun allocs =>
           match map alloc_subjectId allocs with
           | [] => Return []
           | ids => checkDefaulters b threshold (Some ids)
           end)
    else checkDefaulters b threshold None in
  match answer with
  | Return l => Json l
  | Throw _ => ServerError
  end.

(** *** The banded report: [router.get('/defaulters/report', ...)] *)

Inductive Band : Type :=
  | below50
  | between50to65
  | between65_1_to74_99.

(** The [if]/[else if] chain of lines 1460-1466. *)
Definition bandOf (percent : JS.num) : option Band :=
  if JS.ltb percent (JS.Fin 50) then Some below50
  else if JS.geb percent (JS.Fin 50) && JS.leb percent (JS.Fin 65)
  then Some between50to65
  else if JS.gtb percent (JS.Fin 65) && JS.leb percent (JS.Fin (7499 # 100))
  then Some between65_1_to74_99
  else None.

Record SubjectLine : Type := {
  line_name : string;
  line_code : string;
  line_percentage : JS.num
}.

Record Item : Type := {
  item_id : ObjectId;
  item_name : string;
  item_studentId : string;
  item_email : string;
  item_division : option string;
  item_batch : option string;
  item_percentage : JS.num;
  item_subjects : list SubjectLine
}.

Record Report : Type := {
  r_below50 : list Item;
  r_between50to65 : list Item;
  r_between65_1_to74_99 : list Item
}.

Record Tally : Type := {
  t_total : JS.num;
  t_present : JS.num;
  t_percent : JS.num;
  perSubject : list (ObjectId * (Subject * JS.num * nat))
}.

(** [perSubject[sid] = entry] unless a newer entry is there. *)
Fixpoint latest (sid : ObjectId) (entry : Subject * JS.num * nat)
    (m : list (ObjectId * (Subject * JS.num * nat)))
  : list (ObjectId * (Subject * JS.num * nat)) :=
  match m with
  | [] => [(sid, entry)]
  | (id, existing) :: r =>
      if Nat.eqb id sid
      then (if Nat.ltb (snd existing) (snd entry) then (id, entry) else (id, existing)) :: r
      else (id, existing) :: latest sid entry r
  end.

(** The body of [for (const r of records)]. *)
Definition tallyRecord (t : Tally) (rec : Attendance * option Subject) : Tally :=
  let r := fst rec in
  {| t_total := JS.add (t_total t) (JS.or_else (totalConducted r) (JS.Fin 0));
     t_present := JS.add (t_present t) (JS.or_else (totalAttended r) (JS.Fin 0));
     t_percent :=
       if JS.truthy (percentage r) && JS.gtb (percentage r) (JS.Fin 0)
       then percentage r else t_percent t;
     perSubject :=
       match snd rec with
       | Some sub =>
           let subTotal := JS.or_else (totalConducted r) (JS.Fin 0) in
           let subPresent := JS.or_else (totalAttended r) (JS.Fin 0) in
           let subPercent :=
             if JS.truthy (percentage r) && JS.gtb (percentage r) (JS.Fin 0)
             then percentage r
             else if JS.gtb subTotal (JS.Fin 0)
                  then JS.mul (JS.div subPresent subTotal) (JS.Fin 100)
                  else JS.Fin 0 in
           latest (sub_id sub) (sub, subPercent, updatedAt r) (perSubject t)
       | None => perSubject t
       end |}.





(** The student's percentage the bands are chosen by. *)
Definition percentOf (records : list (Attendance * option Subject)) : JS.num :=
  let t := fold_left tallyRecord records
             {| t_total := JS.Fin 0; t_present := JS.Fin 0; t_percent := JS.Fin 0;
                perSubject := [] |} in
  if JS.eqb (t_percent t) (JS.Fin 0) && JS.gtb (t_total t) (JS.Fin 0)
  then JS.mul (JS.div (t_present t) (t_total t)) (JS.Fin 100)
  else t_percent t.

Definition itemOf (student : Student) (records : list (Attendance * option Subject))
  : Item :=
  let t := fold_left tallyRecord records
             {| t_total := JS.Fin 0; t_present := JS.Fin 0; t_percent := JS.Fin 0;
                perSubject := [] |} in
  {| item_id := stu_id student; item_name := stu_name student;
     item_studentId := studentId student; item_email := stu_email student;
     item_division := stu_division student; item_batch := stu_batch student;
     item_percentage := JS.toFixed2 (percentOf records);
     item_subjects :=
       map (fun e => let '(sub, pct, _) := snd e in
                     {| line_name := sub_name sub; line_code := sub_code sub;
                        line_percentage := JS.toFixed2 pct |})
           (perSubject t) |}.

(** The body of the loop over students. *)
Definition placeStudent (w : World) (allocatedSubjectIds : option (list ObjectId))
    (rep : Report) (student : Student) : Report :=
  match attendanceOf w (stu_id student) (restriction allocatedSubjectIds) with
  | [] => rep
  | records =>
      let item := itemOf student records in
      match bandOf (percentOf records) with
      | Some below50 =>
          {| r_below50 := r_below50 rep ++ [item];
             r_between50to65 := r_between50to65 rep;
             r_between65_1_to74_99 := r_between65_1_to74_99 rep |}
      | Some between50to65 =>
          {| r_below50 := r_below50 rep;
             r_between50to65 := r_between50to65 rep ++ [item];
             r_between65_1_to74_99 := r_between65_1_to74_99 rep |}
      | Some between65_1_to74_99 =>
          {| r_below50 := r_below50 rep;
             r_between50to65 := r_between50to65 rep;
             r_between65_1_to74_99 := r_between65_1_to74_99 rep ++ [item] |}
      | None => rep
      end
  end.

(** The list of the report a band is filed in. *)
Definition filed (b : Band) (rep : Report) : list Item :=
  match b with
  | below50 => r_below50 rep
  | between50to65 => r_between50to65 rep
  | between65_1_to74_99 => r_between65_1_to74_99 rep
  end.

Definition band_eqb (a b : Band) : bool :=
  match a, b with
  | below50, below50 | between50to65, between50to65
  | between65_1_to74_99, between65_1_to74_99 => true
  | _, _ => false
  end.

Record Filters : Type := {
  f_division : option string;
  f_departmentId : option ObjectId;
  f_semesterId : option ObjectId
}.

Definition opt_nat_eqb (a b : option ObjectId) : bool :=
  match a, b with
  | Some x, Some y => Nat.eqb x y
  | None, None => true
  | _, _ => false
  end.

(** The student query of lines 1399-1402: a parameter that is absent, or
    an empty division, is no filter. *)
Definition selected (f : Filters) (s : Student) : bool :=
  match f_division f with
  | Some d =>
      Str.is_empty d || opt_string_eqb (stu_division s) (Some (Str.toUpperCase d))
  | None => true
  end
  && match f_departmentId f with
     | Some d => opt_nat_eqb (departmentId s) (Some d)
     | None => true
     end
  && match f_semesterId f with
     | Some d => opt_nat_eqb (semesterId s) (Some d)
     | None => true
     end.

Definition emptyReport : Report :=
  {| r_below50 := []; r_between50to65 := []; r_between65_1_to74_99 := [] |}.

(** The report over a database that answers. *)
Definition defaultersReport (w : World) (f : Filters) (isTeacher : bool)
    (userId : ObjectId) : Report :=
  let allocatedSubjectIds :=
    if isTeacher
    then Some (map alloc_subjectId
                 (filter (fun a => Nat.eqb (alloc_teacherId a) userId = true)
                         (allocations w)))
    else None in
  match allocatedSubjectIds with
  | Some [] => emptyReport
  | _ =>
      fold_left (placeStudent w allocatedSubjectIds)
        (filter (fun s => selected f s = true) (students w)) emptyReport
  end.

End Defaulters.

(** ** The periodic allocation sync: [syncAllocationStudents] *)

Module SyncWorker.

(** The module's state as the event loop sees it: the flag [isRunning] and
    the bodies of [syncAllocationStudents] that have started and not yet
    finished, each with the number of awaited operations it still has to
    get through.  [started] and [skips] count the invocations that ran the
    body and those that returned at the guard. *)
Record State : Type := {
  isRunning : bool;
  bodies : list nat;
  started : nat;
  skips : nat
}.

Definition initial : State :=
  {| isRunning := false; bodies := []; started := 0; skips := 0 |}.

(** What the event loop can run next: an invocation of
    [syncAllocationStudents] (an interval tick, the call at start-up or a
    manual trigger) whose body would await [work] more operations after
    its first, the continuation of the [i]-th suspended body, or the
    rejection of the operation the [i]-th body awaits outside its inner
    [try]. *)
Inductive Event : Type :=
  | Invoke (work : nat)
  | Resume (i : nat)
  | Reject (i : nat).

(** The synchronous prefix of an invocation: the guard, and for an
    invocation that passes it everything up to the first [await]. *)
Definition invoke (work : nat) (s : State) : State :=
  if isRunning s
  then {| isRunning := isRunning s; bodies := bodies s;
          started := started s; skips := S (skips s) |}
  else {| isRunning := true; bodies := bodies s ++ [work];
          started := S (started s); skips := skips s |}.

(** The [finally] block as the [i]-th body ends. *)
Definition finish (i : nat) (s : State) : State :=
  {| isRunning := false; bodies := delete i (bodies s);
     started := started s; skips := skips s |}.

Definition step (e : Event) (s : State) : State :=
  match e with
  | Invoke work => invoke work s
  | Resume i =>
      match bodies s !! i with
      | Some (S k) =>
          {| isRunning := isRunning s; bodies := <[i := k]> (bodies s);
             started := started s; skips := skips s |}
      | Some O => finish i s
      | None => s
      end
  | Reject i =>
      match bodies s !! i with
      | Some _ => finish i s
      | None => s
      end
  end.

Definition run (events : list Event) (s : State) : State :=
  fold_left (fun s e => step e s) events s.

(** The flag is up exactly while one body is in flight, and there is never
    more than one. *)
Definition guarded (s : State) : Prop :=
  (isRunning s = true /\ exists n, bodies s = [n])
  \/ (isRunning s = false /\ bodies s = []).

End SyncWorker.

From Stdlib Require Import Sorting.Sorted.

(** ** What an upload leaves of the shared objects *)

Module Frames.
Import Db Upload Keys.

(** Rows are kept: the ids of the rows before are the first ids after, in
    the same order, and a row whose slot is not written to is still there,
    unchanged. *)
Definition kept (ks : list RowKey) (before after : list Attendance) : Prop :=
  (exists new, map att_id after = map att_id before ++ new)
  /\ (forall r, r ∈ before -> rowKey r ∉ ks -> r ∈ after).

(** A value of [subjectMap] and a later state of the same object: only
    [totalLectures] may differ, and only on a Practical column, where it
    is then a total its own batch info declares. *)
Definition evolves (before after : SubjectInfo) : Prop :=
  subjectId after = subjectId before
  /\ subjectName after = subjectName before
  /\ si_type after = si_type before
  /\ batchInfo after = batchInfo before
  /\ (totalLectures after = totalLectures before
      \/ (si_type before = Practical
          /\ exists (b : string) (n : N),
               batchTotal (batchInfo before) (Some b) = Some n
               /\ totalLectures after = Some n)).

(** The same column of [subjectMap] before and after. *)
Definition columnwise (before after : nat * SubjectInfo) : Prop :=
  fst after = fst before /\ evolves (snd before) (snd after).

(** An allocation and the same allocation after a reconciliation: nothing
    but the totals and the students may differ, no student is dropped, and
    totals that changed are one positive total written to both fields. *)
Definition reconciled (before after : Allocation) : Prop :=
  alloc_id after = alloc_id before
  /\ alloc_subjectId after = alloc_subjectId before
  /\ alloc_teacherId after = alloc_teacherId before
  /\ alloc_type after = alloc_type before
  /\ alloc_division after = alloc_division before
  /\ alloc_batch after = alloc_batch before
  /\ (forall s, s ∈ alloc_students before -> s ∈ alloc_students after)
  /\ ((totalPlanned after = totalPlanned before
       /\ alloc_totalConducted after = alloc_totalConducted before)
      \/ (totalPlanned after = alloc_totalConducted after
          /\ (0 < totalPlanned after)%N)).

(** Every total tracked for an allocation is positive and is planned and
    conducted total at once. *)
Definition tracked_ok (m : list (AllocKey * AllocUpdate)) : Prop :=
  Forall (fun e => au_totalPlanned (snd e) = au_totalConducted (snd e)
                   /\ (0 < au_totalPlanned (snd e))%N) m.

(** The files on disk after a step are those before it, except possibly
    the file at [p]. *)
Definition only_removes (p : string) (before after : gset string) : Prop :=
  forall q : string,
    (q ∈ after -> q ∈ before) /\ (q ∈ before -> q <> p -> q ∈ after).

(** The sheet subject resolves to no subject of the catalogue. *)
Definition unresolved (allDbSubjects : list Subject) (ss : SheetSubject) : bool :=
  match resolve allDbSubjects ss with None => true | Some _ => false end.

(** The entry of [subjectMap] that a sheet subject and the subject it
    resolves to give (lines 953-959). *)
Definition mapped (allDbSubjects : list Subject) (sheet : list SheetSubject)
    (e : nat * SubjectInfo) : Prop :=
  exists (ss : SheetSubject) (dbs : Subject),
    ss ∈ sheet /\ resolve allDbSubjects ss = Some dbs
    /\ fst e = attendedCol ss
    /\ snd e = {| subjectId := sub_id dbs; subjectName := sub_name dbs;
                  si_type := type ss; totalLectures := sheetTotal ss;
                  batchInfo := sheetBatchInfo ss |}.

(** The rows stored before are still stored, each under its id and for
    its student. *)
Definition persist (before after : list Attendance) : Prop :=
  forall r, r ∈ before ->
    exists r', r' ∈ after /\ att_id r' = att_id r
               /\ att_studentId r' = att_studentId r.

(** A student and the same student after an upload: only [attedanceRecord]
    may differ, by ids appended to it, each the id of a stored summary of
    this student. *)
Definition linked (rows : list Attendance) (before after : Student) : Prop :=
  stu_id after = stu_id before
  /\ studentId after = studentId before
  /\ stu_name after = stu_name before
  /\ stu_email after = stu_email before
  /\ stu_division after = stu_division before
  /\ stu_batch after = stu_batch before
  /\ departmentId after = departmentId before
  /\ semesterId after = semesterId before
  /\ exists new : list ObjectId,
       attedanceRecord after = attedanceRecord before ++ new
       /\ forall id, id ∈ new ->
            exists r, r ∈ rows /\ att_id r = id /\ att_studentId r = stu_id before.

(** Some student document with the summary's student id lists the
    summary. *)
Definition referenced (students : list Student) (r : Attendance) : Prop :=
  exists s, s ∈ students /\ stu_id s = att_studentId r
            /\ att_id r ∈ attedanceRecord s.

(** The database at some point of an upload that started from [w0]: the
    rows of [w0] persist, the students are those of [w0] with summaries
    linked, the subjects are untouched, and every row that is not a row of
    [w0] is referenced by its student. *)
Definition threaded (w0 w : World) : Prop :=
  persist (attendances w0) (attendances w)
  /\ Forall2 (linked (attendances w)) (students w0) (students w)
  /\ subjects w = subjects w0
  /\ forall r, r ∈ attendances w -> r ∈ attendances w0 \/ referenced (students w) r.

End Frames.

(** ** The allocation sync: the worker's body and the admin route *)

Module AllocationSync.
Import Db Outcome.

(** The query [studentQuery] built for an allocation. *)
Inductive Query : Type :=
  | ByDivision (division : string)
  | ByDivisionAndBatch (division batch : string).

(** A string field that is truthy: present and not empty. *)
Definition truthyField (o : option string) : option string :=
  match o with
  | Some s => if Str.is_empty s then None else Some s
  | None => None
  end.

(** Lines 40-68 of the worker and 858-885 of the route: the query, or the
    error pushed before [continue].  The schema's [enum] leaves the two
    kinds, so the last [else] is never taken. *)
Definition studentQuery (a : Allocation) : Query + string :=
  match alloc_type a with
  | Theory =>
      match truthyField (alloc_division a) with
      | Some d => inl (ByDivision d)
      | None => inr "Theory allocation missing division"
      end
  | Practical =>
      match truthyField (alloc_division a), truthyField (alloc_batch a) with
      | Some d, Some b => inl (ByDivisionAndBatch d b)
      | _, _ => inr "Practical allocation missing division or batch"
      end
  end.

Definition queryMatches (q : Query) (s : Student) : bool :=
  match q with
  | ByDivision d => opt_string_eqb (stu_division s) (Some d)
  | ByDivisionAndBatch d b =>
      opt_string_eqb (stu_division s) (Some d) && opt_string_eqb (stu_batch s) (Some b)
  end.

(** [(await Student.find(studentQuery).select('_id')).map(s => s._id)] *)
Definition matchingStudents (q : Query) (students : list Student) : list ObjectId :=
  map stu_id (filter (fun s => queryMatches q s = true) students).

(** [ids.map(id => id.toString()).sort()]: the ids print as hexadecimal
    strings of one length, which [sort] orders as the numbers they
    denote. *)
Fixpoint insertId (x : ObjectId) (l : list ObjectId) : list ObjectId :=
  match l with
  | [] => [x]
  | y :: r => if Nat.leb x y then x :: y :: r else y :: insertId x r
  end.

Definition sortIds (l : list ObjectId) : list ObjectId := fold_right insertId [] l.

(** [JSON.stringify(currentStudentIds) !== JSON.stringify(newStudentIds)] *)
Definition needsUpdate (current new : list ObjectId) : bool :=
  negb (bool_decide (sortIds current = sortIds new)).

Record SyncError : Type := {
  se_allocationId : ObjectId;
  se_error : string
}.

Record Results : Type := {
  totalAllocations : nat;
  updatedAllocations : nat;
  totalStudentsAdded : nat;
  sync_errors : list SyncError
}.

(** The queries that reject, with the message of the error: the read of
    the allocations, the read of the students for a query, and the save of
    an allocation. *)
Record Faults : Type := {
  allocationsReject : option string;
  studentsReject : Query -> option string;
  saveRejects : ObjectId -> option string
}.

Definition noFaults : Faults :=
  {| allocationsReject := None;
     studentsReject := fun _ => None;
     saveRejects := fun _ => None |}.

Definition pushError (a : Allocation) (message : string) (res : Results) : Results :=
  {| totalAllocations := totalAllocations res;
     updatedAllocations := updatedAllocations res;
     totalStudentsAdded := totalStudentsAdded res;
     sync_errors := sync_errors res
                    ++ [{| se_allocationId := alloc_id a; se_error := message |}] |}.

Definition countUpdate (studentIds : list ObjectId) (res : Results) : Results :=
  {| totalAllocations := totalAllocations res;
     updatedAllocations := S (updatedAllocations res);
     totalStudentsAdded := totalStudentsAdded res + List.length studentIds;
     sync_errors := sync_errors res |}.

(** [allocation.students = studentIds] *)
Definition withStudents (studentIds : list ObjectId) (a : Allocation) : Allocation :=
  {| alloc_id := alloc_id a; alloc_subjectId := alloc_subjectId a;
     alloc_teacherId := alloc_teacherId a; alloc_type := alloc_type a;
     alloc_division := alloc_division a; alloc_batch := alloc_batch a;
     totalPlanned := totalPlanned a; alloc_totalConducted := alloc_totalConducted a;
     alloc_students := studentIds |}.

(** The body of the worker's loop (lines 39-97), its [catch] included: the
    allocation as the database holds it afterwards, and the results. *)
Definition workerStep (f : Faults) (students : list Student) (a : Allocation)
    (res : Results) : Allocation * Results :=
  match studentQuery a with
  | inr message => (a, pushError a message res)
  | inl q =>
      match studentsReject f q with
      | Some e => (a, pushError a e res)
      | None =>
          let studentIds := matchingStudents q students in
          if needsUpdate (alloc_students a) studentIds then
            match saveRejects f (alloc_id a) with
            | Some e => (a, pushError a e res)
            | None => (withStudents studentIds a, countUpdate studentIds res)
            end
          else (a, res)
      end
  end.

(** The body of the route's loop (lines 856-902): every allocation with a
    query is rewritten and counted. *)
Definition routeStep (f : Faults) (students : list Student) (a : Allocation)
    (res : Results) : Allocation * Results :=
  match studentQuery a with
  | inr message => (a, pushError a message res)
  | inl q =>
      match studentsReject f q with
      | Some e => (a, pushError a e res)
      | None =>
          let studentIds := matchingStudents q students in
          match saveRejects f (alloc_id a) with
          | Some e => (a, pushError a e res)
          | None => (withStudents studentIds a, countUpdate studentIds res)
          end
      end
  end.

(** [for (const allocation of allocations)] with a loop body. *)
Fixpoint forEachAllocation (step : Allocation -> Results -> Allocation * Results)
    (allocs : list Allocation) (res : Results) : list Allocation * Results :=
  match allocs with
  | [] => ([], res)
  | a :: rest =>
      let '(a', res') := step a res in
      let '(rest', res'') := forEachAllocation step rest res' in
      (a' :: rest', res'')
  end.

Definition startResults (allocs : list Allocation) : Results :=
  {| totalAllocations := List.length allocs; updatedAllocations := 0;
     totalStudentsAdded := 0; sync_errors := [] |}.

Definition withAllocations (allocs : list Allocation) (w : World) : World :=
  {| attendances := attendances w; students := Db.students w;
     subjects := subjects w; allocations := allocs;
     nextId := nextId w; clock := clock w |}.

(** The [try] block of [syncAllocationStudents], past the guard: the
    database afterwards and the results returned, or the error thrown
    on. *)
Definition syncAllocationStudents (f : Faults) (w : World)
  : World * Completion Results :=
  match allocationsReject f with
  | Some e => (w, Throw e)
  | None =>
      let '(allocs, res) :=
        forEachAllocation (workerStep f (Db.students w)) (allocations w)
          (startResults (allocations w)) in
      (withAllocations allocs w, Return res)
  end.

(** [router.post('/allocations/sync-students', ...)]: the database
    afterwards, the status and the results sent. *)
Definition syncStudentsRoute (f : Faults) (w : World)
  : World * (nat * option Results) :=
  match allocationsReject f with
  | Some e => (w, (500, None))
  | None =>
      let '(allocs, res) :=
        forEachAllocation (routeStep f (Db.students w)) (allocations w)
          (startResults (allocations w)) in
      (withAllocations allocs w, (200, Some res))
  end.

(** Two allocations that differ at most in the order of their students. *)
Definition sameMembers (a b : Allocation) : Prop :=
  withStudents [] a = withStudents [] b
  /\ Permutation (alloc_students a) (alloc_students b).

End AllocationSync.

(** ** The members an upload adds, seen by the sync *)

Module Membership.
Import Db Upload AllocationSync.

(** [student.batch || ''] *)
Definition batchOrEmpty (batch : option string) : string :=
  match batch with Some b => b | None => "" end.

(** An entry of [allocationStudents] as the row loop keeps it: filed under
    its own subject, kind, division and batch key, and holding students of
    the division only, each under the key of the student's own batch. *)
Definition tracked_member (ctx : Ctx) (e : AllocKey * AllocStudents) : Prop :=
  exists bk : string,
    fst e = (as_subjectId (snd e), as_type (snd e), as_division (snd e), bk)
    /\ as_division (snd e) = division ctx
    /\ as_batch (snd e) = match as_type (snd e) with
                          | Practical => Some bk
                          | Theory => None
                          end
    /\ forall s, s ∈ as_students (snd e) ->
         exists st, st ∈ divisionStudents ctx /\ sv_id st = s
                    /\ (as_type (snd e) = Practical -> bk = batchOrEmpty (sv_batch st)).

(** The sync would put the student into the allocation. *)
Definition fits (a : Allocation) (st : Student) : Prop :=
  exists q : Query, studentQuery a = inl q /\ queryMatches q st = true.

(** The allocation after a step has the key it had, and each of its new
    members satisfies [P]. *)
Definition joined (P : Allocation -> ObjectId -> Prop) (before after : Allocation)
  : Prop :=
  alloc_subjectId after = alloc_subjectId before
  /\ alloc_type after = alloc_type before
  /\ alloc_division after = alloc_division before
  /\ alloc_batch after = alloc_batch before
  /\ forall s, s ∈ alloc_students after -> s ∈ alloc_students before \/ P before s.

End Membership.

(** ** The subject lines of the banded report *)

Module SubjectLines.
Import JS Db Defaulters.

(** [subPercent] of lines 1432-1436: the record's own percentage when it
    is positive, else attended over conducted, else [0]. *)
Definition recordPercent (r : Attendance) : num :=
  let subTotal := or_else (totalConducted r) (Fin 0) in
  let subPresent := or_else (totalAttended r) (Fin 0) in
  if truthy (percentage r) && gtb (percentage r) (Fin 0)
  then percentage r
  else if gtb subTotal (Fin 0)
       then mul (div subPresent subTotal) (Fin 100)
       else Fin 0.

Definition startTally : Tally :=
  {| t_total := Fin 0; t_present := Fin 0; t_percent := Fin 0; perSubject := [] |}.

End SubjectLines.

(** ** The worker's timer: [startSyncWorker] and [stopSyncWorker] *)

Module SyncTimer.

(** The module variable [syncInterval] and the event loop's side of it:
    the interval timers set and not cleared, the handle the next
    [setInterval] returns, and the number of syncs [startSyncWorker] has
    invoked itself. *)
Record Timers : Type := {
  syncInterval : option nat;
  intervals : list nat;
  nextHandle : nat;
  immediateSyncs : nat
}.

Definition idle : Timers :=
  {| syncInterval := None; intervals := []; nextHandle := 0; immediateSyncs := 0 |}.

(** [startSyncWorker(interval)] *)
Definition startSyncWorker (t : Timers) : Timers :=
  match syncInterval t with
  | Some _ => t
  | None =>
      {| syncInterval := Some (nextHandle t);
         intervals := intervals t ++ [nextHandle t];
         nextHandle := S (nextHandle t);
         immediateSyncs := S (immediateSyncs t) |}
  end.

(** [stopSyncWorker()] *)
Definition stopSyncWorker (t : Timers) : Timers :=
  match syncInterval t with
  | Some h =>
      {| syncInterval := None;
         intervals := filter (fun x => x <> h) (intervals t);
         nextHandle := nextHandle t;
         immediateSyncs := immediateSyncs t |}
  | None => t
  end.

Inductive Call : Type :=
  | Start
  | Stop.

Definition call (c : Call) (t : Timers) : Timers :=
  match c with
  | Start => startSyncWorker t
  | Stop => stopSyncWorker t
  end.

Definition calls (cs : list Call) (t : Timers) : Timers :=
  fold_left (fun t c => call c t) cs t.

(** The timers set are the one the module holds a handle of, if any. *)
Definition held (t : Timers) : Prop :=
  intervals t = match syncInterval t with Some h => [h] | None => [] end.

End SyncTimer.

(** ** The header row of a division sheet (lines 577-621) *)

Module Header.
Import Str Upload.

(** [row.join(' ').toUpperCase()] *)
Definition rowStr (row : list string) : list ascii := map upper (joinCells row).

(** [rowStr.includes('ROLL') && (rowStr.includes('UID') ||
    rowStr.includes('STUDENT'))] *)
Definition isHeaderRow (row : list string) : bool :=
  includes_chars (chars "ROLL") (rowStr row)
  && (includes_chars (chars "UID") (rowStr row)
      || includes_chars (chars "STUDENT") (rowStr row)).

(** The loop [for (let i = 0; i < Math.min(10, sheetData.length); i++)],
    from row [i] on with [limit] rows still to try. *)
Fixpoint findHeaderRow (i limit : nat) (rows : list (list string)) : option nat :=
  match limit, rows with
  | S k, row :: rest =>
      if isHeaderRow row then Some i else findHeaderRow (S i) k rest
  | _, _ => None
  end.

(** [headerRowIndex], [None] standing for [-1]. *)
Definition headerRowIndex (sheetData : list (list string)) : option nat :=
  findHeaderRow 0 10 sheetData.

(** [array.findIndex(p)], [None] standing for [-1]. *)
Fixpoint findIndex {A : Type} (p : A -> bool) (l : list A) : option nat :=
  match l with
  | [] => None
  | x :: r => if p x then Some 0 else option_map S (findIndex p r)
  end.

(** [h.toString().toUpperCase().includes(word)] *)
Definition cellHas (word : string) (h : string) : bool :=
  includes (toUpperCase h) word.

Definition rollCol (headers : list string) : option nat :=
  findIndex (cellHas "ROLL") headers.

Definition uidCol (headers : list string) : option nat :=
  findIndex (cellHas "UID") headers.

Definition nameCol (headers : list string) : option nat :=
  findIndex (fun h => cellHas "NAME" h || cellHas "STUDENT" h) headers.

Definition divCol (headers : list string) : option nat :=
  findIndex (fun h => cellHas "DIV" h || cellHas "BATCH" h) headers.

(** [rollCol === -1 || uidCol === -1 || nameCol === -1] *)
Definition missingColumns (headers : list string) : bool :=
  match rollCol headers, uidCol headers, nameCol headers with
  | Some _, Some _, Some _ => false
  | _, _, _ => true
  end.

End Header.

(** ** The reconciler's updates as a list of commands *)

Module Replay.
Import Db Upload.

(** One [updateOne]: the query and the change. *)
Definition Command : Type := (Allocation -> bool) * (Allocation -> Allocation).

Definition query (c : Command) : Allocation -> bool := fst c.
Definition change (c : Command) : Allocation -> Allocation := snd c.

Definition apply1 (c : Command) (l : list Allocation) : list Allocation :=
  match update_first (query c) (change c) l with
  | Some l' => l'
  | None => l
  end.

Definition replay (cs : list Command) (l : list Allocation) : list Allocation :=
  fold_left (fun l c => apply1 c l) cs l.

Definition totalsCommand (e : AllocKey * AllocUpdate) : Command :=
  (allocMatches (au_subjectId (snd e)) (au_type (snd e)) (au_division (snd e))
     (au_batch (snd e)),
   setTotals (au_totalPlanned (snd e)) (au_totalConducted (snd e))).

Definition membersCommand (e : AllocKey * AllocStudents) : Command :=
  (allocMatches (as_subjectId (snd e)) (as_type (snd e)) (as_division (snd e))
     (as_batch (snd e)),
   addStudents (as_students (snd e))).

(** The fields the queries of the reconciler read. *)
Definition sameKey (x y : Allocation) : Prop :=
  alloc_subjectId y = alloc_subjectId x /\ alloc_type y = alloc_type x
  /\ alloc_division y = alloc_division x /\ alloc_batch y = alloc_batch x.

Definition reconciler (c : Command) : Prop :=
  (forall x y, sameKey x y -> query c y = query c x)
  /\ ((exists a b : N, change c = setTotals a b)
      \/ (exists ids : list ObjectId, change c = addStudents ids)).

(** The changes of the commands whose query matches [k], in order. *)
Definition changes (cs : list Command) (k : Allocation) (y : Allocation) : Allocation :=
  fold_left (fun y c => if query c k then change c y else y) cs y.

(** The totals a run of changes leaves ([None]: those it found) and the
    students it adds. *)
Definition normalForm (tot : option (N * N)) (ids : list ObjectId) (y : Allocation)
  : Allocation :=
  {| alloc_id := alloc_id y; alloc_subjectId := alloc_subjectId y;
     alloc_teacherId := alloc_teacherId y; alloc_type := alloc_type y;
     alloc_division := alloc_division y; alloc_batch := alloc_batch y;
     totalPlanned := match tot with Some t => fst t | None => totalPlanned y end;
     alloc_totalConducted :=
       match tot with Some t => snd t | None => alloc_totalConducted y end;
     alloc_students := addEachToSet ids (alloc_students y) |}.

(** The state of the row loop without the database. *)
Definition bookkeeping (st : Loop)
  : list (AllocKey * AllocUpdate) * list (AllocKey * AllocStudents)
    * (nat * list RowError * nat * nat) :=
  (allocationUpdates st, allocationStudents st,
   (recordsCreated st, errors st, studentsFound st, studentsNotFound st)).

End Replay.

(** ** The row loop as a list of upserts *)

Module Writes.
Import Db Upload Keys.

(** A stored row and a [$set] document without their time stamps. *)
Definition unstamp (r : Attendance) : Attendance :=
  {| att_id := att_id r; att_studentId := att_studentId r;
     att_subjectId := att_subjectId r; att_type := att_type r;
     totalConducted := totalConducted r; totalAttended := totalAttended r;
     percentage := percentage r; period := period r;
     att_division := att_division r; att_batch := att_batch r;
     recordedBy := recordedBy r; updatedAt := 0 |}.

Definition unstampSet (u : SummarySet) : SummarySet :=
  {| set_totalConducted := set_totalConducted u;
     set_totalAttended := set_totalAttended u;
     set_percentage := set_percentage u; set_period := set_period u;
     set_division := set_division u; set_batch := set_batch u;
     set_recordedBy := set_recordedBy u; set_updatedAt := 0 |}.

(** One upsert: its query and its [$set]. *)
Definition Write : Type := SummaryQuery * SummarySet.

Definition queryOf (x : Write) : SummaryQuery := fst x.
Definition setOf (x : Write) : SummarySet := snd x.

(** The rows and the next free id. *)
Definition Store : Type := list Attendance * ObjectId.

Definition rowsIn (s : Store) : list Attendance := fst s.
Definition freshIn (s : Store) : ObjectId := snd s.

Definition upsert (x : Write) (s : Store) : Store :=
  (fst (fst (findOneAndUpsert (queryOf x) (setOf x) (rowsIn s) (freshIn s))),
   snd (findOneAndUpsert (queryOf x) (setOf x) (rowsIn s) (freshIn s))).

Definition replayWrites (xs : list Write) (s : Store) : Store :=
  fold_left (fun s x => upsert x s) xs s.

(** The [$set] carries the period the query asks for, as the upload's
    do. *)
Definition wellFormed (x : Write) : Prop :=
  set_period (setOf x) = q_period (queryOf x).

Definition present (q : SummaryQuery) (s : Store) : Prop :=
  exists r, find_first (matches q) (rowsIn s) = Some r.

(** The summaries of a database, time stamps aside, and its next id. *)
Definition storeOf (w : World) : Store := (map unstamp (attendances w), nextId w).

(** The store with the student documents, to which each upsert links the
    summary it returns. *)
Definition Linked : Type := Store * list Student.

Definition returned (x : Write) (s : Store) : ObjectId :=
  snd (fst (findOneAndUpsert (queryOf x) (setOf x) (rowsIn s) (freshIn s))).

Definition upsertLinked (x : Write) (s : Linked) : Linked :=
  (upsert x (fst s),
   linkRecord (q_studentId (queryOf x)) (returned x (fst s)) (snd s)).

Definition replayLinked (xs : list Write) (s : Linked) : Linked :=
  fold_left (fun s x => upsertLinked x s) xs s.

Definition linkedOf (w : World) : Linked := (storeOf w, students w).

Definition hasId (id : ObjectId) (st : Student) : bool := Nat.eqb (stu_id st) id.

(** The summary the query finds is listed by the student document the
    link goes to. *)
Definition ready (q : SummaryQuery) (s : Linked) : Prop :=
  forall r st,
    find_first (matches q) (rowsIn (fst s)) = Some r ->
    find_first (hasId (q_studentId q)) (snd s) = Some st ->
    att_id r ∈ attedanceRecord st.

Definition noWorld : World :=
  {| attendances := []; students := []; subjects := []; allocations := [];
     nextId := 0; clock := 0 |}.

End Writes.

(** ** A student's attendance: [router.get('/student/:studentId', ...)] *)

Module StudentRoute.
Import JS Db SubjectLines.

(** A value of [subjectStats], the internal [updatedAt] aside. *)
Record Stat : Type := {
  stat_subject : Subject;
  stat_type : Kind;
  stat_totalConducted : num;
  stat_totalAttended : num;
  stat_percent : num;
  stat_period : Field;
  stat_division : option string;
  stat_batch : option string
}.

(** The key [subjectId + '_' + type]. *)
Definition StatKey : Type := ObjectId * Kind.

Definition statKey_eqb (a b : StatKey) : bool :=
  Nat.eqb (fst a) (fst b) && kind_eqb (snd a) (snd b).

(** The object assigned to [subjectStats[key]] for a record. *)
Definition statOf (sub : Subject) (r : Attendance) : Stat :=
  {| stat_subject := sub;
     stat_type := att_type r;
     stat_totalConducted := or_else (totalConducted r) (Fin 0);
     stat_totalAttended := or_else (totalAttended r) (Fin 0);
     stat_percent := recordPercent r;
     stat_period := period r;
     stat_division := att_division r;
     stat_batch := att_batch r |}.

(** [if (!current || new Date(record.updatedAt) > new Date(current.updatedAt))
    subjectStats[key] = entry]: an existing key keeps its place. *)
Fixpoint newest (key : StatKey) (entry : Stat * nat)
    (m : list (StatKey * (Stat * nat))) : list (StatKey * (Stat * nat)) :=
  match m with
  | [] => [(key, entry)]
  | (k, current) :: r =>
      if statKey_eqb k key
      then (if Nat.ltb (snd current) (snd entry) then (k, entry) else (k, current)) :: r
      else (k, current) :: newest key entry r
  end.

(** The callback of [attendance.forEach]. *)
Definition statStep (m : list (StatKey * (Stat * nat)))
    (rec : Attendance * option Subject) : list (StatKey * (Stat * nat)) :=
  match snd rec with
  | None => m
  | Some sub =>
      newest (sub_id sub, att_type (fst rec))
        (statOf sub (fst rec), updatedAt (fst rec)) m
  end.

(** [subjectStats] after the loop over the records the query returned
    (lines 1315-1338). *)
Definition statsTable (attendance : list (Attendance * option Subject))
  : list (StatKey * (Stat * nat)) :=
  fold_left statStep attendance [].

(** [Object.values(subjectStats)], the internal field deleted. *)
Definition subjectStats (attendance : list (Attendance * option Subject))
  : list Stat :=
  map (fun e => fst (snd e)) (statsTable attendance).

(** The key of an entry of the answer. *)
Definition keyOfStat (s : Stat) : StatKey := (sub_id (stat_subject s), stat_type s).

End StudentRoute.


(** ** Sample sheets and databases *)

Module Samples.
Import Db Upload Handler.

Definition softwareEngineering : Subject :=
  {| sub_id := 100; sub_name := "Software Engineering"; sub_code := "SE" |}.

Definition studentOne : Student :=
  {| stu_id := 1; studentId := "U1"; stu_name := "Student One";
     stu_email := "one@spit.ac.in"; stu_division := Some "A"; stu_batch := Some "B";
     departmentId := None; semesterId := None; attedanceRecord := [] |}.

Definition studentTwo : Student :=
  {| stu_id := 2; studentId := "U2"; stu_name := "Student Two";
     stu_email := "two@spit.ac.in"; stu_division := Some "A"; stu_batch := Some "A";
     departmentId := None; semesterId := None; attedanceRecord := [] |}.

(** The Practical allocations of batches A and B of division A, with the
    totals stored before the upload. *)
Definition labBatchA : Allocation :=
  {| alloc_id := 50; alloc_subjectId := 100; alloc_teacherId := 9;
     alloc_type := Practical; alloc_division := Some "A"; alloc_batch := Some "A";
     totalPlanned := 7; alloc_totalConducted := 7; alloc_students := [] |}.

Definition labBatchB : Allocation :=
  {| alloc_id := 51; alloc_subjectId := 100; alloc_teacherId := 9;
     alloc_type := Practical; alloc_division := Some "A"; alloc_batch := Some "B";
     totalPlanned := 0; alloc_totalConducted := 0; alloc_students := [] |}.

Definition college : World :=
  {| attendances := []; students := [studentOne; studentTwo];
     subjects := [softwareEngineering]; allocations := [labBatchA; labBatchB];
     nextId := 1000; clock := 0 |}.

(** A lab column whose declaration row gives a total for batch B only. *)
Definition labCell : string := "SE (Lab) B=11".

Definition labColumn : SheetSubject :=
  {| name := "SE"; type := Practical; sheetTotal := None;
     sheetBatchInfo := Some (BatchInfo.parseBatchInfo labCell);
     attendedCol := 4; percentageCol := Some 5 |}.

Definition titleRows : list (list string) :=
  [ [""; "Month & Year"];
    [];
    [""; ""; ""; ""; "Lab Subjects"; ""];
    [""; ""; ""; ""; labCell; ""];
    ["Roll"; "UID"; "NAME OF STUDENTS"; "Batch"; "SE (Lab) Lab attended"; "% attended"] ].

Definition rowOne : list string := ["1"; "U1"; "Student One"; "B"; "9"; "82"].
Definition rowTwo : list string := ["2"; "U2"; "Student Two"; "A"; "8"; "80"].

Definition labSheet (rows : list (list string)) : Sheet :=
  {| sheetData := titleRows ++ rows;
     layout := Parsed 4 1 [labColumn] |}.

(** The same sheet with a period in its title row. *)
Definition datedSheet (rows : list (list string)) : Sheet :=
  {| sheetData :=
       [""; "Month & Year"; ""; ""; "Aug-25 to Oct-25"] :: drop 1 titleRows ++ rows;
     layout := Parsed 4 1 [labColumn] |}.

Definition upload (division : option string) (sheet : Sheet) : Request :=
  {| req_division := division;
     req_file := Some {| path := "uploads/f1"; originalname := "division-a.xlsx" |};
     userId := 9; content := sheet; readFails := false; databaseDown := false |}.

Definition server (w : World) : Server :=
  {| db := w; files := {[ "uploads/f1" ]} |}.

(** The summary of a student in a subject, when there is exactly one
    place to look. *)
Definition summaryOf (student subject : ObjectId) (w : World) : option Attendance :=
  find_first (fun r => Nat.eqb (att_studentId r) student
                       && Nat.eqb (att_subjectId r) subject) (attendances w).

Definition allocationOf (id : ObjectId) (w : World) : option Allocation :=
  find_first (fun a => Nat.eqb (alloc_id a) id) (allocations w).

(** A theory column without a declared total, and a row whose attended
    cell is empty. *)
Definition theoryInfo : SubjectInfo :=
  {| subjectId := 100; subjectName := "Software Engineering"; si_type := Theory;
     totalLectures := None; batchInfo := None |}.

Definition divisionA : Ctx :=
  {| division := "A"; teacherId := 9; uidCol := 1; sheetPeriod := None;
     divisionStudents := studentsOfDivision "A" college |}.

Definition thirtyRow : list string := ["1"; "U1"; "Student One"; "B"; "30"; ""].

(** A student whose only summary carries the percentage 74.995 that the
    percentage cell of a sheet gave it. *)
Definition nearThreshold : Attendance :=
  {| att_id := 500; att_studentId := 1; att_subjectId := 100; att_type := Theory;
     totalConducted := JS.Fin 40; totalAttended := JS.Fin 30;
     percentage := JS.Fin (14999 # 200); period := Null; att_division := Some "A";
     att_batch := None; recordedBy := 9; updatedAt := 3 |}.

Definition collegeNearThreshold : World :=
  {| attendances := [nearThreshold]; students := [studentOne];
     subjects := [softwareEngineering]; allocations := [];
     nextId := 1000; clock := 4 |}.









End Samples.

(** * Properties *)

(** ** The batch-info parser *)

Section BatchInfoFacts.
Import Str BatchInfo.

Lemma run_le (p : ascii -> bool) (s : list ascii) : run p s <= List.length s.
Proof. induction s as [|c r IH]; simpl; [lia|]. destruct (p c); simpl; lia. Qed.

Lemma run_take_all (p : ascii -> bool) (s : list ascii) :
  forallb p (take (run p s) s) = true.
Proof.
  induction s as [|c r IH]; simpl; [reflexivity|].
  destruct (p c) eqn:E; simpl; [rewrite E; exact IH | reflexivity].
Qed.

Lemma run_app_stop (p : ascii -> bool) (pre : list ascii) (c : ascii) (r : list ascii) :
  forallb p pre = true -> p c = false -> run p (pre ++ c :: r) = List.length pre.
Proof.
  induction pre as [|a pre IH]; simpl; intros Hall Hc.
  - rewrite Hc. reflexivity.
  - apply andb_prop in Hall as [Ha Hall]. rewrite Ha. f_equal. exact (IH Hall Hc).
Qed.


Lemma sep_not_space (c : ascii) : is_sep c = true -> is_space c = false.
Proof.
  unfold is_sep. intros H. apply orb_prop in H as [H|H];
    apply Ascii.eqb_eq in H; subst c; reflexivity.
Qed.

Lemma digit_not_space (c : ascii) : is_digit c = true -> is_space c = false.
Proof.
  unfold is_digit, is_space, between. intros H.
  apply andb_prop in H as [H1 H2].
  apply Nat.leb_le in H1. apply Nat.leb_le in H2.
  repeat (apply orb_false_intro); try apply andb_false_intro2.
  - apply Nat.leb_gt. lia.
  - apply Nat.eqb_neq. lia.
  - apply Nat.eqb_neq. lia.
Qed.

(** A match found by the scanner is an occurrence of the pattern. *)
Lemma batch_match_sound (s : list ascii) (l : ascii) (ds : list ascii) (len : nat) :
  batch_match s = Some (l, ds, len) -> pattern_at s.
Proof.
  destruct s as [|c r]; simpl; [discriminate|].
  destruct (is_batch_letter c) eqn:Hc; [|discriminate].
  destruct (drop (run is_space r) r) as [|sep r2] eqn:Hd; [discriminate|].
  destruct (is_sep sep) eqn:Hs; [|discriminate].
  set (t := drop (run is_space r2) r2).
  destruct (take (run is_digit t) t) as [|d ds'] eqn:Ht; [discriminate|].
  intros _.
  exists c, (take (run is_space r) r), sep, (take (run is_space r2) r2),
    (take (run is_digit t) t), (drop (run is_digit t) t).
  repeat split.
  - f_equal. rewrite <- (take_drop (run is_space r) r) at 1. f_equal.
    rewrite Hd. f_equal.
    rewrite <- (take_drop (run is_space r2) r2) at 1. f_equal.
    fold t. symmetry. apply take_drop.
  - exact Hc.
  - apply run_take_all.
  - exact Hs.
  - apply run_take_all.
  - rewrite Ht. discriminate.
  - apply run_take_all.
Qed.

(** The scanner finds every occurrence that starts where it looks. *)
Lemma batch_match_complete (s : list ascii) :
  pattern_at s -> batch_match s <> None.
Proof.
  intros (c & ws1 & sep & ws2 & ds & rest & -> & Hc & H1 & Hs & H2 & Hne & Hd).
  simpl. rewrite Hc.
  rewrite (run_app_stop is_space ws1 sep _ H1 (sep_not_space _ Hs)).
  rewrite drop_app_length. rewrite Hs.
  destruct ds as [|d ds]; [congruence|].
  simpl in Hd. apply andb_prop in Hd as [Hd0 Hd].
  replace (ws2 ++ (d :: ds) ++ rest) with (ws2 ++ d :: (ds ++ rest)) by reflexivity.
  rewrite (run_app_stop is_space ws2 d _ H2 (digit_not_space _ Hd0)).
  rewrite drop_app_length. simpl. rewrite Hd0. simpl. discriminate.
Qed.

Lemma exec_loop_no_match (s : list ascii) :
  forall (skip : nat) (acc : gmap string N),
    (forall pre suf, s = pre ++ suf -> batch_match suf = None) ->
    exec_loop skip s acc = acc.
Proof.
  induction s as [|c r IH]; intros skip acc Hno; cbn [exec_loop]; [reflexivity|].
  assert (Hr : forall pre suf, r = pre ++ suf -> batch_match suf = None).
  { intros pre suf ->. apply (Hno (c :: pre)). reflexivity. }
  destruct skip as [|k]; [|apply IH; exact Hr].
  rewrite (Hno [] (c :: r) eq_refl). apply IH; exact Hr.
Qed.

Lemma suffixes_all (pre suf : list ascii) : In suf (suffixes (pre ++ suf)).
Proof.
  induction pre as [|a pre IH]; simpl.
  - destruct suf; simpl; auto.
  - right. exact IH.
Qed.

Lemma contains_pattern_found (s : list ascii) :
  contains_pattern s ->
  existsb (fun suf => match batch_match suf with Some _ => true | None => false end)
          (suffixes s) = true.
Proof.
  intros (pre & suf & -> & Hp). apply existsb_exists. exists suf. split.
  - apply suffixes_all.
  - apply batch_match_complete in Hp. destruct (batch_match suf); congruence.
Qed.

Lemma parseBatchInfo_no_pattern (text : string) :
  ~ contains_pattern (normalize text) -> parseBatchInfo text = ∅.
Proof.
  intros Hno. unfold parseBatchInfo. destruct (is_empty text); [reflexivity|].
  apply exec_loop_no_match. intros pre suf Heq.
  destruct (batch_match suf) as [[[l ds] len]|] eqn:Hm; [|reflexivity].
  exfalso. apply Hno. exists pre, suf. split; [exact Heq|].
  eapply batch_match_sound. exact Hm.
Qed.

End BatchInfoFacts.

(** C8. [parseBatchInfo] maps "A= 10, B= 11            C= 11, D=  10" to
    A:10, B:11, C:11, D:10, maps the empty string to the empty mapping, and
    returns the empty mapping for every text whose normalized form holds no
    occurrence of the pattern "letter A-D, separator, digits"; being a total
    function it raises no error on any text. *)
Theorem parseBatchInfo_round_trip :
  BatchInfo.parseBatchInfo "A= 10, B= 11            C= 11, D=  10"
    = {[ "A" := 10%N; "B" := 11%N; "C" := 11%N; "D" := 10%N ]}
  /\ BatchInfo.parseBatchInfo "" = ∅
  /\ forall text : string,
       ~ BatchInfo.contains_pattern (BatchInfo.normalize text) ->
       BatchInfo.parseBatchInfo text = ∅.
Proof.
  split; [vm_compute; reflexivity|].
  split; [reflexivity|].
  exact parseBatchInfo_no_pattern.
Qed.

Lemma parseBatchInfo_round_trip_witness :
  ~ BatchInfo.contains_pattern (BatchInfo.normalize "Lab totals: see notice board")
  /\ BatchInfo.parseBatchInfo "Lab totals: see notice board" = ∅.
Proof.
  assert (H : ~ BatchInfo.contains_pattern
                (BatchInfo.normalize "Lab totals: see notice board")).
  { intros Hc. apply contains_pattern_found in Hc. vm_compute in Hc. discriminate. }
  split; [exact H|].
  exact (proj2 (proj2 parseBatchInfo_round_trip) _ H).
Defined.

(** ** Arithmetic of the embedded numbers *)

Create HintDb jsnum.

Section NumFacts.
Import JS.
#[local] Open Scope Q_scope.

Lemma Qfloor_half (z : Z) : Qfloor (inject_Z z + (1 # 2)) = z.
Proof.
  unfold Qfloor, Qplus, inject_Z; simpl.
  symmetry. apply (Z.div_unique _ 2 z 1); lia.
Qed.

Lemma round_integral (x : num) : integral x -> round x = x.
Proof.
  destruct x as [|q| |]; try reflexivity.
  intros [z ->]. cbn [round]. unfold ofZ. rewrite Qfloor_half. reflexivity.
Qed.

Lemma integral_round (x : num) : integral (round x).
Proof. destruct x; simpl; eauto. Qed.

Lemma integral_ceil (x : num) : integral (ceil x).
Proof. destruct x; simpl; eauto. Qed.

Lemma integral_ofN (n : N) : integral (ofN n).
Proof. simpl. eauto. Qed.

Lemma integral_max (a b : num) : integral a -> integral b -> integral (max a b).
Proof.
  intros Ha Hb. unfold max.
  destruct a, b; simpl; try exact I; try assumption;
    destruct (Qle_bool _ _); assumption.
Qed.

Lemma leb_max_r (x a b : num) : leb x b = true -> isNaN a = false -> leb x (max a b) = true.
Proof.
  intros Hx Ha. destruct a as [|qa| |]; [discriminate| | |];
    destruct b as [|qb| |]; destruct x as [|qx| |]; simpl in *;
    try discriminate; try reflexivity; try assumption;
    destruct (Qle_bool qa qb) eqn:E; simpl; try assumption; try reflexivity.
  apply Qle_bool_iff. apply Qle_bool_iff in Hx.
  assert (H : ~ qa <= qb) by (intros H; apply Qle_bool_iff in H; congruence).
  apply Qnot_le_lt in H. apply Qlt_le_weak in H. eapply Qle_trans; eauto.
Qed.

Lemma Qltb_false_le (a b : Q) : Qltb a b = false -> b <= a.
Proof.
  unfold Qltb. destruct (Qcompare a b) eqn:E; try discriminate; intros _.
  - apply Qeq_alt in E. rewrite E. apply Qle_refl.
  - apply Qgt_alt in E. apply Qlt_le_weak. exact E.
Qed.

Lemma leb_ceil_buffer (a : num) :
  isNaN a = false -> ltb a (Fin 0) = false ->
  leb a (ceil (mul a (Fin (12 # 10)))) = true.
Proof.
  destruct a as [|q| |]; simpl; try discriminate; try reflexivity.
  intros _ Hq. apply Qltb_false_le in Hq.
  apply Qle_bool_iff.
  eapply Qle_trans; [|apply Qle_ceiling].
  rewrite Qred_correct.
  assert (H : q * 1 <= q * (12 # 10)).
  { apply Qmult_le_compat_nonneg; split; try assumption; try apply Qle_refl; discriminate. }
  rewrite Qmult_1_r in H. exact H.
Qed.

End NumFacts.

#[global] Hint Resolve integral_round integral_ceil integral_ofN integral_max : jsnum.

Section SafetyFloor.
Import JS Db Upload.

Lemma derivedTotal_integral (lectures : option N) (a p : num) :
  integral (derivedTotal lectures a p).
Proof.
  unfold derivedTotal.
  destruct lectures as [n|]; [destruct (N.eqb n 0)|];
    try destruct (gtb p (Fin 0)); auto with jsnum.
Qed.

Lemma totalClassesOf_integral (lectures : option N) (a p : num) :
  integral (totalClassesOf lectures a p).
Proof.
  unfold totalClassesOf.
  destruct (negb (truthy _) || ltb _ a); auto using derivedTotal_integral with jsnum.
Qed.

Lemma skipped_false (a : num) :
  skipped a = false -> isNaN a = false /\ ltb a (Fin 0) = false.
Proof. unfold skipped. intros H. apply orb_false_elim in H. exact H. Qed.

Lemma totalClassesOf_ge (lectures : option N) (a p : num) :
  skipped a = false -> leb a (totalClassesOf lectures a p) = true.
Proof.
  intros Hs. destruct (skipped_false a Hs) as [Hn Hz].
  unfold totalClassesOf.
  set (t := derivedTotal lectures a p).
  destruct (negb (truthy t) || ltb t a) eqn:E.
  - apply leb_max_r; [apply leb_ceil_buffer; assumption|].
    destruct a; try discriminate; reflexivity.
  - apply orb_false_elim in E as [Et El].
    destruct a as [|q| |]; try discriminate;
      destruct t as [|qt| |]; try discriminate; try reflexivity.
    simpl in *. apply Qle_bool_iff. apply Qltb_false_le. exact El.
Qed.

Lemma periodMatches_refl (p : option string) :
  periodMatches p (opt_field p) = true.
Proof. destruct p as [s|]; simpl; [apply String.eqb_refl | reflexivity]. Qed.

Lemma update_first_found {A : Type} (p : A -> bool) (f : A -> A) (l : list A) (x : A) :
  find_first p l = Some x ->
  p (f x) = true ->
  exists l', update_first p f l = Some l' /\ find_first p l' = Some (f x).
Proof.
  induction l as [|y r IH]; simpl; [discriminate|].
  destruct (p y) eqn:Hy.
  - intros [= ->] Hf. eexists; split; [reflexivity|]. simpl. rewrite Hf. reflexivity.
  - intros Hx Hf. destruct (IH Hx Hf) as (l' & -> & Hl').
    eexists; split; [reflexivity|]. simpl. rewrite Hy. exact Hl'.
Qed.

Lemma find_first_app_new {A : Type} (p : A -> bool) (l : list A) (y : A) :
  find_first p l = None -> p y = true -> find_first p (l ++ [y]) = Some y.
Proof.
  induction l as [|x r IH]; simpl; intros Hn Hy; [rewrite Hy; reflexivity|].
  destruct (p x); [discriminate|]. apply IH; assumption.
Qed.

Lemma update_first_none {A : Type} (p : A -> bool) (f : A -> A) (l : list A) :
  find_first p l = None -> update_first p f l = None.
Proof.
  induction l as [|x r IH]; simpl; [reflexivity|].
  destruct (p x); [discriminate|]. intros H. rewrite (IH H). reflexivity.
Qed.

(** After the upsert the first document the query matches carries the
    values of the [$set]. *)
Lemma upsert_stored (q : SummaryQuery) (u : SummarySet) (coll : list Attendance)
    (fresh : ObjectId) :
  set_period u = q_period q ->
  exists r, find_first (matches q) (fst (fst (findOneAndUpsert q u coll fresh))) = Some r
            /\ totalConducted r = set_totalConducted u
            /\ totalAttended r = set_totalAttended u
            /\ percentage r = set_percentage u.
Proof.
  intros Hp. unfold findOneAndUpsert.
  destruct (find_first (matches q) coll) as [r|] eqn:Hf.
  - assert (Hm : matches q (applySet u r) = true).
    { assert (Hr : matches q r = true).
      { clear -Hf. induction coll as [|y l IH]; simpl in Hf; [discriminate|].
        destruct (matches q y) eqn:E; [congruence | auto]. }
      unfold matches in *. simpl. rewrite Hp, periodMatches_refl.
      apply andb_prop in Hr as [Hr _]. rewrite Hr. reflexivity. }
    destruct (update_first_found _ (applySet u) _ _ Hf Hm) as (l' & -> & Hl').
    simpl. exists (applySet u r). auto.
  - simpl. exists (inserted fresh q u). split; [|auto].
    apply find_first_app_new; [exact Hf|].
    unfold matches. simpl. rewrite !Nat.eqb_refl, Hp, periodMatches_refl.
    destruct (q_type q); reflexivity.
Qed.

Lemma withBatchTotal_static (student : StudentView) (info : SubjectInfo) :
  subjectId (withBatchTotal student info) = subjectId info
  /\ si_type (withBatchTotal student info) = si_type info.
Proof.
  unfold withBatchTotal. destruct (si_type info) eqn:E; [auto|].
  destruct (batchTotal _ _); simpl; auto.
Qed.

(** A cell that is not skipped leaves a row in its slot, and that row
    carries the values computed for the cell. *)
Lemma processCell_stored (ctx : Ctx) (student : StudentView) (row : list string)
    (col : nat) (info : SubjectInfo) (st : Loop) :
  skipped (cellNumber row col) = false ->
  let attended := cellNumber row col in
  let pct := cellNumber row (col + 1) in
  let lectures := totalLectures (withBatchTotal student info) in
  exists r,
    find_first
      (matches {| q_studentId := sv_id student; q_subjectId := subjectId info;
                  q_type := si_type info; q_period := sheetPeriod ctx |})
      (attendances (world (snd (processCell ctx student row col info st)))) = Some r
    /\ totalConducted r = round (totalClassesOf lectures attended pct)
    /\ totalAttended r = round attended.
Proof.
  intros Hs. cbv zeta. unfold processCell. rewrite Hs.
  destruct (withBatchTotal_static student info) as [Hid Hty].
  set (info' := withBatchTotal student info) in *.
  unfold summaryFor.
  match goal with
  | |- context [findOneAndUpsert ?q ?u ?c ?f] =>
      destruct (upsert_stored q u c f eq_refl) as (r & Hr & Hc & Ha & _);
      destruct (findOneAndUpsert q u c f) as [[coll rid] nid]
  end.
  cbn [fst snd world attendances q_subjectId q_type] in Hr |- *.
  rewrite Hid, Hty in Hr.
  exists r. split; [exact Hr|]. split; [exact Hc | exact Ha].
Qed.

(** C4. For every processed (student row, subject column) pair the stored
    totalConducted is at least the attended value; when the derived total is
    below the attended value it is raised to
    max(round(attended), ceil(attended * 1.2)); with attended = 30, no
    positive percentage cell and no declared total, totalConducted >= 30. *)
Theorem safety_floor (ctx : Ctx) (student : StudentView) (row : list string)
    (col : nat) (info : SubjectInfo) (st : Loop) :
  skipped (cellNumber row col) = false ->
  let attended := cellNumber row col in
  let pct := cellNumber row (col + 1) in
  let lectures := totalLectures (withBatchTotal student info) in
  let st' := snd (processCell ctx student row col info st) in
  exists r,
    find_first
      (matches {| q_studentId := sv_id student; q_subjectId := subjectId info;
                  q_type := si_type info; q_period := sheetPeriod ctx |})
      (attendances (world st')) = Some r
    /\ leb attended (totalConducted r) = true
    /\ (ltb (derivedTotal lectures attended pct) attended = true ->
        totalConducted r
        = max (round attended) (ceil (mul attended (Fin (12 # 10)))))
    /\ (attended = Fin 30 -> gtb pct (Fin 0) = false -> lectures = None ->
        leb (Fin 30) (totalConducted r) = true).
Proof.
  intros Hs.
  destruct (processCell_stored ctx student row col info st Hs) as (r & Hr & Hc & _).
  cbv zeta in *. exists r. split; [exact Hr|].
  rewrite Hc, round_integral by apply totalClassesOf_integral.
  pose proof (totalClassesOf_ge
                (totalLectures (withBatchTotal student info))
                (cellNumber row col) (cellNumber row (col + 1)) Hs) as Hge.
  split; [exact Hge|]. split.
  - intros Hlt. unfold totalClassesOf. rewrite Hlt, orb_true_r. reflexivity.
  - intros Ha _ _. rewrite Ha in Hge at 1. exact Hge.
Qed.

End SafetyFloor.

Lemma safety_floor_witness :
  Upload.skipped (Upload.cellNumber Samples.thirtyRow 4) = false
  /\ exists r,
       Db.find_first
         (Upload.matches {| Upload.q_studentId := 1; Upload.q_subjectId := 100;
                            Upload.q_type := Db.Theory; Upload.q_period := None |})
         (Db.attendances
            (Upload.world
               (snd (Upload.processCell Samples.divisionA (Upload.view Samples.studentOne)
                       Samples.thirtyRow 4 Samples.theoryInfo
                       (Handler.startLoop Samples.college))))) = Some r
       /\ JS.leb (JS.Fin 30) (Db.totalConducted r) = true.
Proof.
  split; [reflexivity|].
  destruct (safety_floor Samples.divisionA (Upload.view Samples.studentOne)
              Samples.thirtyRow 4 Samples.theoryInfo
              (Handler.startLoop Samples.college) eq_refl)
    as (r & Hr & Hge & _).
  exists r. split; [exact Hr | exact Hge].
Defined.

(** ** The skip rule of the upserter *)

(** *** Reading an attended cell *)

Section CellReading.
Import JS Str ParseFloat Upload.
#[local] Open Scope Q_scope.













End CellReading.

(** *** Which cells are skipped *)

Section SkipRule.
Import JS Str ParseFloat Db Upload.
#[local] Open Scope Q_scope.








End SkipRule.

Section Bands.
Import JS Db Defaulters.
#[local] Open Scope Q_scope.

Lemma Qltb_lt (a b : Q) : Qltb a b = true <-> a < b.
Proof.
  unfold Qltb. rewrite Qlt_alt. destruct (a ?= b); split; congruence.
Qed.




End Bands.

Section BandTheorems.
Import JS Db Defaulters.
#[local] Open Scope Q_scope.

Lemma placeStudent_filed (w : World) (ids : option (list ObjectId)) (rep : Report)
    (student : Student) (b : Band) :
  let records := attendanceOf w (stu_id student) (restriction ids) in
  filed b (placeStudent w ids rep student)
  = match records with
    | [] => filed b rep
    | _ =>
        match bandOf (percentOf records) with
        | Some b' =>
            if band_eqb b b' then filed b rep ++ [itemOf student records]
            else filed b rep
        | None => filed b rep
        end
    end.
Proof.
  cbv zeta. unfold placeStudent.
  destruct (attendanceOf w (stu_id student) (restriction ids)) as [|r l];
    [reflexivity|].
  destruct (bandOf (percentOf (r :: l))) as [[| |]|]; destruct b; reflexivity.
Qed.










End BandTheorems.

(** ** The uploaded file *)

Section FileCleanup.
Import Db Upload Outcome Handler.

Lemma unlinkSync_gone (p : string) (sv sv' : Server) :
  unlinkSync p sv = Return sv' -> (p ∉ files sv') /\ db sv' = db sv.
Proof.
  unfold unlinkSync. destruct (decide (p ∈ files sv)); [|discriminate].
  intros H. inversion H. simpl. split; [|reflexivity].
  rewrite elem_of_difference, elem_of_singleton. tauto.
Qed.

Lemma unlinkSync_throws (p : string) (sv : Server) (e : string) :
  unlinkSync p sv = Throw e -> p ∉ files sv.
Proof.
  unfold unlinkSync. destruct (decide (p ∈ files sv)); [discriminate | auto].
Qed.

Lemma tryUnlink_gone (p : string) (sv : Server) : p ∉ files (tryUnlink p sv).
Proof.
  unfold tryUnlink. destruct (unlinkSync p sv) eqn:E.
  - apply (unlinkSync_gone _ _ _ E).
  - apply (unlinkSync_throws _ _ _ E).
Qed.

Lemma reject_gone (p msg : string) (sv : Server) : p ∉ files (fst (reject p msg sv)).
Proof.
  unfold reject. destruct (unlinkSync p sv) eqn:E; simpl.
  - apply (unlinkSync_gone _ _ _ E).
  - apply tryUnlink_gone.
Qed.

(** Every exit of [processDivisionSheet] leaves the file deleted. *)
Lemma processDivisionSheet_gone (sheet : Sheet) (division : string)
    (teacher : ObjectId) (p : string) (dbDown : bool) (sv : Server) :
  p ∉ files (fst (processDivisionSheet sheet division teacher p dbDown sv)).
Proof.
  unfold processDivisionSheet.
  destruct (layout sheet); try apply reject_gone.
  destruct dbDown; [apply tryUnlink_gone|].
  destruct (mapSubjects _ _ _ _) as [subjectMap unmatched].
  destruct (negb (is_nil unmatched) && is_nil subjectMap); [apply reject_gone|].
  destruct (is_nil (studentsOfDivision division (db sv))); [apply reject_gone|].
  destruct (is_nil subjectMap); [apply reject_gone|].
  destruct (ingest _ _ _ _ _ _ _) as [w' success].
  destruct (unlinkSync p _) eqn:E; simpl.
  - apply (unlinkSync_gone _ _ _ E).
  - apply tryUnlink_gone.
Qed.

Lemma serverError_gone (req : Request) (sv : Server) (f : File) :
  req_file req = Some f -> path f ∉ files sv ->
  path f ∉ files (fst (serverError req sv)).
Proof.
  intros Hf Hn. unfold serverError. rewrite Hf. simpl.
  destruct (Str.is_empty (path f)); [exact Hn | apply tryUnlink_gone].
Qed.

(** Past the division check, every exit of the handler leaves the file
    deleted. *)
Lemma upload_cleans_up (req : Request) (sv : Server) (f : File) :
  req_file req = Some f ->
  path f <> "" ->
  validDivision (req_division req) = true ->
  path f ∉ files (fst (uploadDivisionSheet req sv)).
Proof.
  intros Hf Hp Hv. unfold uploadDivisionSheet. rewrite Hv, Hf. cbn [negb].
  assert (He : forall sv0, path f ∉ files (fst (serverError req sv0))).
  { intros sv0. unfold serverError. rewrite Hf. simpl.
    destruct (path f) eqn:E; [congruence|]. simpl. rewrite <- E.
    apply tryUnlink_gone. }
  destruct (existsb _ _).
  - destruct (readFails req); [apply He|].
    destruct (processDivisionSheet _ _ _ _ _ _) as [sv' [r|e]] eqn:E.
    + simpl. change sv' with (fst (sv', Return (A:=Response) r)). rewrite <- E.
      apply processDivisionSheet_gone.
    + apply He.
  - destruct (unlinkSync (path f) sv) eqn:E; [|apply He].
    simpl. apply (unlinkSync_gone _ _ _ E).
Qed.

(** C7. When the division check rejects a request that carries a file,
    the handler answers 400 and leaves the server as it was: the uploaded
    file is still on disk. *)
Theorem division_check_leaves_file (req : Request) (sv : Server) (f : File) :
  req_file req = Some f ->
  path f ∈ files sv ->
  validDivision (req_division req) = false ->
  fst (uploadDivisionSheet req sv) = sv
  /\ status (snd (uploadDivisionSheet req sv)) = 400
  /\ path f ∈ files (fst (uploadDivisionSheet req sv)).
Proof.
  intros Hf Hin Hv. unfold uploadDivisionSheet. rewrite Hv. simpl. auto.
Qed.

Lemma division_check_leaves_file_witness :
  validDivision (Some "E") = false
  /\ "uploads/f1" ∈ files
       (fst (uploadDivisionSheet
               (Samples.upload (Some "E") (Samples.labSheet [Samples.rowOne]))
               (Samples.server Samples.college))).
Proof.
  split; [reflexivity|].
  refine (proj2 (proj2 (division_check_leaves_file
            (Samples.upload (Some "E") (Samples.labSheet [Samples.rowOne]))
            (Samples.server Samples.college)
            {| path := "uploads/f1"; originalname := "division-a.xlsx" |}
            eq_refl _ eq_refl))).
  simpl. set_solver.
Defined.

End FileCleanup.

(** ** The periodic sync, the defaulter check and the order of rows *)

Section SingleFlight.
Import SyncWorker.

Lemma guarded_initial : guarded initial.
Proof. right. split; reflexivity. Qed.

Lemma guarded_step (e : Event) (s : State) : guarded s -> guarded (step e s).
Proof.
  intros [[Hr [n Hb]] | [Hr Hb]]; destruct e as [work|i|i]; simpl;
    unfold invoke, finish; rewrite ?Hr, ?Hb; simpl.
  - left. simpl. eauto.
  - destruct i as [|i]; simpl.
    + destruct n as [|k]; simpl; [right; auto | left; simpl; eauto].
    + left. eauto.
  - destruct i as [|i]; simpl; [right; auto | left; eauto].
  - left. simpl. eauto.
  - right. auto.
  - right. auto.
Qed.

Lemma guarded_run (events : list Event) (s : State) : guarded s -> guarded (run events s).
Proof.
  revert s. induction events as [|e l IH]; intros s H; simpl; [exact H|].
  apply IH, guarded_step, H.
Qed.

(** C9. After any sequence of invocations, continuations and rejections,
    at most one body of the sync is in flight; a body is in flight exactly
    when the flag is up; and an invocation that arrives while a body is in
    flight starts nothing and changes nothing but the count of skipped
    invocations. *)
Theorem sync_is_single_flight (events : list Event) :
  let s := run events initial in
  List.length (bodies s) <= 1
  /\ (bodies s <> [] <-> isRunning s = true)
  /\ (forall work : nat,
        bodies s <> [] ->
        bodies (step (Invoke work) s) = bodies s
        /\ started (step (Invoke work) s) = started s
        /\ isRunning (step (Invoke work) s) = isRunning s
        /\ skips (step (Invoke work) s) = S (skips s)).
Proof.
  cbv zeta. set (s := run events initial).
  assert (G : guarded s) by (apply guarded_run, guarded_initial).
  destruct G as [[Hr [n Hb]] | [Hr Hb]].
  - split; [rewrite Hb; simpl; lia|]. split.
    + split; [intros _; exact Hr | intros _; rewrite Hb; discriminate].
    + intros work _. simpl. unfold invoke. rewrite Hr. simpl. auto.
  - split; [rewrite Hb; simpl; lia|]. split.
    + split; [intros H; congruence | intros H; congruence].
    + intros work H. congruence.
Qed.

End SingleFlight.

Section NeverThrows.
Import Db Outcome Defaulters.

Lemma forEachM_throws {A S : Type} (f : A -> S -> Completion S) (l1 l2 : list A)
    (x : A) (e : string) :
  (forall s, f x s = Throw e) ->
  forall s, exists e', forEachM f (l1 ++ x :: l2) s = Throw e'.
Proof.
  intros Hx. induction l1 as [|y l1 IH]; intros s; simpl.
  - rewrite Hx. simpl. eauto.
  - destruct (f y s) as [s'|e']; simpl; [apply IH | eauto].
Qed.

Lemma catch_returns {A : Type} (c : Completion A) (h : A) :
  exists a, catch c h = Return a.
Proof. destruct c; simpl; eauto. Qed.

(** C10. [checkDefaulters] always returns: whatever the threshold and the
    subject restriction, when its body throws, be it at the student query
    or at the attendance query of some student, it returns the empty list,
    and the defaulters endpoint then answers with the empty list and not
    with an error. *)
Theorem checkDefaulters_never_throws (b : Backend) (threshold : JS.num)
    (ids : option (list ObjectId)) :
  (exists l, checkDefaulters b threshold ids = Return l)
  /\ (forall e, checkDefaultersBody b threshold ids = Throw e ->
                checkDefaulters b threshold ids = Return [])
  /\ (forall e, findStudents b = Throw e ->
                checkDefaulters b threshold ids = Return [])
  /\ (forall (before after : list Student) (s : Student) (e : string),
        findStudents b = Return (before ++ s :: after) ->
        findAttendance b (stu_id s) (restriction ids) = Throw e ->
        checkDefaulters b threshold ids = Return [])
  /\ (forall (thresholdParam : JS.num) (user : ObjectId) (e : string),
        checkDefaultersBody b (JS.or_else thresholdParam (JS.Fin 75)) None = Throw e ->
        getDefaulters b thresholdParam false user = Json [])
  /\ (forall (thresholdParam : JS.num) (user : ObjectId) (e : string)
             (a : Allocation) (allocs : list Allocation),
        findAllocations b user = Return (a :: allocs) ->
        checkDefaultersBody b (JS.or_else thresholdParam (JS.Fin 75))
          (Some (map alloc_subjectId (a :: allocs))) = Throw e ->
        getDefaulters b thresholdParam true user = Json []).
Proof.
  assert (Hbody : forall t i e, checkDefaultersBody b t i = Throw e ->
                                checkDefaulters b t i = Return []).
  { intros t i e H. unfold checkDefaulters. rewrite H. reflexivity. }
  split; [apply catch_returns|].
  split; [apply Hbody|].
  split.
  { intros e H. apply (Hbody _ _ e). unfold checkDefaultersBody. rewrite H. reflexivity. }
  split.
  { intros before after s e Hs Ha.
    destruct (forEachM_throws (checkStudent b threshold ids) before after s e) with (s := @nil Defaulter)
      as [e' He'].
    { intros d. unfold checkStudent. rewrite Ha. reflexivity. }
    apply (Hbody _ _ e'). unfold checkDefaultersBody. rewrite Hs. simpl. exact He'. }
  split.
  { intros tp user e H. unfold getDefaulters. rewrite (Hbody _ _ _ H). reflexivity. }
  intros tp user e a allocs Ha H. unfold getDefaulters. rewrite Ha.
  cbn [bind map]. cbn [map] in H. rewrite (Hbody _ _ _ H). reflexivity.
Qed.

End NeverThrows.

Section RowOrder.
Import Db Upload Handler Samples.

(** A Theory column never changes while the rows are processed, and the
    total tracked for its allocation is the header's total or nothing. *)
Lemma theory_column_fixed (student : StudentView) (info : SubjectInfo) :
  si_type info = Theory ->
  withBatchTotal student info = info
  /\ totalFromSheetHeader student info
     = match totalLectures info with
       | Some n => if N.ltb 0 n then Some n else None
       | None => None
       end.
Proof.
  intros Hk. unfold withBatchTotal, totalFromSheetHeader. rewrite Hk. auto.
Qed.

(** C2. The sample sheet declares a lab total for batch B only, and no
    total for batch A.  With the row of the batch-B student first, the
    allocation of batch A, whose stored totals were 7, ends with
    totalPlanned = totalConducted = 11, the total of batch B; with the rows
    in the other order it keeps 7.  The totals of an allocation are thus
    overwritten for a key that has no sheet-declared total. *)
Theorem allocation_overwritten_without_declared_total :
  batchTotal (sheetBatchInfo labColumn) (Some "A") = None
  /\ sheetTotal labColumn = None
  /\ totalPlanned <$> allocationOf 50 college = Some 7%N
  /\ (let after :=
        db (fst (uploadDivisionSheet (upload (Some "A") (labSheet [rowOne; rowTwo]))
                   (server college))) in
      totalPlanned <$> allocationOf 50 after = Some 11%N
      /\ alloc_totalConducted <$> allocationOf 50 after = Some 11%N)
  /\ (let after :=
        db (fst (uploadDivisionSheet (upload (Some "A") (labSheet [rowTwo; rowOne]))
                   (server college))) in
      totalPlanned <$> allocationOf 50 after = Some 7%N).
Proof. vm_compute. repeat split. Qed.

(** C3. The summary written for a student depends on the rows before it:
    on the sample sheet the batch-A student gets totalConducted = 11 when the
    batch-B row comes first and totalConducted = 10 when it comes second. *)
Theorem summary_depends_on_row_order :
  totalConducted <$>
    summaryOf 2 100
      (db (fst (uploadDivisionSheet (upload (Some "A") (labSheet [rowOne; rowTwo]))
                  (server college))))
  = Some (JS.Fin 11)
  /\ totalConducted <$>
       summaryOf 2 100
         (db (fst (uploadDivisionSheet (upload (Some "A") (labSheet [rowTwo; rowOne]))
                     (server college))))
     = Some (JS.Fin 10).
Proof. vm_compute. split; reflexivity. Qed.

End RowOrder.

(** ** Re-uploading a sheet *)

Section Idempotence.
Import Db Upload Keys.
Lemma kind_eqb_eq (a b : Kind) : kind_eqb a b = true <-> a = b.
Proof. destruct a, b; simpl; split; congruence. Qed.

Lemma periodMatches_key (p : option string) (f : Field) :
  periodMatches p f = true <-> periodKey f = p.
Proof.
  destruct p as [s|], f as [| |s']; simpl; split; try congruence.
  - intros H. apply String.eqb_eq in H. congruence.
  - intros [= ->]. apply String.eqb_refl.
Qed.

(** A query matches the rows of its slot and no others. *)
Lemma matches_key (q : SummaryQuery) (r : Attendance) :
  matches q r = true <-> rowKey r = queryKey q.
Proof.
  unfold matches, rowKey, queryKey.
  rewrite !andb_true_iff, !Nat.eqb_eq, kind_eqb_eq, periodMatches_key.
  split; [intros [[[-> ->] ->] ->]; reflexivity | intros [= -> -> -> ->]; auto].
Qed.

Lemma rowKey_applySet (q : SummaryQuery) (u : SummarySet) (r : Attendance) :
  set_period u = q_period q -> matches q r = true -> rowKey (applySet u r) = rowKey r.
Proof.
  intros Hp Hm. apply matches_key in Hm. rewrite Hm.
  unfold rowKey, queryKey in *. simpl. rewrite Hp.
  injection Hm as -> -> -> _. destruct (q_period q); reflexivity.
Qed.

Lemma find_first_none_iff (q : SummaryQuery) (coll : list Attendance) :
  find_first (matches q) coll = None <-> queryKey q ∉ map rowKey coll.
Proof.
  induction coll as [|r l IH]; simpl.
  - split; [intros _; apply not_elem_of_nil | reflexivity].
  - destruct (matches q r) eqn:E.
    + split; [discriminate|]. intros H. exfalso. apply H.
      apply matches_key in E. rewrite E. apply elem_of_cons. left. reflexivity.
    + rewrite IH, not_elem_of_cons. split; [|tauto].
      intros H. split; [|exact H]. intros Heq.
      assert (matches q r = true) by (apply matches_key; congruence). congruence.
Qed.

Lemma update_first_identity (q : SummaryQuery) (u : SummarySet)
    (coll coll' : list Attendance) :
  set_period u = q_period q ->
  update_first (matches q) (applySet u) coll = Some coll' ->
  map identity coll' = map identity coll.
Proof.
  intros Hp. revert coll'. induction coll as [|r l IH]; simpl; [discriminate|].
  intros coll'. destruct (matches q r) eqn:E.
  - intros [= <-]. simpl. f_equal. unfold identity.
    rewrite (rowKey_applySet q u r Hp E). reflexivity.
  - destruct (update_first (matches q) (applySet u) l) as [l'|]; [|discriminate].
    intros [= <-]. simpl. f_equal. apply IH. reflexivity.
Qed.

(** The upsert: a row of the slot is updated where it is; without one, a
    row of that slot is appended. *)
Lemma upsert_cases (q : SummaryQuery) (u : SummarySet) (coll : list Attendance)
    (fresh : ObjectId) :
  set_period u = q_period q ->
  let coll' := fst (fst (findOneAndUpsert q u coll fresh)) in
  (queryKey q ∈ map rowKey coll /\ map identity coll' = map identity coll)
  \/ ((queryKey q ∉ map rowKey coll) /\
      map rowKey coll' = map rowKey coll ++ [queryKey q]).
Proof.
  intros Hp. cbv zeta. unfold findOneAndUpsert.
  destruct (find_first (matches q) coll) as [r|] eqn:Hf.
  - left.
    assert (Hin : queryKey q ∈ map rowKey coll).
    { clear -Hf. induction coll as [|y l IH]; simpl in *; [discriminate|].
      apply elem_of_cons. destruct (matches q y) eqn:E.
      - left. symmetry. apply matches_key. exact E.
      - right. apply IH. exact Hf. }
    split; [exact Hin|].
    destruct (update_first (matches q) (applySet u) coll) as [coll'|] eqn:Hu.
    + simpl. apply (update_first_identity q u coll coll' Hp Hu).
    + exfalso. clear -Hf Hu. induction coll as [|y l IH]; simpl in *; [discriminate|].
      destruct (matches q y); [discriminate|].
      destruct (update_first (matches q) (applySet u) l); [discriminate | auto].
  - right. split; [apply find_first_none_iff; exact Hf|].
    simpl. rewrite map_app. simpl. f_equal. f_equal.
    unfold rowKey, queryKey. simpl. rewrite Hp. destruct (q_period q); reflexivity.
Qed.

Lemma writes_nil (coll : list Attendance) : writes [] coll coll.
Proof.
  repeat split; try reflexivity.
  intros k Hk. apply elem_of_nil in Hk. contradiction.
Qed.

Lemma cellKeys_cons (ctx : Ctx) (student : StudentView) (row : list string)
    (c : nat * ObjectId * Kind) (cols : list (nat * ObjectId * Kind)) :
  cellKeys ctx student row (c :: cols)
  = cellKeys ctx student row [c] ++ cellKeys ctx student row cols.
Proof. destruct c as [[col sid] k]. simpl. rewrite app_nil_r. reflexivity. Qed.

Lemma identity_rowKey (a b : list Attendance) :
  map identity a = map identity b -> map rowKey a = map rowKey b.
Proof.
  intros H. assert (E : forall l, map rowKey l = map snd (map identity l)).
  { intros l. rewrite map_map. reflexivity. }
  rewrite !E, H. reflexivity.
Qed.

Lemma writes_app (k1 k2 : list RowKey) (a b c : list Attendance) :
  writes k1 a b -> writes k2 b c -> writes (k1 ++ k2) a c.
Proof.
  intros (M1 & W1 & I1) (M2 & W2 & I2). repeat split.
  - intros k Hk. apply M2, M1, Hk.
  - intros k Hk. apply elem_of_app in Hk as [Hk|Hk]; [apply M2, W1, Hk | apply W2, Hk].
  - intros H.
    assert (H1 : k1 ⊆ map rowKey a) by (intros k Hk; apply H, elem_of_app; auto).
    assert (H2 : k2 ⊆ map rowKey a) by (intros k Hk; apply H, elem_of_app; auto).
    specialize (I1 H1). rewrite <- I1. apply I2.
    rewrite (identity_rowKey _ _ I1). exact H2.
Qed.

Lemma processCell_writes (ctx : Ctx) (student : StudentView) (row : list string)
    (col : nat) (info : SubjectInfo) (st : Loop) :
  let r := processCell ctx student row col info st in
  subjectId (fst r) = subjectId info
  /\ si_type (fst r) = si_type info
  /\ writes (cellKeys ctx student row [(col, subjectId info, si_type info)])
            (rows_of st) (rows_of (snd r)).
Proof.
  cbv zeta. unfold processCell. cbn [cellKeys].
  destruct (skipped (cellNumber row col)) eqn:Hs.
  { simpl. repeat split; apply writes_nil. }
  destruct (withBatchTotal_static student info) as [Hid Hty].
  set (info' := withBatchTotal student info) in *.
  unfold summaryFor.
  match goal with
  | |- context [findOneAndUpsert ?q ?u ?c ?f] =>
      pose proof (upsert_cases q u c f eq_refl) as Hc;
      destruct (findOneAndUpsert q u c f) as [[coll rid] nid] eqn:Hup
  end.
  cbv zeta in Hc. cbn [fst snd] in Hc |- *.
  unfold queryKey in Hc. cbn in Hc. rewrite Hid, Hty in Hc.
  split; [exact Hid|]. split; [exact Hty|].
  unfold rows_of. cbn [world attendances]. rewrite app_nil_r.
  destruct Hc as [[Hin Hsame] | [Hout Hnew]].
  - pose proof (identity_rowKey _ _ Hsame) as Hk.
    repeat split.
    + rewrite Hk. reflexivity.
    + rewrite Hk. intros k Hk'. apply list_elem_of_singleton in Hk'. subst k. exact Hin.
    + intros _. exact Hsame.
  - repeat split.
    + rewrite Hnew. intros k Hk. apply elem_of_app. left. exact Hk.
    + rewrite Hnew. intros k Hk. apply elem_of_app. right. exact Hk.
    + intros H. exfalso. apply Hout, H, list_elem_of_singleton. reflexivity.
Qed.

Lemma processSubjects_writes (ctx : Ctx) (student : StudentView) (row : list string)
    (entries : list (nat * SubjectInfo)) :
  forall st : Loop,
    let r := processSubjects ctx student row entries st in
    statics (fst r) = statics entries
    /\ writes (cellKeys ctx student row (statics entries)) (rows_of st) (rows_of (snd r)).
Proof.
  induction entries as [|[col info] rest IH]; intros st; cbv zeta.
  - simpl. split; [reflexivity | apply writes_nil].
  - cbn [processSubjects].
    pose proof (processCell_writes ctx student row col info st) as Hc. cbv zeta in Hc.
    destruct (processCell ctx student row col info st) as [info' st'].
    specialize (IH st'). cbv zeta in IH.
    destruct (processSubjects ctx student row rest st') as [rest' st''].
    cbn [fst snd] in *. destruct Hc as (Hid & Hty & Hw). destruct IH as [Hs Hw'].
    split.
    + unfold statics in *. cbn [map fst snd]. rewrite Hid, Hty, Hs. reflexivity.
    + unfold statics. cbn [map fst snd]. fold (statics rest).
      rewrite cellKeys_cons. eapply writes_app; eassumption.
Qed.

Lemma processRow_writes (ctx : Ctx) (rowIndex : nat) (row : list string)
    (subjectMap : list (nat * SubjectInfo)) (st : Loop) :
  let r := processRow ctx rowIndex row subjectMap st in
  statics (fst r) = statics subjectMap
  /\ writes (rowKeys ctx row (statics subjectMap)) (rows_of st) (rows_of (snd r)).
Proof.
  cbv zeta. unfold processRow, rowKeys.
  destruct row as [|c row]; [split; [reflexivity | apply writes_nil]|].
  destruct (Str.is_empty (uidOf ctx (c :: row)));
    [split; [reflexivity | apply writes_nil]|].
  destruct (find_first _ (divisionStudents ctx)) as [student|].
  - match goal with
    | |- context [processSubjects ?a ?b ?r ?m ?s] =>
        exact (processSubjects_writes a b r m s)
    end.
  - split; [reflexivity | exact (writes_nil (rows_of st))].
Qed.

Lemma processRows_writes (ctx : Ctx) (rows : list (list string)) :
  forall (rowIndex : nat) (subjectMap : list (nat * SubjectInfo)) (st : Loop),
    let r := processRows ctx rowIndex rows subjectMap st in
    statics (fst r) = statics subjectMap
    /\ writes (rowsKeys ctx rows (statics subjectMap)) (rows_of st) (rows_of (snd r)).
Proof.
  induction rows as [|row rest IH]; intros rowIndex subjectMap st; cbv zeta.
  - simpl. split; [reflexivity | apply writes_nil].
  - cbn [processRows rowsKeys].
    pose proof (processRow_writes ctx rowIndex row subjectMap st) as Hr. cbv zeta in Hr.
    destruct (processRow ctx rowIndex row subjectMap st) as [sm' st'].
    specialize (IH (S rowIndex) sm' st'). cbv zeta in IH.
    destruct (processRows ctx (S rowIndex) rest sm' st') as [sm'' st''].
    cbn [fst snd] in *. destruct Hr as [Hs Hw]. destruct IH as [Hs' Hw'].
    split; [congruence|].
    rewrite Hs in Hw'. eapply writes_app; eassumption.
Qed.


Lemma stable_refl (w : World) : stable w w.
Proof. split; reflexivity. Qed.

Lemma stable_trans (a b c : World) : stable a b -> stable b c -> stable a c.
Proof.
  intros [S1 V1] [S2 V2]. split; [congruence|].
  intros d. rewrite V2. apply V1.
Qed.

Lemma update_first_views (p : Student -> bool) (f : Student -> Student)
    (d : string) (l l' : list Student) :
  (forall s, view (f s) = view s /\ stu_division (f s) = stu_division s) ->
  update_first p f l = Some l' ->
  map view (filter (fun s => opt_string_eqb (stu_division s) (Some d) = true) l')
  = map view (filter (fun s => opt_string_eqb (stu_division s) (Some d) = true) l).
Proof.
  intros Hf. revert l'. induction l as [|s r IH]; simpl; [discriminate|].
  intros l'. destruct (p s).
  - intros [= <-]. rewrite !filter_cons. destruct (Hf s) as [Hv Hd]. rewrite Hd.
    destruct (decide _); simpl; [rewrite Hv|]; reflexivity.
  - destruct (update_first p f r) as [r'|]; [|discriminate].
    intros [= <-]. rewrite !filter_cons.
    destruct (decide _); simpl; rewrite (IH r' eq_refl); reflexivity.
Qed.

Lemma linkRecord_views (id rec : ObjectId) (d : string) (l : list Student) :
  map view (filter (fun s => opt_string_eqb (stu_division s) (Some d) = true)
                   (linkRecord id rec l))
  = map view (filter (fun s => opt_string_eqb (stu_division s) (Some d) = true) l).
Proof.
  unfold linkRecord.
  destruct (update_first _ _ l) as [l'|] eqn:E; [|reflexivity].
  eapply update_first_views; [|exact E]. intros s. split; reflexivity.
Qed.

Lemma processCell_stable (ctx : Ctx) (student : StudentView) (row : list string)
    (col : nat) (info : SubjectInfo) (st : Loop) :
  stable (world st) (world (snd (processCell ctx student row col info st))).
Proof.
  unfold processCell.
  destruct (skipped (cellNumber row col)); [apply stable_refl|].
  destruct (summaryFor _ _ _ _ _ _) as [q u].
  destruct (findOneAndUpsert _ _ _ _) as [[coll rid] nid].
  simpl. split; [reflexivity|]. intros d. unfold studentsOfDivision. simpl.
  apply linkRecord_views.
Qed.

Lemma processSubjects_stable (ctx : Ctx) (student : StudentView) (row : list string)
    (entries : list (nat * SubjectInfo)) :
  forall st : Loop,
    stable (world st) (world (snd (processSubjects ctx student row entries st))).
Proof.
  induction entries as [|[col info] rest IH]; intros st; [apply stable_refl|].
  cbn [processSubjects].
  pose proof (processCell_stable ctx student row col info st) as Hc.
  destruct (processCell ctx student row col info st) as [info' st'].
  specialize (IH st').
  destruct (processSubjects ctx student row rest st') as [rest' st''].
  cbn [snd] in *. eapply stable_trans; eassumption.
Qed.

Lemma processRow_stable (ctx : Ctx) (rowIndex : nat) (row : list string)
    (subjectMap : list (nat * SubjectInfo)) (st : Loop) :
  stable (world st) (world (snd (processRow ctx rowIndex row subjectMap st))).
Proof.
  unfold processRow.
  destruct row as [|c row]; [apply stable_refl|].
  destruct (Str.is_empty (uidOf ctx (c :: row))); [apply stable_refl|].
  destruct (find_first _ (divisionStudents ctx)) as [student|]; [|apply stable_refl].
  match goal with
  | |- context [processSubjects ?a ?b ?r ?m ?s] =>
      exact (processSubjects_stable a b r m s)
  end.
Qed.

Lemma processRows_stable (ctx : Ctx) (rows : list (list string)) :
  forall (rowIndex : nat) (subjectMap : list (nat * SubjectInfo)) (st : Loop),
    stable (world st) (world (snd (processRows ctx rowIndex rows subjectMap st))).
Proof.
  induction rows as [|row rest IH]; intros rowIndex subjectMap st; [apply stable_refl|].
  cbn [processRows].
  pose proof (processRow_stable ctx rowIndex row subjectMap st) as Hr.
  destruct (processRow ctx rowIndex row subjectMap st) as [sm' st'].
  specialize (IH (S rowIndex) sm' st'). cbn [snd] in *.
  eapply stable_trans; eassumption.
Qed.

End Idempotence.

Section Reupload.
Import Db Upload Keys Outcome Handler.

(** The rows and the students [ingest] leaves are those of the row loop. *)
Lemma ingest_world (sheet : Sheet) (h u : nat) (sm : list (nat * SubjectInfo))
    (d : string) (t : ObjectId) (w : World) :
  let ctx :=
    {| Upload.division := d; Upload.teacherId := t; uidCol := u;
       sheetPeriod := periodOf (sheetData sheet);
       divisionStudents := studentsOfDivision d w |} in
  let st := snd (processRows ctx (S h) (drop (S h) (sheetData sheet)) sm (startLoop w)) in
  attendances (fst (ingest sheet h u sm d t w)) = rows_of st
  /\ stable w (fst (ingest sheet h u sm d t w)).
Proof.
  cbv zeta. unfold ingest.
  pose proof (processRows_stable
                {| Upload.division := d; Upload.teacherId := t; uidCol := u;
                   sheetPeriod := periodOf (sheetData sheet);
                   divisionStudents := studentsOfDivision d w |}
                (drop (S h) (sheetData sheet)) (S h) sm (startLoop w)) as Hst.
  destruct (processRows _ _ _ _ _) as [sm' st].
  destruct (updateTotals _ _ _) as [allocs n].
  cbn [fst snd] in *. split; [reflexivity|].
  destruct Hst as [Hs Hv]. split; [exact Hs|].
  intros d'. etransitivity; [|exact (Hv d')]. reflexivity.
Qed.

Lemma ingest_rerun (sheet : Sheet) (h u : nat) (sm : list (nat * SubjectInfo))
    (d : string) (t : ObjectId) (w : World) :
  let w1 := fst (ingest sheet h u sm d t w) in
  map identity (attendances (fst (ingest sheet h u sm d t w1)))
  = map identity (attendances w1).
Proof.
  cbv zeta.
  destruct (ingest_world sheet h u sm d t w) as [Ha [Hs Hv]].
  destruct (ingest_world sheet h u sm d t (fst (ingest sheet h u sm d t w)))
    as [Ha1 _].
  cbv zeta in Ha, Ha1. rewrite Ha1, (Hv d).
  set (ctx := {| Upload.division := d; Upload.teacherId := t; uidCol := u;
                 sheetPeriod := periodOf (sheetData sheet);
                 divisionStudents := studentsOfDivision d w |}) in *.
  set (rows := drop (S h) (sheetData sheet)) in *.
  set (w1 := fst (ingest sheet h u sm d t w)) in *.
  destruct (processRows_writes ctx rows (S h) sm (startLoop w)) as [_ (_ & W & _)].
  destruct (processRows_writes ctx rows (S h) sm (startLoop w1)) as [_ (_ & _ & I)].
  apply I.
  change (rowsKeys ctx rows (statics sm) ⊆ map rowKey (attendances w1)).
  rewrite Ha. exact W.
Qed.

Lemma databaseAfter_stable (sheet : Sheet) (d : string) (t : ObjectId) (down : bool)
    (w : World) : stable w (databaseAfter sheet d t down w).
Proof.
  unfold databaseAfter. destruct (layout sheet); try apply stable_refl.
  destruct down; [apply stable_refl|].
  destruct (mapSubjects _ _ _ _) as [sm um].
  destruct (negb (is_nil um) && is_nil sm); [apply stable_refl|].
  destruct (is_nil (studentsOfDivision d w)); [apply stable_refl|].
  destruct (is_nil sm); [apply stable_refl|].
  apply ingest_world.
Qed.

Lemma databaseAfter_rerun (sheet : Sheet) (d : string) (t : ObjectId) (down : bool)
    (w : World) :
  let w1 := databaseAfter sheet d t down w in
  map identity (attendances (databaseAfter sheet d t down w1))
  = map identity (attendances w1).
Proof.
  cbv zeta.
  destruct (databaseAfter_stable sheet d t down w) as [Hs Hv].
  unfold databaseAfter at 1. rewrite Hs, (Hv d).
  unfold databaseAfter in *.
  destruct (layout sheet); try reflexivity.
  destruct down; [reflexivity|].
  destruct (mapSubjects _ _ _ _) as [sm um].
  destruct (negb (is_nil um) && is_nil sm); [reflexivity|].
  destruct (is_nil (studentsOfDivision d w)); [reflexivity|].
  destruct (is_nil sm); [reflexivity|].
  apply ingest_rerun.
Qed.

Lemma tryUnlink_db (p : string) (sv : Server) : db (tryUnlink p sv) = db sv.
Proof.
  unfold tryUnlink, unlinkSync. destruct (decide _); reflexivity.
Qed.

Lemma reject_db (p msg : string) (sv : Server) : db (fst (reject p msg sv)) = db sv.
Proof.
  unfold reject. destruct (unlinkSync p sv) eqn:E; simpl.
  - apply (unlinkSync_gone _ _ _ E).
  - apply tryUnlink_db.
Qed.

Lemma processDivisionSheet_db (sheet : Sheet) (d : string) (t : ObjectId)
    (p : string) (down : bool) (sv : Server) :
  db (fst (processDivisionSheet sheet d t p down sv))
  = databaseAfter sheet d t down (db sv).
Proof.
  unfold processDivisionSheet, databaseAfter.
  destruct (layout sheet); try apply reject_db.
  destruct down; [apply tryUnlink_db|].
  destruct (mapSubjects _ _ _ _) as [sm um].
  destruct (negb (is_nil um) && is_nil sm); [apply reject_db|].
  destruct (is_nil (studentsOfDivision d (db sv))); [apply reject_db|].
  destruct (is_nil sm); [apply reject_db|].
  destruct (ingest _ _ _ _ _ _ _) as [w' success].
  destruct (unlinkSync p _) eqn:E; simpl.
  - rewrite (proj2 (unlinkSync_gone _ _ _ E)). reflexivity.
  - rewrite tryUnlink_db. reflexivity.
Qed.

Lemma serverError_db (req : Request) (sv : Server) :
  db (fst (serverError req sv)) = db sv.
Proof.
  unfold serverError. simpl. destruct (req_file req) as [f|]; [|reflexivity].
  destruct (Str.is_empty (path f)); [reflexivity | apply tryUnlink_db].
Qed.

(** The database after the handler: that of [processDivisionSheet] when
    the request gets that far, and the one before otherwise. *)
Lemma upload_db (req : Request) :
  (forall sv0 : Server, db (fst (uploadDivisionSheet req sv0)) = db sv0)
  \/ (forall sv0 : Server,
        db (fst (uploadDivisionSheet req sv0))
        = databaseAfter (content req)
            (Str.toUpperCase (match req_division req with Some d => d | None => "" end))
            (userId req) (databaseDown req) (db sv0)).
Proof.
  unfold uploadDivisionSheet.
  destruct (negb (validDivision (req_division req))); [left; reflexivity|].
  destruct (req_file req) as [f|] eqn:Hf; [|left; reflexivity].
  destruct (existsb _ _).
  - destruct (readFails req); [left; intros sv0; apply serverError_db|].
    right. intros sv0.
    rewrite <- (processDivisionSheet_db (content req) _ (userId req) (path f)
                  (databaseDown req) sv0).
    destruct (processDivisionSheet _ _ _ _ _ sv0) as [sv' [r|e]]; simpl;
      [reflexivity | apply serverError_db].
  - left. intros sv0. destruct (unlinkSync (path f) sv0) eqn:E; simpl.
    + apply (unlinkSync_gone _ _ _ E).
    + apply serverError_db.
Qed.

Lemma null_period_match (q : SummaryQuery) (r : Attendance) :
  q_period q = None ->
  (matches q r = true <->
   att_studentId r = q_studentId q /\ att_subjectId r = q_subjectId q
   /\ att_type r = q_type q /\ (period r = Null \/ period r = Absent)).
Proof.
  intros Hp. unfold matches. rewrite Hp.
  rewrite !andb_true_iff, !Nat.eqb_eq, kind_eqb_eq.
  destruct (period r); simpl; intuition (try discriminate; auto).
Qed.

(** C1. The summaries are keyed by (student, subject, kind, period); a
    query with a null period matches the rows of that student, subject and
    kind whose period is null or absent; and uploading the same sheet a
    second time creates no row: the stored rows are, one by one, the rows of
    the first upload, with the same ids and the same keys. *)
Theorem reupload_creates_no_rows (req : Request) (sv : Server) (files2 : gset string) :
  let sv1 := fst (uploadDivisionSheet req sv) in
  let sv2 := fst (uploadDivisionSheet req {| db := db sv1; files := files2 |}) in
  map identity (attendances (db sv2)) = map identity (attendances (db sv1))
  /\ List.length (attendances (db sv2)) = List.length (attendances (db sv1))
  /\ (forall (q : SummaryQuery) (r : Attendance),
        (matches q r = true <-> rowKey r = queryKey q)
        /\ (q_period q = None ->
            (matches q r = true <->
             att_studentId r = q_studentId q /\ att_subjectId r = q_subjectId q
             /\ att_type r = q_type q /\ (period r = Null \/ period r = Absent)))).
Proof.
  cbv zeta.
  assert (H : map identity
                (attendances
                   (db (fst (uploadDivisionSheet req
                               {| db := db (fst (uploadDivisionSheet req sv));
                                  files := files2 |}))))
              = map identity (attendances (db (fst (uploadDivisionSheet req sv))))).
  { destruct (upload_db req) as [Hsame | Hrun].
    - rewrite (Hsame {| db := _; files := files2 |}). reflexivity.
    - rewrite (Hrun {| db := _; files := files2 |}), (Hrun sv). cbn [db].
      apply databaseAfter_rerun. }
  split; [exact H|]. split.
  - rewrite <- (length_map identity), H, length_map. reflexivity.
  - intros q r. split; [apply matches_key | apply null_period_match].
Qed.

(** The sample sheet uploaded twice: two rows after the first upload, the
    same two rows after the second. *)
Example reupload_sample :
  let first := fst (uploadDivisionSheet
                      (Samples.upload (Some "A") (Samples.labSheet [Samples.rowOne; Samples.rowTwo]))
                      (Samples.server Samples.college)) in
  let second := fst (uploadDivisionSheet
                       (Samples.upload (Some "A") (Samples.labSheet [Samples.rowOne; Samples.rowTwo]))
                       {| db := db first; files := {[ "uploads/f1" ]} |}) in
  map att_id (attendances (db first)) = [1000; 1001]
  /\ map att_id (attendances (db second)) = [1000; 1001]
  /\ map period (attendances (db second)) = [Null; Null]
  /\ status (snd (uploadDivisionSheet
                    (Samples.upload (Some "A") (Samples.labSheet [Samples.rowOne; Samples.rowTwo]))
                    {| db := db first; files := {[ "uploads/f1" ]} |})) = 200.
Proof. vm_compute. repeat split. Qed.

(** The dated sheet uploaded over the rows of the undated one: its rows
    are new rows of the period "Aug-25 to Oct-25", and a second upload of it
    adds none. *)
Example reupload_dated_sample :
  let undated := fst (uploadDivisionSheet
                        (Samples.upload (Some "A") (Samples.labSheet [Samples.rowOne]))
                        (Samples.server Samples.college)) in
  let dated := Samples.upload (Some "A") (Samples.datedSheet [Samples.rowOne]) in
  let first := fst (uploadDivisionSheet dated
                      {| db := db undated; files := {[ "uploads/f1" ]} |}) in
  let second := fst (uploadDivisionSheet dated
                       {| db := db first; files := {[ "uploads/f1" ]} |}) in
  periodOf (sheetData (Samples.datedSheet [Samples.rowOne])) = Some "Aug-25 to Oct-25"
  /\ map period (attendances (db first)) = [Null; Val "Aug-25 to Oct-25"]
  /\ map att_id (attendances (db first)) = [1000; 1001]
  /\ map att_id (attendances (db second)) = [1000; 1001].
Proof. vm_compute. repeat split. Qed.

End Reupload.
(** * Further properties of the code *)

Section BatchInfoMore.
Import Str BatchInfo.

Lemma batch_letter_upper (c : ascii) :
  is_batch_letter c = true ->
  In (ofChars [upper c]) ["A"; "B"; "C"; "D"].
Proof.
  unfold is_batch_letter, between, code. intros H.
  apply andb_prop in H as [H1 H2].
  apply Nat.leb_le in H1. apply Nat.leb_le in H2.
  rewrite <- (ascii_nat_embedding (upper c)).
  assert (Hn : nat_of_ascii (upper c) = 65 \/ nat_of_ascii (upper c) = 66
               \/ nat_of_ascii (upper c) = 67 \/ nat_of_ascii (upper c) = 68) by lia.
  destruct Hn as [-> | [-> | [-> | ->]]]; simpl; auto.
Qed.

Lemma batch_match_letter (s : list ascii) (l : ascii) (ds : list ascii) (len : nat) :
  batch_match s = Some (l, ds, len) -> is_batch_letter l = true.
Proof.
  destruct s as [|c r]; simpl; [discriminate|].
  destruct (is_batch_letter c) eqn:Hc; [|discriminate].
  destruct (drop (run is_space r) r) as [|sep r2]; [discriminate|].
  destruct (is_sep sep); [|discriminate].
  destruct (take _ _); [discriminate|].
  intros [= <- _ _]. exact Hc.
Qed.

Lemma exec_loop_keys (s : list ascii) :
  forall (skip : nat) (acc : gmap string N),
    (forall k, is_Some (acc !! k) -> In k ["A"; "B"; "C"; "D"]) ->
    forall k, is_Some (exec_loop skip s acc !! k) -> In k ["A"; "B"; "C"; "D"].
Proof.
  induction s as [|c r IH]; intros skip acc Hacc; cbn [exec_loop]; [exact Hacc|].
  destruct skip as [|n]; [|apply IH; exact Hacc].
  destruct (batch_match (c :: r)) as [[[l ds] len]|] eqn:Hm; [|apply IH; exact Hacc].
  apply IH. intros k Hk.
  destruct (decide (ofChars [upper l] = k)) as [<-|Hne].
  - apply batch_letter_upper. eapply batch_match_letter. exact Hm.
  - rewrite lookup_insert_ne in Hk by exact Hne. apply Hacc, Hk.
Qed.

(** X1. [parseBatchInfo] only ever files a total under one of the keys A, B,
    C and D, in upper case, whatever the text and the case of its letters. *)
Theorem parseBatchInfo_keys (text k : string) (v : N) :
  parseBatchInfo text !! k = Some v -> In k ["A"; "B"; "C"; "D"].
Proof.
  intros H. unfold parseBatchInfo in H.
  destruct (is_empty text).
  - rewrite lookup_empty in H. discriminate.
  - apply (exec_loop_keys (normalize text) 0 ∅); [|rewrite H; eauto].
    intros k' [x Hx]. rewrite lookup_empty in Hx. discriminate.
Qed.

Lemma parseBatchInfo_keys_witness :
  parseBatchInfo "SE (Lab) a: 7" !! "A" = Some 7%N /\ In "A" ["A"; "B"; "C"; "D"].
Proof.
  split; [vm_compute; reflexivity|].
  apply (parseBatchInfo_keys "SE (Lab) a: 7" "A" 7). vm_compute. reflexivity.
Defined.

Lemma exec_loop_grows (s : list ascii) :
  forall (skip : nat) (acc : gmap string N),
    acc <> ∅ -> exec_loop skip s acc <> ∅.
Proof.
  induction s as [|c r IH]; intros skip acc Hacc; cbn [exec_loop]; [exact Hacc|].
  destruct skip as [|n]; [|apply IH; exact Hacc].
  destruct (batch_match (c :: r)) as [[[l ds] len]|]; [|apply IH; exact Hacc].
  apply IH. apply insert_non_empty.
Qed.

Lemma exec_loop_finds (suf : list ascii) :
  pattern_at suf ->
  forall (pre : list ascii) (skip : nat) (acc : gmap string N),
    (skip <> 0 -> acc <> ∅) ->
    exec_loop skip (pre ++ suf) acc <> ∅.
Proof.
  intros Hp. pose proof (batch_match_complete suf Hp) as Hm.
  assert (Hs : exists c r, suf = c :: r).
  { destruct Hp as (c & ws1 & sep & ws2 & ds & rest & -> & _). eauto. }
  destruct Hs as (c0 & r0 & Hsuf).
  induction pre as [|x pre IH]; intros skip acc Hinv.
  - rewrite app_nil_l. rewrite Hsuf in *. cbn [exec_loop].
    destruct skip as [|n].
    + destruct (batch_match (c0 :: r0)) as [[[l ds] len]|]; [|congruence].
      apply exec_loop_grows, insert_non_empty.
    + apply exec_loop_grows, Hinv. discriminate.
  - rewrite <- app_comm_cons. cbn [exec_loop].
    destruct skip as [|n].
    + destruct (batch_match (x :: pre ++ suf)) as [[[l ds] len]|].
      * apply IH. intros _. apply insert_non_empty.
      * apply IH. congruence.
    + apply IH. intros _. apply Hinv. discriminate.
Qed.

(** X2. When the normalized text holds an occurrence of the pattern (a
    letter A-D, optional white space, [=] or [:], optional white space,
    digits), [parseBatchInfo] returns a mapping that is not empty. *)
Theorem parseBatchInfo_finds_pattern (text : string) :
  contains_pattern (normalize text) -> parseBatchInfo text <> ∅.
Proof.
  intros (pre & suf & Heq & Hp). unfold parseBatchInfo.
  destruct (is_empty text) eqn:He.
  - exfalso. destruct text; [|discriminate].
    destruct Hp as (c & ws1 & sep & ws2 & ds & rest & -> & _).
    vm_compute in Heq. destruct pre; discriminate.
  - rewrite Heq. apply exec_loop_finds; [exact Hp | congruence].
Qed.

Lemma parseBatchInfo_finds_pattern_witness :
  contains_pattern (normalize "B = 12") /\ parseBatchInfo "B = 12" <> ∅.
Proof.
  assert (H : contains_pattern (normalize "B = 12")).
  { exists [], (chars "B = 12"). split; [vm_compute; reflexivity|].
    exists "B"%char, [" "%char], "="%char, [" "%char], (chars "12"), [].
    repeat apply conj; try reflexivity. discriminate. }
  split; [exact H | exact (parseBatchInfo_finds_pattern "B = 12" H)].
Defined.

End BatchInfoMore.

Section LoopLifting.
Import Db Upload Keys.

(** A property [R ks before after] of the stored rows that holds of no
    write, of one upsert and of the sequence of two runs holds of the
    whole loop over the rows of a sheet. *)
Variable R : list RowKey -> list Attendance -> list Attendance -> Prop.
Hypothesis R_nil : forall coll, R [] coll coll.
Hypothesis R_app : forall k1 k2 a b c, R k1 a b -> R k2 b c -> R (k1 ++ k2) a c.
Hypothesis R_upsert : forall q u coll fresh,
  set_period u = q_period q ->
  R [queryKey q] coll (fst (fst (findOneAndUpsert q u coll fresh))).

Lemma processCell_lift (ctx : Ctx) (student : StudentView) (row : list string)
    (col : nat) (info : SubjectInfo) (st : Loop) :
  R (cellKeys ctx student row [(col, subjectId info, si_type info)])
    (rows_of st) (rows_of (snd (processCell ctx student row col info st))).
Proof.
  unfold processCell. cbn [cellKeys].
  destruct (skipped (cellNumber row col)); [apply R_nil|].
  destruct (withBatchTotal_static student info) as [Hid Hty].
  set (info' := withBatchTotal student info) in *.
  unfold summaryFor.
  match goal with
  | |- context [findOneAndUpsert ?q ?u ?c ?f] =>
      pose proof (R_upsert q u c f eq_refl) as Hc;
      destruct (findOneAndUpsert q u c f) as [[coll rid] nid]
  end.
  unfold queryKey in Hc. cbn in Hc. rewrite Hid, Hty in Hc.
  rewrite app_nil_r. exact Hc.
Qed.

Lemma processSubjects_lift (ctx : Ctx) (student : StudentView) (row : list string)
    (entries : list (nat * SubjectInfo)) :
  forall st : Loop,
    R (cellKeys ctx student row (statics entries))
      (rows_of st) (rows_of (snd (processSubjects ctx student row entries st))).
Proof.
  induction entries as [|[col info] rest IH]; intros st; [apply R_nil|].
  cbn [processSubjects].
  pose proof (processCell_lift ctx student row col info st) as Hc.
  destruct (processCell ctx student row col info st) as [info' st'].
  specialize (IH st').
  destruct (processSubjects ctx student row rest st') as [rest' st''].
  cbn [fst snd] in *. unfold statics. cbn [map fst snd]. fold (statics rest).
  rewrite cellKeys_cons. eapply R_app; eassumption.
Qed.

Lemma processRow_lift (ctx : Ctx) (rowIndex : nat) (row : list string)
    (subjectMap : list (nat * SubjectInfo)) (st : Loop) :
  R (rowKeys ctx row (statics subjectMap))
    (rows_of st) (rows_of (snd (processRow ctx rowIndex row subjectMap st))).
Proof.
  unfold processRow, rowKeys.
  destruct row as [|c row]; [apply R_nil|].
  destruct (Str.is_empty (uidOf ctx (c :: row))); [apply R_nil|].
  destruct (find_first _ (divisionStudents ctx)) as [student|].
  - match goal with
    | |- context [processSubjects ?a ?b ?r ?m ?s] =>
        exact (processSubjects_lift a b r m s)
    end.
  - exact (R_nil (rows_of st)).
Qed.

Lemma processRows_lift (ctx : Ctx) (rows : list (list string)) :
  forall (rowIndex : nat) (subjectMap : list (nat * SubjectInfo)) (st : Loop),
    R (rowsKeys ctx rows (statics subjectMap))
      (rows_of st) (rows_of (snd (processRows ctx rowIndex rows subjectMap st))).
Proof.
  induction rows as [|row rest IH]; intros rowIndex subjectMap st; [apply R_nil|].
  cbn [processRows rowsKeys].
  pose proof (processRow_lift ctx rowIndex row subjectMap st) as Hr.
  pose proof (processRow_writes ctx rowIndex row subjectMap st) as [Hs _].
  destruct (processRow ctx rowIndex row subjectMap st) as [sm' st'].
  specialize (IH (S rowIndex) sm' st').
  cbn [fst snd] in *. rewrite Hs in IH. eapply R_app; eassumption.
Qed.

End LoopLifting.

Section RowsKept.
Import Db Upload Keys Outcome Handler Frames.

Lemma kept_nil (coll : list Attendance) : kept [] coll coll.
Proof. split; [exists []; rewrite app_nil_r; reflexivity | auto]. Qed.

Lemma kept_app (k1 k2 : list RowKey) (a b c : list Attendance) :
  kept k1 a b -> kept k2 b c -> kept (k1 ++ k2) a c.
Proof.
  intros [[n1 H1] F1] [[n2 H2] F2]. split.
  - exists (n1 ++ n2). rewrite H2, H1, app_assoc. reflexivity.
  - intros r Hr Hk. apply F2; [apply F1; [exact Hr|] |];
      intros Hin; apply Hk, elem_of_app; auto.
Qed.

Lemma update_first_keeps {A : Type} (p : A -> bool) (f : A -> A) (l l' : list A) :
  update_first p f l = Some l' ->
  forall x, x ∈ l -> p x = false -> x ∈ l'.
Proof.
  revert l'. induction l as [|y r IH]; simpl; [discriminate|].
  intros l'. destruct (p y) eqn:Hy.
  - intros [= <-] x Hx Hp. apply elem_of_cons in Hx as [-> | Hx]; [congruence|].
    apply elem_of_cons. auto.
  - destruct (update_first p f r) as [r'|]; [|discriminate].
    intros [= <-] x Hx Hp. apply elem_of_cons in Hx as [-> | Hx];
      apply elem_of_cons; [auto | right; eapply IH; eauto].
Qed.

Lemma identity_ids (a b : list Attendance) :
  map identity a = map identity b -> map att_id a = map att_id b.
Proof.
  intros H. assert (E : forall l, map att_id l = map fst (map identity l)).
  { intros l. rewrite map_map. reflexivity. }
  rewrite !E, H. reflexivity.
Qed.

Lemma kept_upsert (q : SummaryQuery) (u : SummarySet) (coll : list Attendance)
    (fresh : ObjectId) :
  set_period u = q_period q ->
  kept [queryKey q] coll (fst (fst (findOneAndUpsert q u coll fresh))).
Proof.
  intros Hp. unfold findOneAndUpsert.
  destruct (find_first (matches q) coll) as [r0|] eqn:Hf.
  - destruct (update_first (matches q) (applySet u) coll) as [coll'|] eqn:Hu.
    + cbn [fst]. split.
      * exists []. rewrite app_nil_r. apply identity_ids.
        apply (update_first_identity q u coll coll' Hp Hu).
      * intros r Hr Hk. eapply update_first_keeps; [exact Hu | exact Hr |].
        destruct (matches q r) eqn:E; [|reflexivity].
        exfalso. apply Hk. apply matches_key in E. rewrite E.
        apply list_elem_of_singleton. reflexivity.
    + cbn [fst]. split.
      * exists [fresh]. rewrite map_app. reflexivity.
      * intros r Hr _. apply elem_of_app. auto.
  - cbn [fst]. split.
    + exists [fresh]. rewrite map_app. reflexivity.
    + intros r Hr _. apply elem_of_app. auto.
Qed.

Lemma rowsKeys_period (ctx : Ctx) (rows : list (list string))
    (cols : list (nat * ObjectId * Kind)) (k : RowKey) :
  k ∈ rowsKeys ctx rows cols -> snd k = sheetPeriod ctx.
Proof.
  induction rows as [|row rest IH]; simpl; [intros H; apply elem_of_nil in H; tauto|].
  intros H. apply elem_of_app in H as [H|H]; [|exact (IH H)].
  unfold rowKeys in H. destruct row as [|c row]; [apply elem_of_nil in H; tauto|].
  destruct (Str.is_empty _); [apply elem_of_nil in H; tauto|].
  destruct (find_first _ _) as [student|]; [|apply elem_of_nil in H; tauto].
  clear IH. induction cols as [|[[col sid] kd] cols IH]; simpl in H;
    [apply elem_of_nil in H; tauto|].
  apply elem_of_app in H as [H|H]; [|exact (IH H)].
  destruct (skipped _); [apply elem_of_nil in H; tauto|].
  apply list_elem_of_singleton in H. subst k. reflexivity.
Qed.

Lemma databaseAfter_kept (sheet : Sheet) (d : string) (t : ObjectId) (down : bool)
    (w : World) :
  (exists new, map att_id (attendances (databaseAfter sheet d t down w))
               = map att_id (attendances w) ++ new)
  /\ (forall r, r ∈ attendances w ->
                periodKey (period r) <> periodOf (sheetData sheet) ->
                r ∈ attendances (databaseAfter sheet d t down w)).
Proof.
  assert (Hsame : kept [] (attendances w) (attendances w)) by apply kept_nil.
  unfold databaseAfter.
  destruct (layout sheet) as [| | |h u subs];
    try (split; [apply Hsame | intros r Hr _; exact Hr]).
  destruct down; [split; [apply Hsame | intros r Hr _; exact Hr]|].
  destruct (mapSubjects _ _ _ _) as [sm um].
  destruct (negb (is_nil um) && is_nil sm);
    [split; [apply Hsame | intros r Hr _; exact Hr]|].
  destruct (is_nil (studentsOfDivision d w));
    [split; [apply Hsame | intros r Hr _; exact Hr]|].
  destruct (is_nil sm); [split; [apply Hsame | intros r Hr _; exact Hr]|].
  destruct (ingest_world sheet h u sm d t w) as [Ha _]. cbv zeta in Ha. rewrite Ha.
  set (ctx := {| Upload.division := d; Upload.teacherId := t; uidCol := u;
                 sheetPeriod := periodOf (sheetData sheet);
                 divisionStudents := studentsOfDivision d w |}) in *.
  destruct (processRows_lift kept kept_nil kept_app kept_upsert ctx
              (drop (S h) (sheetData sheet)) (S h) sm (startLoop w)) as [Hids Hfr].
  split; [exact Hids|].
  intros r Hr Hper. apply Hfr; [exact Hr|].
  intros Hin. apply rowsKeys_period in Hin. apply Hper. exact Hin.
Qed.

(** X3. The upload handler deletes no summary and re-orders none: the ids of
    the rows stored before are the first ids stored afterwards, in the same
    order, and a row whose period is not the period of the sheet is still
    stored, unchanged. *)
Theorem upload_keeps_rows (req : Request) (sv : Server) :
  let after := attendances (db (fst (uploadDivisionSheet req sv))) in
  (exists new, map att_id after = map att_id (attendances (db sv)) ++ new)
  /\ (forall r, r ∈ attendances (db sv) ->
                periodKey (period r) <> periodOf (sheetData (content req)) ->
                r ∈ after).
Proof.
  cbv zeta. destruct (upload_db req) as [H | H]; rewrite (H sv).
  - split; [exists []; rewrite app_nil_r; reflexivity | auto].
  - apply databaseAfter_kept.
Qed.

End RowsKept.

Section Counters.
Import Db Upload Keys Outcome Handler.

Lemma setKey_length {V : Type} (k : AllocKey) (ins : V) (upd : V -> V)
    (m : list (AllocKey * V)) :
  List.length (setKey k ins upd m) <= S (List.length m).
Proof.
  induction m as [|[k' v] r IH]; simpl; [lia|].
  destruct (key_eqb k k'); simpl; lia.
Qed.

Lemma processCell_counts (ctx : Ctx) (student : StudentView) (row : list string)
    (col : nat) (info : SubjectInfo) (st : Loop) :
  let st' := snd (processCell ctx student row col info st) in
  let n := List.length (cellKeys ctx student row [(col, subjectId info, si_type info)]) in
  recordsCreated st' = recordsCreated st + n
  /\ List.length (allocationUpdates st') <= List.length (allocationUpdates st) + n
  /\ errors st' = errors st
  /\ studentsFound st' = studentsFound st
  /\ studentsNotFound st' = studentsNotFound st.
Proof.
  cbv zeta. unfold processCell. cbn [cellKeys].
  destruct (skipped (cellNumber row col)).
  { simpl. repeat apply conj; try reflexivity; lia. }
  destruct (summaryFor _ _ _ _ _ _) as [q u].
  destruct (findOneAndUpsert _ _ _ _) as [[coll rid] nid].
  cbn [snd recordsCreated allocationUpdates errors studentsFound studentsNotFound
       List.length app].
  repeat apply conj; try lia; try reflexivity.
  destruct (totalFromSheetHeader _ _); [|lia].
  unfold trackTotal.
  match goal with |- context [setKey ?k ?i ?f ?m] =>
    pose proof (setKey_length k i f m) end.
  lia.
Qed.

Lemma processSubjects_counts (ctx : Ctx) (student : StudentView) (row : list string)
    (entries : list (nat * SubjectInfo)) :
  forall st : Loop,
    let st' := snd (processSubjects ctx student row entries st) in
    let n := List.length (cellKeys ctx student row (statics entries)) in
    recordsCreated st' = recordsCreated st + n
    /\ List.length (allocationUpdates st') <= List.length (allocationUpdates st) + n
    /\ errors st' = errors st
    /\ studentsFound st' = studentsFound st
    /\ studentsNotFound st' = studentsNotFound st.
Proof.
  induction entries as [|[col info] rest IH]; intros st; cbv zeta.
  { simpl. repeat apply conj; try reflexivity; lia. }
  cbn [processSubjects].
  pose proof (processCell_counts ctx student row col info st) as Hc. cbv zeta in Hc.
  destruct (processCell ctx student row col info st) as [info' st'].
  specialize (IH st'). cbv zeta in IH.
  destruct (processSubjects ctx student row rest st') as [rest' st''].
  cbn [fst snd] in *. unfold statics. cbn [map fst snd]. fold (statics rest).
  rewrite cellKeys_cons, length_app.
  destruct Hc as (H1 & H2 & H3 & H4 & H5). destruct IH as (I1 & I2 & I3 & I4 & I5).
  repeat apply conj; try congruence; lia.
Qed.

Lemma cellKeys_length (ctx : Ctx) (student : StudentView) (row : list string)
    (cols : list (nat * ObjectId * Kind)) :
  List.length (cellKeys ctx student row cols) <= List.length cols.
Proof.
  induction cols as [|[[col sid] k] cols IH]; cbn [cellKeys List.length]; [lia|].
  rewrite length_app. destruct (skipped _); cbn [List.length Nat.add].
  - apply Nat.le_le_succ_r, IH.
  - apply le_n_S, IH.
Qed.

(** The counters after the rows of a sheet: what [found] and [missing]
    rows added to them. *)
Lemma processRows_counts (ctx : Ctx) (rows : list (list string)) :
  forall (rowIndex : nat) (subjectMap : list (nat * SubjectInfo)) (st : Loop),
    let st' := snd (processRows ctx rowIndex rows subjectMap st) in
    let n := List.length (rowsKeys ctx rows (statics subjectMap)) in
    exists (found : nat) (missing : list RowError),
      recordsCreated st' = recordsCreated st + n
      /\ List.length (allocationUpdates st') <= List.length (allocationUpdates st) + n
      /\ errors st' = errors st ++ missing
      /\ studentsFound st' = studentsFound st + found
      /\ studentsNotFound st' = studentsNotFound st + List.length missing
      /\ found + List.length missing <= List.length rows
      /\ n <= found * List.length subjectMap
      /\ (forall e, e ∈ missing ->
            rowIndex < err_row e /\ err_row e <= rowIndex + List.length rows).
Proof.
  induction rows as [|row rest IH]; intros rowIndex subjectMap st; cbv zeta.
  { exists 0, []. simpl. rewrite app_nil_r.
    repeat apply conj; try lia; try reflexivity.
    intros e He. apply elem_of_nil in He. tauto. }
  cbn [processRows rowsKeys].
  pose proof (processRow_writes ctx rowIndex row subjectMap st) as [Hs _].
  assert (Hrow :
    let st1 := snd (processRow ctx rowIndex row subjectMap st) in
    let n1 := List.length (rowKeys ctx row (statics subjectMap)) in
    exists (found : nat) (missing : list RowError),
      recordsCreated st1 = recordsCreated st + n1
      /\ List.length (allocationUpdates st1) <= List.length (allocationUpdates st) + n1
      /\ errors st1 = errors st ++ missing
      /\ studentsFound st1 = studentsFound st + found
      /\ studentsNotFound st1 = studentsNotFound st + List.length missing
      /\ found + List.length missing <= 1
      /\ n1 <= found * List.length subjectMap
      /\ (forall e, e ∈ missing -> err_row e = rowIndex + 1)).
  { cbv zeta. unfold processRow, rowKeys.
    assert (Hnone : exists (found : nat) (missing : list RowError),
              recordsCreated st = recordsCreated st + 0
              /\ List.length (allocationUpdates st) <= List.length (allocationUpdates st) + 0
              /\ errors st = errors st ++ missing
              /\ studentsFound st = studentsFound st + found
              /\ studentsNotFound st = studentsNotFound st + List.length missing
              /\ found + List.length missing <= 1
              /\ 0 <= found * List.length subjectMap
              /\ (forall e, e ∈ missing -> err_row e = rowIndex + 1)).
    { exists 0, []. simpl. rewrite app_nil_r.
      repeat apply conj; try lia; try reflexivity.
      intros e He. apply elem_of_nil in He. tauto. }
    destruct row as [|c row]; [exact Hnone|].
    destruct (Str.is_empty (uidOf ctx (c :: row))); [exact Hnone|].
    destruct (find_first _ (divisionStudents ctx)) as [student|].
    - match goal with
      | |- context [processSubjects ?a ?b ?r ?m ?s] =>
          pose proof (processSubjects_counts a b r m s) as Hc
      end.
      cbv zeta in Hc. cbn [recordsCreated allocationUpdates errors studentsFound
                           studentsNotFound] in Hc.
      destruct Hc as (H1 & H2 & H3 & H4 & H5).
      pose proof (cellKeys_length ctx student (c :: row) (statics subjectMap)) as Hl.
      unfold statics in Hl at 2. rewrite length_map in Hl.
      exists 1, []. simpl. rewrite app_nil_r.
      repeat apply conj; try lia; try assumption.
      intros e He. apply elem_of_nil in He. tauto.
    - exists 0, [{| err_row := rowIndex + 1; err_studentId := uidOf ctx (c :: row) |}].
      simpl. repeat apply conj; try lia; try reflexivity.
      intros e He. apply list_elem_of_singleton in He. subst e. reflexivity. }
  cbv zeta in Hrow.
  destruct (processRow ctx rowIndex row subjectMap st) as [sm' st1].
  specialize (IH (S rowIndex) sm' st1). cbv zeta in IH.
  cbn [fst snd] in *. rewrite Hs in IH.
  destruct Hrow as (f1 & m1 & A1 & A2 & A3 & A4 & A5 & A6 & A8 & A7).
  destruct IH as (f2 & m2 & B1 & B2 & B3 & B4 & B5 & B6 & B8 & B7).
  assert (Hlen : List.length sm' = List.length subjectMap).
  { rewrite <- (length_map (fun e => (fst e, subjectId (snd e), si_type (snd e))) sm').
    change (List.length (statics sm') = List.length subjectMap).
    rewrite Hs. unfold statics. apply length_map. }
  rewrite Hlen in B8.
  exists (f1 + f2), (m1 ++ m2). rewrite !length_app. cbn [List.length].
  repeat apply conj; try lia.
  - rewrite B3, A3, app_assoc. reflexivity.
  - intros e H. apply elem_of_app in H as [H|H];
      [rewrite (A7 _ H); lia | apply B7 in H; lia].
Qed.

Lemma updateTotals_count (updates : list (AllocKey * AllocUpdate)) :
  forall (allocs : list Allocation) (n : nat),
    snd (updateTotals updates allocs n) <= n + List.length updates.
Proof.
  induction updates as [|[k u] rest IH]; intros allocs n; simpl; [lia|].
  destruct (update_first _ _ allocs) as [allocs'|].
  - specialize (IH allocs' (S n)). lia.
  - specialize (IH allocs n). lia.
Qed.

(** The figures of the success response. *)
Lemma ingest_counts (sheet : Sheet) (h u : nat) (sm : list (nat * SubjectInfo))
    (d : string) (t : ObjectId) (w : World) :
  exists (created found missing updated : nat) (shown : list RowError),
    snd (ingest sheet h u sm d t w)
    = Success created (List.length sm) found missing (found + missing) updated
        shown missing
    /\ updated <= created
    /\ created <= found * List.length sm
    /\ found + missing <= List.length (sheetData sheet) - S h
    /\ List.length shown = Nat.min missing 10
    /\ (forall e, e ∈ shown ->
          S h < err_row e /\ err_row e <= List.length (sheetData sheet)).
Proof.
  unfold ingest.
  set (ctx := {| Upload.division := d; Upload.teacherId := t; uidCol := u;
                 sheetPeriod := periodOf (sheetData sheet);
                 divisionStudents := studentsOfDivision d w |}).
  destruct (processRows_counts ctx (drop (S h) (sheetData sheet)) (S h) sm (startLoop w))
    as (f & m & C1 & C2 & C3 & C4 & C5 & C6 & C8 & C7).
  destruct (processRows _ _ _ _ _) as [sm' st].
  pose proof (updateTotals_count (allocationUpdates st) (allocations (world st)) 0) as Hu.
  destruct (updateTotals _ _ _) as [allocs n].
  cbn [fst snd startLoop recordsCreated allocationUpdates errors studentsFound
       studentsNotFound List.length app] in *.
  rewrite length_drop in C6.
  exists (recordsCreated st), (studentsFound st), (studentsNotFound st), n,
    (take 10 (errors st)).
  rewrite C3, C4, C5. cbn [Nat.add].
  repeat apply conj.
  - reflexivity.
  - lia.
  - lia.
  - lia.
  - rewrite length_take. lia.
  - intros e H. apply elem_of_take in H as (i & Hi & _).
    pose proof (lookup_lt_Some _ _ _ Hi) as Hlt.
    apply list_elem_of_lookup_2 in Hi. apply C7 in Hi.
    rewrite length_drop in Hi. lia.
Qed.

(** X4. The figures of a 200 answer: [totalStudentsInSheet] is
    [studentsFound + studentsNotFound], [errorCount] is [studentsNotFound],
    at most ten errors are listed, [allocationsUpdated] is at most
    [recordsCreated], which is at most [studentsFound] times
    [subjectsProcessed], the students counted are at most the rows of the
    sheet, and every listed error names a row of the sheet, counted from 1
    and below the header. *)
Theorem success_figures (req : Request) (sv : Server) :
  status (snd (uploadDivisionSheet req sv)) = 200 ->
  exists (created subjects found missing updated : nat) (shown : list RowError),
    body (snd (uploadDivisionSheet req sv))
    = Success created subjects found missing (found + missing) updated shown missing
    /\ updated <= created
    /\ created <= found * subjects
    /\ found + missing <= List.length (sheetData (content req))
    /\ List.length shown = Nat.min missing 10
    /\ (forall e, e ∈ shown ->
          2 <= err_row e /\ err_row e <= List.length (sheetData (content req))).
Proof.
  unfold uploadDivisionSheet.
  destruct (negb (validDivision (req_division req))); [discriminate|].
  destruct (req_file req) as [f|]; [|discriminate].
  destruct (existsb _ _).
  2: { destruct (unlinkSync (path f) sv); [discriminate|].
       unfold serverError. discriminate. }
  destruct (readFails req); [unfold serverError; discriminate|].
  unfold processDivisionSheet.
  assert (Hrej : forall msg sv0,
            status (snd (match reject (path f) msg sv0 with
                         | (sv', Return r) => (sv', r)
                         | (sv', Throw _) => serverError req sv'
                         end)) <> 200).
  { intros msg sv0. unfold reject. destruct (unlinkSync (path f) sv0); discriminate. }
  destruct (layout (content req)) as [| | |h u subs];
    try (intros H; exfalso; exact (Hrej _ _ H)).
  destruct (databaseDown req); [discriminate|].
  destruct (mapSubjects _ _ _ _) as [sm um].
  destruct (negb (is_nil um) && is_nil sm); [intros H; exfalso; exact (Hrej _ _ H)|].
  destruct (is_nil (studentsOfDivision _ (db sv)));
    [intros H; exfalso; exact (Hrej _ _ H)|].
  destruct (is_nil sm); [intros H; exfalso; exact (Hrej _ _ H)|].
  match goal with
  | |- context [ingest ?s ?h ?u ?m ?d ?t ?w] =>
      destruct (ingest_counts s h u m d t w)
        as (created & found & missing & updated & shown & E & I1 & I2 & I3 & I4 & I5);
      destruct (ingest s h u m d t w) as [w' success]
  end.
  cbn [snd] in E. subst success.
  destruct (unlinkSync (path f) _); [|discriminate].
  intros _. cbn [snd body].
  exists created, (List.length sm), found, missing, updated, shown.
  repeat apply conj; try assumption; try reflexivity.
  - lia.
  - intros e He. apply I5 in He. lia.
Qed.

Lemma success_figures_witness :
  let req := Samples.upload (Some "A") (Samples.labSheet [Samples.rowOne; Samples.rowTwo]) in
  let sv := Samples.server Samples.college in
  status (snd (uploadDivisionSheet req sv)) = 200
  /\ exists (created subjects found missing updated : nat) (shown : list RowError),
       body (snd (uploadDivisionSheet req sv))
       = Success created subjects found missing (found + missing) updated shown missing
       /\ updated <= created
       /\ created <= found * subjects
       /\ found + missing <= List.length (sheetData (content req))
       /\ List.length shown = Nat.min missing 10
       /\ (forall e, e ∈ shown ->
             2 <= err_row e /\ err_row e <= List.length (sheetData (content req))).
Proof.
  cbv zeta. split; [vm_compute; reflexivity|].
  apply (success_figures
           (Samples.upload (Some "A") (Samples.labSheet [Samples.rowOne; Samples.rowTwo]))
           (Samples.server Samples.college)).
  vm_compute. reflexivity.
Defined.

End Counters.

Section StoredValues.
Import JS Db Upload.
#[local] Open Scope Q_scope.

Lemma round_le_integral (a t : num) :
  integral t -> leb a t = true -> leb (round a) t = true.
Proof.
  destruct a as [|q| |], t as [|qt| |]; cbn [leb round ofZ integral];
    try discriminate; try reflexivity.
  intros [z ->] H. apply Qle_bool_iff in H. apply Qle_bool_iff.
  rewrite <- Zle_Qle. rewrite <- (Qfloor_half z).
  apply Qfloor_resp_le. apply Qplus_le_l. exact H.
Qed.

Lemma percentage_within (a tc pct : num) (q : Q) :
  a = Fin q -> 0 <= q -> integral tc -> leb a tc = true ->
  gtb pct (Fin 0) = false ->
  let p := finalPercentageOf tc a pct in
  leb (Fin 0) p = true /\ leb p (Fin 100) = true.
Proof.
  intros -> Hq Hi Hle Hp. cbv zeta. unfold finalPercentageOf.
  rewrite Hp.
  destruct tc as [|qt| |]; try discriminate; [|split; reflexivity].
  simpl in Hle. apply Qle_bool_iff in Hle.
  unfold gtb. cbn [ltb]. destruct (Qltb 0 qt) eqn:Hpos; [|split; reflexivity].
  apply Qltb_lt in Hpos. cbn [div].
  assert (Hnz : Qeq_bool qt 0 = false).
  { destruct (Qeq_bool qt 0) eqn:E; [|reflexivity].
    apply Qeq_bool_iff in E. rewrite E in Hpos. exfalso. exact (Qlt_irrefl _ Hpos). }
  rewrite Hnz. cbn [mul leb]. split; apply Qle_bool_iff; rewrite !Qred_correct.
  - apply Qmult_le_0_compat; [|discriminate].
    apply Qle_shift_div_l; [exact Hpos|]. rewrite Qmult_0_l. exact Hq.
  - assert (H1 : q / qt <= 1).
    { apply Qle_shift_div_r; [exact Hpos|]. rewrite Qmult_1_l. exact Hle. }
    assert (H2 : q / qt * 100 <= 1 * 100)
      by (apply Qmult_le_compat_r; [exact H1 | discriminate]).
    exact H2.
Qed.

(** The row a cell leaves carries all three values computed for it. *)
Lemma processCell_stored_percentage (ctx : Ctx) (student : StudentView)
    (row : list string) (col : nat) (info : SubjectInfo) (st : Loop) :
  skipped (cellNumber row col) = false ->
  let attended := cellNumber row col in
  let pct := cellNumber row (col + 1) in
  let total := totalClassesOf (totalLectures (withBatchTotal student info)) attended pct in
  exists r,
    find_first
      (matches {| q_studentId := sv_id student; q_subjectId := subjectId info;
                  q_type := si_type info; q_period := sheetPeriod ctx |})
      (attendances (world (snd (processCell ctx student row col info st)))) = Some r
    /\ totalConducted r = round total
    /\ totalAttended r = round attended
    /\ percentage r = finalPercentageOf total attended pct.
Proof.
  intros Hs. cbv zeta. unfold processCell. rewrite Hs.
  destruct (withBatchTotal_static student info) as [Hid Hty].
  set (info' := withBatchTotal student info) in *.
  unfold summaryFor.
  match goal with
  | |- context [findOneAndUpsert ?q ?u ?c ?f] =>
      destruct (upsert_stored q u c f eq_refl) as (r & Hr & Hc & Ha & Hp);
      destruct (findOneAndUpsert q u c f) as [[coll rid] nid]
  end.
  cbn [fst snd world attendances q_subjectId q_type] in Hr |- *.
  rewrite Hid, Hty in Hr.
  exists r. split; [exact Hr|]. split; [exact Hc|]. split; [exact Ha | exact Hp].
Qed.

(** X5. For a cell that is not skipped, the summary stored for the student
    and the subject has [totalAttended <= totalConducted]; its percentage is
    the percentage cell when that is positive, and otherwise, for a finite
    attended value, lies between 0 and 100. *)
Theorem stored_attended_within_conducted (ctx : Ctx) (student : StudentView)
    (row : list string) (col : nat) (info : SubjectInfo) (st : Loop) :
  skipped (cellNumber row col) = false ->
  exists r,
    find_first
      (matches {| q_studentId := sv_id student; q_subjectId := subjectId info;
                  q_type := si_type info; q_period := sheetPeriod ctx |})
      (attendances (world (snd (processCell ctx student row col info st)))) = Some r
    /\ leb (totalAttended r) (totalConducted r) = true
    /\ (gtb (cellNumber row (col + 1)) (Fin 0) = true ->
        percentage r = cellNumber row (col + 1))
    /\ (forall q : Q, cellNumber row col = Fin q ->
        gtb (cellNumber row (col + 1)) (Fin 0) = false ->
        leb (Fin 0) (percentage r) = true /\ leb (percentage r) (Fin 100) = true).
Proof.
  intros Hs.
  destruct (processCell_stored_percentage ctx student row col info st Hs)
    as (r & Hr & Hc & Ha & Hp).
  cbv zeta in *. exists r. split; [exact Hr|].
  set (lectures := totalLectures (withBatchTotal student info)) in *.
  pose proof (totalClassesOf_integral lectures (cellNumber row col)
                (cellNumber row (col + 1))) as Hint.
  pose proof (totalClassesOf_ge lectures (cellNumber row col)
                (cellNumber row (col + 1)) Hs) as Hge.
  split; [|split].
  - rewrite Hc, Ha, (round_integral _ Hint).
    apply round_le_integral; assumption.
  - intros Hpos. rewrite Hp. unfold finalPercentageOf. rewrite Hpos. reflexivity.
  - intros q Hq Hz. rewrite Hp.
    apply (percentage_within _ _ _ q Hq); [|exact Hint | exact Hge | exact Hz].
    destruct (skipped_false _ Hs) as [_ Hneg]. rewrite Hq in Hneg.
    simpl in Hneg. apply Qltb_false_le in Hneg. exact Hneg.
Qed.

Lemma stored_attended_within_conducted_witness :
  skipped (cellNumber Samples.thirtyRow 4%nat) = false
  /\ exists r,
       find_first
         (matches {| q_studentId := 1%nat; q_subjectId := 100%nat;
                     q_type := Theory; q_period := None |})
         (attendances
            (world (snd (processCell Samples.divisionA (view Samples.studentOne)
                           Samples.thirtyRow 4%nat Samples.theoryInfo
                           (Handler.startLoop Samples.college))))) = Some r
       /\ leb (totalAttended r) (totalConducted r) = true.
Proof.
  split; [reflexivity|].
  destruct (stored_attended_within_conducted Samples.divisionA
              (view Samples.studentOne) Samples.thirtyRow 4%nat Samples.theoryInfo
              (Handler.startLoop Samples.college) eq_refl)
    as (r & Hr & Hle & _).
  exists r. split; [exact Hr | exact Hle].
Defined.

End StoredValues.

Section SharedObjects.
Import Db Upload Keys Outcome Handler Frames.

Lemma evolves_refl (i : SubjectInfo) : evolves i i.
Proof. do 4 (split; [reflexivity|]). left. reflexivity. Qed.

Lemma evolves_trans (a b c : SubjectInfo) : evolves a b -> evolves b c -> evolves a c.
Proof.
  intros (A1 & A2 & A3 & A4 & A5) (B1 & B2 & B3 & B4 & B5).
  split; [congruence|]. split; [congruence|]. split; [congruence|].
  split; [congruence|].
  destruct B5 as [B5 | (Bk & b2 & n2 & Bb & Bt)].
  - destruct A5 as [A5 | (Ak & b1 & n1 & Ab & At)]; [left; congruence|].
    right. split; [exact Ak|]. exists b1, n1. split; [exact Ab | congruence].
  - right. split; [congruence|]. exists b2, n2. split; [congruence | exact Bt].
Qed.

Lemma withBatchTotal_evolves (student : StudentView) (info : SubjectInfo) :
  evolves info (withBatchTotal student info).
Proof.
  unfold withBatchTotal. destruct (si_type info) eqn:Hk; [apply evolves_refl|].
  destruct (batchTotal (batchInfo info) (sv_batch student)) as [n|] eqn:Hb;
    [|apply evolves_refl].
  do 4 (split; [simpl; congruence|]). right. split; [exact Hk|].
  destruct (sv_batch student) as [b|].
  - exists b, n. split; [exact Hb | reflexivity].
  - destruct (batchInfo info); discriminate.
Qed.

Lemma processCell_evolves (ctx : Ctx) (student : StudentView) (row : list string)
    (col : nat) (info : SubjectInfo) (st : Loop) :
  evolves info (fst (processCell ctx student row col info st)).
Proof.
  unfold processCell. destruct (skipped _); [apply evolves_refl|].
  destruct (summaryFor _ _ _ _ _ _) as [q u].
  destruct (findOneAndUpsert _ _ _ _) as [[coll rid] nid].
  apply withBatchTotal_evolves.
Qed.

Lemma evolves_theory (a b : SubjectInfo) :
  evolves a b -> si_type a = Theory -> b = a.
Proof.
  intros (H1 & H2 & H3 & H4 & H5) Hk.
  destruct H5 as [H5 | [Hp _]]; [|congruence].
  destruct a, b; simpl in *; congruence.
Qed.

Lemma columnwise_refl (m : list (nat * SubjectInfo)) : Forall2 columnwise m m.
Proof. induction m; constructor; [split; [reflexivity | apply evolves_refl] | assumption]. Qed.

Lemma columnwise_trans (a b c : list (nat * SubjectInfo)) :
  Forall2 columnwise a b -> Forall2 columnwise b c -> Forall2 columnwise a c.
Proof.
  intros H. revert c. induction H as [|x y a b [Hx Hx'] H IH]; intros c Hc.
  - inversion Hc. constructor.
  - inversion Hc as [|y' z b' c' [Hy Hy'] Hc']; subst. constructor.
    + split; [congruence | eapply evolves_trans; eassumption].
    + apply IH. assumption.
Qed.

Lemma processSubjects_evolves (ctx : Ctx) (student : StudentView) (row : list string)
    (entries : list (nat * SubjectInfo)) :
  forall st : Loop,
    Forall2 columnwise entries (fst (processSubjects ctx student row entries st)).
Proof.
  induction entries as [|[col info] rest IH]; intros st; [constructor|].
  cbn [processSubjects].
  pose proof (processCell_evolves ctx student row col info st) as Hc.
  destruct (processCell ctx student row col info st) as [info' st'].
  specialize (IH st').
  destruct (processSubjects ctx student row rest st') as [rest' st''].
  cbn [fst] in *. constructor; [split; [reflexivity | exact Hc] | exact IH].
Qed.

Lemma processRow_evolves (ctx : Ctx) (rowIndex : nat) (row : list string)
    (subjectMap : list (nat * SubjectInfo)) (st : Loop) :
  Forall2 columnwise subjectMap (fst (processRow ctx rowIndex row subjectMap st)).
Proof.
  unfold processRow. destruct row as [|c row]; [apply columnwise_refl|].
  destruct (Str.is_empty _); [apply columnwise_refl|].
  destruct (find_first _ _); [apply processSubjects_evolves | apply columnwise_refl].
Qed.

Lemma processRows_evolves (ctx : Ctx) (rows : list (list string)) :
  forall (rowIndex : nat) (subjectMap : list (nat * SubjectInfo)) (st : Loop),
    Forall2 columnwise subjectMap (fst (processRows ctx rowIndex rows subjectMap st)).
Proof.
  induction rows as [|row rest IH]; intros rowIndex subjectMap st;
    [apply columnwise_refl|].
  cbn [processRows].
  pose proof (processRow_evolves ctx rowIndex row subjectMap st) as Hr.
  destruct (processRow ctx rowIndex row subjectMap st) as [sm' st'].
  eapply columnwise_trans; [exact Hr | apply IH].
Qed.

(** X6. Through the row loop every column of [subjectMap] keeps its place,
    its subject, its kind and its batch info; a Theory column keeps its
    total, and a Practical column changes its total only to one that its own
    batch info declares for some batch. *)
Theorem subjectMap_evolution (ctx : Ctx) (rows : list (list string))
    (rowIndex : nat) (subjectMap : list (nat * SubjectInfo)) (st : Loop) :
  let after := fst (processRows ctx rowIndex rows subjectMap st) in
  Forall2 columnwise subjectMap after
  /\ (forall (i : nat) (col : nat) (info : SubjectInfo),
        subjectMap !! i = Some (col, info) -> si_type info = Theory ->
        after !! i = Some (col, info)).
Proof.
  cbv zeta. pose proof (processRows_evolves ctx rows rowIndex subjectMap st) as H.
  split; [exact H|].
  intros i col info Hi Hk.
  destruct (Forall2_lookup_l _ _ _ _ _ H Hi) as ([col' info'] & Hi' & Hc & He).
  cbn [fst snd] in *. rewrite Hi'.
  rewrite (evolves_theory _ _ He Hk), Hc. reflexivity.
Qed.

End SharedObjects.

Section Reconciliation.
Import Db Upload Keys Outcome Handler Frames.

Lemma reconciled_refl (a : Allocation) : reconciled a a.
Proof. do 6 (split; [reflexivity|]). split; [auto | left; auto]. Qed.

Lemma reconciled_trans (a b c : Allocation) :
  reconciled a b -> reconciled b c -> reconciled a c.
Proof.
  intros (A1 & A2 & A3 & A4 & A5 & A6 & A7 & A8) (B1 & B2 & B3 & B4 & B5 & B6 & B7 & B8).
  do 6 (split; [congruence|]). split; [auto|].
  destruct B8 as [[B8 B9] | B8]; [|right; exact B8].
  destruct A8 as [[A8 A9] | [A8 A9]]; [left; split; congruence|].
  right. split; congruence.
Qed.

Lemma reconciled_all_refl (l : list Allocation) : Forall2 reconciled l l.
Proof. induction l; constructor; [apply reconciled_refl | assumption]. Qed.

Lemma reconciled_all_trans (a b c : list Allocation) :
  Forall2 reconciled a b -> Forall2 reconciled b c -> Forall2 reconciled a c.
Proof.
  intros H. revert c. induction H as [|x y a b Hx H IH]; intros c Hc.
  - inversion Hc. constructor.
  - inversion Hc as [|y' z b' c' Hy Hc']; subst. constructor.
    + eapply reconciled_trans; eassumption.
    + apply IH. assumption.
Qed.

Lemma update_first_reconciled (p : Allocation -> bool) (f : Allocation -> Allocation)
    (l l' : list Allocation) :
  (forall a, reconciled a (f a)) ->
  update_first p f l = Some l' -> Forall2 reconciled l l'.
Proof.
  intros Hf. revert l'. induction l as [|x r IH]; simpl; [discriminate|].
  intros l'. destruct (p x).
  - intros [= <-]. constructor; [apply Hf | apply reconciled_all_refl].
  - destruct (update_first p f r) as [r'|]; [|discriminate].
    intros [= <-]. constructor; [apply reconciled_refl | apply IH; reflexivity].
Qed.

Lemma addToSet_keeps (x s : ObjectId) (l : list ObjectId) :
  s ∈ l -> s ∈ addToSet x l.
Proof.
  intros H. unfold addToSet. destruct (existsb _ _); [exact H|].
  apply elem_of_app. auto.
Qed.

Lemma addEachToSet_keeps (xs : list ObjectId) :
  forall (l : list ObjectId) (s : ObjectId), s ∈ l -> s ∈ addEachToSet xs l.
Proof.
  unfold addEachToSet.
  induction xs as [|x xs IH]; intros l s H; simpl; [exact H|].
  apply IH, addToSet_keeps, H.
Qed.

Lemma addStudents_reconciled (ids : list ObjectId) (a : Allocation) :
  reconciled a (addStudents ids a).
Proof.
  do 6 (split; [reflexivity|]). split; [|left; split; reflexivity].
  intros s Hs. simpl. apply addEachToSet_keeps, Hs.
Qed.

Lemma setTotals_reconciled (n : N) (a : Allocation) :
  (0 < n)%N -> reconciled a (setTotals n n a).
Proof.
  intros Hn. do 6 (split; [reflexivity|]). split; [auto|].
  right. split; [reflexivity | exact Hn].
Qed.

Lemma totalFromSheetHeader_pos (student : StudentView) (info : SubjectInfo) (n : N) :
  totalFromSheetHeader student info = Some n -> (0 < n)%N.
Proof.
  unfold totalFromSheetHeader.
  assert (Hb : forall bi b m, batchTotal bi b = Some m -> (0 < m)%N).
  { intros bi b m. unfold batchTotal. destruct bi as [g|]; [|discriminate].
    destruct b as [b|]; [|discriminate]. destruct (g !! b) as [x|]; [|discriminate].
    destruct (N.eqb x 0) eqn:E; [discriminate|]. intros [= <-].
    apply N.eqb_neq in E. lia. }
  assert (Hl : match totalLectures info with
               | Some n0 => if N.ltb 0 n0 then Some n0 else None
               | None => None
               end = Some n -> (0 < n)%N).
  { destruct (totalLectures info) as [x|]; [|discriminate].
    destruct (N.ltb 0 x) eqn:E; [|discriminate]. intros [= <-].
    apply N.ltb_lt. exact E. }
  destruct (si_type info); [exact Hl|].
  destruct (batchTotal _ _) as [m|] eqn:E; [|exact Hl].
  intros [= <-]. eapply Hb. exact E.
Qed.

Lemma trackTotal_ok (ctx : Ctx) (info : SubjectInfo) (bk : string) (n : N)
    (m : list (AllocKey * AllocUpdate)) :
  (0 < n)%N -> tracked_ok m -> tracked_ok (trackTotal ctx info bk n m).
Proof.
  intros Hn. unfold trackTotal, tracked_ok.
  induction m as [|[k v] r IH]; intros H; cbn [setKey].
  - constructor; [split; [reflexivity | exact Hn] | constructor].
  - inversion H as [|? ? Hv Hr]; subst.
    match goal with |- context [key_eqb ?a ?b] => destruct (key_eqb a b) end.
    + constructor; [split; [reflexivity | exact Hn] | exact Hr].
    + constructor; [exact Hv | apply IH; exact Hr].
Qed.

Lemma processCell_shared (ctx : Ctx) (student : StudentView) (row : list string)
    (col : nat) (info : SubjectInfo) (st : Loop) :
  let st' := snd (processCell ctx student row col info st) in
  allocations (world st') = allocations (world st)
  /\ (tracked_ok (allocationUpdates st) -> tracked_ok (allocationUpdates st')).
Proof.
  cbv zeta. unfold processCell. destruct (skipped _); [split; auto|].
  destruct (summaryFor _ _ _ _ _ _) as [q u].
  destruct (findOneAndUpsert _ _ _ _) as [[coll rid] nid].
  cbn [snd world allocations allocationUpdates]. split; [reflexivity|].
  intros H. destruct (totalFromSheetHeader _ _) as [n|] eqn:E; [|exact H].
  apply trackTotal_ok; [eapply totalFromSheetHeader_pos; exact E | exact H].
Qed.

Lemma processSubjects_shared (ctx : Ctx) (student : StudentView) (row : list string)
    (entries : list (nat * SubjectInfo)) :
  forall st : Loop,
    let st' := snd (processSubjects ctx student row entries st) in
    allocations (world st') = allocations (world st)
    /\ (tracked_ok (allocationUpdates st) -> tracked_ok (allocationUpdates st')).
Proof.
  induction entries as [|[col info] rest IH]; intros st; cbv zeta; [split; auto|].
  cbn [processSubjects].
  pose proof (processCell_shared ctx student row col info st) as Hc. cbv zeta in Hc.
  destruct (processCell ctx student row col info st) as [info' st'].
  specialize (IH st'). cbv zeta in IH.
  destruct (processSubjects ctx student row rest st') as [rest' st''].
  cbn [snd] in *. destruct Hc as [H1 H2]. destruct IH as [I1 I2].
  split; [congruence | auto].
Qed.

Lemma processRows_shared (ctx : Ctx) (rows : list (list string)) :
  forall (rowIndex : nat) (subjectMap : list (nat * SubjectInfo)) (st : Loop),
    let st' := snd (processRows ctx rowIndex rows subjectMap st) in
    allocations (world st') = allocations (world st)
    /\ (tracked_ok (allocationUpdates st) -> tracked_ok (allocationUpdates st')).
Proof.
  induction rows as [|row rest IH]; intros rowIndex subjectMap st; cbv zeta;
    [split; auto|].
  cbn [processRows].
  assert (Hr : let st1 := snd (processRow ctx rowIndex row subjectMap st) in
               allocations (world st1) = allocations (world st)
               /\ (tracked_ok (allocationUpdates st) ->
                   tracked_ok (allocationUpdates st1))).
  { cbv zeta. unfold processRow. destruct row as [|c row]; [split; auto|].
    destruct (Str.is_empty _); [split; auto|].
    destruct (find_first _ _) as [student|]; [|split; auto].
    match goal with
    | |- context [processSubjects ?a ?b ?r ?m ?s] =>
        exact (processSubjects_shared a b r m s)
    end. }
  cbv zeta in Hr.
  destruct (processRow ctx rowIndex row subjectMap st) as [sm' st1].
  specialize (IH (S rowIndex) sm' st1). cbv zeta in IH. cbn [snd] in *.
  destruct Hr as [H1 H2]. destruct IH as [I1 I2]. split; [congruence | auto].
Qed.

Lemma updateTotals_reconciled (updates : list (AllocKey * AllocUpdate)) :
  tracked_ok updates ->
  forall (allocs : list Allocation) (n : nat),
    Forall2 reconciled allocs (fst (updateTotals updates allocs n)).
Proof.
  induction updates as [|[k u] rest IH]; intros Hok allocs n; simpl;
    [apply reconciled_all_refl|].
  inversion Hok as [|? ? [Heq Hpos] Hrest]; subst. cbn [snd] in *.
  destruct (update_first _ _ allocs) as [allocs'|] eqn:E; [|apply IH; exact Hrest].
  eapply reconciled_all_trans; [|apply IH; exact Hrest].
  eapply update_first_reconciled; [|exact E].
  intros a. rewrite <- Heq. apply setTotals_reconciled. exact Hpos.
Qed.

Lemma updateMembers_reconciled (members : list (AllocKey * AllocStudents)) :
  forall allocs : list Allocation,
    Forall2 reconciled allocs (updateMembers members allocs).
Proof.
  induction members as [|[k m] rest IH]; intros allocs; simpl;
    [apply reconciled_all_refl|].
  destruct (update_first _ _ allocs) as [allocs'|] eqn:E; [|apply IH].
  eapply reconciled_all_trans; [|apply IH].
  eapply update_first_reconciled; [|exact E].
  intros a. apply addStudents_reconciled.
Qed.

Lemma ingest_reconciled (sheet : Sheet) (h u : nat) (sm : list (nat * SubjectInfo))
    (d : string) (t : ObjectId) (w : World) :
  Forall2 reconciled (allocations w) (allocations (fst (ingest sheet h u sm d t w))).
Proof.
  unfold ingest.
  match goal with
  | |- context [processRows ?c ?i ?r ?m ?s] =>
      pose proof (processRows_shared c r i m s) as [Ha Hok];
      destruct (processRows c i r m s) as [sm' st]
  end.
  cbn [snd startLoop world allocationUpdates] in *.
  pose proof (updateTotals_reconciled (allocationUpdates st)
                (Hok (List.Forall_nil _)) (allocations (world st)) 0) as Ht.
  destruct (updateTotals _ _ _) as [allocs n]. cbn [fst allocations] in *.
  rewrite Ha in Ht.
  eapply reconciled_all_trans; [exact Ht | apply updateMembers_reconciled].
Qed.

(** X7. The upload creates and removes no allocation and keeps them in
    order; of an allocation it changes at most the two totals and the
    students: no student is dropped, and totals that change become one
    positive total, written to [totalPlanned] and [totalConducted] alike. *)
Theorem upload_reconciles_allocations (req : Request) (sv : Server) :
  Forall2 reconciled (allocations (db sv))
    (allocations (db (fst (uploadDivisionSheet req sv)))).
Proof.
  destruct (upload_db req) as [H | H]; rewrite (H sv); [apply reconciled_all_refl|].
  unfold databaseAfter.
  destruct (layout (content req)); try apply reconciled_all_refl.
  destruct (databaseDown req); [apply reconciled_all_refl|].
  destruct (mapSubjects _ _ _ _) as [sm um].
  destruct (negb (is_nil um) && is_nil sm); [apply reconciled_all_refl|].
  destruct (is_nil (studentsOfDivision _ (db sv))); [apply reconciled_all_refl|].
  destruct (is_nil sm); [apply reconciled_all_refl|].
  apply ingest_reconciled.
Qed.

End Reconciliation.

Section HandlerFrames.
Import Db Upload Keys Outcome Handler Frames.

Lemma only_removes_refl (p : string) (s : gset string) : only_removes p s s.
Proof. intros q. split; auto. Qed.

Lemma only_removes_trans (p : string) (a b c : gset string) :
  only_removes p a b -> only_removes p b c -> only_removes p a c.
Proof.
  intros H1 H2 q. destruct (H1 q) as [A1 A2]. destruct (H2 q) as [B1 B2].
  split; auto.
Qed.

Lemma unlinkSync_only (p : string) (sv sv' : Server) :
  unlinkSync p sv = Return sv' -> only_removes p (files sv) (files sv').
Proof.
  unfold unlinkSync. destruct (decide (p ∈ files sv)); [|discriminate].
  intros [= <-] q. cbn [files]. rewrite elem_of_difference, elem_of_singleton.
  tauto.
Qed.

Lemma tryUnlink_only (p : string) (sv : Server) :
  only_removes p (files sv) (files (tryUnlink p sv)).
Proof.
  unfold tryUnlink. destruct (unlinkSync p sv) eqn:E.
  - apply (unlinkSync_only _ _ _ E).
  - apply only_removes_refl.
Qed.

Lemma reject_only (p msg : string) (sv : Server) :
  only_removes p (files sv) (files (fst (reject p msg sv))).
Proof.
  unfold reject. destruct (unlinkSync p sv) eqn:E; cbn [fst].
  - apply (unlinkSync_only _ _ _ E).
  - apply tryUnlink_only.
Qed.

Lemma processDivisionSheet_only (sheet : Sheet) (d : string) (t : ObjectId)
    (p : string) (down : bool) (sv : Server) :
  only_removes p (files sv) (files (fst (processDivisionSheet sheet d t p down sv))).
Proof.
  unfold processDivisionSheet.
  destruct (layout sheet); try apply reject_only.
  destruct down; [apply tryUnlink_only|].
  destruct (mapSubjects _ _ _ _) as [sm um].
  destruct (negb (is_nil um) && is_nil sm); [apply reject_only|].
  destruct (is_nil (studentsOfDivision d (db sv))); [apply reject_only|].
  destruct (is_nil sm); [apply reject_only|].
  destruct (ingest _ _ _ _ _ _ _) as [w' success].
  destruct (unlinkSync p _) eqn:E; cbn [fst].
  - apply (unlinkSync_only _ _ _ E).
  - apply (tryUnlink_only p {| db := w'; files := files sv |}).
Qed.

Lemma serverError_only (req : Request) (sv : Server) (f : File) :
  req_file req = Some f ->
  only_removes (path f) (files sv) (files (fst (serverError req sv))).
Proof.
  intros Hf. unfold serverError. rewrite Hf. cbn [fst].
  destruct (Str.is_empty (path f)); [apply only_removes_refl | apply tryUnlink_only].
Qed.

(** X8. The upload handler creates no file, and removes no file other than
    the uploaded one: a file on disk afterwards was there before, and a file
    that was there before and is not the request's file is still there. *)
Theorem upload_touches_only_its_file (req : Request) (sv : Server) (p : string) :
  let after := files (fst (uploadDivisionSheet req sv)) in
  (p ∈ after -> p ∈ files sv)
  /\ (p ∈ files sv -> (forall f, req_file req = Some f -> path f <> p) -> p ∈ after).
Proof.
  cbv zeta.
  assert (H : match req_file req with
              | Some f => only_removes (path f) (files sv)
                            (files (fst (uploadDivisionSheet req sv)))
              | None => files (fst (uploadDivisionSheet req sv)) = files sv
              end).
  { unfold uploadDivisionSheet.
    destruct (req_file req) as [f|] eqn:Hf.
    - destruct (negb (validDivision (req_division req))); [apply only_removes_refl|].
      destruct (existsb _ _).
      + destruct (readFails req); [apply serverError_only, Hf|].
        pose proof (processDivisionSheet_only (content req)
                      (Str.toUpperCase
                         (match req_division req with Some d => d | None => "" end))
                      (userId req) (path f) (databaseDown req) sv) as Hp.
        destruct (processDivisionSheet _ _ _ _ _ _) as [sv' [r|e]]; cbn [fst] in *;
          [exact Hp|].
        eapply only_removes_trans; [exact Hp | apply serverError_only, Hf].
      + destruct (unlinkSync (path f) sv) eqn:E; cbn [fst].
        * apply (unlinkSync_only _ _ _ E).
        * apply serverError_only, Hf.
    - destruct (negb (validDivision (req_division req))); reflexivity. }
  destruct (req_file req) as [f|].
  - destruct (H p) as [H1 H2]. split; [exact H1|].
    intros Hin Hne. apply H2; [exact Hin|]. intros Heq. apply (Hne f eq_refl).
    symmetry. exact Heq.
  - rewrite H. split; auto.
Qed.

Lemma reject_status (p msg : string) (sv : Server) (r : Response) :
  snd (reject p msg sv) = Return r -> status r = 400.
Proof.
  unfold reject. destruct (unlinkSync p sv); cbn [snd]; [|discriminate].
  intros [= <-]. reflexivity.
Qed.

Lemma reject_throws (p msg : string) (sv : Server) (e : string) :
  snd (reject p msg sv) = Throw e -> p ∉ files sv.
Proof.
  unfold reject. destruct (unlinkSync p sv) eqn:E; cbn [snd]; [discriminate|].
  intros _. apply (unlinkSync_throws _ _ _ E).
Qed.

(** What [processDivisionSheet] answers when it does not throw: 400 with
    the database as it was, or 200. *)
Lemma processDivisionSheet_answers (sheet : Sheet) (d : string) (t : ObjectId)
    (p : string) (down : bool) (sv : Server) :
  match processDivisionSheet sheet d t p down sv with
  | (sv', Return r) => (status r = 400 /\ db sv' = db sv) \/ status r = 200
  | (sv', Throw _) => True
  end.
Proof.
  assert (R : forall msg,
             match reject p msg sv with
             | (sv', Return r) => (status r = 400 /\ db sv' = db sv) \/ status r = 200
             | (sv', Throw _) => True
             end).
  { intros msg. pose proof (reject_db p msg sv) as Hd.
    pose proof (reject_status p msg sv) as Hs.
    destruct (reject p msg sv) as [sv' [r|e]]; cbn [fst snd] in *; auto. }
  unfold processDivisionSheet.
  destruct (layout sheet); try apply R.
  destruct down; [exact I|].
  destruct (mapSubjects _ _ _ _) as [sm um].
  destruct (negb (is_nil um) && is_nil sm); [apply R|].
  destruct (is_nil (studentsOfDivision d (db sv))); [apply R|].
  destruct (is_nil sm); [apply R|].
  destruct (ingest _ _ _ _ _ _ _) as [w' success].
  destruct (unlinkSync p _) eqn:E; [right; reflexivity | exact I].
Qed.

(** X9. The upload handler answers 200, 400 or 500, and a 400 answer
    leaves the database as it was: every rejection comes before the first
    write. *)
Theorem rejected_upload_leaves_database (req : Request) (sv : Server) :
  let out := uploadDivisionSheet req sv in
  (status (snd out) = 200 \/ status (snd out) = 400 \/ status (snd out) = 500)
  /\ (status (snd out) = 400 -> db (fst out) = db sv).
Proof.
  cbv zeta. split.
  - unfold uploadDivisionSheet.
    destruct (negb (validDivision (req_division req))); [cbn; auto|].
    destruct (req_file req) as [f|] eqn:Hf; [|cbn; auto].
    assert (He : forall sv0, status (snd (serverError req sv0)) = 500)
      by reflexivity.
    destruct (existsb _ _).
    + destruct (readFails req); [rewrite He; auto|].
      pose proof (processDivisionSheet_answers (content req)
                    (Str.toUpperCase
                       (match req_division req with Some d => d | None => "" end))
                    (userId req) (path f) (databaseDown req) sv) as Hp.
      destruct (processDivisionSheet _ _ _ _ _ _) as [sv' [r|e]].
      * cbn [snd]. destruct Hp as [[Hs _] | Hs]; rewrite Hs; auto.
      * rewrite He. auto.
    + destruct (unlinkSync (path f) sv); [cbn; auto | rewrite He; auto].
  - unfold uploadDivisionSheet.
    destruct (negb (validDivision (req_division req))); [reflexivity|].
    destruct (req_file req) as [f|] eqn:Hf; [|reflexivity].
    assert (He : forall sv0, status (snd (serverError req sv0)) = 500)
      by reflexivity.
    destruct (existsb _ _).
    + destruct (readFails req); [rewrite He; discriminate|].
      pose proof (processDivisionSheet_answers (content req)
                    (Str.toUpperCase
                       (match req_division req with Some d => d | None => "" end))
                    (userId req) (path f) (databaseDown req) sv) as Hp.
      destruct (processDivisionSheet _ _ _ _ _ _) as [sv' [r|e]].
      * cbn [fst snd]. destruct Hp as [[Hs Hd] | Hs]; rewrite Hs;
          [intros _; exact Hd | discriminate].
      * rewrite He. discriminate.
    + destruct (unlinkSync (path f) sv) eqn:E.
      * intros _. apply (unlinkSync_gone _ _ _ E).
      * rewrite He. discriminate.
Qed.

End HandlerFrames.

Section Resolver.
Import Db Upload Frames.

Lemma find_first_some {A : Type} (p : A -> bool) (l : list A) (x : A) :
  find_first p l = Some x -> x ∈ l /\ p x = true.
Proof.
  induction l as [|y r IH]; simpl; [discriminate|].
  destruct (p y) eqn:E.
  - intros [= <-]. split; [apply elem_of_cons; auto | exact E].
  - intros H. destruct (IH H) as [H1 H2]. split; [apply elem_of_cons; auto | exact H2].
Qed.

Lemma find_first_finds {A : Type} (p : A -> bool) (l : list A) (x : A) :
  x ∈ l -> p x = true -> exists y, find_first p l = Some y.
Proof.
  induction l as [|y r IH]; intros Hin Hp.
  - apply elem_of_nil in Hin. contradiction.
  - simpl. destruct (p y) eqn:E; [eauto|].
    apply elem_of_cons in Hin. destruct Hin as [-> | Hin]; [congruence | auto].
Qed.

(** X10. The subject resolver returns a subject of the catalogue that
    matches the sheet's name (by code, or by one name or code containing the
    other); when some subject's code equals the sheet's name up to case, the
    subject returned is one with such a code, whatever else contains the
    name; and it returns nothing only when no subject matches in any of the
    ways. *)
Theorem resolve_priority (allDbSubjects : list Subject) (sheetSubject : SheetSubject) :
  let nm := Str.toUpperCase (name sheetSubject) in
  let exact s := String.eqb (Str.toUpperCase (sub_code s)) nm in
  let loose s :=
    Str.includes (Str.toUpperCase (sub_name s)) nm
    || Str.includes nm (Str.toUpperCase (sub_name s))
    || Str.includes (Str.toUpperCase (sub_code s)) nm
    || Str.includes nm (Str.toUpperCase (sub_code s)) in
  (forall s, resolve allDbSubjects sheetSubject = Some s ->
     s ∈ allDbSubjects /\ (exact s = true \/ loose s = true))
  /\ (forall s, s ∈ allDbSubjects -> exact s = true ->
        exists s', resolve allDbSubjects sheetSubject = Some s' /\ exact s' = true)
  /\ (resolve allDbSubjects sheetSubject = None ->
        forall s, s ∈ allDbSubjects -> exact s = false /\ loose s = false).
Proof.
  cbv zeta. unfold resolve.
  set (nm := Str.toUpperCase (name sheetSubject)).
  set (pE := fun s => String.eqb (Str.toUpperCase (sub_code s)) nm).
  set (pN := fun s => Str.includes (Str.toUpperCase (sub_name s)) nm
                      || Str.includes nm (Str.toUpperCase (sub_name s))).
  set (pC := fun s => Str.includes (Str.toUpperCase (sub_code s)) nm
                      || Str.includes nm (Str.toUpperCase (sub_code s))).
  assert (L : forall s, pN s || pC s
                        = Str.includes (Str.toUpperCase (sub_name s)) nm
                          || Str.includes nm (Str.toUpperCase (sub_name s))
                          || Str.includes (Str.toUpperCase (sub_code s)) nm
                          || Str.includes nm (Str.toUpperCase (sub_code s))).
  { intros s. unfold pN, pC. rewrite !orb_assoc. reflexivity. }
  change (fun s => String.eqb (Str.toUpperCase (sub_code s)) nm) with pE.
  assert (Hexact : forall s, s ∈ allDbSubjects -> pE s = true ->
                     exists s', find_first pE allDbSubjects = Some s' /\ pE s' = true).
  { intros s Hs He. destruct (find_first_finds pE _ _ Hs He) as [y Hy].
    exists y. split; [exact Hy | apply (find_first_some _ _ _ Hy)]. }
  assert (N : forall p s, find_first p allDbSubjects = None ->
                s ∈ allDbSubjects -> p s = false).
  { intros p s Hp Hs. destruct (p s) eqn:E; [|reflexivity].
    destruct (find_first_finds p _ _ Hs E) as [y Hy]. congruence. }
  destruct (find_first pE allDbSubjects) as [s1|] eqn:E1.
  { apply find_first_some in E1 as [I1 P1].
    split; [intros s [= <-]; auto|]. split; [|discriminate].
    intros s Hs He. exists s1. auto. }
  split; [|split].
  - intros s. rewrite <- L.
    destruct (find_first pN allDbSubjects) as [s2|] eqn:E2.
    + intros [= <-]. apply find_first_some in E2 as [I2 P2].
      split; [exact I2 | right]. rewrite P2. reflexivity.
    + intros E3. apply find_first_some in E3 as [I3 P3].
      split; [exact I3 | right]. fold (pC s). rewrite P3. apply orb_true_r.
  - intros s Hs He. destruct (Hexact s Hs He) as (s' & Hs' & _). discriminate.
  - destruct (find_first pN allDbSubjects) as [s2|] eqn:E2; [discriminate|].
    intros E3 s Hs. rewrite <- L.
    split; [exact (N pE s E1 Hs)|].
    rewrite (N pN s E2 Hs), (N pC s E3 Hs). reflexivity.
Qed.

Lemma setCol_entries (col : nat) (info : SubjectInfo) (m : list (nat * SubjectInfo))
    (e : nat * SubjectInfo) :
  e ∈ setCol col info m -> e = (col, info) \/ e ∈ m.
Proof.
  induction m as [|[c i] r IH]; cbn [setCol].
  - intros H. apply list_elem_of_singleton in H. auto.
  - destruct (Nat.eqb col c).
    + intros H. apply elem_of_cons in H. destruct H as [H | H]; [auto|].
      right. apply elem_of_cons. auto.
    + destruct (Nat.ltb col c).
      * intros H. apply elem_of_cons in H. destruct H as [H | H]; auto.
      * intros H. apply elem_of_cons in H. destruct H as [H | H].
        -- right. apply elem_of_cons. auto.
        -- destruct (IH H) as [H' | H']; [auto|]. right. apply elem_of_cons. auto.
Qed.

Lemma setCol_length (col : nat) (info : SubjectInfo) (m : list (nat * SubjectInfo)) :
  List.length (setCol col info m) <= S (List.length m)
  /\ setCol col info m <> [].
Proof.
  induction m as [|[c i] r [IH _]]; cbn [setCol]; [split; [auto | discriminate]|].
  destruct (Nat.eqb col c); [split; [cbn; auto | discriminate]|].
  destruct (Nat.ltb col c); [split; [cbn; auto | discriminate]|].
  split; [|discriminate]. cbn [List.length]. apply le_n_S, IH.
Qed.

Lemma setCol_ascending (col : nat) (info : SubjectInfo) (m : list (nat * SubjectInfo)) :
  StronglySorted lt (map fst m) -> StronglySorted lt (map fst (setCol col info m)).
Proof.
  induction m as [|[c i] r IH]; cbn [setCol]; intros H.
  - repeat constructor.
  - cbn [map fst] in H. apply StronglySorted_inv in H as [Hr Hc].
    destruct (Nat.eqb col c) eqn:E1.
    + apply Nat.eqb_eq in E1. subst c. constructor; assumption.
    + destruct (Nat.ltb col c) eqn:E2.
      * apply Nat.ltb_lt in E2. cbn [map fst]. constructor.
        -- constructor; assumption.
        -- constructor; [exact E2|].
           eapply List.Forall_impl; [|exact Hc]. intros a Ha. cbv beta in Ha.
           eapply Nat.lt_trans; eassumption.
      * apply Nat.eqb_neq in E1. apply Nat.ltb_ge in E2.
        cbn [map fst]. constructor; [apply IH, Hr|].
        apply List.Forall_forall. intros x Hx.
        apply List.in_map_iff in Hx as (e & <- & He).
        apply list_elem_of_In, setCol_entries in He. destruct He as [-> | He].
        -- cbn [fst]. apply Nat.le_neq. split; [exact E2 | auto].
        -- rewrite List.Forall_forall in Hc. apply Hc, List.in_map.
           apply list_elem_of_In, He.
Qed.

Lemma mapSubjects_invariant (allDbSubjects : list Subject) (sheet : list SheetSubject) :
  forall (sm0 : list (nat * SubjectInfo)) (um0 : list SheetSubject),
    let sm := fst (mapSubjects allDbSubjects sheet sm0 um0) in
    let um := snd (mapSubjects allDbSubjects sheet sm0 um0) in
    um = um0 ++ List.filter (unresolved allDbSubjects) sheet
    /\ (StronglySorted lt (map fst sm0) -> StronglySorted lt (map fst sm))
    /\ List.length sm + List.length (List.filter (unresolved allDbSubjects) sheet)
       <= List.length sm0 + List.length sheet
    /\ (forall e, e ∈ sm -> e ∈ sm0 \/ mapped allDbSubjects sheet e)
    /\ (sm = [] -> sm0 = [] /\ List.filter (unresolved allDbSubjects) sheet = sheet).
Proof.
  induction sheet as [|ss rest IH]; intros sm0 um0; cbv zeta.
  - cbn [mapSubjects fst snd List.filter List.length]. rewrite app_nil_r.
    repeat apply conj; auto; try lia.
  - cbn [mapSubjects List.filter].
    destruct (resolve allDbSubjects ss) as [dbs|] eqn:E.
    + assert (U : unresolved allDbSubjects ss = false)
        by (unfold unresolved; rewrite E; reflexivity).
      rewrite U.
      match goal with
      | |- context [mapSubjects _ rest (setCol ?c ?i sm0) um0] =>
          specialize (IH (setCol c i sm0) um0); cbv zeta in IH;
          pose proof (setCol_length c i sm0) as [Hl Hne];
          pose proof (setCol_ascending c i sm0) as Hs;
          pose proof (setCol_entries c i sm0) as He;
          destruct (mapSubjects allDbSubjects rest (setCol c i sm0) um0) as [sm um]
      end.
      cbn [fst snd] in *. destruct IH as (I1 & I2 & I3 & I4 & I5).
      repeat apply conj.
      * exact I1.
      * auto.
      * cbn [List.length]. lia.
      * intros e Hin. destruct (I4 e Hin) as [H | (s' & d' & S1 & S2)].
        -- destruct (He e H) as [-> | H']; [|auto]. right.
           exists ss, dbs. repeat apply conj; auto. apply elem_of_cons; auto.
        -- right. exists s', d'. split; [apply elem_of_cons; auto | exact S2].
      * intros Hnil. exfalso. apply Hne, I5, Hnil.
    + assert (U : unresolved allDbSubjects ss = true)
        by (unfold unresolved; rewrite E; reflexivity).
      rewrite U.
      specialize (IH sm0 (um0 ++ [ss])). cbv zeta in IH.
      destruct (mapSubjects allDbSubjects rest sm0 (um0 ++ [ss])) as [sm um].
      cbn [fst snd] in *. destruct IH as (I1 & I2 & I3 & I4 & I5).
      repeat apply conj.
      * rewrite I1, <- app_assoc. reflexivity.
      * exact I2.
      * cbn [List.length]. lia.
      * intros e Hin. destruct (I4 e Hin) as [H | (s' & d' & S1 & S2)]; [auto|].
        right. exists s', d'. split; [apply elem_of_cons; auto | exact S2].
      * intros Hnil. destruct (I5 Hnil) as [J1 J2]. split; [exact J1|].
        rewrite J2. reflexivity.
Qed.

(** X11. The loop over the sheet's subjects: the unmatched subjects are the
    sheet subjects that resolve to nothing, in sheet order; the keys of
    [subjectMap] are in ascending order without repetition; matched columns
    and unmatched subjects together are at most the sheet's subjects; every
    entry of [subjectMap] is built from a sheet subject with that attended
    column and the subject it resolves to; and when [subjectMap] is empty,
    every sheet subject is unmatched. *)
Theorem mapSubjects_partition (allDbSubjects : list Subject)
    (sheet : list SheetSubject) :
  let subjectMap := fst (mapSubjects allDbSubjects sheet [] []) in
  let unmatchedSubjects := snd (mapSubjects allDbSubjects sheet [] []) in
  unmatchedSubjects = List.filter (unresolved allDbSubjects) sheet
  /\ StronglySorted lt (map fst subjectMap)
  /\ List.length subjectMap + List.length unmatchedSubjects <= List.length sheet
  /\ (forall e, e ∈ subjectMap -> mapped allDbSubjects sheet e)
  /\ (subjectMap = [] -> unmatchedSubjects = sheet).
Proof.
  cbv zeta.
  destruct (mapSubjects_invariant allDbSubjects sheet [] []) as (I1 & I2 & I3 & I4 & I5).
  cbn [app List.length Nat.add] in *. rewrite I1.
  repeat apply conj.
  - reflexivity.
  - apply I2. constructor.
  - exact I3.
  - intros e He. destruct (I4 e He) as [H | H]; [|exact H].
    apply elem_of_nil in H. contradiction.
  - intros H. apply I5, H.
Qed.

End Resolver.

Section HeaderRow.
Import Str Upload Header.

Lemma starts_with_before_space (p a b : list ascii) :
  " "%char ∉ p -> starts_with p (a ++ " "%char :: b) = true -> starts_with p a = true.
Proof.
  revert a. induction p as [|y p IH]; intros a Hp H; [destruct a; reflexivity|].
  apply not_elem_of_cons in Hp as [Hy Hp].
  destruct a as [|x a]; cbn [app starts_with] in *.
  - destruct (Ascii.eqb y " ") eqn:E; [|discriminate].
    apply Ascii.eqb_eq in E. congruence.
  - destruct (Ascii.eqb y x); [|discriminate]. apply IH; assumption.
Qed.

Lemma includes_chars_here (p s : list ascii) :
  includes_chars p s = starts_with p s
                       || match s with _ :: r => includes_chars p r | [] => false end.
Proof. destruct s; reflexivity. Qed.

(** A word without a space that occurs in two texts joined by a space
    occurs in one of them. *)
Lemma includes_chars_split (p a b : list ascii) :
  " "%char ∉ p -> p <> [] ->
  includes_chars p (a ++ " "%char :: b) = true ->
  includes_chars p a = true \/ includes_chars p b = true.
Proof.
  intros Hp Hne. induction a as [|x a IH]; intros H.
  - rewrite app_nil_l, includes_chars_here in H.
    apply orb_prop in H. destruct H as [H | H]; [|auto].
    destruct p as [|y p]; [congruence|]. cbn [starts_with] in H.
    apply not_elem_of_cons in Hp as [Hy _].
    destruct (Ascii.eqb y " ") eqn:E; [|discriminate].
    apply Ascii.eqb_eq in E. congruence.
  - rewrite <- app_comm_cons, includes_chars_here in H.
    apply orb_prop in H. destruct H as [H | H].
    + left. rewrite includes_chars_here.
      rewrite (starts_with_before_space p (x :: a) b Hp H). reflexivity.
    + destruct (IH H) as [H' | H']; [|auto].
      left. rewrite includes_chars_here, H'. apply orb_true_r.
Qed.

Lemma rowStr_cell (p : list ascii) (row : list string) :
  " "%char ∉ p -> p <> [] ->
  includes_chars p (rowStr row) = true ->
  exists cell, cell ∈ row /\ includes_chars p (map upper (chars cell)) = true.
Proof.
  intros Hp Hne. unfold rowStr.
  induction row as [|c rest IH]; cbn [joinCells map].
  - destruct p as [|y p]; [congruence | discriminate].
  - destruct rest as [|c' rest'].
    + intros H. exists c. split; [apply elem_of_cons; auto | exact H].
    + rewrite map_app. cbn [map].
      change (upper " ") with " "%char. intros H.
      apply includes_chars_split in H; [|exact Hp | exact Hne].
      destruct H as [H | H].
      * exists c. split; [apply elem_of_cons; auto | exact H].
      * destruct (IH H) as (cell & Hc & Hi).
        exists cell. split; [apply elem_of_cons; auto | exact Hi].
Qed.

Lemma cellHas_upper (word cell : string) :
  cellHas word cell = includes_chars (chars word) (map upper (chars cell)).
Proof.
  unfold cellHas, includes, toUpperCase, chars, ofChars.
  rewrite list_ascii_of_string_of_list_ascii. reflexivity.
Qed.

Lemma findIndex_some {A : Type} (p : A -> bool) (l : list A) (x : A) :
  x ∈ l -> p x = true ->
  exists i y, findIndex p l = Some i /\ l !! i = Some y /\ p y = true.
Proof.
  induction l as [|z r IH]; intros Hin Hp.
  - apply elem_of_nil in Hin. contradiction.
  - cbn [findIndex]. destruct (p z) eqn:E.
    + exists 0, z. auto.
    + apply elem_of_cons in Hin. destruct Hin as [-> | Hin]; [congruence|].
      destruct (IH Hin Hp) as (i & y & H1 & H2 & H3).
      exists (S i), y. rewrite H1. auto.
Qed.

Lemma findHeaderRow_first (rows : list (list string)) :
  forall (i limit k : nat),
    findHeaderRow i limit rows = Some k ->
    i <= k /\ k < i + limit
    /\ (exists row, rows !! (k - i) = Some row /\ isHeaderRow row = true)
    /\ forall j row, j < k - i -> rows !! j = Some row -> isHeaderRow row = false.
Proof.
  induction rows as [|r rest IH]; intros i limit k; destruct limit as [|n];
    cbn [findHeaderRow]; try discriminate.
  destruct (isHeaderRow r) eqn:E.
  - intros [= <-]. rewrite Nat.sub_diag. split; [lia|]. split; [lia|].
    split; [exists r; auto|]. intros j row Hj. lia.
  - intros H. destruct (IH _ _ _ H) as (H1 & H2 & (row & H3 & H4) & H5).
    split; [lia|]. split; [lia|].
    assert (Hk : k - i = S (k - S i)) by lia. rewrite Hk. split.
    + exists row. auto.
    + intros j row' Hj Hr. destruct j as [|j]; cbn in Hr.
      * congruence.
      * apply (H5 j row'); [lia | exact Hr].
Qed.

Lemma findHeaderRow_none (rows : list (list string)) :
  forall (i limit : nat),
    findHeaderRow i limit rows = None ->
    forall j row, j < limit -> rows !! j = Some row -> isHeaderRow row = false.
Proof.
  induction rows as [|r rest IH]; intros i limit H j row Hj Hr; [discriminate|].
  destruct limit as [|n]; [lia|]. cbn [findHeaderRow] in H.
  destruct (isHeaderRow r) eqn:E; [discriminate|].
  destruct j as [|j]; cbn in Hr; [congruence|].
  apply (IH _ _ H j row); [lia | exact Hr].
Qed.

Lemma no_space_in (w : string) :
  forallb (fun c => negb (Ascii.eqb c " ")) (chars w) = true -> " "%char ∉ chars w.
Proof.
  intros H Hin. rewrite forallb_forall in H. apply list_elem_of_In in Hin.
  specialize (H _ Hin). rewrite Ascii.eqb_refl in H. discriminate.
Qed.

(** X12. The header row is the first of the first ten rows whose text holds
    ROLL and one of UID and STUDENT.  In the row found the Roll column is
    always found, and the UID column or the name column is; so the columns
    are reported missing exactly when the UID column or the name column is
    not found.  When no header row is found, none of the first ten rows
    qualifies. *)
Theorem header_row_has_roll_column (sheetData : list (list string)) :
  match headerRowIndex sheetData with
  | Some i =>
      i < 10
      /\ (forall j row, j < i -> sheetData !! j = Some row -> isHeaderRow row = false)
      /\ exists headers,
           sheetData !! i = Some headers
           /\ isHeaderRow headers = true
           /\ rollCol headers <> None
           /\ (uidCol headers <> None \/ nameCol headers <> None)
           /\ missingColumns headers
              = match uidCol headers, nameCol headers with
                | Some _, Some _ => false
                | _, _ => true
                end
  | None =>
      forall j row, j < 10 -> sheetData !! j = Some row -> isHeaderRow row = false
  end.
Proof.
  unfold headerRowIndex.
  destruct (findHeaderRow 0 10 sheetData) as [i|] eqn:E;
    [|apply (findHeaderRow_none _ _ _ E)].
  destruct (findHeaderRow_first _ _ _ _ E) as (_ & H2 & (row & H3 & H4) & H5).
  rewrite Nat.sub_0_r in *. split; [lia|]. split; [exact H5|].
  exists row. split; [exact H3|]. split; [exact H4|].
  unfold isHeaderRow in H4. apply andb_prop in H4 as [Hr Ho].
  assert (Hroll : rollCol row <> None).
  { apply rowStr_cell in Hr; [|apply no_space_in; reflexivity | discriminate].
    destruct Hr as (cell & Hc & Hi). rewrite <- cellHas_upper in Hi.
    destruct (findIndex_some (cellHas "ROLL") row cell Hc Hi) as (k & y & Hk & _).
    unfold rollCol. rewrite Hk. discriminate. }
  split; [exact Hroll|]. split.
  - apply orb_prop in Ho. destruct Ho as [Ho | Ho];
      (apply rowStr_cell in Ho; [|apply no_space_in; reflexivity | discriminate]);
      destruct Ho as (cell & Hc & Hi); rewrite <- cellHas_upper in Hi.
    + left. destruct (findIndex_some (cellHas "UID") row cell Hc Hi) as (k & y & Hk & _).
      unfold uidCol. rewrite Hk. discriminate.
    + right.
      destruct (findIndex_some (fun h => cellHas "NAME" h || cellHas "STUDENT" h)
                  row cell Hc) as (k & y & Hk & _);
        [rewrite Hi; apply orb_true_r|].
      unfold nameCol. rewrite Hk. discriminate.
  - unfold missingColumns. destruct (rollCol row); [reflexivity | congruence].
Qed.

End HeaderRow.

Section ReuploadAllocations.
Import Db Upload Keys Outcome Handler Replay.

Lemma sameKey_refl (x : Allocation) : sameKey x x.
Proof. repeat split. Qed.

Lemma sameKey_change (c : Command) (k y : Allocation) :
  reconciler c -> sameKey k y -> sameKey k (change c y).
Proof.
  intros [_ [(a & b & ->) | (ids & ->)]] (H1 & H2 & H3 & H4); repeat split; assumption.
Qed.

Lemma replay_nil (cs : list Command) : replay cs [] = [].
Proof. unfold replay. induction cs as [|c cs IH]; [reflexivity | exact IH]. Qed.

(** The head of the list takes the changes of the commands that match it;
    the others go on to the rest. *)
Lemma apply1_cons (c : Command) (x : Allocation) (r : list Allocation) :
  apply1 c (x :: r) = if query c x then change c x :: r else x :: apply1 c r.
Proof.
  unfold apply1. cbn [update_first]. destruct (query c x); [reflexivity|].
  destruct (update_first (query c) (change c) r); reflexivity.
Qed.

Lemma replay_cons (cs : list Command) :
  Forall reconciler cs ->
  forall (k x : Allocation) (r : list Allocation),
    sameKey k x ->
    replay cs (x :: r)
    = changes cs k x :: replay (List.filter (fun c => negb (query c k)) cs) r.
Proof.
  unfold replay, changes.
  induction cs as [|c cs IH]; intros Hc k x r Hk; [reflexivity|].
  inversion Hc as [|? ? H1 H2]; subst. cbn [fold_left List.filter].
  rewrite apply1_cons, (proj1 H1 k x Hk).
  destruct (query c k) eqn:E; cbn [negb].
  - apply (IH H2 k (change c x) r). apply sameKey_change; assumption.
  - rewrite (IH H2 k x _ Hk). reflexivity.
Qed.

Lemma addEachToSet_app (xs ys l : list ObjectId) :
  addEachToSet ys (addEachToSet xs l) = addEachToSet (xs ++ ys) l.
Proof. unfold addEachToSet. rewrite fold_left_app. reflexivity. Qed.

Lemma addEachToSet_present (xs l : list ObjectId) :
  (forall x, x ∈ xs -> x ∈ l) -> addEachToSet xs l = l.
Proof.
  unfold addEachToSet. induction xs as [|x xs IH]; intros H; cbn [fold_left];
    [reflexivity|].
  assert (Hx : addToSet x l = l).
  { unfold addToSet. destruct (existsb (Nat.eqb x) l) eqn:E; [reflexivity|].
    exfalso. assert (Hin : x ∈ l) by (apply H, elem_of_cons; auto).
    apply list_elem_of_In in Hin.
    assert (Ht : existsb (Nat.eqb x) l = true)
      by (apply existsb_exists; exists x; split; [exact Hin | apply Nat.eqb_refl]).
    congruence. }
  rewrite Hx. apply IH. intros y Hy. apply H, elem_of_cons. auto.
Qed.

Lemma addEachToSet_holds (xs : list ObjectId) :
  forall (l : list ObjectId) (x : ObjectId),
    x ∈ xs \/ x ∈ l -> x ∈ addEachToSet xs l.
Proof.
  unfold addEachToSet. induction xs as [|y xs IH]; intros l x H; cbn [fold_left].
  - destruct H as [H | H]; [apply elem_of_nil in H; contradiction | exact H].
  - apply IH. destruct H as [H | H].
    + apply elem_of_cons in H. destruct H as [-> | H]; [|auto].
      right. unfold addToSet. destruct (existsb (Nat.eqb y) l) eqn:E.
      * apply existsb_exists in E as (z & Hz & Hq). apply Nat.eqb_eq in Hq. subst z.
        apply list_elem_of_In, Hz.
      * apply elem_of_app. right. apply list_elem_of_singleton. reflexivity.
    + right. unfold addToSet. destruct (existsb _ _); [exact H|].
      apply elem_of_app. auto.
Qed.

Lemma changes_normal (cs : list Command) (k : Allocation) :
  Forall reconciler cs ->
  exists (tot : option (N * N)) (ids : list ObjectId),
    forall y, changes cs k y = normalForm tot ids y.
Proof.
  unfold changes. induction cs as [|c cs IH]; intros Hc.
  - exists None, []. intros [ ]. reflexivity.
  - inversion Hc as [|? ? H1 H2]; subst. destruct (IH H2) as (tot & ids & Hn).
    cbn [fold_left]. destruct (query c k).
    + destruct H1 as [_ [(a & b & ->) | (new & ->)]].
      * exists (match tot with Some t => Some t | None => Some (a, b) end), ids.
        intros y. rewrite Hn. unfold normalForm, setTotals. cbn.
        destruct tot; reflexivity.
      * exists tot, (new ++ ids). intros y. rewrite Hn.
        unfold normalForm, addStudents. cbn. rewrite addEachToSet_app. reflexivity.
    + exists tot, ids. exact Hn.
Qed.

Lemma changes_idempotent (cs : list Command) (k y : Allocation) :
  Forall reconciler cs -> changes cs k (changes cs k y) = changes cs k y.
Proof.
  intros Hc. destruct (changes_normal cs k Hc) as (tot & ids & Hn).
  rewrite !Hn. unfold normalForm. cbn. f_equal; try (destruct tot; reflexivity).
  apply addEachToSet_present. intros x Hx. apply addEachToSet_holds. auto.
Qed.

Lemma changes_key (cs : list Command) (k y : Allocation) :
  Forall reconciler cs -> sameKey y (changes cs k y).
Proof.
  intros Hc. destruct (changes_normal cs k Hc) as (tot & ids & Hn).
  rewrite Hn. repeat split.
Qed.

Lemma replay_idempotent (l : list Allocation) :
  forall cs : list Command,
    Forall reconciler cs -> replay cs (replay cs l) = replay cs l.
Proof.
  induction l as [|x r IH]; intros cs Hc; [rewrite !replay_nil; reflexivity|].
  rewrite (replay_cons cs Hc x x r (sameKey_refl x)).
  rewrite (replay_cons cs Hc x (changes cs x x) _ (changes_key cs x x Hc)).
  rewrite changes_idempotent by exact Hc. f_equal.
  apply IH. apply List.Forall_forall. intros c Hin.
  apply List.filter_In in Hin as [Hin _].
  rewrite List.Forall_forall in Hc. apply Hc, Hin.
Qed.

Lemma updateTotals_replay (updates : list (AllocKey * AllocUpdate)) :
  forall (allocs : list Allocation) (n : nat),
    fst (updateTotals updates allocs n) = replay (map totalsCommand updates) allocs.
Proof.
  unfold replay. induction updates as [|[k u] rest IH]; intros allocs n;
    cbn [updateTotals map fold_left]; [reflexivity|].
  unfold apply1 at 2, query, change, totalsCommand. cbn [fst snd].
  destruct (update_first _ _ allocs); apply IH.
Qed.

Lemma updateMembers_replay (members : list (AllocKey * AllocStudents)) :
  forall allocs : list Allocation,
    updateMembers members allocs = replay (map membersCommand members) allocs.
Proof.
  unfold replay. induction members as [|[k m] rest IH]; intros allocs;
    cbn [updateMembers map fold_left]; [reflexivity|].
  unfold apply1 at 2, query, change, membersCommand. cbn [fst snd].
  destruct (update_first _ _ allocs); apply IH.
Qed.

Lemma allocMatches_sameKey (sid : ObjectId) (k : Kind) (d : string)
    (b : option string) (x y : Allocation) :
  sameKey x y -> allocMatches sid k d b y = allocMatches sid k d b x.
Proof.
  intros (H1 & H2 & H3 & H4). unfold allocMatches. rewrite H1, H2, H3, H4. reflexivity.
Qed.

Lemma commands_reconcile (updates : list (AllocKey * AllocUpdate))
    (members : list (AllocKey * AllocStudents)) :
  Forall reconciler (map totalsCommand updates ++ map membersCommand members).
Proof.
  apply List.Forall_app. split; apply List.Forall_forall; intros c Hc;
    apply List.in_map_iff in Hc as (e & <- & _); split.
  - intros x y. apply allocMatches_sameKey.
  - left. eexists _, _. reflexivity.
  - intros x y. apply allocMatches_sameKey.
  - right. eexists. reflexivity.
Qed.

(** The bookkeeping of the row loop does not read the database. *)
Lemma processCell_bookkeeping (ctx : Ctx) (student : StudentView) (row : list string)
    (col : nat) (info : SubjectInfo) (st1 st2 : Loop) :
  bookkeeping st1 = bookkeeping st2 ->
  fst (processCell ctx student row col info st1)
  = fst (processCell ctx student row col info st2)
  /\ bookkeeping (snd (processCell ctx student row col info st1))
     = bookkeeping (snd (processCell ctx student row col info st2)).
Proof.
  unfold bookkeeping. intros H. injection H as H1 H2 H3 H4 H5 H6.
  unfold processCell. destruct (skipped _).
  - cbn [fst snd]. split; [reflexivity | congruence].
  - destruct (summaryFor ctx student _ _ _ (clock (world st1))) as [q1 u1].
    destruct (summaryFor ctx student _ _ _ (clock (world st2))) as [q2 u2].
    destruct (findOneAndUpsert q1 _ _ _) as [[c1 r1] n1].
    destruct (findOneAndUpsert q2 _ _ _) as [[c2 r2] n2].
    cbn [fst snd allocationUpdates allocationStudents recordsCreated errors
           studentsFound studentsNotFound].
    split; [reflexivity|]. rewrite H1, H2, H3, H4, H5, H6. reflexivity.
Qed.

Lemma processSubjects_bookkeeping (ctx : Ctx) (student : StudentView)
    (row : list string) (entries : list (nat * SubjectInfo)) :
  forall st1 st2 : Loop,
    bookkeeping st1 = bookkeeping st2 ->
    fst (processSubjects ctx student row entries st1)
    = fst (processSubjects ctx student row entries st2)
    /\ bookkeeping (snd (processSubjects ctx student row entries st1))
       = bookkeeping (snd (processSubjects ctx student row entries st2)).
Proof.
  induction entries as [|[col info] rest IH]; intros st1 st2 H; [auto|].
  cbn [processSubjects].
  destruct (processCell_bookkeeping ctx student row col info st1 st2 H) as [Hf Hb].
  destruct (processCell ctx student row col info st1) as [i1 s1].
  destruct (processCell ctx student row col info st2) as [i2 s2].
  cbn [fst snd] in Hf, Hb. destruct (IH s1 s2 Hb) as [If Ib].
  destruct (processSubjects ctx student row rest s1) as [r1 t1].
  destruct (processSubjects ctx student row rest s2) as [r2 t2].
  cbn [fst snd] in *. split; [congruence | exact Ib].
Qed.

Lemma processRows_bookkeeping (ctx : Ctx) (rows : list (list string)) :
  forall (rowIndex : nat) (subjectMap : list (nat * SubjectInfo)) (st1 st2 : Loop),
    bookkeeping st1 = bookkeeping st2 ->
    fst (processRows ctx rowIndex rows subjectMap st1)
    = fst (processRows ctx rowIndex rows subjectMap st2)
    /\ bookkeeping (snd (processRows ctx rowIndex rows subjectMap st1))
       = bookkeeping (snd (processRows ctx rowIndex rows subjectMap st2)).
Proof.
  induction rows as [|row rest IH]; intros rowIndex subjectMap st1 st2 H; [auto|].
  cbn [processRows].
  assert (Hr : fst (processRow ctx rowIndex row subjectMap st1)
               = fst (processRow ctx rowIndex row subjectMap st2)
               /\ bookkeeping (snd (processRow ctx rowIndex row subjectMap st1))
                  = bookkeeping (snd (processRow ctx rowIndex row subjectMap st2))).
  { unfold processRow. destruct row as [|c row]; [auto|].
    destruct (Str.is_empty _); [auto|].
    pose proof H as H'. unfold bookkeeping in H'. injection H' as H1 H2 H3 H4 H5 H6.
    destruct (find_first _ _) as [student|].
    - apply processSubjects_bookkeeping. unfold bookkeeping.
      cbn [allocationUpdates allocationStudents recordsCreated errors studentsFound
             studentsNotFound]. congruence.
    - cbn [fst snd]. split; [reflexivity|]. unfold bookkeeping.
      cbn [allocationUpdates allocationStudents recordsCreated errors studentsFound
             studentsNotFound]. congruence. }
  destruct Hr as [Hf Hb].
  destruct (processRow ctx rowIndex row subjectMap st1) as [m1 s1].
  destruct (processRow ctx rowIndex row subjectMap st2) as [m2 s2].
  cbn [fst snd] in Hf, Hb. subst m2. apply IH, Hb.
Qed.

Lemma ingest_allocations (sheet : Sheet) (h u : nat) (sm : list (nat * SubjectInfo))
    (d : string) (t : ObjectId) (w : World) :
  let ctx :=
    {| Upload.division := d; Upload.teacherId := t; uidCol := u;
       sheetPeriod := periodOf (sheetData sheet);
       divisionStudents := studentsOfDivision d w |} in
  let st := snd (processRows ctx (S h) (drop (S h) (sheetData sheet)) sm (startLoop w)) in
  allocations (fst (ingest sheet h u sm d t w))
  = replay (map totalsCommand (allocationUpdates st)
            ++ map membersCommand (allocationStudents st)) (allocations w).
Proof.
  cbv zeta. unfold ingest.
  match goal with
  | |- context [processRows ?c ?i ?r ?m ?s] =>
      pose proof (proj1 (processRows_shared c r i m s)) as Ha;
      destruct (processRows c i r m s) as [sm' st]
  end.
  cbn [snd startLoop world] in *.
  pose proof (updateTotals_replay (allocationUpdates st) (allocations (world st)) 0)
    as Ht.
  destruct (updateTotals _ _ _) as [allocs n]. cbn [fst allocations] in *.
  rewrite updateMembers_replay, Ht, Ha. unfold replay. rewrite fold_left_app.
  reflexivity.
Qed.

Lemma ingest_allocations_rerun (sheet : Sheet) (h u : nat)
    (sm : list (nat * SubjectInfo)) (d : string) (t : ObjectId) (w : World) :
  let w1 := fst (ingest sheet h u sm d t w) in
  allocations (fst (ingest sheet h u sm d t w1)) = allocations w1.
Proof.
  cbv zeta.
  destruct (ingest_world sheet h u sm d t w) as [_ [_ Hv]].
  rewrite (ingest_allocations sheet h u sm d t (fst (ingest sheet h u sm d t w))).
  rewrite (ingest_allocations sheet h u sm d t w). rewrite (Hv d).
  set (ctx := {| Upload.division := d; Upload.teacherId := t; uidCol := u;
                 sheetPeriod := periodOf (sheetData sheet);
                 divisionStudents := studentsOfDivision d w |}).
  destruct (processRows_bookkeeping ctx (drop (S h) (sheetData sheet)) (S h) sm
              (startLoop (fst (ingest sheet h u sm d t w))) (startLoop w) eq_refl)
    as [_ Hb].
  unfold bookkeeping in Hb. injection Hb as H1 H2 _.
  rewrite H1, H2. apply replay_idempotent, commands_reconcile.
Qed.

(** X13. Uploading the same sheet a second time leaves every allocation as
    the first upload left it: the same totals and the same students, in the
    same order. *)
Theorem reupload_keeps_allocations (req : Request) (sv : Server)
    (files2 : gset string) :
  let sv1 := fst (uploadDivisionSheet req sv) in
  let sv2 := fst (uploadDivisionSheet req {| db := db sv1; files := files2 |}) in
  allocations (db sv2) = allocations (db sv1).
Proof.
  cbv zeta. destruct (upload_db req) as [Hsame | Hrun].
  - rewrite (Hsame {| db := _; files := files2 |}). reflexivity.
  - rewrite (Hrun {| db := _; files := files2 |}), (Hrun sv). cbn [db].
    set (d := Str.toUpperCase _).
    destruct (databaseAfter_stable (content req) d (userId req) (databaseDown req)
                (db sv)) as [Hs Hv].
    unfold databaseAfter at 1. rewrite Hs, (Hv d). unfold databaseAfter.
    destruct (layout (content req)); try reflexivity.
    destruct (databaseDown req); [reflexivity|].
    destruct (mapSubjects _ _ _ _) as [sm um].
    destruct (negb (is_nil um) && is_nil sm); [reflexivity|].
    destruct (is_nil (studentsOfDivision d (db sv))); [reflexivity|].
    destruct (is_nil sm); [reflexivity|].
    apply ingest_allocations_rerun.
Qed.

End ReuploadAllocations.

Section StudentLinks.
Import Db Upload Keys Outcome Handler Frames.

Lemma persist_refl (rows : list Attendance) : persist rows rows.
Proof. intros r Hr. exists r. auto. Qed.

Lemma persist_trans (a b c : list Attendance) :
  persist a b -> persist b c -> persist a c.
Proof.
  intros H1 H2 r Hr. destruct (H1 r Hr) as (r1 & I1 & E1 & S1).
  destruct (H2 r1 I1) as (r2 & I2 & E2 & S2). exists r2.
  split; [exact I2|]. split; congruence.
Qed.

Lemma linked_refl (rows : list Attendance) (s : Student) : linked rows s s.
Proof.
  do 8 (split; [reflexivity|]). exists []. rewrite app_nil_r. split; [reflexivity|].
  intros id H. apply elem_of_nil in H. contradiction.
Qed.

Lemma linked_all_refl (rows : list Attendance) (l : list Student) :
  Forall2 (linked rows) l l.
Proof. induction l; constructor; [apply linked_refl | assumption]. Qed.

Lemma linked_trans (rows1 rows2 : list Attendance) (a b c : Student) :
  persist rows1 rows2 -> linked rows1 a b -> linked rows2 b c -> linked rows2 a c.
Proof.
  intros Hp (A1 & A2 & A3 & A4 & A5 & A6 & A7 & A8 & n1 & N1 & M1)
            (B1 & B2 & B3 & B4 & B5 & B6 & B7 & B8 & n2 & N2 & M2).
  do 8 (split; [congruence|]). exists (n1 ++ n2).
  split; [rewrite N2, N1, app_assoc; reflexivity|].
  intros id Hid. apply elem_of_app in Hid. destruct Hid as [Hid | Hid].
  - destruct (M1 id Hid) as (r & R1 & R2 & R3).
    destruct (Hp r R1) as (r' & P1 & P2 & P3). exists r'.
    split; [exact P1|]. split; congruence.
  - destruct (M2 id Hid) as (r & R1 & R2 & R3). exists r.
    split; [exact R1|]. split; congruence.
Qed.

Lemma linked_all_trans (rows1 rows2 : list Attendance) (a b c : list Student) :
  persist rows1 rows2 ->
  Forall2 (linked rows1) a b -> Forall2 (linked rows2) b c ->
  Forall2 (linked rows2) a c.
Proof.
  intros Hp H. revert c. induction H as [|x y a b Hx H IH]; intros c Hc.
  - inversion Hc. constructor.
  - inversion Hc as [|y' z b' c' Hy Hc']; subst. constructor; [|apply IH, Hc'].
    eapply linked_trans; eassumption.
Qed.

(** What the upsert returns: the id, and a stored row with that id for the
    student of the query; the rows stored before persist. *)
Lemma upsert_row (q : SummaryQuery) (u : SummarySet) (coll : list Attendance)
    (fresh : ObjectId) :
  let out := findOneAndUpsert q u coll fresh in
  persist coll (fst (fst out))
  /\ (exists r, r ∈ fst (fst out) /\ att_id r = snd (fst out)
                /\ att_studentId r = q_studentId q)
  /\ (forall r, r ∈ fst (fst out) ->
        r ∈ coll \/ (att_id r = snd (fst out) /\ att_studentId r = q_studentId q)).
Proof.
  cbv zeta. unfold findOneAndUpsert.
  assert (Ins : persist coll (coll ++ [inserted fresh q u])
                /\ (exists r, r ∈ coll ++ [inserted fresh q u] /\ att_id r = fresh
                              /\ att_studentId r = q_studentId q)
                /\ (forall r, r ∈ coll ++ [inserted fresh q u] ->
                      r ∈ coll \/ (att_id r = fresh /\ att_studentId r = q_studentId q))).
  { split; [|split].
    - intros r Hr. exists r. split; [apply elem_of_app; auto | auto].
    - exists (inserted fresh q u).
      split; [apply elem_of_app; right; apply list_elem_of_singleton; reflexivity|].
      split; reflexivity.
    - intros r Hr. apply elem_of_app in Hr. destruct Hr as [Hr | Hr]; [auto|].
      apply list_elem_of_singleton in Hr. subst r. right. split; reflexivity. }
  destruct (find_first (matches q) coll) as [r0|] eqn:Hf; [|exact Ins].
  destruct (update_first (matches q) (applySet u) coll) as [coll'|] eqn:Hu;
    [|exact Ins].
  cbn [fst snd]. clear Ins. revert coll' Hu r0 Hf.
  induction coll as [|y l IH]; intros coll' Hu r0 Hf; cbn [update_first find_first] in *;
    [discriminate|].
  destruct (matches q y) eqn:E.
  - injection Hu as <-. injection Hf as <-.
    assert (Hs : att_studentId y = q_studentId q).
    { unfold matches in E. apply andb_prop in E as [E _]. apply andb_prop in E as [E _].
      apply andb_prop in E as [E _]. apply Nat.eqb_eq in E. exact E. }
    split; [|split].
    + intros r Hr. apply elem_of_cons in Hr. destruct Hr as [-> | Hr].
      * exists (applySet u y). split; [apply elem_of_cons; auto | auto].
      * exists r. split; [apply elem_of_cons; auto | auto].
    + exists (applySet u y). split; [apply elem_of_cons; auto | auto].
    + intros r Hr. apply elem_of_cons in Hr. destruct Hr as [-> | Hr].
      * right. auto.
      * left. apply elem_of_cons. auto.
  - destruct (update_first (matches q) (applySet u) l) as [l'|] eqn:Hl; [|discriminate].
    injection Hu as <-. destruct (IH l' eq_refl r0 Hf) as (I1 & (r & I2 & I3) & I4).
    split; [|split].
    + intros x Hx. apply elem_of_cons in Hx. destruct Hx as [-> | Hx].
      * exists y. split; [apply elem_of_cons; auto | auto].
      * destruct (I1 x Hx) as (x' & X1 & X2). exists x'.
        split; [apply elem_of_cons; auto | exact X2].
    + exists r. split; [apply elem_of_cons; auto | exact I3].
    + intros x Hx. apply elem_of_cons in Hx. destruct Hx as [-> | Hx].
      * left. apply elem_of_cons. auto.
      * destruct (I4 x Hx) as [H | H]; [left; apply elem_of_cons; auto | auto].
Qed.

(** [linkRecord] appends the id to the first student document with the
    student's id, unless it is listed there, and touches nothing else. *)
Lemma linkRecord_linked (rows : list Attendance) (sid rec : ObjectId)
    (l : list Student) :
  (exists r, r ∈ rows /\ att_id r = rec /\ att_studentId r = sid) ->
  Forall2 (linked rows) l (linkRecord sid rec l)
  /\ ((exists s, s ∈ l /\ stu_id s = sid) ->
      exists s, s ∈ linkRecord sid rec l /\ stu_id s = sid /\ rec ∈ attedanceRecord s).
Proof.
  intros Hr. unfold linkRecord.
  induction l as [|x l [IH1 IH2]]; cbn [update_first].
  - split; [constructor|]. intros (s & Hs & _). apply elem_of_nil in Hs. contradiction.
  - destruct (Nat.eqb (stu_id x) sid) eqn:E.
    + apply Nat.eqb_eq in E. split.
      * constructor; [|apply linked_all_refl].
        do 8 (split; [reflexivity|]). cbn [attedanceRecord]. unfold addToSet.
        destruct (existsb (Nat.eqb rec) (attedanceRecord x)).
        -- exists []. rewrite app_nil_r. split; [reflexivity|].
           intros id H. apply elem_of_nil in H. contradiction.
        -- exists [rec]. split; [reflexivity|]. intros id H.
           apply list_elem_of_singleton in H. subst id.
           destruct Hr as (r & R1 & R2 & R3). exists r. rewrite E. auto.
      * intros _. eexists. split; [apply elem_of_cons; left; reflexivity|].
        cbn [stu_id attedanceRecord]. split; [exact E|]. unfold addToSet.
        destruct (existsb (Nat.eqb rec) (attedanceRecord x)) eqn:Eb.
        -- apply existsb_exists in Eb as (z & Hz & Hq). apply Nat.eqb_eq in Hq.
           subst z. apply list_elem_of_In, Hz.
        -- apply elem_of_app. right. apply list_elem_of_singleton. reflexivity.
    + destruct (update_first _ _ l) as [l'|] eqn:Hu.
      * split; [constructor; [apply linked_refl | exact IH1]|].
        intros (s & Hs & Hid). apply elem_of_cons in Hs. destruct Hs as [-> | Hs].
        -- apply Nat.eqb_neq in E. congruence.
        -- destruct IH2 as (s' & S1 & S2); [eauto|].
           exists s'. split; [apply elem_of_cons; auto | exact S2].
      * split; [apply linked_all_refl|].
        intros (s & Hs & Hid). apply elem_of_cons in Hs. destruct Hs as [-> | Hs].
        -- apply Nat.eqb_neq in E. congruence.
        -- destruct IH2 as (s' & S1 & S2); [eauto|].
           exists s'. split; [apply elem_of_cons; auto | exact S2].
Qed.

Lemma referenced_later (rows : list Attendance) (a b : list Student) (r : Attendance) :
  Forall2 (linked rows) a b -> referenced a r -> referenced b r.
Proof.
  intros H (s & Hs & Hid & Hin). apply list_elem_of_lookup in Hs as [i Hi].
  destruct (Forall2_lookup_l _ _ _ _ _ H Hi) as (s' & Hi' & L).
  destruct L as (L1 & _ & _ & _ & _ & _ & _ & _ & new & Hn & _).
  exists s'. split; [apply list_elem_of_lookup_2 in Hi'; exact Hi'|].
  split; [congruence|]. rewrite Hn. apply elem_of_app. auto.
Qed.

Lemma linked_ids (rows : list Attendance) (a b : list Student) (sid : ObjectId) :
  Forall2 (linked rows) a b ->
  (exists s, s ∈ a /\ stu_id s = sid) -> exists s, s ∈ b /\ stu_id s = sid.
Proof.
  intros H (s & Hs & Hid). apply list_elem_of_lookup in Hs as [i Hi].
  destruct (Forall2_lookup_l _ _ _ _ _ H Hi) as (s' & Hi' & L).
  exists s'. split; [apply list_elem_of_lookup_2 in Hi'; exact Hi'|].
  destruct L as (L1 & _). congruence.
Qed.

Lemma threaded_refl (w : World) : threaded w w.
Proof.
  split; [apply persist_refl|]. split; [apply linked_all_refl|].
  split; [reflexivity | auto].
Qed.

Lemma processCell_threaded (w0 : World) (ctx : Ctx) (student : StudentView)
    (row : list string) (col : nat) (info : SubjectInfo) (st : Loop) :
  (exists s, s ∈ students w0 /\ stu_id s = sv_id student) ->
  threaded w0 (world st) ->
  threaded w0 (world (snd (processCell ctx student row col info st))).
Proof.
  intros Hex (T1 & T2 & T3 & T4). unfold processCell.
  destruct (skipped _); [repeat split; assumption|].
  destruct (summaryFor _ _ _ _ _ _) as [q u] eqn:Es.
  assert (Hq : q_studentId q = sv_id student).
  { unfold summaryFor in Es. injection Es as <- _. reflexivity. }
  destruct (upsert_row q u (attendances (world st)) (nextId (world st)))
    as (U1 & U2 & U3).
  destruct (findOneAndUpsert _ _ _ _) as [[coll rid] nid].
  cbn [fst snd world attendances students subjects] in *.
  rewrite Hq in U2, U3.
  destruct (linkRecord_linked coll (sv_id student) rid (students (world st)) U2)
    as [L1 L2].
  assert (Hhere : exists s, s ∈ students (world st) /\ stu_id s = sv_id student)
    by (eapply linked_ids; eassumption).
  specialize (L2 Hhere).
  split; [eapply persist_trans; eassumption|].
  split; [eapply linked_all_trans; eassumption|].
  split; [exact T3|].
  intros r Hr. destruct (U3 r Hr) as [Hold | [Hid Hsid]].
  - destruct (T4 r Hold) as [H0 | Href]; [auto|].
    right. eapply referenced_later; eassumption.
  - right. destruct L2 as (s & S1 & S2 & S3).
    exists s. split; [exact S1|]. split; congruence.
Qed.

Lemma processSubjects_threaded (w0 : World) (ctx : Ctx) (student : StudentView)
    (row : list string) (entries : list (nat * SubjectInfo)) :
  (exists s, s ∈ students w0 /\ stu_id s = sv_id student) ->
  forall st : Loop,
    threaded w0 (world st) ->
    threaded w0 (world (snd (processSubjects ctx student row entries st))).
Proof.
  intros Hex. induction entries as [|[col info] rest IH]; intros st H; [exact H|].
  cbn [processSubjects].
  pose proof (processCell_threaded w0 ctx student row col info st Hex H) as Hc.
  destruct (processCell ctx student row col info st) as [info' st'].
  specialize (IH st' Hc).
  destruct (processSubjects ctx student row rest st') as [rest' st''].
  exact IH.
Qed.

Lemma processRows_threaded (w0 : World) (ctx : Ctx) (rows : list (list string)) :
  (forall sv, sv ∈ divisionStudents ctx ->
     exists s, s ∈ students w0 /\ stu_id s = sv_id sv) ->
  forall (rowIndex : nat) (subjectMap : list (nat * SubjectInfo)) (st : Loop),
    threaded w0 (world st) ->
    threaded w0 (world (snd (processRows ctx rowIndex rows subjectMap st))).
Proof.
  intros Hds. induction rows as [|row rest IH]; intros rowIndex subjectMap st H;
    [exact H|].
  cbn [processRows].
  assert (Hr : threaded w0 (world (snd (processRow ctx rowIndex row subjectMap st)))).
  { unfold processRow. destruct row as [|c row]; [exact H|].
    destruct (Str.is_empty _); [exact H|].
    destruct (find_first _ _) as [student|] eqn:E; [|exact H].
    apply processSubjects_threaded; [|exact H].
    apply Hds. clear -E.
    induction (divisionStudents ctx) as [|x l IHl]; cbn [find_first] in E;
      [discriminate|].
    destruct (String.eqb (sv_studentId x) _).
    - injection E as <-. apply elem_of_cons; auto.
    - apply elem_of_cons. right. apply IHl, E. }
  destruct (processRow ctx rowIndex row subjectMap st) as [sm' st1].
  apply IH. exact Hr.
Qed.

Lemma ingest_threaded (sheet : Sheet) (h u : nat) (sm : list (nat * SubjectInfo))
    (d : string) (t : ObjectId) (w : World) :
  threaded w (fst (ingest sheet h u sm d t w)).
Proof.
  unfold ingest.
  match goal with
  | |- context [processRows ?c ?i ?r ?m ?s] =>
      pose proof (processRows_threaded w c r) as Ht;
      specialize (fun H => Ht H i m s);
      destruct (processRows c i r m s) as [sm' st]
  end.
  cbn [snd startLoop world divisionStudents] in Ht.
  destruct (updateTotals _ _ _) as [allocs n]. cbn [fst].
  apply Ht; [|apply threaded_refl].
  intros sv Hsv. unfold studentsOfDivision in Hsv.
  apply list_elem_of_fmap in Hsv as (s & -> & Hs).
  apply list_elem_of_filter in Hs as [_ Hs]. exists s. auto.
Qed.

Lemma upload_threaded (req : Request) (sv : Server) :
  threaded (db sv) (db (fst (uploadDivisionSheet req sv))).
Proof.
  destruct (upload_db req) as [H | H]; rewrite (H sv); [apply threaded_refl|].
  unfold databaseAfter.
  destruct (layout (content req)); try apply threaded_refl.
  destruct (databaseDown req); [apply threaded_refl|].
  destruct (mapSubjects _ _ _ _) as [sm um].
  destruct (negb (is_nil um) && is_nil sm); [apply threaded_refl|].
  destruct (is_nil (studentsOfDivision _ (db sv))); [apply threaded_refl|].
  destruct (is_nil sm); [apply threaded_refl|].
  apply ingest_threaded.
Qed.

(** X14. The upload writes no subject, and creates, removes and re-orders no
    student; of a student it changes nothing but [attedanceRecord], to which
    it only appends, and every id it appends is the id of a stored summary
    of this student. *)
Theorem upload_links_students (req : Request) (sv : Server) :
  let after := db (fst (uploadDivisionSheet req sv)) in
  subjects after = subjects (db sv)
  /\ Forall2 (linked (attendances after)) (students (db sv)) (students after).
Proof.
  cbv zeta. destruct (upload_threaded req sv) as (_ & T2 & T3 & _). auto.
Qed.

(** X15. After an upload every summary that was not stored as it is before
    the upload is listed in the [attedanceRecord] of a student document
    with the summary's student id; and every summary stored before is still
    stored under its id and for its student. *)
Theorem uploaded_rows_are_referenced (req : Request) (sv : Server) (r : Attendance) :
  let after := db (fst (uploadDivisionSheet req sv)) in
  (r ∈ attendances after ->
   r ∈ attendances (db sv) \/ referenced (students after) r)
  /\ (r ∈ attendances (db sv) ->
      exists r', r' ∈ attendances after /\ att_id r' = att_id r
                 /\ att_studentId r' = att_studentId r).
Proof.
  cbv zeta. destruct (upload_threaded req sv) as (T1 & _ & _ & T4).
  split; [apply T4 | apply T1].
Qed.

End StudentLinks.

Section ReuploadValues.
Import Db Upload Keys Outcome Handler Writes.

Lemma find_first_map {A B : Type} (p : B -> bool) (g : A -> B) (l : list A) :
  find_first p (map g l) = option_map g (find_first (fun x => p (g x)) l).
Proof.
  induction l as [|x r IH]; cbn [map find_first]; [reflexivity|].
  destruct (p (g x)); [reflexivity | exact IH].
Qed.

Lemma update_first_map {A B : Type} (p : B -> bool) (f' : B -> B) (f : A -> A)
    (g : A -> B) (l : list A) :
  (forall x, f' (g x) = g (f x)) ->
  update_first p f' (map g l)
  = option_map (map g) (update_first (fun x => p (g x)) f l).
Proof.
  intros Hf. induction l as [|x r IH]; cbn [map update_first]; [reflexivity|].
  destruct (p (g x)); [cbn; rewrite Hf; reflexivity|].
  rewrite IH. destruct (update_first _ f r); reflexivity.
Qed.

(** The upsert and the time stamps. *)
Lemma upsert_unstamped (q : SummaryQuery) (u : SummarySet) (coll : list Attendance)
    (fresh : ObjectId) :
  (map unstamp (fst (fst (findOneAndUpsert q u coll fresh))),
   snd (findOneAndUpsert q u coll fresh))
  = upsert (q, unstampSet u) (map unstamp coll, fresh).
Proof.
  unfold upsert, queryOf, setOf, rowsIn, freshIn, findOneAndUpsert. cbn [fst snd].
  rewrite find_first_map.
  rewrite (update_first_map (matches q) (applySet (unstampSet u)) (applySet u) unstamp)
    by reflexivity.
  change (fun x => matches q (unstamp x)) with (matches q).
  destruct (find_first (matches q) coll) as [r|]; cbn [option_map].
  - destruct (update_first (matches q) (applySet u) coll) as [coll'|];
      cbn [option_map fst snd]; rewrite ?map_app; reflexivity.
  - cbn [fst snd]. rewrite map_app. reflexivity.
Qed.

Lemma returned_unstamped (q : SummaryQuery) (u : SummarySet) (coll : list Attendance)
    (fresh : ObjectId) :
  snd (fst (findOneAndUpsert q u coll fresh))
  = returned (q, unstampSet u) (map unstamp coll, fresh).
Proof.
  unfold returned, queryOf, setOf, rowsIn, freshIn, findOneAndUpsert. cbn [fst snd].
  rewrite find_first_map.
  rewrite (update_first_map (matches q) (applySet (unstampSet u)) (applySet u) unstamp)
    by reflexivity.
  change (fun x => matches q (unstamp x)) with (matches q).
  destruct (find_first (matches q) coll) as [r|]; cbn [option_map]; [|reflexivity].
  destruct (update_first (matches q) (applySet u) coll) as [coll'|];
    cbn [option_map fst snd]; reflexivity.
Qed.

Lemma replayLinked_app (xs ys : list Write) (s : Linked) :
  replayLinked (xs ++ ys) s = replayLinked ys (replayLinked xs s).
Proof. unfold replayLinked. apply fold_left_app. Qed.

Lemma replayLinked_store (xs : list Write) :
  forall s : Linked, fst (replayLinked xs s) = replayWrites xs (fst s).
Proof.
  unfold replayLinked, replayWrites.
  induction xs as [|x xs IH]; intros s; [reflexivity|].
  cbn [fold_left]. rewrite IH. reflexivity.
Qed.

Lemma replayWrites_app (xs ys : list Write) (s : Store) :
  replayWrites (xs ++ ys) s = replayWrites ys (replayWrites xs s).
Proof. unfold replayWrites. apply fold_left_app. Qed.

Lemma processCell_fst (ctx : Ctx) (student : StudentView) (row : list string)
    (col : nat) (info : SubjectInfo) (st st' : Loop) :
  fst (processCell ctx student row col info st)
  = fst (processCell ctx student row col info st').
Proof.
  unfold processCell. destruct (skipped _); [reflexivity|].
  destruct (summaryFor ctx student _ _ _ (clock (world st))) as [q1 u1].
  destruct (summaryFor ctx student _ _ _ (clock (world st'))) as [q2 u2].
  destruct (findOneAndUpsert q1 _ _ _) as [[c1 r1] n1].
  destruct (findOneAndUpsert q2 _ _ _) as [[c2 r2] n2]. reflexivity.
Qed.

Lemma processSubjects_fst (ctx : Ctx) (student : StudentView) (row : list string)
    (entries : list (nat * SubjectInfo)) :
  forall st st' : Loop,
    fst (processSubjects ctx student row entries st)
    = fst (processSubjects ctx student row entries st').
Proof.
  induction entries as [|[col info] rest IH]; intros st st'; [reflexivity|].
  cbn [processSubjects].
  pose proof (processCell_fst ctx student row col info st st') as Hc.
  destruct (processCell ctx student row col info st) as [i1 s1].
  destruct (processCell ctx student row col info st') as [i2 s2].
  specialize (IH s1 s2).
  destruct (processSubjects ctx student row rest s1) as [r1 t1].
  destruct (processSubjects ctx student row rest s2) as [r2 t2].
  cbn [fst] in *. congruence.
Qed.

Lemma processRow_fst (ctx : Ctx) (rowIndex : nat) (row : list string)
    (subjectMap : list (nat * SubjectInfo)) (st st' : Loop) :
  fst (processRow ctx rowIndex row subjectMap st)
  = fst (processRow ctx rowIndex row subjectMap st').
Proof.
  unfold processRow. destruct row as [|c row]; [reflexivity|].
  destruct (Str.is_empty _); [reflexivity|].
  destruct (find_first _ _) as [student|]; [|reflexivity].
  apply processSubjects_fst.
Qed.

(** The writes of a cell, of a row and of the rows do not depend on the
    database: the loop is a list of upserts, replayed. *)
Lemma processCell_replays (ctx : Ctx) (student : StudentView) (row : list string)
    (col : nat) (info : SubjectInfo) :
  exists xs : list Write,
    Forall wellFormed xs
    /\ forall st : Loop,
         linkedOf (world (snd (processCell ctx student row col info st)))
         = replayLinked xs (linkedOf (world st)).
Proof.
  unfold processCell. destruct (skipped _).
  { exists []. split; [constructor | reflexivity]. }
  exists [(fst (summaryFor ctx student (withBatchTotal student info)
                  (cellNumber row col) (cellNumber row (col + 1)) 0),
           unstampSet (snd (summaryFor ctx student (withBatchTotal student info)
                              (cellNumber row col) (cellNumber row (col + 1)) 0)))].
  split; [constructor; [reflexivity | constructor]|].
  intros st. unfold summaryFor.
  match goal with
  | |- context [findOneAndUpsert ?q ?u ?c ?f] =>
      pose proof (upsert_unstamped q u c f) as Hu;
      pose proof (returned_unstamped q u c f) as Hr;
      destruct (findOneAndUpsert q u c f) as [[coll rid] nid]
  end.
  cbn [fst snd world] in *. unfold linkedOf, storeOf.
  cbn [attendances nextId students replayLinked fold_left].
  unfold upsertLinked. cbn [fst snd queryOf q_studentId].
  rewrite Hu, Hr. reflexivity.
Qed.

Lemma processSubjects_replays (ctx : Ctx) (student : StudentView) (row : list string)
    (entries : list (nat * SubjectInfo)) :
  exists xs : list Write,
    Forall wellFormed xs
    /\ forall st : Loop,
         linkedOf (world (snd (processSubjects ctx student row entries st)))
         = replayLinked xs (linkedOf (world st)).
Proof.
  induction entries as [|[col info] rest (ys & Wy & Hy)].
  { exists []. split; [constructor | reflexivity]. }
  destruct (processCell_replays ctx student row col info) as (xs & Wx & Hx).
  exists (xs ++ ys). split; [apply List.Forall_app; auto|].
  intros st. cbn [processSubjects]. specialize (Hx st).
  destruct (processCell ctx student row col info st) as [info' st'].
  specialize (Hy st').
  destruct (processSubjects ctx student row rest st') as [rest' st''].
  cbn [snd] in *. rewrite replayLinked_app, <- Hx. exact Hy.
Qed.

Lemma processRow_replays (ctx : Ctx) (rowIndex : nat) (row : list string)
    (subjectMap : list (nat * SubjectInfo)) :
  exists xs : list Write,
    Forall wellFormed xs
    /\ forall st : Loop,
         linkedOf (world (snd (processRow ctx rowIndex row subjectMap st)))
         = replayLinked xs (linkedOf (world st)).
Proof.
  unfold processRow. destruct row as [|c row].
  { exists []. split; [constructor | reflexivity]. }
  destruct (Str.is_empty _).
  { exists []. split; [constructor | reflexivity]. }
  destruct (find_first _ _) as [student|].
  - destruct (processSubjects_replays ctx student (c :: row) subjectMap)
      as (xs & Wx & Hx).
    exists xs. split; [exact Wx|]. intros st.
    match goal with
    | |- context [processSubjects ?a ?b ?r ?m ?s] => exact (Hx s)
    end.
  - exists []. split; [constructor | reflexivity].
Qed.

Lemma processRows_replays (ctx : Ctx) (rows : list (list string)) :
  forall (rowIndex : nat) (subjectMap : list (nat * SubjectInfo)),
    exists xs : list Write,
      Forall wellFormed xs
      /\ forall st : Loop,
           linkedOf (world (snd (processRows ctx rowIndex rows subjectMap st)))
           = replayLinked xs (linkedOf (world st)).
Proof.
  induction rows as [|row rest IH]; intros rowIndex subjectMap.
  { exists []. split; [constructor | reflexivity]. }
  destruct (processRow_replays ctx rowIndex row subjectMap) as (xs & Wx & Hx).
  destruct (IH (S rowIndex)
              (fst (processRow ctx rowIndex row subjectMap (startLoop noWorld))))
    as (ys & Wy & Hy).
  exists (xs ++ ys). split; [apply List.Forall_app; auto|].
  intros st. cbn [processRows]. specialize (Hx st).
  pose proof (processRow_fst ctx rowIndex row subjectMap st (startLoop noWorld)) as Hf.
  destruct (processRow ctx rowIndex row subjectMap st) as [sm' st'].
  cbn [fst snd] in *. rewrite replayLinked_app, <- Hx, Hf. apply Hy.
Qed.

Lemma upsert_nil (x : Write) (f : ObjectId) :
  upsert x ([], f) = ([inserted f (queryOf x) (setOf x)], S f).
Proof. reflexivity. Qed.

Lemma upsert_cons (x : Write) (r : Attendance) (rest : list Attendance)
    (f : ObjectId) :
  upsert x (r :: rest, f)
  = if matches (queryOf x) r then (applySet (setOf x) r :: rest, f)
    else (r :: rowsIn (upsert x (rest, f)), freshIn (upsert x (rest, f))).
Proof.
  unfold upsert, findOneAndUpsert, rowsIn, freshIn.
  cbn [find_first update_first fst snd].
  destruct (matches (queryOf x) r); [reflexivity|].
  destruct (find_first (matches (queryOf x)) rest) as [r0|];
    destruct (update_first (matches (queryOf x)) (applySet (setOf x)) rest) as [l|];
    reflexivity.
Qed.

Lemma matches_rowKey (q : SummaryQuery) (a b : Attendance) :
  rowKey a = rowKey b -> matches q a = matches q b.
Proof.
  intros H. destruct (matches q a) eqn:Ea, (matches q b) eqn:Eb; try reflexivity.
  - apply matches_key in Ea. rewrite H in Ea. apply matches_key in Ea. congruence.
  - apply matches_key in Eb. rewrite <- H in Eb. apply matches_key in Eb. congruence.
Qed.

Lemma matches_applySet (x : Write) (q : SummaryQuery) (r : Attendance) :
  wellFormed x -> matches (queryOf x) r = true ->
  matches q (applySet (setOf x) r) = matches q r.
Proof.
  intros Hw Hm. apply matches_rowKey. apply (rowKey_applySet (queryOf x)); assumption.
Qed.

Lemma matches_inserted (x : Write) (f : ObjectId) :
  wellFormed x -> matches (queryOf x) (inserted f (queryOf x) (setOf x)) = true.
Proof.
  intros Hw. apply matches_key. unfold rowKey, queryKey, inserted. cbn.
  rewrite Hw. destruct (q_period (queryOf x)); reflexivity.
Qed.

Lemma queryKey_inj (q q' : SummaryQuery) : queryKey q = queryKey q' -> q = q'.
Proof. destruct q, q'. unfold queryKey. cbn. intros [= -> -> -> ->]. reflexivity. Qed.

Lemma matches_other (q q' : SummaryQuery) (r : Attendance) :
  q <> q' -> matches q r = true -> matches q' r = false.
Proof.
  intros Hne Hm. destruct (matches q' r) eqn:E; [|reflexivity].
  apply matches_key in Hm, E. exfalso. apply Hne, queryKey_inj. congruence.
Qed.

Lemma query_eq_dec (q q' : SummaryQuery) : q = q' \/ q <> q'.
Proof.
  destruct q as [a b c d], q' as [a' b' c' d'].
  destruct (Nat.eq_dec a a') as [->|Ha]; [|right; congruence].
  destruct (Nat.eq_dec b b') as [->|Hb]; [|right; congruence].
  assert (Hc : c = c' \/ c <> c') by (destruct c, c'; auto; right; discriminate).
  destruct Hc as [->|Hc]; [|right; congruence].
  assert (Hd : d = d' \/ d <> d').
  { destruct d as [s|], d' as [s'|]; auto; try (right; discriminate).
    destruct (string_dec s s') as [->|Hs]; [auto | right; congruence]. }
  destruct Hd as [->|Hd]; [auto | right; congruence].
Qed.

Lemma written_or_not (q : SummaryQuery) (xs : list Write) :
  (exists y, y ∈ xs /\ queryOf y = q) \/ (forall y, y ∈ xs -> queryOf y <> q).
Proof.
  induction xs as [|x xs [(y & Hy & E) | H]].
  - right. intros y Hy. apply elem_of_nil in Hy. contradiction.
  - left. exists y. split; [apply elem_of_cons; auto | exact E].
  - destruct (query_eq_dec (queryOf x) q) as [E | E].
    + left. exists x. split; [apply elem_of_cons; auto | exact E].
    + right. intros y Hy. apply elem_of_cons in Hy. destruct Hy as [-> | Hy]; auto.
Qed.

Lemma store_eta (s : Store) : (rowsIn s, freshIn s) = s.
Proof. destruct s. reflexivity. Qed.

Lemma present_cons (q : SummaryQuery) (r : Attendance) (rest : list Attendance)
    (f g : ObjectId) :
  present q (r :: rest, f) <-> matches q r = true \/ present q (rest, g).
Proof.
  unfold present, rowsIn. cbn [fst find_first].
  destruct (matches q r); split; eauto.
  - intros [H | H]; [discriminate | exact H].
Qed.

Lemma upsert_present (x : Write) (s : Store) :
  wellFormed x -> present (queryOf x) (upsert x s).
Proof.
  intros Hw. destruct s as [rows f]. induction rows as [|r rest IH].
  - rewrite upsert_nil. apply (present_cons _ _ _ _ 0). left.
    apply matches_inserted, Hw.
  - rewrite upsert_cons. destruct (matches (queryOf x) r) eqn:E.
    + apply (present_cons _ _ _ _ 0). left. rewrite matches_applySet; assumption.
    + apply (present_cons _ _ _ _ (freshIn (upsert x (rest, f)))). right.
      rewrite store_eta. exact IH.
Qed.

Lemma present_kept (y : Write) (q : SummaryQuery) (s : Store) :
  wellFormed y -> present q s -> present q (upsert y s).
Proof.
  intros Hw. destruct s as [rows f]. induction rows as [|r rest IH]; intros Hp.
  - destruct Hp as [r Hr]. discriminate.
  - rewrite upsert_cons. apply (present_cons _ _ _ _ f) in Hp.
    destruct (matches (queryOf y) r) eqn:E.
    + apply (present_cons _ _ _ _ f). rewrite matches_applySet; assumption.
    + apply (present_cons _ _ _ _ (freshIn (upsert y (rest, f)))).
      rewrite store_eta. destruct Hp as [Hp | Hp]; auto.
Qed.

(** A later upsert of the same slot wins. *)
Lemma upsert_overwrites (x y : Write) (s : Store) :
  wellFormed x -> queryOf y = queryOf x ->
  upsert y (upsert x s) = upsert y s.
Proof.
  intros Hx Hq. destruct s as [rows f]. induction rows as [|r rest IH].
  - rewrite !upsert_nil, upsert_cons, Hq, (matches_inserted x f Hx). reflexivity.
  - rewrite !upsert_cons, Hq. destruct (matches (queryOf x) r) eqn:E.
    + rewrite upsert_cons, Hq, (matches_applySet x (queryOf x) r Hx E), E.
      reflexivity.
    + rewrite upsert_cons, Hq, E, store_eta, IH. reflexivity.
Qed.

(** Upserts of different slots commute, once the earlier slot is stored. *)
Lemma upsert_commutes (x y : Write) (s : Store) :
  wellFormed x -> wellFormed y -> queryOf x <> queryOf y ->
  present (queryOf x) s ->
  upsert y (upsert x s) = upsert x (upsert y s).
Proof.
  intros Hx Hy Hne. destruct s as [rows f]. induction rows as [|r rest IH]; intros Hp.
  - destruct Hp as [r Hr]. discriminate.
  - apply (present_cons _ _ _ _ f) in Hp. rewrite !upsert_cons.
    destruct (matches (queryOf x) r) eqn:Ex.
    + rewrite (matches_other _ _ _ Hne Ex).
      rewrite !upsert_cons, (matches_applySet x (queryOf y) r Hx Ex),
        (matches_other _ _ _ Hne Ex), Ex. reflexivity.
    + destruct Hp as [Hp | Hp]; [discriminate|].
      destruct (matches (queryOf y) r) eqn:Ey.
      * rewrite !upsert_cons, Ey.
        rewrite (matches_applySet y (queryOf x) r Hy Ey), Ex. reflexivity.
      * rewrite !upsert_cons, Ex, Ey, !store_eta, (IH Hp). reflexivity.
Qed.

Lemma replay_present (q : SummaryQuery) (xs : list Write) :
  Forall wellFormed xs ->
  forall s : Store, present q s -> present q (replayWrites xs s).
Proof.
  unfold replayWrites. induction xs as [|x xs IH]; intros Hw s Hp; [exact Hp|].
  inversion Hw as [|? ? H1 H2]; subst. cbn [fold_left].
  apply (IH H2), present_kept; assumption.
Qed.

Lemma replay_absorbs (x : Write) (xs : list Write) :
  Forall wellFormed xs -> wellFormed x ->
  (exists y, y ∈ xs /\ queryOf y = queryOf x) ->
  forall s : Store,
    present (queryOf x) s -> replayWrites xs (upsert x s) = replayWrites xs s.
Proof.
  unfold replayWrites. intros Hw Hx.
  induction xs as [|y xs IH]; intros (z & Hz & Hq) s Hp.
  - apply elem_of_nil in Hz. contradiction.
  - inversion Hw as [|? ? H1 H2]; subst. cbn [fold_left].
    destruct (query_eq_dec (queryOf y) (queryOf x)) as [E | E].
    + rewrite (upsert_overwrites x y s Hx E). reflexivity.
    + apply elem_of_cons in Hz. destruct Hz as [-> | Hz]; [congruence|].
      rewrite (upsert_commutes x y s Hx H1 (fun H => E (eq_sym H)) Hp).
      apply (IH H2); [eauto|]. apply present_kept; assumption.
Qed.

Lemma replay_commutes (x : Write) (xs : list Write) :
  Forall wellFormed xs -> wellFormed x ->
  (forall y, y ∈ xs -> queryOf y <> queryOf x) ->
  forall s : Store,
    present (queryOf x) s ->
    replayWrites xs (upsert x s) = upsert x (replayWrites xs s).
Proof.
  unfold replayWrites. intros Hw Hx.
  induction xs as [|y xs IH]; intros Hno s Hp; [reflexivity|].
  inversion Hw as [|? ? H1 H2]; subst. cbn [fold_left].
  assert (E : queryOf x <> queryOf y).
  { intros H. apply (Hno y); [apply elem_of_cons; auto | auto]. }
  rewrite (upsert_commutes x y s Hx H1 E Hp).
  apply (IH H2).
  - intros z Hz. apply Hno, elem_of_cons. auto.
  - apply present_kept; assumption.
Qed.

(** Replaying a list of upserts over its own result changes nothing. *)
Lemma replay_settles (xs : list Write) :
  Forall wellFormed xs ->
  forall s : Store, replayWrites xs (replayWrites xs s) = replayWrites xs s.
Proof.
  induction xs as [|x xs IH]; intros Hw s; [reflexivity|].
  inversion Hw as [|? ? H1 H2]; subst.
  change (replayWrites (x :: xs) s) with (replayWrites xs (upsert x s)).
  change (replayWrites (x :: xs) (replayWrites xs (upsert x s)))
    with (replayWrites xs (upsert x (replayWrites xs (upsert x s)))).
  pose proof (upsert_present x s H1) as Hp.
  pose proof (replay_present (queryOf x) xs H2 _ Hp) as Hp'.
  destruct (written_or_not (queryOf x) xs) as [Hin | Hno].
  - rewrite (replay_absorbs x xs H2 H1 Hin _ Hp'). apply IH, H2.
  - rewrite (replay_commutes x xs H2 H1 Hno _ Hp'), (IH H2).
    rewrite <- (replay_commutes x xs H2 H1 Hno _ Hp).
    rewrite (upsert_overwrites x x s H1 eq_refl). reflexivity.
Qed.

Lemma ingest_store (sheet : Sheet) (h u : nat) (sm : list (nat * SubjectInfo))
    (d : string) (t : ObjectId) (w : World) :
  let ctx :=
    {| Upload.division := d; Upload.teacherId := t; uidCol := u;
       sheetPeriod := periodOf (sheetData sheet);
       divisionStudents := studentsOfDivision d w |} in
  linkedOf (fst (ingest sheet h u sm d t w))
  = linkedOf (world (snd (processRows ctx (S h) (drop (S h) (sheetData sheet)) sm
                            (startLoop w)))).
Proof.
  cbv zeta. unfold ingest.
  destruct (processRows _ _ _ _ _) as [sm' st].
  destruct (updateTotals _ _ _) as [allocs n]. reflexivity.
Qed.

Lemma ingest_replays (sheet : Sheet) (h u : nat) (sm : list (nat * SubjectInfo))
    (d : string) (t : ObjectId) (w : World) :
  let w1 := fst (ingest sheet h u sm d t w) in
  exists xs : list Write,
    Forall wellFormed xs
    /\ linkedOf w1 = replayLinked xs (linkedOf w)
    /\ linkedOf (fst (ingest sheet h u sm d t w1)) = replayLinked xs (linkedOf w1).
Proof.
  cbv zeta.
  destruct (ingest_world sheet h u sm d t w) as [_ [_ Hv]].
  rewrite (ingest_store sheet h u sm d t (fst (ingest sheet h u sm d t w))).
  rewrite (ingest_store sheet h u sm d t w). rewrite (Hv d).
  destruct (processRows_replays
              {| Upload.division := d; Upload.teacherId := t; uidCol := u;
                 sheetPeriod := periodOf (sheetData sheet);
                 divisionStudents := studentsOfDivision d w |}
              (drop (S h) (sheetData sheet)) (S h) sm) as (xs & Wx & Hx).
  exists xs. split; [exact Wx|].
  rewrite (Hx (startLoop (fst (ingest sheet h u sm d t w)))), (Hx (startLoop w)).
  cbn [startLoop world]. split; [reflexivity|].
  rewrite (ingest_store sheet h u sm d t w), (Hx (startLoop w)). reflexivity.
Qed.

Lemma ingest_store_rerun (sheet : Sheet) (h u : nat) (sm : list (nat * SubjectInfo))
    (d : string) (t : ObjectId) (w : World) :
  let w1 := fst (ingest sheet h u sm d t w) in
  storeOf (fst (ingest sheet h u sm d t w1)) = storeOf w1.
Proof.
  cbv zeta. destruct (ingest_replays sheet h u sm d t w) as (xs & Wx & H1 & H2).
  cbv zeta in *.
  apply (f_equal fst) in H2. rewrite replayLinked_store in H2.
  apply (f_equal fst) in H1. rewrite replayLinked_store in H1.
  cbn [linkedOf fst] in H1, H2. rewrite H2, H1. apply replay_settles, Wx.
Qed.

(** X16. Uploading the same sheet a second time changes no summary but in
    its [updatedAt]: the summaries stored after the second upload are those
    stored after the first, one by one, with the same ids and the same
    values, and no id is used up. *)
Theorem reupload_changes_only_time_stamps (req : Request) (sv : Server)
    (files2 : gset string) :
  let sv1 := fst (uploadDivisionSheet req sv) in
  let sv2 := fst (uploadDivisionSheet req {| db := db sv1; files := files2 |}) in
  map unstamp (attendances (db sv2)) = map unstamp (attendances (db sv1))
  /\ nextId (db sv2) = nextId (db sv1).
Proof.
  cbv zeta.
  assert (H : storeOf (db (fst (uploadDivisionSheet req
                                  {| db := db (fst (uploadDivisionSheet req sv));
                                     files := files2 |})))
              = storeOf (db (fst (uploadDivisionSheet req sv)))).
  { destruct (upload_db req) as [Hsame | Hrun].
    - rewrite (Hsame {| db := _; files := files2 |}). reflexivity.
    - rewrite (Hrun {| db := _; files := files2 |}), (Hrun sv). cbn [db].
      set (d := Str.toUpperCase _).
      destruct (databaseAfter_stable (content req) d (userId req) (databaseDown req)
                  (db sv)) as [Hs Hv].
      unfold databaseAfter at 1. rewrite Hs, (Hv d). unfold databaseAfter.
      destruct (layout (content req)); try reflexivity.
      destruct (databaseDown req); [reflexivity|].
      destruct (mapSubjects _ _ _ _) as [sm um].
      destruct (negb (is_nil um) && is_nil sm); [reflexivity|].
      destruct (is_nil (studentsOfDivision d (db sv))); [reflexivity|].
      destruct (is_nil sm); [reflexivity|].
      apply ingest_store_rerun. }
  unfold storeOf in H. injection H as H1 H2. auto.
Qed.

End ReuploadValues.

Section ReuploadStudents.
Import Db Upload Keys Outcome Handler Writes.

Lemma find_first_updates {A : Type} (p : A -> bool) (f : A -> A) (l : list A) (x : A) :
  find_first p l = Some x -> exists l', update_first p f l = Some l'.
Proof.
  induction l as [|y r IH]; cbn [find_first update_first]; [discriminate|].
  destruct (p y); [eauto|]. intros H. destruct (IH H) as [l' ->]. eauto.
Qed.

(** The id the upsert returns: that of the first row the query matches,
    or the fresh one. *)
Lemma returned_id (x : Write) (s : Store) :
  returned x s = match find_first (matches (queryOf x)) (rowsIn s) with
                 | Some r => att_id r
                 | None => freshIn s
                 end.
Proof.
  unfold returned, findOneAndUpsert.
  destruct (find_first (matches (queryOf x)) (rowsIn s)) as [r|] eqn:E; [|reflexivity].
  destruct (find_first_updates _ (applySet (setOf x)) _ _ E) as [l' ->]. reflexivity.
Qed.

(** The first row another query matches keeps its id through an upsert;
    the first row the upsert's own query matches has the id returned. *)
Lemma upsert_first_id (x : Write) (q : SummaryQuery) (s : Store) :
  wellFormed x ->
  option_map att_id (find_first (matches q) (rowsIn (upsert x s)))
  = match find_first (matches q) (rowsIn s) with
    | Some r => Some (att_id r)
    | None =>
        match find_first (matches q) [inserted (freshIn s) (queryOf x) (setOf x)],
              find_first (matches (queryOf x)) (rowsIn s) with
        | Some r, None => Some (att_id r)
        | _, _ => None
        end
    end.
Proof.
  intros Hw. destruct s as [rows f]. unfold rowsIn, freshIn. cbn [fst snd].
  induction rows as [|r rest IH].
  - rewrite upsert_nil. cbn [fst find_first].
    destruct (matches q (inserted f (queryOf x) (setOf x))); reflexivity.
  - rewrite upsert_cons. cbn [find_first].
    destruct (matches (queryOf x) r) eqn:Ex.
    + clear IH. cbn [fst find_first]. rewrite (matches_applySet x q r Hw Ex).
      destruct (matches q r); [reflexivity|].
      destruct (find_first (matches q) rest); [reflexivity|].
      destruct (matches q (inserted f (queryOf x) (setOf x))); reflexivity.
    + cbn [fst find_first]. destruct (matches q r); [reflexivity|].
      unfold rowsIn in IH. exact IH.
Qed.

Lemma linkRecord_first (sid rid sid' : ObjectId) (l : list Student) (st' : Student) :
  find_first (hasId sid') (linkRecord sid rid l) = Some st' ->
  exists st, find_first (hasId sid') l = Some st
             /\ (forall x, x ∈ attedanceRecord st -> x ∈ attedanceRecord st')
             /\ (sid' = sid -> rid ∈ attedanceRecord st').
Proof.
  unfold linkRecord, hasId.
  induction l as [|y r IH]; cbn [update_first find_first]; [discriminate|].
  destruct (Nat.eqb (stu_id y) sid) eqn:E.
  - cbn [find_first stu_id]. destruct (Nat.eqb (stu_id y) sid') eqn:E'.
    + intros [= <-]. exists y. split; [reflexivity|]. cbn [attedanceRecord].
      split.
      * intros x Hx. unfold addToSet. destruct (existsb _ _); [exact Hx|].
        apply elem_of_app. auto.
      * intros _. unfold addToSet.
        destruct (existsb (Nat.eqb rid) (attedanceRecord y)) eqn:Eb.
        -- apply existsb_exists in Eb as (z & Hz & Hq). apply Nat.eqb_eq in Hq.
           subst z. apply list_elem_of_In, Hz.
        -- apply elem_of_app. right. apply list_elem_of_singleton. reflexivity.
    + intros H. exists st'. split; [exact H|]. split; [auto|].
      intros ->. exfalso.
      clear -H E E'. apply Nat.eqb_eq in E. apply Nat.eqb_neq in E'.
      induction r as [|z r IHr]; cbn [find_first] in H; [discriminate|].
      destruct (Nat.eqb (stu_id z) sid) eqn:Ez.
      * injection H as <-. apply Nat.eqb_eq in Ez. congruence.
      * auto.
  - destruct (update_first _ _ r) as [r'|] eqn:Hu.
    + cbn [find_first]. destruct (Nat.eqb (stu_id y) sid') eqn:E'.
      * intros [= <-]. exists y. split; [reflexivity|]. split; [auto|].
        intros ->. congruence.
      * exact IH.
    + cbn [find_first]. destruct (Nat.eqb (stu_id y) sid') eqn:E'.
      * intros [= <-]. exists y. split; [reflexivity|]. split; [auto|].
        intros ->. congruence.
      * exact IH.
Qed.

Lemma linkRecord_listed (sid rid : ObjectId) (l : list Student) :
  (forall st, find_first (hasId sid) l = Some st -> rid ∈ attedanceRecord st) ->
  linkRecord sid rid l = l.
Proof.
  unfold linkRecord, hasId.
  induction l as [|y r IH]; cbn [update_first find_first]; [reflexivity|].
  destruct (Nat.eqb (stu_id y) sid) eqn:E.
  - intros H. specialize (H y eq_refl). f_equal. destruct y. cbn in *. f_equal.
    unfold addToSet. destruct (existsb (Nat.eqb rid) attedanceRecord0) eqn:Eb;
      [reflexivity|].
    exfalso. apply list_elem_of_In in H.
    assert (Ht : existsb (Nat.eqb rid) attedanceRecord0 = true)
      by (apply existsb_exists; exists rid; split; [exact H | apply Nat.eqb_refl]).
    congruence.
  - intros H. specialize (IH H).
    destruct (update_first _ _ r) as [r'|]; [congruence | reflexivity].
Qed.

(** After its upsert a slot is ready, and the slots that were ready
    are. *)
Lemma upsertLinked_ready (x : Write) (q : SummaryQuery) (s : Linked) :
  wellFormed x -> queryOf x = q \/ ready q s -> ready q (upsertLinked x s).
Proof.
  intros Hw Hq r st Hr Hst. unfold upsertLinked in Hr, Hst. cbn [fst snd] in Hr, Hst.
  pose proof (upsert_first_id x q (fst s) Hw) as Hid. rewrite Hr in Hid.
  cbn [option_map] in Hid.
  destruct (linkRecord_first _ _ _ _ _ Hst) as (st0 & Hst0 & Hsub & Hown).
  destruct (query_eq_dec (queryOf x) q) as [E | E].
  - subst q. assert (Hret : returned x (fst s) = att_id r).
    { rewrite returned_id.
      destruct (find_first (matches (queryOf x)) (rowsIn (fst s))) as [r0|].
      - congruence.
      - unfold find_first in Hid.
        rewrite (matches_inserted x (freshIn (fst s)) Hw) in Hid.
        injection Hid as Hid. rewrite Hid. reflexivity. }
    rewrite <- Hret. apply Hown. reflexivity.
  - destruct Hq as [Hq | Hq]; [congruence|].
    destruct (find_first (matches q) (rowsIn (fst s))) as [r0|] eqn:E0.
    + injection Hid as Hid. rewrite Hid. apply Hsub, (Hq r0 st0 E0 Hst0).
    + exfalso. cbn [find_first] in Hid.
      destruct (matches q (inserted (freshIn (fst s)) (queryOf x) (setOf x))) eqn:Em;
        [|discriminate].
      apply E. apply queryKey_inj.
      apply matches_key in Em.
      pose proof (matches_inserted x (freshIn (fst s)) Hw) as Em'.
      apply matches_key in Em'. congruence.
Qed.

Lemma replayLinked_ready (xs : list Write) :
  Forall wellFormed xs ->
  forall (s : Linked) (q : SummaryQuery),
    (exists x, x ∈ xs /\ queryOf x = q) \/ ready q s -> ready q (replayLinked xs s).
Proof.
  unfold replayLinked. induction xs as [|x xs IH]; intros Hw s q Hq.
  - destruct Hq as [(x & Hx & _) | Hq]; [apply elem_of_nil in Hx; contradiction|].
    exact Hq.
  - inversion Hw as [|? ? H1 H2]; subst. cbn [fold_left]. apply (IH H2).
    destruct Hq as [(y & Hy & E) | Hq].
    + apply elem_of_cons in Hy. destruct Hy as [-> | Hy]; [|eauto].
      right. apply upsertLinked_ready; auto.
    + right. apply upsertLinked_ready; auto.
Qed.

(** An upsert of a slot that is stored and ready leaves the students
    alone. *)
Lemma upsertLinked_students (x : Write) (s : Linked) :
  present (queryOf x) (fst s) -> ready (queryOf x) s ->
  snd (upsertLinked x s) = snd s.
Proof.
  intros [r Hr] Hy. unfold upsertLinked. cbn [snd].
  apply linkRecord_listed. intros st Hst.
  rewrite returned_id, Hr. apply (Hy r st Hr Hst).
Qed.

Lemma replayLinked_students (xs : list Write) :
  Forall wellFormed xs ->
  forall s : Linked,
    (forall x, x ∈ xs -> present (queryOf x) (fst s) /\ ready (queryOf x) s) ->
    snd (replayLinked xs s) = snd s.
Proof.
  unfold replayLinked. induction xs as [|x xs IH]; intros Hw s H; [reflexivity|].
  inversion Hw as [|? ? H1 H2]; subst. cbn [fold_left].
  destruct (H x) as [Hp Hy]; [apply elem_of_cons; auto|].
  rewrite (IH H2).
  - apply upsertLinked_students; assumption.
  - intros y Hin. destruct (H y) as [Hp' Hy']; [apply elem_of_cons; auto|].
    split.
    + unfold upsertLinked. cbn [fst]. apply present_kept; assumption.
    + apply upsertLinked_ready; auto.
Qed.

Lemma replay_all_present (xs : list Write) :
  Forall wellFormed xs ->
  forall (s : Store) (x : Write), x ∈ xs -> present (queryOf x) (replayWrites xs s).
Proof.
  unfold replayWrites. induction xs as [|y xs IH]; intros Hw s x Hx.
  - apply elem_of_nil in Hx. contradiction.
  - inversion Hw as [|? ? H1 H2]; subst. cbn [fold_left].
    apply elem_of_cons in Hx. destruct Hx as [-> | Hx]; [|apply (IH H2), Hx].
    apply (replay_present _ xs H2), upsert_present, H1.
Qed.

Lemma ingest_students_rerun (sheet : Sheet) (h u : nat)
    (sm : list (nat * SubjectInfo)) (d : string) (t : ObjectId) (w : World) :
  let w1 := fst (ingest sheet h u sm d t w) in
  students (fst (ingest sheet h u sm d t w1)) = students w1.
Proof.
  cbv zeta. destruct (ingest_replays sheet h u sm d t w) as (xs & Wx & H1 & H2).
  cbv zeta in *.
  apply (f_equal snd) in H2. cbn [linkedOf snd] in H2. rewrite H2.
  rewrite (replayLinked_students xs Wx); [reflexivity|].
  intros x Hx. rewrite H1. split.
  - rewrite replayLinked_store. apply replay_all_present; assumption.
  - apply replayLinked_ready; [exact Wx | eauto].
Qed.

(** X17. Uploading the same sheet a second time changes no student document
    and no subject: every summary it writes is already listed by its
    student. *)
Theorem reupload_keeps_students (req : Request) (sv : Server) (files2 : gset string) :
  let sv1 := fst (uploadDivisionSheet req sv) in
  let sv2 := fst (uploadDivisionSheet req {| db := db sv1; files := files2 |}) in
  students (db sv2) = students (db sv1) /\ subjects (db sv2) = subjects (db sv1).
Proof.
  cbv zeta. destruct (upload_db req) as [Hsame | Hrun].
  - rewrite (Hsame {| db := _; files := files2 |}). auto.
  - rewrite (Hrun {| db := _; files := files2 |}), (Hrun sv). cbn [db].
    set (d := Str.toUpperCase _).
    destruct (databaseAfter_stable (content req) d (userId req) (databaseDown req)
                (db sv)) as [Hs Hv].
    split.
    + unfold databaseAfter at 1. rewrite Hs, (Hv d). unfold databaseAfter.
      destruct (layout (content req)); try reflexivity.
      destruct (databaseDown req); [reflexivity|].
      destruct (mapSubjects _ _ _ _) as [sm um].
      destruct (negb (is_nil um) && is_nil sm); [reflexivity|].
      destruct (is_nil (studentsOfDivision d (db sv))); [reflexivity|].
      destruct (is_nil sm); [reflexivity|].
      apply ingest_students_rerun.
    + apply databaseAfter_stable.
Qed.

End ReuploadStudents.

Section UploadAndSync.
Import Db Upload Keys Outcome Handler AllocationSync Membership.

Lemma key_eqb_eq (a b : AllocKey) : key_eqb a b = true -> a = b.
Proof.
  destruct a as [[[s1 k1] d1] b1], b as [[[s2 k2] d2] b2]. cbn [key_eqb].
  intros H. apply andb_prop in H as [H Hb]. apply andb_prop in H as [H Hd].
  apply andb_prop in H as [Hs Hk].
  apply Nat.eqb_eq in Hs. apply kind_eqb_eq in Hk.
  apply String.eqb_eq in Hd. apply String.eqb_eq in Hb. congruence.
Qed.

Lemma trackStudent_tracked (ctx : Ctx) (info : SubjectInfo) (student : StudentView)
    (m : list (AllocKey * AllocStudents)) :
  student ∈ divisionStudents ctx ->
  Forall (tracked_member ctx) m ->
  Forall (tracked_member ctx)
    (trackStudent ctx info (batchKeyOf student info) (sv_id student) m).
Proof.
  intros Hin. unfold trackStudent.
  induction m as [|[k v] r IH]; intros H; cbn [setKey].
  - constructor; [|constructor].
    exists (batchKeyOf student info). cbn [fst snd as_subjectId as_type as_division
                                            as_batch as_students].
    split; [reflexivity|]. split; [reflexivity|].
    split; [unfold allocBatch; destruct (si_type info); reflexivity|].
    intros s Hs. apply list_elem_of_singleton in Hs. subst s.
    exists student. split; [exact Hin|]. split; [reflexivity|].
    intros Hp. unfold batchKeyOf. rewrite Hp. reflexivity.
  - inversion H as [|? ? Hv Hr]; subst.
    match goal with |- context [key_eqb ?a ?b] => destruct (key_eqb a b) eqn:E end.
    + constructor; [|exact Hr].
      apply key_eqb_eq in E. destruct Hv as (bk & K1 & K2 & K3 & K4).
      cbn [fst snd] in *. exists bk.
      cbn [as_subjectId as_type as_division as_batch as_students].
      split; [exact K1|]. split; [exact K2|]. split; [exact K3|].
      intros s Hs. unfold addToSet in Hs.
      assert (Hc : s ∈ as_students v \/ s = sv_id student).
      { destruct (existsb _ _); [auto|].
        apply elem_of_app in Hs. destruct Hs as [Hs | Hs]; [auto|].
        apply list_elem_of_singleton in Hs. auto. }
      destruct Hc as [Hc | ->]; [apply K4, Hc|].
      exists student. split; [exact Hin|]. split; [reflexivity|].
      intros Hp. cbn [snd as_type] in Hp. rewrite K1 in E.
      injection E as E1 E2 E3 E4.
      rewrite <- E4. unfold batchKeyOf. rewrite E2, Hp. reflexivity.
    + constructor; [exact Hv | apply IH, Hr].
Qed.

Lemma processCell_members (ctx : Ctx) (student : StudentView) (row : list string)
    (col : nat) (info : SubjectInfo) (st : Loop) :
  student ∈ divisionStudents ctx ->
  Forall (tracked_member ctx) (allocationStudents st) ->
  Forall (tracked_member ctx)
    (allocationStudents (snd (processCell ctx student row col info st))).
Proof.
  intros Hin H. unfold processCell. destruct (skipped _); [exact H|].
  destruct (summaryFor _ _ _ _ _ _) as [q u].
  destruct (findOneAndUpsert _ _ _ _) as [[coll rid] nid].
  cbn [snd allocationStudents].
  apply trackStudent_tracked; assumption.
Qed.

Lemma processSubjects_members (ctx : Ctx) (student : StudentView) (row : list string)
    (entries : list (nat * SubjectInfo)) :
  student ∈ divisionStudents ctx ->
  forall st : Loop,
    Forall (tracked_member ctx) (allocationStudents st) ->
    Forall (tracked_member ctx)
      (allocationStudents (snd (processSubjects ctx student row entries st))).
Proof.
  intros Hin. induction entries as [|[col info] rest IH]; intros st H; [exact H|].
  cbn [processSubjects].
  pose proof (processCell_members ctx student row col info st Hin H) as Hc.
  destruct (processCell ctx student row col info st) as [info' st'].
  specialize (IH st' Hc).
  destruct (processSubjects ctx student row rest st') as [rest' st''].
  exact IH.
Qed.

Lemma processRows_members (ctx : Ctx) (rows : list (list string)) :
  forall (rowIndex : nat) (subjectMap : list (nat * SubjectInfo)) (st : Loop),
    Forall (tracked_member ctx) (allocationStudents st) ->
    Forall (tracked_member ctx)
      (allocationStudents (snd (processRows ctx rowIndex rows subjectMap st))).
Proof.
  induction rows as [|row rest IH]; intros rowIndex subjectMap st H; [exact H|].
  cbn [processRows].
  assert (Hr : Forall (tracked_member ctx)
                 (allocationStudents (snd (processRow ctx rowIndex row subjectMap st)))).
  { unfold processRow. destruct row as [|c row]; [exact H|].
    destruct (Str.is_empty _); [exact H|].
    destruct (find_first _ _) as [student|] eqn:E; [|exact H].
    apply processSubjects_members; [|exact H].
    clear -E. induction (divisionStudents ctx) as [|x l IHl]; cbn [find_first] in E;
      [discriminate|].
    destruct (String.eqb (sv_studentId x) _).
    - injection E as <-. apply elem_of_cons; auto.
    - apply elem_of_cons. right. apply IHl, E. }
  destruct (processRow ctx rowIndex row subjectMap st) as [sm' st1].
  apply IH. exact Hr.
Qed.

Lemma joined_refl (P : Allocation -> ObjectId -> Prop) (a : Allocation) : joined P a a.
Proof. do 4 (split; [reflexivity|]). auto. Qed.

Lemma joined_all_refl (P : Allocation -> ObjectId -> Prop) (l : list Allocation) :
  Forall2 (joined P) l l.
Proof. induction l; constructor; [apply joined_refl | assumption]. Qed.

Lemma allocMatches_key (sid : ObjectId) (k : Kind) (d : string) (b : option string)
    (x y : Allocation) :
  alloc_subjectId y = alloc_subjectId x -> alloc_type y = alloc_type x ->
  alloc_division y = alloc_division x -> alloc_batch y = alloc_batch x ->
  allocMatches sid k d b y = allocMatches sid k d b x.
Proof. intros H1 H2 H3 H4. unfold allocMatches. rewrite H1, H2, H3, H4. reflexivity. Qed.

(** [P] depends on the allocation through its key only. *)
Lemma joined_trans (P : Allocation -> ObjectId -> Prop) (a b c : Allocation) :
  (forall s, P b s -> P a s) -> joined P a b -> joined P b c -> joined P a c.
Proof.
  intros HP (A1 & A2 & A3 & A4 & A5) (B1 & B2 & B3 & B4 & B5).
  do 4 (split; [congruence|]).
  intros s Hs. destruct (B5 s Hs) as [H | H]; auto.
Qed.

Lemma update_first_joined (P : Allocation -> ObjectId -> Prop)
    (p : Allocation -> bool) (f : Allocation -> Allocation) (l l' : list Allocation) :
  (forall a, p a = true -> joined P a (f a)) ->
  update_first p f l = Some l' -> Forall2 (joined P) l l'.
Proof.
  intros Hf. revert l'. induction l as [|x r IH]; cbn [update_first]; [discriminate|].
  intros l'. destruct (p x) eqn:E.
  - intros [= <-]. constructor; [apply Hf, E | apply joined_all_refl].
  - destruct (update_first p f r) as [r'|]; [|discriminate].
    intros [= <-]. constructor; [apply joined_refl | apply IH; reflexivity].
Qed.

Lemma updateTotals_joined (P : Allocation -> ObjectId -> Prop)
    (updates : list (AllocKey * AllocUpdate)) :
  forall (allocs : list Allocation) (n : nat),
    Forall2 (fun a a' => joined P a a' /\ alloc_students a' = alloc_students a)
      allocs (fst (updateTotals updates allocs n)).
Proof.
  assert (R : forall l : list Allocation,
             Forall2 (fun a a' => joined P a a' /\ alloc_students a' = alloc_students a)
               l l).
  { induction l; constructor; [split; [apply joined_refl | reflexivity] | assumption]. }
  induction updates as [|[k u] rest IH]; intros allocs n; cbn [updateTotals fst];
    [apply R|].
  destruct (update_first _ _ allocs) as [allocs'|] eqn:E; [|apply IH].
  specialize (IH allocs' (S n)).
  assert (H1 : Forall2 (fun a a' => joined P a a'
                                    /\ alloc_students a' = alloc_students a)
                 allocs allocs').
  { clear -E R. revert allocs' E.
    induction allocs as [|x r IHr]; cbn [update_first]; [discriminate|].
    intros allocs'. destruct (allocMatches _ _ _ _ x).
    - intros [= <-]. constructor; [|apply R].
      split; [|reflexivity]. do 4 (split; [reflexivity|]). auto.
    - destruct (update_first _ _ r) as [r'|]; [|discriminate].
      intros [= <-]. constructor; [split; [apply joined_refl | reflexivity]|].
      apply IHr. reflexivity. }
  clear E. revert IH. generalize (fst (updateTotals rest allocs' (S n))).
  induction H1 as [|x y l l' [Hxy Hs] H1 IH1]; intros l'' H2.
  - inversion H2. constructor.
  - inversion H2 as [|? z ? l3 [Hyz Hs'] H3]; subst. constructor; [|apply IH1, H3].
    destruct Hxy as (A1 & A2 & A3 & A4 & A5). destruct Hyz as (B1 & B2 & B3 & B4 & B5).
    split; [|congruence]. do 4 (split; [congruence|]).
    intros s Hin. left. rewrite <- Hs, <- Hs'. exact Hin.
Qed.

Lemma opt_string_eqb_some (o : option string) (d : string) :
  opt_string_eqb o (Some d) = true -> o = Some d.
Proof.
  destruct o as [x|]; cbn [opt_string_eqb]; [|discriminate].
  intros H. apply String.eqb_eq in H. congruence.
Qed.

Lemma truthyField_nonempty (d : string) : d <> "" -> truthyField (Some d) = Some d.
Proof. intros H. destruct d; [congruence | reflexivity]. Qed.

(** A student the row loop filed under an entry, and an allocation the
    entry's query matches. *)
Lemma member_fits (ctx : Ctx) (w : World) (e : AllocKey * AllocStudents)
    (a : Allocation) (s : ObjectId) :
  division ctx <> "" ->
  divisionStudents ctx = studentsOfDivision (division ctx) w ->
  tracked_member ctx e ->
  allocMatches (as_subjectId (snd e)) (as_type (snd e)) (as_division (snd e))
    (as_batch (snd e)) a = true ->
  s ∈ as_students (snd e) ->
  exists st, st ∈ students w /\ stu_id st = s
             /\ (fits a st
                 \/ (alloc_type a = Practical /\ truthyField (stu_batch st) = None)).
Proof.
  intros Hne Hds (bk & K1 & K2 & K3 & K4) Hm Hs.
  destruct (K4 s Hs) as (sv & Hsv & Hid & Hb).
  rewrite Hds in Hsv. unfold studentsOfDivision in Hsv.
  apply list_elem_of_fmap in Hsv as (st & -> & Hst).
  apply list_elem_of_filter in Hst as [Hdiv Hst].
  exists st. split; [exact Hst|]. split; [exact Hid|].
  unfold allocMatches in Hm.
  apply andb_prop in Hm as [Hm Hbatch]. apply andb_prop in Hm as [Hm Hd].
  apply andb_prop in Hm as [_ Hk].
  apply kind_eqb_eq in Hk. apply opt_string_eqb_some in Hd. rewrite K2 in Hd.
  cbn [view sv_batch] in Hb.
  destruct (as_type (snd e)) eqn:Et.
  - left. exists (ByDivision (division ctx)). unfold studentQuery.
    rewrite Hk, Hd, (truthyField_nonempty _ Hne). split; [reflexivity | exact Hdiv].
  - specialize (Hb eq_refl). rewrite K3 in Hbatch.
    destruct (Str.is_empty bk) eqn:Eb.
    + right. split; [exact Hk|]. destruct bk; [|discriminate].
      destruct (stu_batch st) as [b|]; [|reflexivity].
      cbn [batchOrEmpty] in Hb. subst b. reflexivity.
    + left. apply opt_string_eqb_some in Hbatch.
      assert (Hbk : bk <> "") by (destruct bk; [discriminate | congruence]).
      exists (ByDivisionAndBatch (division ctx) bk). unfold studentQuery.
      rewrite Hk, Hd, Hbatch, (truthyField_nonempty _ Hne),
        (truthyField_nonempty _ Hbk).
      split; [reflexivity|]. cbn [queryMatches]. rewrite Hdiv. cbn [andb].
      destruct (stu_batch st) as [b|]; cbn [batchOrEmpty] in Hb.
      * subst b. cbn [opt_string_eqb]. apply String.eqb_refl.
      * congruence.
Qed.

Lemma addEachToSet_members (xs : list ObjectId) :
  forall (l : list ObjectId) (s : ObjectId),
    s ∈ addEachToSet xs l -> s ∈ l \/ s ∈ xs.
Proof.
  unfold addEachToSet.
  induction xs as [|x xs IH]; intros l s H; cbn [fold_left] in H; [auto|].
  destruct (IH _ _ H) as [H1 | H1].
  - unfold addToSet in H1. destruct (existsb _ _); [auto|].
    apply elem_of_app in H1. destruct H1 as [H1 | H1]; [auto|].
    apply list_elem_of_singleton in H1. subst. right. apply elem_of_cons. auto.
  - right. apply elem_of_cons. auto.
Qed.

Lemma joined_all_trans (P : Allocation -> ObjectId -> Prop) (a b c : list Allocation) :
  (forall x y s, joined P x y -> P y s -> P x s) ->
  Forall2 (joined P) a b -> Forall2 (joined P) b c -> Forall2 (joined P) a c.
Proof.
  intros HP H. revert c. induction H as [|x y a b Hx H IH]; intros c Hc.
  - inversion Hc. constructor.
  - inversion Hc as [|y' z b' c' Hy Hc']; subst. constructor; [|apply IH, Hc'].
    eapply joined_trans; [|exact Hx | exact Hy]. intros s. apply HP, Hx.
Qed.

Lemma updateMembers_joined (P : Allocation -> ObjectId -> Prop)
    (members : list (AllocKey * AllocStudents)) :
  (forall x y s, joined P x y -> P y s -> P x s) ->
  (forall e a s, e ∈ members ->
     allocMatches (as_subjectId (snd e)) (as_type (snd e)) (as_division (snd e))
       (as_batch (snd e)) a = true ->
     s ∈ as_students (snd e) -> P a s) ->
  forall allocs : list Allocation,
    Forall2 (joined P) allocs (updateMembers members allocs).
Proof.
  intros HP. induction members as [|[k m] rest IH]; intros Hm allocs;
    cbn [updateMembers]; [apply joined_all_refl|].
  assert (Hrest : forall e a s, e ∈ rest ->
            allocMatches (as_subjectId (snd e)) (as_type (snd e))
              (as_division (snd e)) (as_batch (snd e)) a = true ->
            s ∈ as_students (snd e) -> P a s).
  { intros e a s He. apply Hm. apply elem_of_cons. auto. }
  destruct (update_first _ _ allocs) as [allocs'|] eqn:E; [|apply IH, Hrest].
  eapply joined_all_trans; [exact HP | | apply IH, Hrest].
  eapply update_first_joined; [|exact E].
  intros a Ha. do 4 (split; [reflexivity|]).
  intros s Hs. cbn [addStudents alloc_students] in Hs.
  apply addEachToSet_members in Hs. destruct Hs as [Hs | Hs]; [auto|].
  right. apply (Hm (k, m) a s); [apply elem_of_cons; auto | exact Ha | exact Hs].
Qed.

Lemma studentQuery_key (x y : Allocation) :
  alloc_type y = alloc_type x -> alloc_division y = alloc_division x ->
  alloc_batch y = alloc_batch x -> studentQuery y = studentQuery x.
Proof. intros H1 H2 H3. unfold studentQuery. rewrite H1, H2, H3. reflexivity. Qed.

Lemma ingest_members (sheet : Sheet) (h u : nat) (sm : list (nat * SubjectInfo))
    (d : string) (t : ObjectId) (w : World) :
  d <> "" ->
  Forall2
    (joined (fun a s =>
               exists st, st ∈ students w /\ stu_id st = s
                          /\ (fits a st
                              \/ (alloc_type a = Practical
                                  /\ truthyField (stu_batch st) = None))))
    (allocations w) (allocations (fst (ingest sheet h u sm d t w))).
Proof.
  intros Hd. unfold ingest.
  set (P := fun a s =>
              exists st, st ∈ students w /\ stu_id st = s
                         /\ (fits a st
                             \/ (alloc_type a = Practical
                                 /\ truthyField (stu_batch st) = None))).
  assert (HP : forall x y s, joined P x y -> P y s -> P x s).
  { intros x y s (J1 & J2 & J3 & J4 & _) (st & S1 & S2 & S3).
    exists st. split; [exact S1|]. split; [exact S2|].
    destruct S3 as [(q & Q1 & Q2) | [Q1 Q2]].
    - left. exists q. split; [|exact Q2].
      rewrite <- Q1. symmetry. apply studentQuery_key; assumption.
    - right. split; [congruence | exact Q2]. }
  match goal with
  | |- context [processRows ?c ?i ?r ?m ?s] =>
      pose proof (proj1 (processRows_shared c r i m s)) as Ha;
      pose proof (processRows_members c r i m s (List.Forall_nil _)) as Hm;
      pose proof (fun e a x => member_fits c w e a x Hd eq_refl) as Hf;
      destruct (processRows c i r m s) as [sm' st]
  end.
  cbn [snd startLoop world] in *.
  pose proof (updateTotals_joined P (allocationUpdates st) (allocations (world st)) 0)
    as Ht.
  destruct (updateTotals _ _ _) as [allocs n]. cbn [fst allocations] in *.
  rewrite Ha in Ht.
  eapply joined_all_trans; [exact HP | | apply updateMembers_joined; [exact HP|]].
  - clear -Ht. induction Ht as [|x y l l' [H _] Ht IH]; constructor; assumption.
  - intros e a s He Hmatch Hs. apply (Hf e a s); [|exact Hmatch | exact Hs].
    rewrite List.Forall_forall in Hm. apply Hm, list_elem_of_In, He.
Qed.

Lemma validDivision_nonempty (d : string) :
  validDivision (Some d) = true -> Str.toUpperCase d <> "".
Proof.
  cbn [validDivision]. intros H. apply andb_prop in H as [_ H].
  apply existsb_exists in H as (x & Hx & He). apply String.eqb_eq in He.
  rewrite He. cbn [In] in Hx.
  destruct Hx as [<- | [<- | [<- | [<- | []]]]]; discriminate.
Qed.

(** X18. The upload and the allocation sync agree on membership: an
    allocation keeps its subject, kind, division and batch, and every
    student the upload adds to it is a student of the database that the
    sync's query for this allocation matches, unless the allocation is
    Practical and the student has no batch. *)
Theorem upload_members_fit_sync (req : Request) (sv : Server) :
  Forall2
    (joined (fun a s =>
               exists st, st ∈ students (db sv) /\ stu_id st = s
                          /\ (fits a st
                              \/ (alloc_type a = Practical
                                  /\ truthyField (stu_batch st) = None))))
    (allocations (db sv)) (allocations (db (fst (uploadDivisionSheet req sv)))).
Proof.
  unfold uploadDivisionSheet.
  destruct (validDivision (req_division req)) eqn:Hv; cbn [negb];
    [|apply joined_all_refl].
  destruct (req_file req) as [f|]; [|apply joined_all_refl].
  destruct (req_division req) as [d|]; [|discriminate].
  pose proof (validDivision_nonempty d Hv) as Hd.
  assert (Hdb : Forall2
                  (joined (fun a s =>
                     exists st, st ∈ students (db sv) /\ stu_id st = s
                                /\ (fits a st
                                    \/ (alloc_type a = Practical
                                        /\ truthyField (stu_batch st) = None))))
                  (allocations (db sv))
                  (allocations (databaseAfter (content req) (Str.toUpperCase d)
                                  (userId req) (databaseDown req) (db sv)))).
  { unfold databaseAfter.
    destruct (layout (content req)); try apply joined_all_refl.
    destruct (databaseDown req); [apply joined_all_refl|].
    destruct (mapSubjects _ _ _ _) as [sm um].
    destruct (negb (is_nil um) && is_nil sm); [apply joined_all_refl|].
    destruct (is_nil (studentsOfDivision _ (db sv))); [apply joined_all_refl|].
    destruct (is_nil sm); [apply joined_all_refl|].
    apply ingest_members. exact Hd. }
  destruct (existsb _ _).
  - destruct (readFails req); [rewrite serverError_db; apply joined_all_refl|].
    pose proof (processDivisionSheet_db (content req) (Str.toUpperCase d)
                  (userId req) (path f) (databaseDown req) sv) as Hp.
    destruct (processDivisionSheet _ _ _ _ _ _) as [sv' [r|e]]; cbn [fst] in *.
    + rewrite Hp. exact Hdb.
    + rewrite serverError_db, Hp. exact Hdb.
  - destruct (unlinkSync (path f) sv) eqn:E; cbn [fst].
    + rewrite (proj2 (unlinkSync_gone _ _ _ E)). apply joined_all_refl.
    + rewrite serverError_db. apply joined_all_refl.
Qed.

End UploadAndSync.

Section DefaulterList.
Import JS Db Outcome Defaulters.
#[local] Open Scope Q_scope.

(** The invariant of [subjectStats] over the records of one student: every
    entry is keyed by its subject's id, and its subject is the populated
    subject of one of the records and passes the restriction. *)
Lemma accumulate_entries (sub : Subject) (c a p : num)
    (stats : list (ObjectId * SubjectStats)) (e : ObjectId * SubjectStats) :
  e ∈ accumulate sub c a p stats ->
  subject (snd e) = sub \/ exists e', e' ∈ stats /\ subject (snd e) = subject (snd e').
Proof.
  induction stats as [|[id s] r IH]; cbn [accumulate].
  - intros H. apply list_elem_of_singleton in H. subst e. auto.
  - destruct (Nat.eqb id (sub_id sub)).
    + intros H. apply elem_of_cons in H. destruct H as [-> | H]; right.
      * exists (id, s). split; [apply elem_of_cons; auto | reflexivity].
      * exists e. split; [apply elem_of_cons; auto | reflexivity].
    + intros H. apply elem_of_cons in H. destruct H as [-> | H].
      * right. exists (id, s). split; [apply elem_of_cons; auto | reflexivity].
      * destruct (IH H) as [H' | (e' & H1 & H2)]; [auto|].
        right. exists e'. split; [apply elem_of_cons; auto | exact H2].
Qed.

Lemma stats_entries (ids : option (list ObjectId))
    (records : list (Attendance * option Subject)) :
  forall (stats : list (ObjectId * SubjectStats)) (e : ObjectId * SubjectStats),
    e ∈ fold_left (addRecord ids) records stats ->
    (exists e', e' ∈ stats /\ subject (snd e) = subject (snd e'))
    \/ (exists rec, rec ∈ records /\ snd rec = Some (subject (snd e))
                    /\ forall allowed, ids = Some allowed ->
                         existsb (Nat.eqb (sub_id (subject (snd e)))) allowed = true).
Proof.
  induction records as [|rec rest IH]; intros stats e; cbn [fold_left].
  - intros H. left. exists e. auto.
  - intros H. destruct (IH _ _ H) as [(e' & H1 & H2) | (r & H1 & H2 & H3)].
    + unfold addRecord in H1. destruct (snd rec) as [sub|] eqn:Es; [|left; eauto].
      destruct (match ids with
                | Some l => existsb (Nat.eqb (sub_id sub)) l
                | None => true
                end) eqn:El; [|left; eauto].
      apply accumulate_entries in H1. destruct H1 as [H1 | (e'' & H1 & H1')].
      * right. exists rec. split; [apply elem_of_cons; auto|].
        rewrite H2, H1. split; [exact Es|].
        intros allowed ->. exact El.
      * left. exists e''. split; [exact H1 | congruence].
    + right. exists r. split; [apply elem_of_cons; auto | auto].
Qed.

Lemma attendanceOf_records (w : World) (student : ObjectId)
    (ids : option (list ObjectId)) (rec : Attendance * option Subject) (sub : Subject) :
  rec ∈ attendanceOf w student ids -> snd rec = Some sub ->
  fst rec ∈ attendances w /\ att_studentId (fst rec) = student
  /\ att_subjectId (fst rec) = sub_id sub /\ sub ∈ subjects w.
Proof.
  unfold attendanceOf. intros H Hs.
  apply list_elem_of_fmap in H as (r & -> & Hr).
  apply list_elem_of_filter in Hr as [Hp Hr].
  apply andb_prop in Hp as [Hp _]. apply Nat.eqb_eq in Hp.
  cbn [populate fst snd] in *. split; [exact Hr|]. split; [exact Hp|].
  clear -Hs. induction (subjects w) as [|s l IH]; cbn [find_first] in Hs;
    [discriminate|].
  destruct (Nat.eqb (sub_id s) (att_subjectId r)) eqn:E.
  - injection Hs as <-. apply Nat.eqb_eq in E. split; [auto | apply elem_of_cons; auto].
  - destruct (IH Hs) as [H1 H2]. split; [exact H1 | apply elem_of_cons; auto].
Qed.

Lemma defaulterSubjectsOf_entries (threshold : num)
    (stats : list (ObjectId * SubjectStats)) (st : SubjectStats) :
  st ∈ defaulterSubjectsOf threshold stats ->
  ltb (stat_percentage st) threshold = true
  /\ exists e, e ∈ stats /\ subject st = subject (snd e)
               /\ stat_percentage st = judged (snd e).
Proof.
  unfold defaulterSubjectsOf. intros H.
  apply list_elem_of_fmap in H as (s & -> & Hs).
  apply list_elem_of_filter in Hs as [Hp Hs].
  apply list_elem_of_fmap in Hs as (e & -> & He).
  cbn [stat_percentage subject]. split; [exact Hp|]. exists e. auto.
Qed.

(** What the loop body adds for a student, over a database that answers. *)
Lemma checkStudent_healthy (w : World) (threshold : num)
    (ids : option (list ObjectId)) (student : Student) (defaulters : list Defaulter) :
  let records := attendanceOf w (stu_id student) (restriction ids) in
  let subs := defaulterSubjectsOf threshold (fold_left (addRecord ids) records []) in
  checkStudent (healthy w) threshold ids student defaulters
  = Return (defaulters ++
            match records, subs with
            | [], _ | _, [] => []
            | _, _ => [{| def_id := stu_id student; def_name := stu_name student;
                          def_studentId := studentId student;
                          def_email := stu_email student;
                          defaulterSubjects := subs |}]
            end).
Proof.
  cbv zeta. unfold checkStudent. cbn [healthy findAttendance bind].
  destruct (attendanceOf w (stu_id student) (restriction ids)) as [|r rs];
    [rewrite app_nil_r; reflexivity|].
  destruct (defaulterSubjectsOf _ _); [rewrite app_nil_r|]; reflexivity.
Qed.

Lemma listed_sound (w : World) (threshold : num) (ids : option (list ObjectId))
    (student : Student) (st : SubjectStats) :
  st ∈ defaulterSubjectsOf threshold
         (fold_left (addRecord ids)
            (attendanceOf w (stu_id student) (restriction ids)) []) ->
  ltb (stat_percentage st) threshold = true
  /\ subject st ∈ subjects w
  /\ (forall allowed, ids = Some allowed -> sub_id (subject st) ∈ allowed)
  /\ exists r, r ∈ attendances w /\ att_studentId r = stu_id student
               /\ att_subjectId r = sub_id (subject st).
Proof.
  intros H. apply defaulterSubjectsOf_entries in H as (Hp & e & He & Hs & _).
  split; [exact Hp|].
  apply stats_entries in He as [(e' & H1 & _) | (rec & H1 & H2 & H3)].
  { apply elem_of_nil in H1. contradiction. }
  rewrite <- Hs in H2, H3.
  destruct (attendanceOf_records _ _ _ _ _ H1 H2) as (A1 & A2 & A3 & A4).
  split; [exact A4|]. split.
  - intros allowed Hi. specialize (H3 allowed Hi).
    apply existsb_exists in H3 as (x & Hx & Heq). apply Nat.eqb_eq in Heq.
    rewrite Heq. apply list_elem_of_In, Hx.
  - exists (fst rec). auto.
Qed.

(** The loop over the students, over a database that answers: what it adds
    to the list. *)
Lemma forEachM_healthy (w : World) (threshold : num) (ids : option (list ObjectId))
    (l : list Student) :
  forall acc : list Defaulter,
    exists extra,
      forEachM (checkStudent (healthy w) threshold ids) l acc = Return (acc ++ extra)
      /\ sublist (map def_id extra) (map stu_id l)
      /\ forall d, d ∈ extra ->
           defaulterSubjects d <> []
           /\ forall st, st ∈ defaulterSubjects d ->
                ltb (stat_percentage st) threshold = true
                /\ subject st ∈ subjects w
                /\ (forall allowed, ids = Some allowed ->
                      sub_id (subject st) ∈ allowed)
                /\ exists r, r ∈ attendances w /\ att_studentId r = def_id d
                             /\ att_subjectId r = sub_id (subject st).
Proof.
  induction l as [|s l IH]; intros acc; cbn [forEachM].
  - exists []. rewrite app_nil_r. split; [reflexivity|]. split; [constructor|].
    intros d Hd. apply elem_of_nil in Hd. contradiction.
  - rewrite checkStudent_healthy. cbn [bind].
    pose proof (listed_sound w threshold ids s) as Hs.
    set (records := attendanceOf w (stu_id s) (restriction ids)) in *.
    set (subs := defaulterSubjectsOf threshold
                   (fold_left (addRecord ids) records [])) in *.
    set (new := match records, subs with
                | [], _ | _, [] => []
                | _, _ => [{| def_id := stu_id s; def_name := stu_name s;
                              def_studentId := studentId s;
                              def_email := stu_email s;
                              defaulterSubjects := subs |}]
                end).
    destruct (IH (acc ++ new)) as (extra & E1 & E2 & E3).
    exists (new ++ extra). rewrite app_assoc. split; [exact E1|].
    assert (Hnew : new = [] \/ (subs <> [] /\
                      new = [{| def_id := stu_id s; def_name := stu_name s;
                                def_studentId := studentId s;
                                def_email := stu_email s;
                                defaulterSubjects := subs |}])).
    { unfold new. destruct records; [auto|]. destruct subs; [auto|].
      right. split; [discriminate | reflexivity]. }
    destruct Hnew as [-> | [Hne ->]].
    + cbn [app map]. split; [apply sublist_cons, E2 | exact E3].
    + cbn [app map def_id]. split; [apply sublist_skip, E2|].
      intros d Hd. apply elem_of_cons in Hd. destruct Hd as [-> | Hd]; [|auto].
      cbn [defaulterSubjects def_id]. split; [exact Hne | exact Hs].
Qed.

(** X19. Over a database that answers, [checkDefaulters] lists students in
    the order of the student collection, each at most as often as stored;
    every listed student has at least one listed subject, and every listed
    subject is a subject of the catalogue, has a summary of this student,
    is among the allocated subjects when these are given, and is judged by a
    percentage below the threshold. *)
Theorem checkDefaulters_sound (w : World) (threshold : num)
    (ids : option (list ObjectId)) :
  exists l : list Defaulter,
    checkDefaulters (healthy w) threshold ids = Return l
    /\ sublist (map def_id l) (map stu_id (students w))
    /\ forall d, d ∈ l ->
         defaulterSubjects d <> []
         /\ forall st, st ∈ defaulterSubjects d ->
              ltb (stat_percentage st) threshold = true
              /\ subject st ∈ subjects w
              /\ (forall allowed, ids = Some allowed -> sub_id (subject st) ∈ allowed)
              /\ exists r, r ∈ attendances w /\ att_studentId r = def_id d
                           /\ att_subjectId r = sub_id (subject st).
Proof.
  unfold checkDefaulters, checkDefaultersBody. cbn [healthy findStudents bind].
  destruct (forEachM_healthy w threshold ids (students w) [])
    as (extra & E1 & E2 & E3).
  exists extra. rewrite E1. cbn [catch app]. auto.
Qed.

Lemma ltb_threshold_mono (p : num) (t1 t2 : Q) :
  t1 <= t2 -> ltb p (Fin t1) = true -> ltb p (Fin t2) = true.
Proof.
  intros Hle. destruct p; cbn [ltb]; try discriminate; [|reflexivity].
  rewrite !Qltb_lt. intros H. eapply Qlt_le_trans; eassumption.
Qed.

Lemma defaulterSubjectsOf_mono (t1 t2 : Q) (stats : list (ObjectId * SubjectStats))
    (st : SubjectStats) :
  t1 <= t2 ->
  st ∈ defaulterSubjectsOf (Fin t1) stats -> st ∈ defaulterSubjectsOf (Fin t2) stats.
Proof.
  intros Hle. unfold defaulterSubjectsOf. intros H.
  apply list_elem_of_fmap in H as (s & -> & Hs).
  apply list_elem_of_filter in Hs as [Hp Hs].
  apply list_elem_of_fmap. exists s. split; [reflexivity|].
  apply list_elem_of_filter. split; [|exact Hs].
  eapply ltb_threshold_mono; eassumption.
Qed.

(** X20. Raising the threshold loses no defaulter: over a database that
    answers, a student listed for a threshold is listed for every higher
    one, with at least the same subjects. *)
Theorem raising_threshold_keeps_defaulters (w : World) (t1 t2 : Q)
    (ids : option (list ObjectId)) :
  t1 <= t2 ->
  exists l1 l2 : list Defaulter,
    checkDefaulters (healthy w) (Fin t1) ids = Return l1
    /\ checkDefaulters (healthy w) (Fin t2) ids = Return l2
    /\ forall d1, d1 ∈ l1 ->
         exists d2, d2 ∈ l2 /\ def_id d2 = def_id d1
                    /\ def_studentId d2 = def_studentId d1
                    /\ forall st, st ∈ defaulterSubjects d1 -> st ∈ defaulterSubjects d2.
Proof.
  intros Hle. unfold checkDefaulters, checkDefaultersBody.
  cbn [healthy findStudents bind].
  assert (G : forall (l : list Student) (acc1 acc2 : list Defaulter),
             (forall d1, d1 ∈ acc1 ->
                exists d2, d2 ∈ acc2 /\ def_id d2 = def_id d1
                           /\ def_studentId d2 = def_studentId d1
                           /\ forall st, st ∈ defaulterSubjects d1 ->
                                st ∈ defaulterSubjects d2) ->
             exists l1 l2,
               forEachM (checkStudent (healthy w) (Fin t1) ids) l acc1 = Return l1
               /\ forEachM (checkStudent (healthy w) (Fin t2) ids) l acc2 = Return l2
               /\ forall d1, d1 ∈ l1 ->
                    exists d2, d2 ∈ l2 /\ def_id d2 = def_id d1
                               /\ def_studentId d2 = def_studentId d1
                               /\ forall st, st ∈ defaulterSubjects d1 ->
                                    st ∈ defaulterSubjects d2).
  { induction l as [|s l IH]; intros acc1 acc2 Hacc; cbn [forEachM]; [eauto|].
    rewrite !checkStudent_healthy. cbn [bind]. apply IH.
    pose proof (defaulterSubjectsOf_mono t1 t2
                  (fold_left (addRecord ids)
                     (attendanceOf w (stu_id s) (restriction ids)) [])) as Hm.
    destruct (attendanceOf w (stu_id s) (restriction ids)) as [|r rs].
    { rewrite !app_nil_r. exact Hacc. }
    set (stats := fold_left (addRecord ids) (r :: rs) []) in *.
    intros d1 Hd1. apply elem_of_app in Hd1. destruct Hd1 as [Hd1 | Hd1].
    - destruct (Hacc d1 Hd1) as (d2 & H1 & H2).
      exists d2. split; [apply elem_of_app; auto | exact H2].
    - destruct (defaulterSubjectsOf (Fin t1) stats) as [|x xs] eqn:E1.
      { apply elem_of_nil in Hd1. contradiction. }
      apply list_elem_of_singleton in Hd1. subst d1.
      assert (Hx : x ∈ defaulterSubjectsOf (Fin t2) stats).
      { apply Hm; [exact Hle | apply elem_of_cons; auto]. }
      destruct (defaulterSubjectsOf (Fin t2) stats) as [|y ys] eqn:E2.
      { apply elem_of_nil in Hx. contradiction. }
      eexists. split; [apply elem_of_app; right; apply list_elem_of_singleton;
                       reflexivity|].
      cbn [def_id def_studentId defaulterSubjects].
      split; [reflexivity|]. split; [reflexivity|].
      intros st Hst. apply Hm; assumption. }
  destruct (G (students w) [] []) as (l1 & l2 & E1 & E2 & H).
  { intros d1 Hd1. apply elem_of_nil in Hd1. contradiction. }
  exists l1, l2. rewrite E1, E2. cbn [catch]. auto.
Qed.

Lemma raising_threshold_keeps_defaulters_witness :
  50 <= 75
  /\ exists l1 l2 : list Defaulter,
       checkDefaulters (healthy Samples.collegeNearThreshold) (Fin 50) None = Return l1
       /\ checkDefaulters (healthy Samples.collegeNearThreshold) (Fin 75) None = Return l2
       /\ forall d1, d1 ∈ l1 ->
            exists d2, d2 ∈ l2 /\ def_id d2 = def_id d1
                       /\ def_studentId d2 = def_studentId d1
                       /\ forall st, st ∈ defaulterSubjects d1 ->
                            st ∈ defaulterSubjects d2.
Proof.
  assert (H : 50 <= 75) by (unfold Qle; cbn; lia).
  split; [exact H|].
  exact (raising_threshold_keeps_defaulters Samples.collegeNearThreshold 50 75 None H).
Defined.

End DefaulterList.

Section BandedReport.
Import JS Db Outcome Defaulters.

Lemma placeStudent_adds (w : World) (ids : option (list ObjectId)) (rep : Report)
    (student : Student) :
  exists e1 e2 e3 : list Item,
    r_below50 (placeStudent w ids rep student) = r_below50 rep ++ e1
    /\ r_between50to65 (placeStudent w ids rep student) = r_between50to65 rep ++ e2
    /\ r_between65_1_to74_99 (placeStudent w ids rep student)
       = r_between65_1_to74_99 rep ++ e3
    /\ List.length e1 + List.length e2 + List.length e3 <= 1
    /\ (forall i, i ∈ e1 ++ e2 ++ e3 ->
          item_id i = stu_id student
          /\ attendanceOf w (stu_id student) (restriction ids) <> []).
Proof.
  unfold placeStudent.
  destruct (attendanceOf w (stu_id student) (restriction ids)) as [|r l] eqn:E.
  { exists [], [], []. rewrite !app_nil_r. repeat apply conj; auto.
    intros i Hi. apply elem_of_nil in Hi. contradiction. }
  assert (Hi : forall i, i ∈ [itemOf student (r :: l)] ->
                 item_id i = stu_id student /\ r :: l <> []).
  { intros i Hi. apply list_elem_of_singleton in Hi. subst i.
    split; [reflexivity | discriminate]. }
  destruct (bandOf (percentOf (r :: l))) as [[| |]|].
  - exists [itemOf student (r :: l)], [], []. rewrite !app_nil_r.
    repeat apply conj; auto.
  - exists [], [itemOf student (r :: l)], []. rewrite !app_nil_r.
    repeat apply conj; auto.
  - exists [], [], [itemOf student (r :: l)]. rewrite !app_nil_r.
    repeat apply conj; auto.
  - exists [], [], []. rewrite !app_nil_r. repeat apply conj; auto.
    intros i H. apply elem_of_nil in H. contradiction.
Qed.

Lemma sublist_one_of {A B : Type} (f : A -> nat) (g : B -> nat) (e : list A) (s : B)
    (x : list A) (l : list B) :
  List.length e <= 1 -> (forall i, i ∈ e -> f i = g s) ->
  sublist (map f x) (map g l) ->
  sublist (map f (e ++ x)) (map g (s :: l)).
Proof.
  intros Hl He Hx. destruct e as [|i [|j e]].
  - cbn [app map]. apply sublist_cons, Hx.
  - cbn [app map]. rewrite (He i) by (apply elem_of_cons; auto).
    apply sublist_skip, Hx.
  - cbn [List.length] in Hl. lia.
Qed.

Lemma report_fold (w : World) (ids : option (list ObjectId)) (l : list Student) :
  forall rep : Report,
    let out := fold_left (placeStudent w ids) l rep in
    exists e1 e2 e3 : list Item,
      r_below50 out = r_below50 rep ++ e1
      /\ r_between50to65 out = r_between50to65 rep ++ e2
      /\ r_between65_1_to74_99 out = r_between65_1_to74_99 rep ++ e3
      /\ List.length e1 + List.length e2 + List.length e3 <= List.length l
      /\ sublist (map item_id e1) (map stu_id l)
      /\ sublist (map item_id e2) (map stu_id l)
      /\ sublist (map item_id e3) (map stu_id l)
      /\ (forall i, i ∈ e1 ++ e2 ++ e3 ->
            exists s, s ∈ l /\ item_id i = stu_id s
                      /\ attendanceOf w (stu_id s) (restriction ids) <> []).
Proof.
  induction l as [|s l IH]; intros rep; cbv zeta; cbn [fold_left].
  - exists [], [], []. rewrite !app_nil_r. cbn.
    repeat apply conj; auto; try constructor.
    intros i Hi. apply elem_of_nil in Hi. contradiction.
  - destruct (placeStudent_adds w ids rep s) as (a1 & a2 & a3 & A1 & A2 & A3 & A4 & A5).
    destruct (IH (placeStudent w ids rep s))
      as (b1 & b2 & b3 & B1 & B2 & B3 & B4 & B5 & B6 & B7 & B8).
    cbv zeta in *.
    exists (a1 ++ b1), (a2 ++ b2), (a3 ++ b3).
    rewrite B1, B2, B3, A1, A2, A3, <- !app_assoc.
    assert (Hin : forall i, i ∈ a1 \/ i ∈ a2 \/ i ∈ a3 -> item_id i = stu_id s).
    { intros i Hi. apply A5. rewrite !elem_of_app. exact Hi. }
    repeat apply conj; try reflexivity.
    + rewrite !length_app. cbn [List.length]. lia.
    + apply sublist_one_of; [lia | auto | exact B5].
    + apply sublist_one_of; [lia | auto | exact B6].
    + apply sublist_one_of; [lia | auto | exact B7].
    + intros i Hi. rewrite !elem_of_app in Hi.
      assert (Hc : i ∈ a1 ++ a2 ++ a3 \/ i ∈ b1 ++ b2 ++ b3).
      { rewrite !elem_of_app. tauto. }
      destruct Hc as [Hc | Hc].
      * exists s. split; [apply elem_of_cons; auto | apply A5, Hc].
      * destruct (B8 i Hc) as (s' & S1 & S2).
        exists s'. split; [apply elem_of_cons; auto | exact S2].
Qed.

(** X21. Each list of the banded report holds students that the filters
    select and that have a summary, in the order of the student collection;
    the three lists together hold at most as many entries as there are
    selected students. *)
Theorem report_lists_selected_students (w : World) (f : Filters) (isTeacher : bool)
    (userId : ObjectId) :
  let rep := defaultersReport w f isTeacher userId in
  let chosen := filter (fun s => selected f s = true) (students w) in
  (forall b, sublist (map item_id (filed b rep)) (map stu_id chosen))
  /\ List.length (r_below50 rep) + List.length (r_between50to65 rep)
     + List.length (r_between65_1_to74_99 rep) <= List.length chosen
  /\ (forall b i, i ∈ filed b rep ->
        exists s r, s ∈ students w /\ selected f s = true /\ item_id i = stu_id s
                    /\ r ∈ attendances w /\ att_studentId r = stu_id s).
Proof.
  cbv zeta. unfold defaultersReport.
  set (ids := if isTeacher
              then Some (map alloc_subjectId
                           (filter (fun a => Nat.eqb (alloc_teacherId a) userId = true)
                                   (allocations w)))
              else None).
  assert (Hempty :
            (forall b, sublist (map item_id (filed b emptyReport))
                         (map stu_id (filter (fun s => selected f s = true) (students w))))
            /\ List.length (r_below50 emptyReport)
               + List.length (r_between50to65 emptyReport)
               + List.length (r_between65_1_to74_99 emptyReport)
               <= List.length (filter (fun s => selected f s = true) (students w))
            /\ (forall b i, i ∈ filed b emptyReport ->
                  exists s r, s ∈ students w /\ selected f s = true
                              /\ item_id i = stu_id s
                              /\ r ∈ attendances w /\ att_studentId r = stu_id s)).
  { split; [intros []; apply sublist_nil_l|]. split; [cbn; lia|].
    intros [] i Hi; apply elem_of_nil in Hi; contradiction. }
  assert (Hfold :
            let rep := fold_left (placeStudent w ids)
                         (filter (fun s => selected f s = true) (students w))
                         emptyReport in
            (forall b, sublist (map item_id (filed b rep))
                         (map stu_id (filter (fun s => selected f s = true) (students w))))
            /\ List.length (r_below50 rep) + List.length (r_between50to65 rep)
               + List.length (r_between65_1_to74_99 rep)
               <= List.length (filter (fun s => selected f s = true) (students w))
            /\ (forall b i, i ∈ filed b rep ->
                  exists s r, s ∈ students w /\ selected f s = true
                              /\ item_id i = stu_id s
                              /\ r ∈ attendances w /\ att_studentId r = stu_id s)).
  { cbv zeta.
    destruct (report_fold w ids (filter (fun s => selected f s = true) (students w))
                emptyReport)
      as (e1 & e2 & e3 & E1 & E2 & E3 & E4 & E5 & E6 & E7 & E8).
    cbv zeta in *. cbn [emptyReport r_below50 r_between50to65 r_between65_1_to74_99 app]
      in E1, E2, E3.
    split; [intros []; cbn [filed]; rewrite ?E1, ?E2, ?E3; assumption|].
    split; [rewrite E1, E2, E3; exact E4|].
    intros b i Hi.
    assert (Hin : i ∈ e1 ++ e2 ++ e3).
    { rewrite !elem_of_app. destruct b; cbn [filed] in Hi;
        rewrite ?E1, ?E2, ?E3 in Hi; auto. }
    destruct (E8 i Hin) as (s & S1 & S2 & S3).
    apply list_elem_of_filter in S1 as [Sp Ss].
    destruct (attendanceOf w (stu_id s) (restriction ids)) as [|rec recs] eqn:Ea;
      [congruence|].
    assert (Hrec : rec ∈ attendanceOf w (stu_id s) (restriction ids))
      by (rewrite Ea; apply elem_of_cons; auto).
    unfold attendanceOf in Hrec. apply list_elem_of_fmap in Hrec as (r & _ & Hr).
    apply list_elem_of_filter in Hr as [Hp Hr].
    apply andb_prop in Hp as [Hp _]. apply Nat.eqb_eq in Hp.
    exists s, r. auto. }
  destruct ids as [[|x l]|]; [exact Hempty | exact Hfold | exact Hfold].
Qed.

End BandedReport.

Section ReportSubjectLines.
Import JS Db Defaulters SubjectLines.

Lemma latest_keys (sid : ObjectId) (entry : Subject * num * nat)
    (m : list (ObjectId * (Subject * num * nat))) :
  map fst (latest sid entry m)
  = if bool_decide (sid ∈ map fst m) then map fst m else map fst m ++ [sid].
Proof.
  induction m as [|[id ex] r IH]; cbn [latest map fst].
  - rewrite bool_decide_eq_false_2 by apply not_elem_of_nil. reflexivity.
  - destruct (Nat.eqb id sid) eqn:E.
    + apply Nat.eqb_eq in E. subst id.
      rewrite bool_decide_eq_true_2 by (apply elem_of_cons; auto).
      destruct (Nat.ltb _ _); reflexivity.
    + apply Nat.eqb_neq in E. cbn [map fst]. rewrite IH.
      destruct (bool_decide (sid ∈ map fst r)) eqn:D.
      * apply bool_decide_eq_true in D.
        rewrite bool_decide_eq_true_2 by (apply elem_of_cons; auto). reflexivity.
      * apply bool_decide_eq_false in D.
        rewrite bool_decide_eq_false_2; [reflexivity|].
        intros H. apply elem_of_cons in H. destruct H as [H | H]; [congruence | auto].
Qed.

Lemma latest_nodup (sid : ObjectId) (entry : Subject * num * nat)
    (m : list (ObjectId * (Subject * num * nat))) :
  NoDup (map fst m) -> NoDup (map fst (latest sid entry m)).
Proof.
  intros H. rewrite latest_keys.
  destruct (bool_decide (sid ∈ map fst m)) eqn:D; [exact H|].
  apply bool_decide_eq_false in D. apply NoDup_app. split; [exact H|].
  split; [|apply NoDup_singleton].
  intros x Hx Hs. apply list_elem_of_singleton in Hs. subst. auto.
Qed.

(** After [latest], the key holds the entry or an entry at least as new,
    and what it holds is the entry or what was there. *)
Lemma latest_entries (sid : ObjectId) (entry : Subject * num * nat)
    (m : list (ObjectId * (Subject * num * nat))) :
  (exists e, (sid, e) ∈ latest sid entry m /\ snd entry <= snd e)
  /\ (forall id e, (id, e) ∈ latest sid entry m ->
        (id = sid /\ e = entry) \/ (id, e) ∈ m)
  /\ (forall id e, (id, e) ∈ m ->
        exists e', (id, e') ∈ latest sid entry m /\ snd e <= snd e').
Proof.
  induction m as [|[id0 ex] r (I1 & I2 & I3)]; cbn [latest].
  - split; [exists entry; split; [apply list_elem_of_singleton; reflexivity | lia]|].
    split.
    + intros id e H. apply list_elem_of_singleton in H. injection H as -> ->. auto.
    + intros id e H. apply elem_of_nil in H. contradiction.
  - destruct (Nat.eqb id0 sid) eqn:E.
    + apply Nat.eqb_eq in E. subst id0.
      destruct (Nat.ltb (snd ex) (snd entry)) eqn:L.
      * apply Nat.ltb_lt in L. split; [|split].
        -- exists entry. split; [apply elem_of_cons; auto | lia].
        -- intros id e H. apply elem_of_cons in H. destruct H as [H | H].
           ++ injection H as -> ->. auto.
           ++ right. apply elem_of_cons. auto.
        -- intros id e H. apply elem_of_cons in H. destruct H as [H | H].
           ++ injection H as -> ->. exists entry.
              split; [apply elem_of_cons; auto | lia].
           ++ exists e. split; [apply elem_of_cons; auto | lia].
      * apply Nat.ltb_ge in L. split; [|split].
        -- exists ex. split; [apply elem_of_cons; auto | exact L].
        -- intros id e H. right. exact H.
        -- intros id e H. exists e. split; [exact H | lia].
    + split; [|split].
      * destruct I1 as (e & H1 & H2). exists e. split; [apply elem_of_cons; auto | exact H2].
      * intros id e H. apply elem_of_cons in H. destruct H as [H | H].
        -- right. rewrite H. apply elem_of_cons. auto.
        -- destruct (I2 id e H) as [H' | H']; [auto|]. right. apply elem_of_cons. auto.
      * intros id e H. apply elem_of_cons in H. destruct H as [H | H].
        -- exists e. split; [rewrite H; apply elem_of_cons; auto | lia].
        -- destruct (I3 id e H) as (e' & H1 & H2).
           exists e'. split; [apply elem_of_cons; auto | exact H2].
Qed.

Lemma tallyRecord_perSubject (t : Tally) (rec : Attendance * option Subject) :
  perSubject (tallyRecord t rec)
  = match snd rec with
    | Some sub =>
        latest (sub_id sub) (sub, recordPercent (fst rec), updatedAt (fst rec))
          (perSubject t)
    | None => perSubject t
    end.
Proof. reflexivity. Qed.

Lemma perSubject_invariant (records : list (Attendance * option Subject)) :
  forall t : Tally,
    let out := perSubject (fold_left tallyRecord records t) in
    (NoDup (map fst (perSubject t)) -> NoDup (map fst out))
    /\ (forall rec sub, rec ∈ records -> snd rec = Some sub ->
          exists e, (sub_id sub, e) ∈ out /\ updatedAt (fst rec) <= snd e)
    /\ (forall id e, (id, e) ∈ perSubject t ->
          exists e', (id, e') ∈ out /\ snd e <= snd e')
    /\ (forall id e, (id, e) ∈ out ->
          (id, e) ∈ perSubject t
          \/ exists rec, rec ∈ records /\ snd rec = Some (fst (fst e))
                         /\ id = sub_id (fst (fst e))
                         /\ snd (fst e) = recordPercent (fst rec)
                         /\ snd e = updatedAt (fst rec)).
Proof.
  induction records as [|rec rest IH]; intros t; cbv zeta; cbn [fold_left].
  - split; [auto|]. split; [|split].
    + intros r sub H. apply elem_of_nil in H. contradiction.
    + intros id e H. exists e. split; [exact H | lia].
    + intros id e H. auto.
  - destruct (IH (tallyRecord t rec)) as (I1 & I2 & I3 & I4). cbv zeta in *.
    rewrite tallyRecord_perSubject in I1, I3, I4.
    destruct (snd rec) as [sub|] eqn:Es.
    + destruct (latest_entries (sub_id sub)
                  (sub, recordPercent (fst rec), updatedAt (fst rec)) (perSubject t))
        as (L1 & L2 & L3).
      split; [intros H; apply I1, latest_nodup, H|]. split; [|split].
      * intros r s Hr Hs. apply elem_of_cons in Hr. destruct Hr as [-> | Hr];
          [|apply (I2 r s Hr Hs)].
        rewrite Es in Hs. injection Hs as <-.
        destruct L1 as (e & H1 & H2). destruct (I3 _ _ H1) as (e' & H3 & H4).
        exists e'. split; [exact H3|]. cbn [snd] in H2. lia.
      * intros id e H. destruct (L3 id e H) as (e1 & H1 & H2).
        destruct (I3 _ _ H1) as (e2 & H3 & H4). exists e2. split; [exact H3 | lia].
      * intros id e H. destruct (I4 id e H) as [H' | (r & R1 & R2)].
        -- destruct (L2 id e H') as [[-> ->] | H'']; [|auto].
           right. exists rec. cbn [fst snd]. split; [apply elem_of_cons; auto|].
           auto.
        -- right. exists r. split; [apply elem_of_cons; auto | exact R2].
    + split; [exact I1|]. split; [|split].
      * intros r s Hr Hs. apply elem_of_cons in Hr. destruct Hr as [-> | Hr];
          [congruence | apply (I2 r s Hr Hs)].
      * exact I3.
      * intros id e H. destruct (I4 id e H) as [H' | (r & R1 & R2)]; [auto|].
        right. exists r. split; [apply elem_of_cons; auto | exact R2].
Qed.

(** X22. The subject lines of a report entry: one line per subject that
    occurs in the student's records, taken from a record of that subject
    that no other record of the subject is newer than, and showing that
    record's own percentage, or attended over conducted when it has none. *)
Theorem subject_lines_latest (student : Student)
    (records : list (Attendance * option Subject)) :
  let lines := perSubject (fold_left tallyRecord records startTally) in
  item_subjects (itemOf student records)
  = map (fun e => {| line_name := sub_name (fst (fst (snd e)));
                     line_code := sub_code (fst (fst (snd e)));
                     line_percentage := toFixed2 (snd (fst (snd e))) |}) lines
  /\ NoDup (map fst lines)
  /\ (forall rec sub, rec ∈ records -> snd rec = Some sub ->
        exists e, (sub_id sub, e) ∈ lines /\ updatedAt (fst rec) <= snd e)
  /\ (forall id e, (id, e) ∈ lines ->
        exists rec, rec ∈ records /\ snd rec = Some (fst (fst e))
                    /\ id = sub_id (fst (fst e))
                    /\ snd (fst e) = recordPercent (fst rec)
                    /\ snd e = updatedAt (fst rec)).
Proof.
  cbv zeta. destruct (perSubject_invariant records startTally) as (I1 & I2 & I3 & I4).
  cbv zeta in *. split; [|split; [|split]].
  - unfold itemOf. cbn [item_subjects]. apply map_ext. intros [id [[sub pct] t]].
    reflexivity.
  - apply I1. constructor.
  - exact I2.
  - intros id e H. destruct (I4 id e H) as [H' | H']; [|exact H'].
    apply elem_of_nil in H'. contradiction.
Qed.

End ReportSubjectLines.

Section TeacherScope.
Import JS Db Outcome Defaulters SubjectLines.

Lemma allocated_subject (w : World) (user sid : ObjectId) :
  sid ∈ map alloc_subjectId
          (filter (fun a => Nat.eqb (alloc_teacherId a) user = true) (allocations w)) ->
  exists a, a ∈ allocations w /\ alloc_teacherId a = user /\ alloc_subjectId a = sid.
Proof.
  intros H. apply list_elem_of_fmap in H as (a & -> & Ha).
  apply list_elem_of_filter in Ha as [Hp Ha]. apply Nat.eqb_eq in Hp.
  exists a. auto.
Qed.

Lemma restricted_records (w : World) (student : ObjectId) (x : ObjectId)
    (ids : list ObjectId) (rec : Attendance * option Subject) :
  rec ∈ attendanceOf w student (restriction (Some (x :: ids))) ->
  att_subjectId (fst rec) ∈ x :: ids.
Proof.
  unfold attendanceOf. cbn [restriction]. intros H.
  apply list_elem_of_fmap in H as (r & -> & Hr).
  apply list_elem_of_filter in Hr as [Hp _].
  apply andb_prop in Hp as [_ Hp].
  apply existsb_exists in Hp as (y & Hy & Hq). apply Nat.eqb_eq in Hq.
  cbn [populate fst]. rewrite Hq. apply list_elem_of_In, Hy.
Qed.

Lemma populated_subject (w : World) (r : Attendance) (sub : Subject) :
  snd (populate w r) = Some sub -> sub_id sub = att_subjectId r /\ sub ∈ subjects w.
Proof.
  cbn [populate snd]. induction (subjects w) as [|s l IH]; cbn [find_first];
    [discriminate|].
  destruct (Nat.eqb (sub_id s) (att_subjectId r)) eqn:E.
  - intros [= <-]. apply Nat.eqb_eq in E. split; [exact E | apply elem_of_cons; auto].
  - intros H. destruct (IH H) as [H1 H2]. split; [exact H1 | apply elem_of_cons; auto].
Qed.

Lemma checkDefaulters_scoped (w : World) (threshold : num) (ids : list ObjectId) :
  exists l : list Defaulter,
    checkDefaulters (healthy w) threshold (Some ids) = Return l
    /\ forall d st, d ∈ l -> st ∈ defaulterSubjects d -> sub_id (subject st) ∈ ids.
Proof.
  unfold checkDefaulters, checkDefaultersBody. cbn [healthy findStudents bind].
  destruct (forEachM_healthy w threshold (Some ids) (students w) [])
    as (extra & E1 & _ & E3).
  exists extra. rewrite E1. cbn [catch app]. split; [reflexivity|].
  intros d st Hd Hst. destruct (E3 d Hd) as [_ H].
  destruct (H st Hst) as (_ & _ & Hin & _). apply (Hin ids eq_refl).
Qed.

Lemma subject_lines_of (s : Student) (records : list (Attendance * option Subject))
    (line : SubjectLine) :
  line ∈ item_subjects (itemOf s records) ->
  exists rec, rec ∈ records
              /\ exists sub, snd rec = Some sub /\ line_name line = sub_name sub
                             /\ line_code line = sub_code sub.
Proof.
  unfold itemOf. cbn [item_subjects]. intros H.
  apply list_elem_of_fmap in H as ([id [[sub pct] t]] & -> & He).
  destruct (perSubject_invariant records startTally) as (_ & _ & _ & I4).
  cbv zeta in I4. destruct (I4 id (sub, pct, t) He) as [H0 | (rec & R1 & R2 & _)].
  - apply elem_of_nil in H0. contradiction.
  - exists rec. split; [exact R1|]. exists sub. cbn [fst snd] in *. auto.
Qed.

(** Every entry of the report is the entry of a selected student, built
    from the records the restriction lets through. *)
Lemma report_items (w : World) (ids : option (list ObjectId)) (l : list Student) :
  forall (rep : Report) (b : Band) (i : Item),
    i ∈ filed b (fold_left (placeStudent w ids) l rep) ->
    i ∈ filed b rep
    \/ exists s, s ∈ l
                 /\ i = itemOf s (attendanceOf w (stu_id s) (restriction ids)).
Proof.
  induction l as [|s l IH]; intros rep b i Hi; cbn [fold_left] in Hi; [auto|].
  destruct (IH _ _ _ Hi) as [H | (s' & Hs' & E)].
  - rewrite placeStudent_filed in H. cbv zeta in H.
    destruct (attendanceOf w (stu_id s) (restriction ids)) as [|r rs] eqn:Ea; [auto|].
    destruct (bandOf (percentOf (r :: rs))) as [b'|]; [|auto].
    destruct (band_eqb b b'); [|auto].
    apply elem_of_app in H. destruct H as [H | H]; [auto|].
    apply list_elem_of_singleton in H. right. exists s.
    split; [apply elem_of_cons; auto|]. rewrite Ea. exact H.
  - right. exists s'. split; [apply elem_of_cons; auto | exact E].
Qed.

(** X23. Over a database that answers, a teacher is shown allocated subjects
    only: every subject the defaulters endpoint lists for a teacher, and
    every subject line of the banded report made for a teacher, is a
    subject of an allocation of this teacher. *)
Theorem teacher_sees_allocated_subjects_only (w : World) (user : ObjectId) :
  (forall (thresholdParam : num) (l : list Defaulter),
      getDefaulters (healthy w) thresholdParam true user = Json l ->
      forall d st, d ∈ l -> st ∈ defaulterSubjects d ->
        exists a, a ∈ allocations w /\ alloc_teacherId a = user
                  /\ alloc_subjectId a = sub_id (subject st))
  /\ (forall (f : Filters) (b : Band) (i : Item) (line : SubjectLine),
        i ∈ filed b (defaultersReport w f true user) ->
        line ∈ item_subjects i ->
        exists sub a, sub ∈ subjects w /\ a ∈ allocations w
                      /\ alloc_teacherId a = user /\ alloc_subjectId a = sub_id sub
                      /\ line_name line = sub_name sub /\ line_code line = sub_code sub).
Proof.
  split.
  - intros thresholdParam l. unfold getDefaulters. cbn [healthy findAllocations bind].
    destruct (map alloc_subjectId
                (filter (fun a => Nat.eqb (alloc_teacherId a) user = true)
                        (allocations w))) as [|x ids] eqn:Ei.
    { intros [= <-] d st Hd. apply elem_of_nil in Hd. contradiction. }
    destruct (checkDefaulters_scoped w (or_else thresholdParam (Fin 75)) (x :: ids))
      as (l' & Hl' & Hs).
    rewrite Hl'. intros [= <-] d st Hd Hst.
    apply (allocated_subject w user). rewrite Ei. apply (Hs d st Hd Hst).
  - intros f b i line Hi Hline. unfold defaultersReport in Hi.
    destruct (map alloc_subjectId
                (filter (fun a => Nat.eqb (alloc_teacherId a) user = true)
                        (allocations w))) as [|x ids] eqn:Ei.
    { destruct b; apply elem_of_nil in Hi; contradiction. }
    apply report_items in Hi. destruct Hi as [Hi | (s & _ & ->)].
    { destruct b; apply elem_of_nil in Hi; contradiction. }
    destruct (subject_lines_of s (attendanceOf w (stu_id s)
                                    (restriction (Some (x :: ids)))) line Hline)
      as (rec & Hrec & sub & Hsub & Hn & Hc).
    pose proof (restricted_records w (stu_id s) x ids rec Hrec) as Hin.
    unfold attendanceOf in Hrec. apply list_elem_of_fmap in Hrec as (r & -> & _).
    destruct (populated_subject w r sub Hsub) as [Hid Hsw].
    cbn [populate fst] in Hin. rewrite <- Hid, <- Ei in Hin.
    destruct (allocated_subject w user _ Hin) as (a & A1 & A2 & A3).
    exists sub, a. repeat apply conj; assumption.
Qed.

End TeacherScope.

Section StudentStats.
Import JS Db SubjectLines StudentRoute.

Lemma statKey_eqb_eq (a b : StatKey) : statKey_eqb a b = true <-> a = b.
Proof.
  destruct a as [i k], b as [j l]. unfold statKey_eqb. cbn [fst snd].
  rewrite andb_true_iff, Nat.eqb_eq, kind_eqb_eq. split; [intros [-> ->] | intros [= -> ->]]; auto.
Qed.

Lemma newest_keys (key : StatKey) (entry : Stat * nat)
    (m : list (StatKey * (Stat * nat))) :
  (exists e, (key, e) ∈ newest key entry m /\ snd entry <= snd e)
  /\ (forall k e, (k, e) ∈ newest key entry m -> (k = key /\ e = entry) \/ (k, e) ∈ m)
  /\ (forall k e, (k, e) ∈ m ->
        exists e', (k, e') ∈ newest key entry m /\ snd e <= snd e')
  /\ (NoDup (map fst m) -> NoDup (map fst (newest key entry m)))
  /\ (forall k, k ∈ map fst (newest key entry m) -> k = key \/ k ∈ map fst m).
Proof.
  induction m as [|[k0 cur] r (I1 & I2 & I3 & I4 & I5)]; cbn [newest].
  - repeat apply conj.
    + exists entry. split; [apply list_elem_of_singleton; reflexivity | lia].
    + intros k e H. apply list_elem_of_singleton in H. injection H as -> ->. auto.
    + intros k e H. apply elem_of_nil in H. contradiction.
    + intros _. cbn. apply NoDup_singleton.
    + intros k H. cbn in H. apply list_elem_of_singleton in H. auto.
  - destruct (statKey_eqb k0 key) eqn:E.
    + apply statKey_eqb_eq in E. subst k0.
      destruct (Nat.ltb (snd cur) (snd entry)) eqn:L.
      * apply Nat.ltb_lt in L. repeat apply conj.
        -- exists entry. split; [apply elem_of_cons; auto | lia].
        -- intros k e H. apply elem_of_cons in H. destruct H as [H | H].
           ++ injection H as -> ->. auto.
           ++ right. apply elem_of_cons. auto.
        -- intros k e H. apply elem_of_cons in H. destruct H as [H | H].
           ++ injection H as -> ->. exists entry.
              split; [apply elem_of_cons; auto | lia].
           ++ exists e. split; [apply elem_of_cons; auto | lia].
        -- intros H. exact H.
        -- intros k H. right. exact H.
      * apply Nat.ltb_ge in L. repeat apply conj.
        -- exists cur. split; [apply elem_of_cons; auto | exact L].
        -- intros k e H. right. exact H.
        -- intros k e H. exists e. split; [exact H | lia].
        -- intros H. exact H.
        -- intros k H. right. exact H.
    + repeat apply conj.
      * destruct I1 as (e & H1 & H2). exists e.
        split; [apply elem_of_cons; auto | exact H2].
      * intros k e H. apply elem_of_cons in H. destruct H as [H | H].
        -- right. rewrite H. apply elem_of_cons. auto.
        -- destruct (I2 k e H) as [H' | H']; [auto|]. right. apply elem_of_cons. auto.
      * intros k e H. apply elem_of_cons in H. destruct H as [H | H].
        -- exists e. split; [rewrite H; apply elem_of_cons; auto | lia].
        -- destruct (I3 k e H) as (e' & H1 & H2).
           exists e'. split; [apply elem_of_cons; auto | exact H2].
      * cbn [map fst]. intros H. apply NoDup_cons in H as [Hn Hd].
        apply NoDup_cons. split; [|apply I4, Hd].
        intros Hin. destruct (I5 _ Hin) as [-> | Hin']; [|auto].
        assert (Ht : statKey_eqb key key = true) by (apply statKey_eqb_eq; reflexivity).
        congruence.
      * cbn [map fst]. intros k H. apply elem_of_cons in H. destruct H as [-> | H].
        -- right. apply elem_of_cons. auto.
        -- destruct (I5 k H) as [H' | H']; [auto|]. right. apply elem_of_cons. auto.
Qed.

Lemma statsTable_invariant (attendance : list (Attendance * option Subject)) :
  forall m : list (StatKey * (Stat * nat)),
    let out := fold_left statStep attendance m in
    (NoDup (map fst m) -> NoDup (map fst out))
    /\ (forall rec sub, rec ∈ attendance -> snd rec = Some sub ->
          exists e, ((sub_id sub, att_type (fst rec)), e) ∈ out
                    /\ updatedAt (fst rec) <= snd e)
    /\ (forall k e, (k, e) ∈ m -> exists e', (k, e') ∈ out /\ snd e <= snd e')
    /\ (forall k e, (k, e) ∈ out ->
          (k, e) ∈ m
          \/ exists rec sub, rec ∈ attendance /\ snd rec = Some sub
                             /\ k = (sub_id sub, att_type (fst rec))
                             /\ e = (statOf sub (fst rec), updatedAt (fst rec))).
Proof.
  induction attendance as [|rec rest IH]; intros m; cbv zeta; cbn [fold_left].
  - split; [auto|]. split; [|split].
    + intros r sub H. apply elem_of_nil in H. contradiction.
    + intros k e H. exists e. split; [exact H | lia].
    + intros k e H. auto.
  - specialize (IH (statStep m rec)). cbv zeta in IH.
    destruct (snd rec) as [sub|] eqn:Es.
    + assert (E : statStep m rec
                  = newest (sub_id sub, att_type (fst rec))
                      (statOf sub (fst rec), updatedAt (fst rec)) m)
        by (unfold statStep; rewrite Es; reflexivity).
      rewrite E in *. clear E. destruct IH as (I1 & I2 & I3 & I4).
      destruct (newest_keys (sub_id sub, att_type (fst rec))
                  (statOf sub (fst rec), updatedAt (fst rec)) m)
        as (L1 & L2 & L3 & L4 & _).
      split; [intros H; apply I1, L4, H|]. split; [|split].
      * intros r s Hr Hs. apply elem_of_cons in Hr. destruct Hr as [-> | Hr];
          [|apply (I2 r s Hr Hs)].
        rewrite Es in Hs. injection Hs as <-.
        destruct L1 as (e & H1 & H2). destruct (I3 _ _ H1) as (e' & H3 & H4).
        exists e'. split; [exact H3|]. cbn [snd] in H2. lia.
      * intros k e H. destruct (L3 k e H) as (e1 & H1 & H2).
        destruct (I3 _ _ H1) as (e2 & H3 & H4). exists e2. split; [exact H3 | lia].
      * intros k e H. destruct (I4 k e H) as [H' | (r & s & R1 & R2)].
        -- destruct (L2 k e H') as [[-> ->] | H'']; [|auto].
           right. exists rec, sub. split; [apply elem_of_cons; auto | auto].
        -- right. exists r, s. split; [apply elem_of_cons; auto | exact R2].
    + assert (E : statStep m rec = m) by (unfold statStep; rewrite Es; reflexivity).
      rewrite E in *. clear E. destruct IH as (I1 & I2 & I3 & I4).
      split; [exact I1|]. split; [|split].
      * intros r s Hr Hs. apply elem_of_cons in Hr. destruct Hr as [-> | Hr];
          [congruence | apply (I2 r s Hr Hs)].
      * exact I3.
      * intros k e H. destruct (I4 k e H) as [H' | (r & s & R1 & R2)]; [auto|].
        right. exists r, s. split; [apply elem_of_cons; auto | exact R2].
Qed.

Lemma unique_key {K V : Type} (l : list (K * V)) (k : K) (a b : V) :
  NoDup (map fst l) -> (k, a) ∈ l -> (k, b) ∈ l -> a = b.
Proof.
  induction l as [|[k0 v0] l IH]; intros Hn Ha Hb.
  - apply elem_of_nil in Ha. contradiction.
  - cbn [map fst] in Hn. apply NoDup_cons in Hn as [Hx Hn].
    assert (Hk : forall v, (k0, v) ∈ l -> False).
    { intros v Hv. apply Hx. apply list_elem_of_fmap. exists (k0, v). auto. }
    apply elem_of_cons in Ha. apply elem_of_cons in Hb.
    destruct Ha as [Ha | Ha], Hb as [Hb | Hb].
    + congruence.
    + injection Ha as -> ->. destruct (Hk _ Hb).
    + injection Hb as -> ->. destruct (Hk _ Ha).
    + exact (IH Hn Ha Hb).
Qed.

(** X24. The subject statistics of a student, whatever the order of the
    records: no two entries have the same subject and kind; every record
    whose subject is still in the catalogue has an entry for its subject and
    kind; and every entry is built from a record of the list (its totals,
    its percentage or attended over conducted, its period, division and
    batch) that no other record of this subject and kind is newer than. *)
Theorem student_stats_latest (attendance : list (Attendance * option Subject)) :
  NoDup (map keyOfStat (subjectStats attendance))
  /\ (forall rec sub, rec ∈ attendance -> snd rec = Some sub ->
        exists stat, stat ∈ subjectStats attendance
                     /\ keyOfStat stat = (sub_id sub, att_type (fst rec)))
  /\ (forall stat, stat ∈ subjectStats attendance ->
        exists rec sub,
          rec ∈ attendance /\ snd rec = Some sub /\ stat = statOf sub (fst rec)
          /\ forall rec' sub',
               rec' ∈ attendance -> snd rec' = Some sub' ->
               sub_id sub' = sub_id sub -> att_type (fst rec') = att_type (fst rec) ->
               updatedAt (fst rec') <= updatedAt (fst rec)).
Proof.
  destruct (statsTable_invariant attendance []) as (I1 & I2 & _ & I4). cbv zeta in *.
  fold (statsTable attendance) in I1, I2, I4.
  assert (Hn : NoDup (map fst (statsTable attendance))) by (apply I1; constructor).
  assert (I5 : forall k e, (k, e) ∈ statsTable attendance ->
             exists rec sub, rec ∈ attendance /\ snd rec = Some sub
                             /\ k = (sub_id sub, att_type (fst rec))
                             /\ e = (statOf sub (fst rec), updatedAt (fst rec))).
  { intros k e H. destruct (I4 k e H) as [H0 | H0]; [|exact H0].
    apply elem_of_nil in H0. contradiction. }
  assert (Hk : map keyOfStat (subjectStats attendance) = map fst (statsTable attendance)).
  { unfold subjectStats. rewrite map_map. apply map_ext_in. intros [k e] Hin.
    apply list_elem_of_In in Hin. destruct (I5 k e Hin) as (rec & sub & _ & _ & -> & ->).
    reflexivity. }
  split; [rewrite Hk; exact Hn|]. split.
  - intros rec sub Hr Hs. destruct (I2 rec sub Hr Hs) as (e & H1 & _).
    exists (fst e). split.
    + unfold subjectStats. apply list_elem_of_fmap.
      exists ((sub_id sub, att_type (fst rec)), e). split; [reflexivity | exact H1].
    + destruct (I5 _ _ H1) as (r & s & _ & _ & Hkey & ->). cbn [fst].
      unfold keyOfStat, statOf. cbn [stat_subject stat_type]. symmetry. exact Hkey.
  - intros stat Hin. unfold subjectStats in Hin. apply list_elem_of_fmap in Hin.
    destruct Hin as ([k e] & -> & Hin). cbn [fst snd].
    destruct (I5 k e Hin) as (rec & sub & R1 & R2 & -> & ->).
    exists rec, sub. split; [exact R1|]. split; [exact R2|]. split; [reflexivity|].
    intros rec' sub' Q1 Q2 Q3 Q4. destruct (I2 rec' sub' Q1 Q2) as (e' & H1 & H2).
    rewrite Q3, Q4 in H1.
    rewrite <- (unique_key _ _ _ _ Hn Hin H1) in H2. exact H2.
Qed.

End StudentStats.

Section SyncBody.
Import Db Outcome AllocationSync.

Lemma insertId_perm (x : ObjectId) (l : list ObjectId) :
  Permutation (insertId x l) (x :: l).
Proof.
  induction l as [|y r IH]; cbn [insertId]; [reflexivity|].
  destruct (Nat.leb x y); [reflexivity|].
  rewrite IH. apply perm_swap.
Qed.

Lemma sortIds_perm (l : list ObjectId) : Permutation (sortIds l) l.
Proof.
  induction l as [|x r IH]; cbn [sortIds fold_right]; [reflexivity|].
  fold (sortIds r). rewrite insertId_perm, IH. reflexivity.
Qed.

Lemma insertId_comm (x y : ObjectId) (l : list ObjectId) :
  insertId x (insertId y l) = insertId y (insertId x l).
Proof.
  induction l as [|z r IH]; cbn [insertId].
  - destruct (Nat.leb x y) eqn:E1, (Nat.leb y x) eqn:E2; try reflexivity.
    + apply Nat.leb_le in E1, E2. assert (x = y) by lia. subst. reflexivity.
    + apply Nat.leb_gt in E1, E2. lia.
  - destruct (Nat.leb y z) eqn:Eyz, (Nat.leb x z) eqn:Exz; cbn [insertId];
      rewrite ?Eyz, ?Exz.
    + destruct (Nat.leb x y) eqn:E1, (Nat.leb y x) eqn:E2; try reflexivity.
      * apply Nat.leb_le in E1, E2. assert (x = y) by lia. subst. reflexivity.
      * apply Nat.leb_gt in E1, E2. lia.
    + destruct (Nat.leb x y) eqn:E1; [|reflexivity].
      apply Nat.leb_le in E1, Eyz. apply Nat.leb_gt in Exz. lia.
    + destruct (Nat.leb y x) eqn:E2; [|reflexivity].
      apply Nat.leb_le in E2, Exz. apply Nat.leb_gt in Eyz. lia.
    + rewrite IH. reflexivity.
Qed.

Lemma sortIds_of_perm (a b : list ObjectId) :
  Permutation a b -> sortIds a = sortIds b.
Proof.
  induction 1 as [|x a b H IH|x y a|a b c H1 IH1 H2 IH2];
    cbn [sortIds fold_right]; [reflexivity|..].
  - fold (sortIds a) (sortIds b). rewrite IH. reflexivity.
  - apply insertId_comm.
  - congruence.
Qed.

(** The comparison of line 78 tells whether the two lists hold the same
    ids, each as often, in any order. *)
Lemma needsUpdate_spec (current new : list ObjectId) :
  needsUpdate current new = false <-> Permutation current new.
Proof.
  unfold needsUpdate. rewrite negb_false_iff, bool_decide_eq_true. split.
  - intros H. rewrite <- (sortIds_perm current), H. apply sortIds_perm.
  - apply sortIds_of_perm.
Qed.

Lemma forEachAllocation_map (step : Allocation -> Results -> Allocation * Results)
    (g : Allocation -> Allocation) :
  (forall a res, fst (step a res) = g a) ->
  forall (allocs : list Allocation) (res : Results),
    fst (forEachAllocation step allocs res) = map g allocs.
Proof.
  intros Hg. induction allocs as [|a rest IH]; intros res; cbn [forEachAllocation];
    [reflexivity|].
  pose proof (Hg a res) as Ha. destruct (step a res) as [a' res'].
  specialize (IH res'). destruct (forEachAllocation step rest res') as [rest' res''].
  cbn [fst map] in *. congruence.
Qed.

Lemma workerStep_allocation (f : Faults) (students : list Student) (a : Allocation)
    (res : Results) :
  fst (workerStep f students a res) = fst (workerStep f students a (startResults [])).
Proof.
  unfold workerStep. destruct (studentQuery a) as [q|m]; [|reflexivity].
  destruct (studentsReject f q); [reflexivity|].
  destruct (needsUpdate _ _); [|reflexivity].
  destruct (saveRejects f (alloc_id a)); reflexivity.
Qed.

Lemma routeStep_allocation (f : Faults) (students : list Student) (a : Allocation)
    (res : Results) :
  fst (routeStep f students a res) = fst (routeStep f students a (startResults [])).
Proof.
  unfold routeStep. destruct (studentQuery a) as [q|m]; [|reflexivity].
  destruct (studentsReject f q); [reflexivity|].
  destruct (saveRejects f (alloc_id a)); reflexivity.
Qed.

Lemma studentQuery_withStudents (ids : list ObjectId) (a : Allocation) :
  studentQuery (withStudents ids a) = studentQuery a.
Proof. reflexivity. Qed.

(** What the worker's step leaves of an allocation, with no query
    rejecting. *)
Lemma workerStep_members (students : list Student) (a : Allocation) (res : Results) :
  let a' := fst (workerStep noFaults students a res) in
  withStudents [] a' = withStudents [] a
  /\ match studentQuery a with
     | inl q =>
         Permutation (alloc_students a') (matchingStudents q students)
         /\ (Permutation (alloc_students a) (matchingStudents q students) -> a' = a)
         /\ (~ Permutation (alloc_students a) (matchingStudents q students) ->
             alloc_students a' = matchingStudents q students)
     | inr _ => a' = a
     end.
Proof.
  cbv zeta. unfold workerStep. destruct (studentQuery a) as [q|m]; [|auto].
  cbn [noFaults studentsReject saveRejects].
  destruct (needsUpdate (alloc_students a) (matchingStudents q students)) eqn:E.
  - cbn [fst]. split; [reflexivity|]. split; [reflexivity|]. split; [|reflexivity].
    intros H. apply needsUpdate_spec in H. congruence.
  - apply needsUpdate_spec in E. cbn [fst]. split; [reflexivity|].
    split; [exact E|]. split; [reflexivity | contradiction].
Qed.

Lemma workerStep_fst (students : list Student) (a : Allocation) (res : Results) :
  fst (workerStep noFaults students a res)
  = match studentQuery a with
    | inl q =>
        if needsUpdate (alloc_students a) (matchingStudents q students)
        then withStudents (matchingStudents q students) a
        else a
    | inr _ => a
    end.
Proof.
  unfold workerStep. destruct (studentQuery a) as [q|m]; [|reflexivity].
  cbn [noFaults studentsReject saveRejects].
  destruct (needsUpdate _ _); reflexivity.
Qed.

(** A second step finds nothing to do. *)
Lemma workerStep_settled (students : list Student) (a : Allocation)
    (res res' : Results) :
  let a' := fst (workerStep noFaults students a res) in
  workerStep noFaults students a' res'
  = (a', match studentQuery a with
         | inl _ => res'
         | inr message => pushError a message res'
         end).
Proof.
  cbv zeta. rewrite workerStep_fst. destruct (studentQuery a) as [q|m] eqn:Q.
  - destruct (needsUpdate (alloc_students a) (matchingStudents q students)) eqn:E.
    + unfold workerStep. rewrite studentQuery_withStudents, Q.
      cbn [noFaults studentsReject saveRejects withStudents alloc_students].
      assert (H : needsUpdate (matchingStudents q students)
                    (matchingStudents q students) = false)
        by (apply needsUpdate_spec; reflexivity).
      rewrite H. reflexivity.
    + unfold workerStep. rewrite Q. cbn [noFaults studentsReject saveRejects].
      rewrite E. reflexivity.
  - unfold workerStep. rewrite Q. reflexivity.
Qed.

Lemma workerStep_errors (students : list Student) (a : Allocation) (res : Results) :
  snd (workerStep noFaults students a res)
  = match studentQuery a with
    | inl q =>
        if needsUpdate (alloc_students a) (matchingStudents q students)
        then countUpdate (matchingStudents q students) res
        else res
    | inr message => pushError a message res
    end.
Proof.
  unfold workerStep. destruct (studentQuery a) as [q|m]; [|reflexivity].
  cbn [noFaults studentsReject saveRejects].
  destruct (needsUpdate _ _); reflexivity.
Qed.

Lemma worker_rerun (students : list Student) (allocs : list Allocation) :
  forall res1 res2 : Results,
    let out1 := forEachAllocation (workerStep noFaults students) allocs res1 in
    let out2 := forEachAllocation (workerStep noFaults students) (fst out1) res2 in
    fst out2 = fst out1
    /\ updatedAllocations (snd out2) = updatedAllocations res2
    /\ totalStudentsAdded (snd out2) = totalStudentsAdded res2
    /\ totalAllocations (snd out2) = totalAllocations res2
    /\ (forall tail,
          sync_errors res1 ++ tail = sync_errors (snd out1) ->
          sync_errors (snd out2) = sync_errors res2 ++ tail).
Proof.
  induction allocs as [|a rest IH]; intros res1 res2; cbv zeta.
  - cbn [forEachAllocation fst snd]. repeat apply conj; try reflexivity.
    intros tail H. rewrite <- (app_nil_r (sync_errors res1)) in H at 2.
    apply app_inv_head in H. subst. rewrite app_nil_r. reflexivity.
  - cbn [forEachAllocation].
    pose proof (workerStep_settled students a res1 res2) as Hs. cbv zeta in Hs.
    pose proof (workerStep_errors students a res1) as He.
    destruct (workerStep noFaults students a res1) as [a' r1].
    cbn [fst snd] in Hs, He.
    specialize (IH r1). cbv zeta in IH.
    destruct (forEachAllocation (workerStep noFaults students) rest r1)
      as [rest' r1'] eqn:E1.
    cbn [fst snd forEachAllocation] in *. rewrite Hs.
    match goal with
    | |- context [forEachAllocation _ rest' ?r] => specialize (IH r)
    end.
    destruct (forEachAllocation (workerStep noFaults students) rest' _)
      as [rest'' r2'].
    cbn [fst snd] in *. destruct IH as (I1 & I2 & I3 & I4 & I5).
    destruct (studentQuery a) as [q|m].
    + repeat apply conj; try congruence.
      intros tail H. apply I5. rewrite <- H. f_equal. subst r1.
      destruct (needsUpdate _ _); reflexivity.
    + subst r1. cbn [pushError updatedAllocations totalStudentsAdded
                      totalAllocations sync_errors] in *.
      repeat apply conj; try congruence.
      intros tail H.
      assert (Hle : exists t, sync_errors r1' =
                      (sync_errors res1
                       ++ [{| se_allocationId := alloc_id a; se_error := m |}]) ++ t).
      { clear -E1.
        assert (G : forall l r, exists t,
                   sync_errors (snd (forEachAllocation (workerStep noFaults students) l r))
                   = sync_errors r ++ t).
        { induction l as [|x l IHl]; intros r; cbn [forEachAllocation].
          - exists []. cbn. rewrite app_nil_r. reflexivity.
          - pose proof (workerStep_errors students x r) as Hx.
            destruct (workerStep noFaults students x r) as [x' rx]. cbn [snd] in Hx.
            destruct (IHl rx) as [t Ht].
            destruct (forEachAllocation _ l rx) as [l' rl]. cbn [snd] in *.
            rewrite Ht, Hx. destruct (studentQuery x) as [q|mx].
            + destruct (needsUpdate _ _); eauto.
            + cbn [pushError sync_errors]. rewrite <- app_assoc. eauto. }
        specialize (G rest (pushError a m res1)). rewrite E1 in G. exact G. }
      destruct Hle as [t Ht]. rewrite Ht, <- !app_assoc in H.
      apply app_inv_head in H. subst tail.
      rewrite (I5 t (eq_sym Ht)). rewrite <- app_assoc. reflexivity.
Qed.

(** X25. With no query failing, a second run of the worker's sync right after
    a first one changes nothing: it updates no allocation, adds no student,
    leaves the database as the first run left it and reports the errors the
    first run reported. *)
Theorem worker_sync_settles (w : World) :
  let w1 := fst (syncAllocationStudents noFaults w) in
  exists res1 res2 : Results,
    snd (syncAllocationStudents noFaults w) = Return res1
    /\ syncAllocationStudents noFaults w1 = (w1, Return res2)
    /\ updatedAllocations res2 = 0
    /\ totalStudentsAdded res2 = 0
    /\ totalAllocations res2 = totalAllocations res1
    /\ sync_errors res2 = sync_errors res1.
Proof.
  cbv zeta. unfold syncAllocationStudents. cbn [noFaults allocationsReject].
  pose proof (worker_rerun (Db.students w) (allocations w)
                (startResults (allocations w))) as H.
  cbv zeta in H.
  destruct (forEachAllocation (workerStep noFaults (Db.students w)) (allocations w)
              (startResults (allocations w))) as [allocs res1] eqn:E1.
  cbn [fst snd withAllocations allocations Db.students] in *.
  specialize (H (startResults allocs)).
  destruct (forEachAllocation (workerStep noFaults (Db.students w)) allocs
              (startResults allocs)) as [allocs2 res2].
  cbn [fst snd] in H. destruct H as (H1 & H2 & H3 & H4 & H5).
  exists res1, res2. subst allocs2.
  assert (Ht : totalAllocations res1 = List.length (allocations w)
               /\ List.length allocs = List.length (allocations w)).
  { clear -E1.
    assert (G : forall l r,
               totalAllocations (snd (forEachAllocation
                                        (workerStep noFaults (Db.students w)) l r))
               = totalAllocations r
               /\ List.length (fst (forEachAllocation
                                      (workerStep noFaults (Db.students w)) l r))
                  = List.length l).
    { induction l as [|x l IHl]; intros r; cbn [forEachAllocation]; [auto|].
      pose proof (workerStep_errors (Db.students w) x r) as Hx.
      destruct (workerStep noFaults (Db.students w) x r) as [x' rx]. cbn [snd] in Hx.
      destruct (IHl rx) as [T L].
      destruct (forEachAllocation _ l rx) as [l' rl]. cbn [fst snd List.length] in *.
      split; [|congruence]. rewrite T, Hx.
      destruct (studentQuery x); [destruct (needsUpdate _ _)|]; reflexivity. }
    destruct (G (allocations w) (startResults (allocations w))) as [T L].
    rewrite E1 in T, L. auto. }
  destruct Ht as [T L].
  repeat apply conj; try reflexivity; try assumption.
  - rewrite H4, T. exact L.
  - apply (H5 (sync_errors res1)). reflexivity.
Qed.

(** X26. With no query failing, the worker's sync changes nothing but the
    students of allocations.  Afterwards an allocation with a division (and,
    for Practical, a batch) holds the students its query matches, up to
    order: it is left as it was when it held them already, and is given the
    matching students otherwise; an allocation without a division or batch
    is left as it was. *)
Theorem worker_sync_members (w : World) :
  let w1 := fst (syncAllocationStudents noFaults w) in
  attendances w1 = attendances w
  /\ Db.students w1 = Db.students w
  /\ subjects w1 = subjects w
  /\ Forall2
       (fun a a' =>
          withStudents [] a' = withStudents [] a
          /\ match studentQuery a with
             | inl q =>
                 Permutation (alloc_students a') (matchingStudents q (Db.students w))
                 /\ (Permutation (alloc_students a)
                       (matchingStudents q (Db.students w)) -> a' = a)
                 /\ (~ Permutation (alloc_students a)
                         (matchingStudents q (Db.students w)) ->
                     alloc_students a' = matchingStudents q (Db.students w))
             | inr _ => a' = a
             end)
       (allocations w) (allocations w1).
Proof.
  cbv zeta. unfold syncAllocationStudents. cbn [noFaults allocationsReject].
  pose proof (forEachAllocation_map (workerStep noFaults (Db.students w))
                (fun a => fst (workerStep noFaults (Db.students w) a (startResults [])))
                (fun a res => workerStep_allocation noFaults (Db.students w) a res)
                (allocations w) (startResults (allocations w))) as Hm.
  destruct (forEachAllocation _ _ _) as [allocs res].
  cbn [fst snd withAllocations attendances Db.students subjects allocations] in *.
  do 3 (split; [reflexivity|]). subst allocs.
  induction (allocations w) as [|a rest IH]; cbn [map]; constructor; [|exact IH].
  apply (workerStep_members (Db.students w) a (startResults [])).
Qed.

Lemma steps_agree (f : Faults) (students : list Student) (a : Allocation) :
  sameMembers (fst (workerStep f students a (startResults [])))
              (fst (routeStep f students a (startResults []))).
Proof.
  assert (R : forall x, sameMembers x x) by (intros x; split; reflexivity).
  unfold workerStep, routeStep. destruct (studentQuery a) as [q|m]; [|apply R].
  destruct (studentsReject f q); [apply R|].
  destruct (needsUpdate _ _) eqn:E.
  - destruct (saveRejects f (alloc_id a)); apply R.
  - apply needsUpdate_spec in E.
    destruct (saveRejects f (alloc_id a)); [apply R|].
    cbn [fst]. split; [reflexivity | exact E].
Qed.

(** X27. Whatever queries fail, the same for both, the admin route and the
    worker's sync leave the same allocations, up to the order of the
    students in each. *)
Theorem route_agrees_with_worker (f : Faults) (w : World) :
  Forall2 sameMembers
    (allocations (fst (syncAllocationStudents f w)))
    (allocations (fst (syncStudentsRoute f w))).
Proof.
  unfold syncAllocationStudents, syncStudentsRoute.
  destruct (allocationsReject f).
  { cbn [fst]. induction (allocations w); constructor; [split; reflexivity | assumption]. }
  pose proof (forEachAllocation_map (workerStep f (Db.students w))
                (fun a => fst (workerStep f (Db.students w) a (startResults [])))
                (fun a res => workerStep_allocation f (Db.students w) a res)
                (allocations w) (startResults (allocations w))) as Hw.
  pose proof (forEachAllocation_map (routeStep f (Db.students w))
                (fun a => fst (routeStep f (Db.students w) a (startResults [])))
                (fun a res => routeStep_allocation f (Db.students w) a res)
                (allocations w) (startResults (allocations w))) as Hr.
  destruct (forEachAllocation (workerStep f (Db.students w)) _ _) as [aw rw].
  destruct (forEachAllocation (routeStep f (Db.students w)) _ _) as [ar rr].
  cbn [fst withAllocations allocations] in *. subst aw ar.
  induction (allocations w) as [|a rest IH]; cbn [map]; constructor; [|exact IH].
  apply steps_agree.
Qed.

Lemma steps_count (f : Faults) (students : list Student) (a : Allocation)
    (rw rr : Results) :
  let rw' := snd (workerStep f students a rw) in
  let rr' := snd (routeStep f students a rr) in
  totalAllocations rw' = totalAllocations rw
  /\ totalAllocations rr' = totalAllocations rr
  /\ updatedAllocations rr' + List.length (sync_errors rr')
     = S (updatedAllocations rr + List.length (sync_errors rr))
  /\ updatedAllocations rw' + List.length (sync_errors rw')
     <= S (updatedAllocations rw + List.length (sync_errors rw))
  /\ updatedAllocations rw' + updatedAllocations rr
     <= updatedAllocations rr' + updatedAllocations rw
  /\ totalStudentsAdded rw' + totalStudentsAdded rr
     <= totalStudentsAdded rr' + totalStudentsAdded rw
  /\ List.length (sync_errors rw') + List.length (sync_errors rr)
     <= List.length (sync_errors rr') + List.length (sync_errors rw).
Proof.
  cbv zeta. unfold workerStep, routeStep.
  assert (P : forall m r, List.length (sync_errors (pushError a m r))
                          = S (List.length (sync_errors r))).
  { intros m r. cbn [pushError sync_errors]. rewrite length_app. cbn. lia. }
  destruct (studentQuery a) as [q|m].
  - destruct (studentsReject f q) as [e|].
    + cbn [snd]. rewrite !P. cbn [pushError updatedAllocations totalStudentsAdded
                                    totalAllocations].
      repeat apply conj; auto; lia.
    + destruct (saveRejects f (alloc_id a)) as [e|]; destruct (needsUpdate _ _);
        cbn [snd]; rewrite ?P;
        cbn [pushError countUpdate updatedAllocations totalStudentsAdded
               totalAllocations sync_errors];
        repeat apply conj; auto; lia.
  - cbn [snd]. rewrite !P. cbn [pushError updatedAllocations totalStudentsAdded
                                  totalAllocations].
    repeat apply conj; auto; lia.
Qed.

Lemma loops_count (f : Faults) (students : list Student) (allocs : list Allocation) :
  forall rw rr : Results,
    let rw' := snd (forEachAllocation (workerStep f students) allocs rw) in
    let rr' := snd (forEachAllocation (routeStep f students) allocs rr) in
    totalAllocations rw' = totalAllocations rw
    /\ totalAllocations rr' = totalAllocations rr
    /\ updatedAllocations rr' + List.length (sync_errors rr')
       = List.length allocs + (updatedAllocations rr + List.length (sync_errors rr))
    /\ updatedAllocations rw' + List.length (sync_errors rw')
       <= List.length allocs + (updatedAllocations rw + List.length (sync_errors rw))
    /\ updatedAllocations rw' + updatedAllocations rr
       <= updatedAllocations rr' + updatedAllocations rw
    /\ totalStudentsAdded rw' + totalStudentsAdded rr
       <= totalStudentsAdded rr' + totalStudentsAdded rw
    /\ List.length (sync_errors rw') + List.length (sync_errors rr)
       <= List.length (sync_errors rr') + List.length (sync_errors rw).
Proof.
  induction allocs as [|a rest IH]; intros rw rr; cbv zeta.
  - cbn [forEachAllocation snd List.length]. repeat apply conj; lia.
  - cbn [forEachAllocation].
    pose proof (steps_count f students a rw rr) as Hs. cbv zeta in Hs.
    destruct (workerStep f students a rw) as [aw rw1].
    destruct (routeStep f students a rr) as [ar rr1].
    specialize (IH rw1 rr1). cbv zeta in IH.
    destruct (forEachAllocation (workerStep f students) rest rw1) as [restw rw2].
    destruct (forEachAllocation (routeStep f students) rest rr1) as [restr rr2].
    cbn [snd List.length] in *.
    destruct Hs as (S1 & S2 & S3 & S4 & S5 & S6 & S7).
    destruct IH as (I1 & I2 & I3 & I4 & I5 & I6 & I7).
    repeat apply conj; lia.
Qed.

(** X28. The counts of the two syncs.  The route counts every allocation as
    updated or as an error; the worker counts at most every allocation, and
    never more updates, added students or errors than the route.  When the
    read of the allocations fails, neither changes the database, and the
    route answers 500. *)
Theorem sync_counts (f : Faults) (w : World) :
  match snd (syncAllocationStudents f w), snd (snd (syncStudentsRoute f w)) with
  | Return worker, Some route =>
      totalAllocations worker = List.length (allocations w)
      /\ totalAllocations route = List.length (allocations w)
      /\ updatedAllocations route + List.length (sync_errors route)
         = List.length (allocations w)
      /\ updatedAllocations worker + List.length (sync_errors worker)
         <= List.length (allocations w)
      /\ updatedAllocations worker <= updatedAllocations route
      /\ totalStudentsAdded worker <= totalStudentsAdded route
      /\ List.length (sync_errors worker) <= List.length (sync_errors route)
  | Throw _, None =>
      fst (syncAllocationStudents f w) = w /\ syncStudentsRoute f w = (w, (500, None))
  | _, _ => False
  end.
Proof.
  unfold syncAllocationStudents, syncStudentsRoute.
  destruct (allocationsReject f); [cbn; auto|].
  pose proof (loops_count f (Db.students w) (allocations w)
                (startResults (allocations w)) (startResults (allocations w))) as H.
  cbv zeta in H.
  destruct (forEachAllocation (workerStep f (Db.students w)) _ _) as [aw rw].
  destruct (forEachAllocation (routeStep f (Db.students w)) _ _) as [ar rr].
  cbn [snd startResults updatedAllocations totalStudentsAdded totalAllocations
         sync_errors List.length] in *.
  destruct H as (H1 & H2 & H3 & H4 & H5 & H6 & H7).
  repeat apply conj; lia.
Qed.

End SyncBody.

Section WorkerTimer.
Import SyncTimer.

Lemma held_call (c : Call) (t : Timers) : held t -> held (call c t).
Proof.
  unfold held. intros H. destruct c; cbn [call]. 
  - unfold startSyncWorker. destruct (syncInterval t) as [h|] eqn:E.
    + rewrite E. exact H.
    + cbn [syncInterval intervals]. rewrite H. reflexivity.
  - unfold stopSyncWorker. destruct (syncInterval t) as [h|] eqn:E.
    + cbn [syncInterval intervals]. rewrite H.
      rewrite filter_cons. destruct (decide (h <> h)); [congruence | reflexivity].
    + rewrite E. exact H.
Qed.

Lemma held_calls (cs : list Call) : forall t : Timers, held t -> held (calls cs t).
Proof.
  unfold calls. induction cs as [|c cs IH]; intros t H; cbn [fold_left]; [exact H|].
  apply IH, held_call, H.
Qed.

(** X29. After any sequence of [startSyncWorker] and [stopSyncWorker] calls
    at most one interval timer is set; stopping clears it; starting always
    leaves exactly one; starting twice is starting once, and stopping twice
    is stopping once; and a start invokes the sync itself exactly when no
    timer was set. *)
Theorem worker_keeps_one_timer (cs : list Call) :
  let t := calls cs idle in
  List.length (intervals t) <= 1
  /\ intervals (stopSyncWorker t) = []
  /\ startSyncWorker (startSyncWorker t) = startSyncWorker t
  /\ stopSyncWorker (stopSyncWorker t) = stopSyncWorker t
  /\ List.length (intervals (startSyncWorker t)) = 1
  /\ (immediateSyncs (startSyncWorker t) = immediateSyncs t <->
      intervals t <> []).
Proof.
  cbv zeta. pose proof (held_calls cs idle eq_refl) as H. unfold held in H.
  set (t := calls cs idle) in *.
  destruct (syncInterval t) as [h|] eqn:E.
  - assert (Ha : startSyncWorker t = t) by (unfold startSyncWorker; rewrite E; reflexivity).
    assert (Hs : stopSyncWorker t
                 = {| syncInterval := None;
                      intervals := filter (fun x => x <> h) (intervals t);
                      nextHandle := nextHandle t;
                      immediateSyncs := immediateSyncs t |})
      by (unfold stopSyncWorker; rewrite E; reflexivity).
    rewrite !Ha, Hs, H. cbn [intervals]. rewrite filter_cons.
    destruct (decide (h <> h)); [congruence|].
    repeat apply conj; try reflexivity; auto; discriminate.
  - assert (Hs : stopSyncWorker t = t) by (unfold stopSyncWorker; rewrite E; reflexivity).
    assert (Ha : startSyncWorker t
                 = {| syncInterval := Some (nextHandle t);
                      intervals := intervals t ++ [nextHandle t];
                      nextHandle := S (nextHandle t);
                      immediateSyncs := S (immediateSyncs t) |})
      by (unfold startSyncWorker; rewrite E; reflexivity).
    rewrite !Hs, Ha, H. cbn [intervals app List.length immediateSyncs].
    repeat apply conj; try reflexivity; auto.
    + intros Hc. lia.
    + intros Hc. congruence.
Qed.

End WorkerTimer.

